(** * echarts-server: the task lifecycle engine

    A shallow embedding of the task record (class [Task]), the bounded
    task queue (class [TaskQueue], services/TaskQueue.js), the submission
    path of the task manager (class [TaskManager]), the latency statistics
    of the metrics collector (class [MetricsService],
    services/MetricsService.js), the retry loop of the cleanup scheduler
    (class [CleanupService]) and the health endpoint ([App.getSystemHealth],
    app.js), followed by the properties proved about them.

    Embedded further: the manager's handling of a settled rendering, its
    listeners and its cleanup; the queue, storage and HTTP sections of the
    metrics; the retries of the storage client (class [OSSClient]); the
    image formats (class [ImageGenerator]); the chart routes of app.js and
    the synchronous route (legacy/syncHandler.js); and the configuration
    (class [ConfigManager]).

    Conventions of the embedding.
    - JavaScript numbers that the code only ever uses as integers
      (millisecond timestamps, counters, configured bounds) are [Z];
      quotients the code computes with [/] are [Q].  Where the code
      rounds a product up to an integer ([getPercentile]) the product is
      the IEEE 754 double the code computes ([Double]).
    - [new Date()] is the parameter [now] of the operation that reads the
      clock: one synchronous call observes one clock value.
    - A JavaScript [Map] is an insertion-ordered association list with
      unique keys ([JsMap]): the code iterates over its maps, so the order
      is part of the behaviour.
    - A method that can throw returns the state it leaves behind together
      with an [Outcome]; [emit] appends to the history of emitted events,
      most recent first.  Listeners are not part of the queue: they are
      taken not to call back into it synchronously (the manager's listeners
      log, count, or start an asynchronous job).
    - A call to the outside that is awaited (the storage service, the
      canvas, the manager's cleanup as the scheduler sees it) is a
      parameter that says how the call settles.  Where a handler awaits
      a call of the program itself, what has gone on by the time the
      handler does is a parameter as well (the renderings that settled,
      for the generate route; the events of the request body, for the
      synchronous route). *)

From Stdlib Require Import ZArith List String Ascii Bool Lia QArith Qround.
From Stdlib Require Import Sorted Permutation.
From Stdlib Require Import DecimalString.
From Stdlib Require Import SpecFloat.
Import ListNotations.
Local Open Scope Z_scope.

(** ** Outcomes of calls that may throw *)

Inductive Outcome (A : Type) : Type :=
| Returned (a : A)
| Thrown (message : string).
Arguments Returned {A} a.
Arguments Thrown {A} message.

Definition Qlt_bool (x y : Q) : bool := negb (Qle_bool y x).

(** ** JavaScript values, as far as configuration validation inspects them *)

Module Js.

#[warnings="-register-all"]
Inductive value : Type :=
| undefined
| null
| boolean (b : bool)
| number (q : Q)
| NaN
| str (s : string)
| object (props : list (string * value)).

(** ToBoolean. *)
Definition truthy (v : value) : bool :=
  match v with
  | undefined | null | NaN => false
  | boolean b => b
  | number q => negb (Qeq_bool q 0)
  | str s => negb (s =? "")%string
  | object _ => true
  end.

Definition typeof (v : value) : string :=
  match v with
  | undefined => "undefined"
  | null => "object"
  | boolean _ => "boolean"
  | number _ | NaN => "number"
  | str _ => "string"
  | object _ => "object"
  end.

Fixpoint lookup (k : string) (props : list (string * value)) : value :=
  match props with
  | [] => undefined
  | (k', v) :: rest => if (k =? k')%string then v else lookup k rest
  end.

(** Property read [v.k] on a value that is not null or undefined. *)
Definition get (v : value) (k : string) : value :=
  match v with
  | object props => lookup k props
  | _ => undefined
  end.

(** [v <= 0] for a value already known to be a number. *)
Definition le_zero (v : value) : bool :=
  match v with
  | number q => Qle_bool q 0
  | _ => false
  end.

(** [Array.prototype.includes] on an array of strings. *)
Definition includes (l : list string) (v : value) : bool :=
  match v with
  | str s => existsb (String.eqb s) l
  | _ => false
  end.

(** [Array.prototype.join]. *)
Fixpoint join (sep : string) (l : list string) : string :=
  match l with
  | [] => ""
  | [s] => s
  | s :: rest => (s ++ sep ++ join sep rest)%string
  end.

End Js.

(** ** models/Task.js *)

Module Task.

Inductive Status : Type := pending | processing | completed | failed.

Record t : Type := mk {
  taskId : string;
  status : Status;
  config : Js.value;
  imageUrl : option string;
  fileName : option string;
  createdAt : Z;
  startedAt : option Z;
  completedAt : option Z;
  error : option string;
  retryCount : Z
}.

(** The constructor; [uuid] is the value [uuidv4()] returns. *)
Definition new (uuid : string) (cfg : Js.value) (now : Z) : t :=
  mk uuid pending cfg None None now None None None 0.

Definition start (now : Z) (k : t) : t :=
  mk (taskId k) processing (config k) (imageUrl k) (fileName k)
     (createdAt k) (Some now) (completedAt k) (error k) (retryCount k).

Definition complete (url file : option string) (now : Z) (k : t) : t :=
  mk (taskId k) completed (config k) url file
     (createdAt k) (startedAt k) (Some now) None (retryCount k).

Definition fail (reason : string) (now : Z) (k : t) : t :=
  mk (taskId k) failed (config k) (imageUrl k) (fileName k)
     (createdAt k) (startedAt k) (Some now) (Some reason) (retryCount k).

Definition retry (k : t) : t :=
  mk (taskId k) pending (config k) (imageUrl k) (fileName k)
     (createdAt k) (startedAt k) (completedAt k) None (retryCount k + 1).

Definition isTimeout (timeoutSeconds : Z) (now : Z) (k : t) : bool :=
  match status k, startedAt k with
  | processing, Some s =>
      let elapsedSeconds := (inject_Z (now - s) / inject_Z 1000)%Q in
      Qlt_bool (inject_Z timeoutSeconds) elapsedSeconds
  | _, _ => false
  end.

Definition isExpired (retentionDays : Z) (now : Z) (k : t) : bool :=
  let elapsedDays :=
    (inject_Z (now - createdAt k) / inject_Z (1000 * 60 * 60 * 24))%Q in
  Qlt_bool (inject_Z retentionDays) elapsedDays.

Definition getProcessingTime (k : t) : option Z :=
  match startedAt k, completedAt k with
  | Some s, Some c => Some (c - s)
  | _, _ => None
  end.

(** [validateConfig]: the list of error messages, in the order pushed;
    [valid] is [errors.length === 0]. *)
Definition validateConfig (cfg : Js.value) : bool * list string :=
  if negb (Js.truthy cfg) || negb (Js.typeof cfg =? "object")%string then
    (false, ["Config must be an object"%string])
  else
    let option_ := Js.get cfg "option" in
    let width := Js.get cfg "width" in
    let height := Js.get cfg "height" in
    let type := Js.get cfg "type" in
    let e1 :=
      if negb (Js.truthy option_) || negb (Js.typeof option_ =? "object")%string
      then ["Config.option is required and must be an object"%string] else [] in
    let e2 :=
      if Js.truthy width &&
         (negb (Js.typeof width =? "number")%string || Js.le_zero width)
      then ["Config.width must be a positive number"%string] else [] in
    let e3 :=
      if Js.truthy height &&
         (negb (Js.typeof height =? "number")%string || Js.le_zero height)
      then ["Config.height must be a positive number"%string] else [] in
    let e4 :=
      if Js.truthy type &&
         negb (Js.includes ["png"; "jpeg"; "svg"; "pdf"]%string type)
      then ["Config.type must be one of: png, jpeg, svg, pdf"%string] else [] in
    let errors := e1 ++ e2 ++ e3 ++ e4 in
    (match errors with [] => true | _ => false end, errors).

End Task.

(** ** The JavaScript [Map], keyed by task id *)

Module JsMap.

Definition t (V : Type) : Type := list (string * V).

Definition empty {V} : t V := [].

Fixpoint get {V} (k : string) (m : t V) : option V :=
  match m with
  | [] => None
  | (k', v) :: rest => if (k =? k')%string then Some v else get k rest
  end.

Definition has {V} (k : string) (m : t V) : bool :=
  match get k m with Some _ => true | None => false end.

(** [set] keeps the position of a key already present and appends a new
    key at the end of the iteration order. *)
Fixpoint set {V} (k : string) (v : V) (m : t V) : t V :=
  match m with
  | [] => [(k, v)]
  | (k', v') :: rest =>
      if (k =? k')%string then (k, v) :: rest else (k', v') :: set k v rest
  end.

Fixpoint delete {V} (k : string) (m : t V) : t V :=
  match m with
  | [] => []
  | (k', v') :: rest =>
      if (k =? k')%string then delete k rest else (k', v') :: delete k rest
  end.

Definition size {V} (m : t V) : Z := Z.of_nat (List.length m).

Definition keys {V} (m : t V) : list string := map fst m.

Definition values {V} (m : t V) : list V := map snd m.

End JsMap.

(** ** services/TaskQueue.js *)

Module TaskQueue.

Record Options : Type := mkOptions {
  maxConcurrent : Z;
  taskTimeout : Z;
  retryAttempts : Z
}.

(** The options object handed to the constructor: a key may be absent. *)
Record UserOptions : Type := mkUserOptions {
  user_maxConcurrent : option Z;
  user_taskTimeout : option Z;
  user_retryAttempts : option Z
}.

Record Stats : Type := mkStats {
  totalProcessed : Z;
  totalFailed : Z;
  averageProcessingTime : Q;
  processingTimes : list Z
}.

(** The events of the queue, each with the payload handed to listeners. *)
Module Event.
Inductive t : Type :=
| taskEnqueued (k : Task.t)
| taskStarted (k : Task.t)
| taskCompleted (k : Task.t)
| taskFailed (k : Task.t)
| taskRetry (k : Task.t)
| taskTimeout (k : option Task.t)
| tasksCleanedUp (ks : list Task.t)
| queuePaused
| queueResumed
| queueCleared.
End Event.

Record t : Type := mk {
  options : Options;
  pendingQueue : list Task.t;
  processingTasks : JsMap.t Task.t;
  completedTasks : JsMap.t Task.t;
  stats : Stats;
  timeoutCheckInterval : bool;   (* is the 30 s sweep timer armed *)
  emitted : list Event.t           (* history of [emit], most recent first *)
}.

Definition set_pendingQueue (p : list Task.t) (q : t) : t :=
  mk (options q) p (processingTasks q) (completedTasks q) (stats q)
     (timeoutCheckInterval q) (emitted q).

Definition set_processingTasks (m : JsMap.t Task.t) (q : t) : t :=
  mk (options q) (pendingQueue q) m (completedTasks q) (stats q)
     (timeoutCheckInterval q) (emitted q).

Definition set_completedTasks (m : JsMap.t Task.t) (q : t) : t :=
  mk (options q) (pendingQueue q) (processingTasks q) m (stats q)
     (timeoutCheckInterval q) (emitted q).

Definition set_stats (s : Stats) (q : t) : t :=
  mk (options q) (pendingQueue q) (processingTasks q) (completedTasks q) s
     (timeoutCheckInterval q) (emitted q).

Definition set_timeoutCheckInterval (b : bool) (q : t) : t :=
  mk (options q) (pendingQueue q) (processingTasks q) (completedTasks q)
     (stats q) b (emitted q).

Definition emit (e : Event.t) (q : t) : t :=
  mk (options q) (pendingQueue q) (processingTasks q) (completedTasks q)
     (stats q) (timeoutCheckInterval q) (e :: emitted q).

Definition initialStats : Stats := mkStats 0 0 0%Q [].

Definition startTimeoutChecker (q : t) : t :=
  if timeoutCheckInterval q then q else set_timeoutCheckInterval true q.

Definition stopTimeoutChecker (q : t) : t :=
  if timeoutCheckInterval q then set_timeoutCheckInterval false q else q.

(** [{ maxConcurrent: options.maxConcurrent || 10, ..., ...options }]: the
    spread lets a key that is present win, whatever its value. *)
Definition new (o : UserOptions) : t :=
  let opts :=
    mkOptions
      (match user_maxConcurrent o with Some v => v | None => 10 end)
      (match user_taskTimeout o with Some v => v | None => 300 end)
      (match user_retryAttempts o with Some v => v | None => 3 end) in
  startTimeoutChecker (mk opts [] JsMap.empty JsMap.empty initialStats false []).

Definition startProcessing (now : Z) (task : Task.t) (q : t) : t :=
  let task' := Task.start now task in
  let q1 :=
    set_processingTasks
      (JsMap.set (Task.taskId task') task' (processingTasks q)) q in
  emit (Event.taskStarted task') q1.

Definition processNext (now : Z) (q : t) : t :=
  if JsMap.size (processingTasks q) >=? maxConcurrent (options q) then q
  else
    match pendingQueue q with
    | [] => q
    | task :: rest => startProcessing now task (set_pendingQueue rest q)
    end.

Definition sum (l : list Z) : Z := fold_left Z.add l 0.

Definition updateStats (task : Task.t) (q : t) : t :=
  let s := stats q in
  let processed := totalProcessed s + 1 in
  match Task.getProcessingTime task with
  | None =>
      set_stats
        (mkStats processed (totalFailed s) (averageProcessingTime s)
                 (processingTimes s)) q
  | Some processingTime =>
      let pushed := processingTimes s ++ [processingTime] in
      let times :=
        if Z.of_nat (List.length pushed) >? 1000 then tl pushed else pushed in
      let average :=
        (inject_Z (sum times) / inject_Z (Z.of_nat (List.length times)))%Q in
      set_stats (mkStats processed (totalFailed s) average times) q
  end.

Definition notFound (taskId : string) : string :=
  ("Task " ++ taskId ++ " not found in processing queue")%string.

Definition completeTask (taskId : string) (imageUrl fileName : option string)
    (now : Z) (q : t) : t * Outcome unit :=
  match JsMap.get taskId (processingTasks q) with
  | None => (q, Thrown (notFound taskId))
  | Some task =>
      let task' := Task.complete imageUrl fileName now task in
      let q1 := set_processingTasks (JsMap.delete taskId (processingTasks q)) q in
      let q2 := set_completedTasks (JsMap.set taskId task' (completedTasks q1)) q1 in
      let q3 := updateStats task' q2 in
      let q4 := emit (Event.taskCompleted task') q3 in
      (processNext now q4, Returned tt)
  end.

Definition failTask (taskId : string) (reason : string) (now : Z) (q : t)
    : t * Outcome unit :=
  match JsMap.get taskId (processingTasks q) with
  | None => (q, Thrown (notFound taskId))
  | Some task =>
      if Task.retryCount task <? retryAttempts (options q) then
        let task' := Task.retry task in
        let q1 := set_processingTasks (JsMap.delete taskId (processingTasks q)) q in
        let q2 := set_pendingQueue (task' :: pendingQueue q1) q1 in
        let q3 := emit (Event.taskRetry task') q2 in
        (processNext now q3, Returned tt)
      else
        let task' := Task.fail reason now task in
        let q1 := set_processingTasks (JsMap.delete taskId (processingTasks q)) q in
        let q2 := set_completedTasks (JsMap.set taskId task' (completedTasks q1)) q1 in
        let s := stats q2 in
        let q3 :=
          set_stats
            (mkStats (totalProcessed s) (totalFailed s + 1)
                     (averageProcessingTime s) (processingTimes s)) q2 in
        let q4 := emit (Event.taskFailed task') q3 in
        (processNext now q4, Returned tt)
  end.

Definition getTask (taskId : string) (q : t) : option Task.t :=
  if JsMap.has taskId (processingTasks q) then JsMap.get taskId (processingTasks q)
  else if JsMap.has taskId (completedTasks q) then JsMap.get taskId (completedTasks q)
  else find (fun task => (Task.taskId task =? taskId)%string) (pendingQueue q).

Definition hasTask (taskId : string) (q : t) : bool :=
  match getTask taskId q with Some _ => true | None => false end.

(** [enqueue]; [None] is a null or undefined argument. *)
Definition enqueue (task : option Task.t) (now : Z) (q : t) : t * Outcome bool :=
  match task with
  | None => (q, Thrown "Invalid task object")
  | Some task =>
      if (Task.taskId task =? "")%string then (q, Thrown "Invalid task object")
      else if hasTask (Task.taskId task) q then (q, Returned false)
      else
        let q1 := set_pendingQueue (pendingQueue q ++ [task]) q in
        let q2 := emit (Event.taskEnqueued task) q1 in
        (processNext now q2, Returned true)
  end.

Module QueueStatus.
Record t : Type := mk {
  pendingTasks : Z;
  processingTasks : Z;
  completedTasks : Z;
  totalProcessed : Z;
  totalFailed : Z;
  averageProcessingTime : Q;
  maxConcurrent : Z
}.
End QueueStatus.

Definition getQueueStatus (q : t) : QueueStatus.t :=
  QueueStatus.mk
    (Z.of_nat (List.length (pendingQueue q)))
    (JsMap.size (processingTasks q))
    (JsMap.size (completedTasks q))
    (totalProcessed (stats q))
    (totalFailed (stats q))
    (averageProcessingTime (stats q))
    (maxConcurrent (options q)).

(** The loop of [cleanupExpiredTasks] over the entries of the archive. *)
Definition cleanupLoop (retentionDays now : Z) (entries : JsMap.t Task.t)
    (acc : JsMap.t Task.t * list Task.t) : JsMap.t Task.t * list Task.t :=
  fold_left
    (fun acc entry =>
       let '(taskId, task) := entry in
       if Task.isExpired retentionDays now task
       then (JsMap.delete taskId (fst acc), snd acc ++ [task])
       else acc)
    entries acc.

Definition cleanupExpiredTasks (retentionDays : Z) (now : Z) (q : t)
    : t * list Task.t :=
  let '(kept, expiredTasks) :=
    cleanupLoop retentionDays now (completedTasks q) (completedTasks q, []) in
  let q1 := set_completedTasks kept q in
  let q2 :=
    match expiredTasks with
    | [] => q1
    | _ => emit (Event.tasksCleanedUp expiredTasks) q1
    end in
  (q2, expiredTasks).

Definition timeoutReason : string := "Task timeout".

(** The [forEach] of [checkTimeouts]: a throw of [failTask] ends it. *)
Fixpoint failTimedOut (timeoutTasks : list string) (now : Z) (q : t)
    : t * Outcome unit :=
  match timeoutTasks with
  | [] => (q, Returned tt)
  | taskId :: rest =>
      let q1 := emit (Event.taskTimeout (JsMap.get taskId (processingTasks q))) q in
      match failTask taskId timeoutReason now q1 with
      | (q2, Returned _) => failTimedOut rest now q2
      | (q2, Thrown m) => (q2, Thrown m)
      end
  end.

Definition timedOutIds (now : Z) (q : t) : list string :=
  map fst
    (filter (fun entry => Task.isTimeout (taskTimeout (options q)) now (snd entry))
            (processingTasks q)).

Definition checkTimeouts (now : Z) (q : t) : t * Outcome unit :=
  failTimedOut (timedOutIds now q) now q.

Definition pause (q : t) : t :=
  emit Event.queuePaused (stopTimeoutChecker q).

Definition resume (now : Z) (q : t) : t :=
  emit Event.queueResumed (processNext now (startTimeoutChecker q)).

Definition clear (q : t) : t :=
  emit Event.queueCleared
    (mk (options q) [] JsMap.empty JsMap.empty initialStats
        (timeoutCheckInterval q) (emitted q)).

(** *** Sequences of calls

    One entry is a call together with the clock value it observes.  A call
    that throws leaves the queue as it was at the throw; the caller goes on
    with the next call.  [TimerFires] is the 30 s interval: it runs the
    sweep only while the timer is armed. *)

Inductive Call : Type :=
| Enqueue (task : option Task.t)
| ProcessNext
| CompleteTask (taskId : string) (imageUrl fileName : option string)
| FailTask (taskId : string) (reason : string)
| CheckTimeouts
| TimerFires
| CleanupExpiredTasks (retentionDays : Z)
| Pause
| Resume.

Definition step (q : t) (c : Z * Call) : t :=
  let now := fst c in
  match snd c with
  | Enqueue task => fst (enqueue task now q)
  | ProcessNext => processNext now q
  | CompleteTask taskId imageUrl fileName =>
      fst (completeTask taskId imageUrl fileName now q)
  | FailTask taskId reason => fst (failTask taskId reason now q)
  | CheckTimeouts => fst (checkTimeouts now q)
  | TimerFires =>
      if timeoutCheckInterval q then fst (checkTimeouts now q) else q
  | CleanupExpiredTasks retentionDays =>
      fst (cleanupExpiredTasks retentionDays now q)
  | Pause => pause q
  | Resume => resume now q
  end.

Definition run (calls : list (Z * Call)) (q : t) : t :=
  fold_left step calls q.

End TaskQueue.

(** ** JavaScript numbers where rounding matters

    A number is an IEEE 754 binary64 value.  The product and the quotient
    of two numbers are the exact ones rounded to the nearest double, ties
    to even. *)

Module Double.

Definition t : Type := spec_float.

Definition prec : Z := 53.
Definition emax : Z := 1024.

(** The double nearest an integer, which is the integer itself below
    2^53. *)
Definition ofZ (z : Z) : t := binary_normalize prec emax z 0 false.

Definition mul (x y : t) : t := SFmul prec emax x y.

Definition div (x y : t) : t := SFdiv prec emax x y.

(** A decimal literal with the digits [digits] over the power of ten
    [scale], as [0.95] is 95 over 100: the double nearest the fraction,
    which is the quotient of the two integers. *)
Definition decimal (digits scale : Z) : t := div (ofZ digits) (ofZ scale).

(** What [Math.ceil] returns: an integer, unless its argument is infinite
    or not a number. *)
Inductive Rounded : Type :=
| Integer (z : Z)
| PlusInfinity
| MinusInfinity
| NotANumber.

Definition ceil (x : t) : Rounded :=
  match x with
  | S754_zero _ => Integer 0
  | S754_infinity false => PlusInfinity
  | S754_infinity true => MinusInfinity
  | S754_nan => NotANumber
  | S754_finite sign m e =>
      let significand := if sign then Z.neg m else Z.pos m in
      Integer (if 0 <=? e then significand * 2 ^ e
               else - ((- significand) / 2 ^ (- e)))
  end.

End Double.

(** ** services/MetricsService.js: task counters and processing times *)

Module MetricsService.

Record TaskCounters : Type := mkTaskCounters {
  created : Z;
  completed : Z;
  failed : Z;
  retried : Z;
  timeout : Z
}.

(** An array read [a[i]]: [None] is [undefined]. *)
Definition at_ (a : list Z) (i : Z) : option Z :=
  if i <? 0 then None else nth_error a (Z.to_nat i).

Record ProcessingTimes : Type := mkProcessingTimes {
  samples : list Z;
  min : option Z;
  max : option Z;
  avg : Q;
  p50 : option Z;
  p95 : option Z;
  p99 : option Z
}.

Record t : Type := mk {
  tasks : TaskCounters;
  processingTimes : ProcessingTimes
}.

Definition new : t :=
  mk (mkTaskCounters 0 0 0 0 0)
     (mkProcessingTimes [] (Some 0) (Some 0) 0%Q (Some 0) (Some 0) (Some 0)).

(** [[...samples].sort((a, b) => a - b)]: the ascending order of the
    numbers, computed here by insertion. *)
Fixpoint insert (x : Z) (l : list Z) : list Z :=
  match l with
  | [] => [x]
  | y :: rest => if x <=? y then x :: l else y :: insert x rest
  end.

Fixpoint sort (l : list Z) : list Z :=
  match l with
  | [] => []
  | x :: rest => insert x (sort rest)
  end.

(** [getPercentile]: the product [sortedArray.length * percentile] is a
    product of doubles; once [Math.ceil] has made an integer of it the
    index is computed on integers (which is exact below 2^53, and past
    the end of any array above).  [Math.max] turns an index of minus
    infinity into 0; an index that is infinite or not a number reads
    [undefined]. *)
Definition getPercentile (sortedArray : list Z) (percentile : Double.t)
    : option Z :=
  if Z.of_nat (List.length sortedArray) =? 0 then Some 0
  else
    match Double.ceil
            (Double.mul (Double.ofZ (Z.of_nat (List.length sortedArray)))
                        percentile) with
    | Double.Integer rank => at_ sortedArray (Z.max 0 (rank - 1))
    | Double.MinusInfinity => at_ sortedArray 0
    | Double.PlusInfinity | Double.NotANumber => None
    end.

Definition updateProcessingTimeStats (m : t) : t :=
  let samples := samples (processingTimes m) in
  if Z.of_nat (List.length samples) =? 0 then m
  else
    let sorted := sort samples in
    mk (tasks m)
       (mkProcessingTimes samples
          (at_ sorted 0)
          (at_ sorted (Z.of_nat (List.length sorted) - 1))
          (inject_Z (fold_left Z.add samples 0%Z)
             / inject_Z (Z.of_nat (List.length samples)))%Q
          (getPercentile sorted (Double.decimal 5 10))
          (getPercentile sorted (Double.decimal 95 100))
          (getPercentile sorted (Double.decimal 99 100))).

Definition addProcessingTime (time : Z) (m : t) : t :=
  let pt := processingTimes m in
  let pushed := samples pt ++ [time] in
  let kept := if Z.of_nat (List.length pushed) >? 1000 then tl pushed else pushed in
  updateProcessingTimeStats
    (mk (tasks m)
        (mkProcessingTimes kept (min pt) (max pt) (avg pt) (p50 pt) (p95 pt) (p99 pt))).

Definition recordTaskCreated (m : t) : t :=
  let c := tasks m in
  mk (mkTaskCounters (created c + 1) (completed c) (failed c) (retried c) (timeout c))
     (processingTimes m).

Definition recordTaskCompleted (processingTime : option Z) (m : t) : t :=
  let c := tasks m in
  let m1 :=
    mk (mkTaskCounters (created c) (completed c + 1) (failed c) (retried c) (timeout c))
       (processingTimes m) in
  match processingTime with
  | Some time => if (negb (time =? 0)) && (time >? 0) then addProcessingTime time m1 else m1
  | None => m1
  end.

Definition recordTaskFailed (isTimeout : bool) (m : t) : t :=
  let c := tasks m in
  mk (mkTaskCounters (created c) (completed c) (failed c + 1) (retried c)
        (if isTimeout then timeout c + 1 else timeout c))
     (processingTimes m).

Definition recordTaskRetry (m : t) : t :=
  let c := tasks m in
  mk (mkTaskCounters (created c) (completed c) (failed c) (retried c + 1) (timeout c))
     (processingTimes m).

End MetricsService.

(** ** services/TaskManager.js: submission *)

Module TaskManager.

Record t : Type := mk {
  taskQueue : TaskQueue.t;
  metricsService : MetricsService.t
}.

Definition new (o : TaskQueue.UserOptions) : t :=
  mk (TaskQueue.new o) MetricsService.new.

Definition invalidConfig (errors : list string) : string :=
  ("Invalid task config: " ++ Js.join ", " errors)%string.

(** [createTask]; [uuid] is the identifier the [Task] constructor draws.
    The returned task is the object now owned by the queue. *)
Definition createTask (cfg : Js.value) (uuid : string) (now : Z) (m : t)
    : t * Outcome Task.t :=
  let validation := Task.validateConfig cfg in
  if negb (fst validation) then (m, Thrown (invalidConfig (snd validation)))
  else
    let task := Task.new uuid cfg now in
    match TaskQueue.enqueue (Some task) now (taskQueue m) with
    | (q', Thrown message) => (mk q' (metricsService m), Thrown message)
    | (q', Returned false) =>
        (mk q' (metricsService m), Thrown "Failed to enqueue task")
    | (q', Returned true) =>
        (mk q' (MetricsService.recordTaskCreated (metricsService m)),
         Returned (match TaskQueue.getTask uuid q' with
                   | Some k => k
                   | None => task
                   end))
    end.

Definition getStatistics (m : t) : TaskQueue.QueueStatus.t :=
  TaskQueue.getQueueStatus (taskQueue m).

(** The listeners of [bindQueueEvents] that change state: a retry and a
    timeout are counted.  The other listeners only log, and the listener
    of [taskStarted] begins [processTask], which changes nothing before
    its rendering settles.  The timeout listener reads [task.taskId]: it
    throws when the event carries no task. *)
Definition onEvent (e : TaskQueue.Event.t) (metrics : MetricsService.t)
    : MetricsService.t :=
  match e with
  | TaskQueue.Event.taskRetry _ => MetricsService.recordTaskRetry metrics
  | TaskQueue.Event.taskTimeout (Some _) =>
      MetricsService.recordTaskFailed true metrics
  | _ => metrics
  end.

(** The listeners run on the events a queue call emitted, oldest first. *)
Definition deliver (before after : TaskQueue.t) (metrics : MetricsService.t)
    : MetricsService.t :=
  fold_right onEvent metrics
    (firstn (List.length (TaskQueue.emitted after)
             - List.length (TaskQueue.emitted before))
            (TaskQueue.emitted after)).

(** [taskQueue.failTask] as the manager sees it, listeners included. *)
Definition failTask (taskId reason : string) (now : Z) (m : t) : t * Outcome unit :=
  let '(q', result) := TaskQueue.failTask taskId reason now (taskQueue m) in
  (mk q' (deliver (taskQueue m) q' (metricsService m)), result).

(** How the rendering (and upload) that [processTask] awaits settles. *)
Inductive Render : Type :=
| Rendered (imageUrl : string) (fileName : option string)
| RenderFails (message : string).

(** [processTask] from the moment its rendering settles.  The task object
    is the one the queue holds under its id: after [completeTask] its
    processing time is read off the archived record.  A throw inside the
    [catch] block rejects the call. *)
Definition processTask (taskId : string) (render : Render) (now : Z) (m : t)
    : t * Outcome unit :=
  let failed message q :=
    failTask taskId message now
      (mk q (MetricsService.recordTaskFailed false (metricsService m))) in
  match render with
  | Rendered imageUrl fileName =>
      match TaskQueue.completeTask taskId (Some imageUrl) fileName now
                                   (taskQueue m) with
      | (q', Returned _) =>
          let processingTime :=
            match JsMap.get taskId (TaskQueue.completedTasks q') with
            | Some task => Task.getProcessingTime task
            | None => None
            end in
          (mk q' (MetricsService.recordTaskCompleted processingTime
                    (metricsService m)),
           Returned tt)
      | (q', Thrown message) => failed message q'
      end
  | RenderFails message => failed message (taskQueue m)
  end.

(** The sweep of the queue's timer with the manager's listeners bound. *)
Fixpoint failTimedOut (timeoutTasks : list string) (now : Z) (m : t)
    : t * Outcome unit :=
  match timeoutTasks with
  | [] => (m, Returned tt)
  | taskId :: rest =>
      let payload := JsMap.get taskId (TaskQueue.processingTasks (taskQueue m)) in
      let q1 := TaskQueue.emit (TaskQueue.Event.taskTimeout payload) (taskQueue m) in
      match payload with
      | None =>
          (mk q1 (metricsService m),
           Thrown "Cannot read properties of undefined (reading 'taskId')")
      | Some _ =>
          match failTask taskId TaskQueue.timeoutReason now
                         (mk q1 (MetricsService.recordTaskFailed true
                                   (metricsService m))) with
          | (m2, Returned _) => failTimedOut rest now m2
          | (m2, Thrown message) => (m2, Thrown message)
          end
      end
  end.

Definition checkTimeouts (now : Z) (m : t) : t * Outcome unit :=
  failTimedOut (TaskQueue.timedOutIds now (taskQueue m)) now m.

(** What [deleteOSSFilesWithErrorHandling] resolves with, and the pauses
    it made between batches (most recent first). *)
Record Deletions : Type := mkDeletions {
  successful : Z;
  errors : list (string * string);   (* file name and error message *)
  pauses : list Z
}.

(** One batch: [deleteFile name] is how deleting that file settles, [None]
    for success and [Some message] for a rejection.  The deletions of a
    batch run in parallel; they are taken here in the order of the batch. *)
Definition deleteBatch (deleteFile : string -> option string)
    (batch : list string) (result : Deletions) : Deletions :=
  fold_left
    (fun result fileName =>
       match deleteFile fileName with
       | None =>
           mkDeletions (successful result + 1) (errors result) (pauses result)
       | Some message =>
           mkDeletions (successful result)
                       (errors result ++ [(fileName, message)]) (pauses result)
       end)
    batch result.

(** The [for] loop over the batches of 10; [fuel] bounds its iterations. *)
Fixpoint deleteBatches (deleteFile : string -> option string) (fuel : nat)
    (fileNames : list string) (result : Deletions) : Deletions :=
  match fuel, fileNames with
  | O, _ | _, [] => result
  | S fuel', _ =>
      let result1 := deleteBatch deleteFile (firstn 10 fileNames) result in
      let rest := skipn 10 fileNames in
      let result2 :=
        match rest with
        | [] => result1
        | _ => mkDeletions (successful result1) (errors result1)
                           (100 :: pauses result1)
        end in
      deleteBatches deleteFile fuel' rest result2
  end.

Definition deleteOSSFilesWithErrorHandling (deleteFile : string -> option string)
    (fileNames : list string) : Deletions :=
  deleteBatches deleteFile (List.length fileNames) fileNames
                (mkDeletions 0 [] []).

Record Cleanup : Type := mkCleanup {
  cleanedTasks : Z;
  deletedFiles : Z;
  cleanupErrors : list (string * string)
}.

(** [task.fileName && task.status === 'completed'] *)
Definition hasStoredFile (task : Task.t) : bool :=
  match Task.fileName task, Task.status task with
  | Some name, Task.completed => negb (name =? "")%string
  | _, _ => false
  end.

Definition storedFile (task : Task.t) : string :=
  match Task.fileName task with Some name => name | None => "" end.

(** [cleanupExpiredTasks] when nothing inside its [try] block throws;
    [ossClient] is absent or deletes files as described by the function. *)
Definition cleanupExpiredTasks (ossClient : option (string -> option string))
    (retentionDays : Z) (now : Z) (m : t) : t * Cleanup :=
  let '(q', expiredTasks) :=
    TaskQueue.cleanupExpiredTasks retentionDays now (taskQueue m) in
  let cleaned := Z.of_nat (List.length expiredTasks) in
  let filesToDelete := map storedFile (filter hasStoredFile expiredTasks) in
  (mk q' (metricsService m),
   match ossClient, filesToDelete with
   | Some deleteFile, _ :: _ =>
       let deleteResults := deleteOSSFilesWithErrorHandling deleteFile filesToDelete in
       mkCleanup cleaned (successful deleteResults) (errors deleteResults)
   | _, _ => mkCleanup cleaned 0 []
   end).

(** *** Sequences of calls on the manager

    A call with the clock value it observes: a task is created, the
    rendering of a task settles, the queue's sweep timer fires, or the
    cleanup runs. *)
Inductive Call : Type :=
| CreateTask (cfg : Js.value) (uuid : string)
| ProcessTask (taskId : string) (render : Render)
| TimerFires
| CleanupExpiredTasks (ossClient : option (string -> option string))
                      (retentionDays : Z).

Definition step (m : t) (c : Z * Call) : t :=
  let now := fst c in
  match snd c with
  | CreateTask cfg uuid => fst (createTask cfg uuid now m)
  | ProcessTask taskId render => fst (processTask taskId render now m)
  | TimerFires =>
      if TaskQueue.timeoutCheckInterval (taskQueue m)
      then fst (checkTimeouts now m) else m
  | CleanupExpiredTasks ossClient retentionDays =>
      fst (cleanupExpiredTasks ossClient retentionDays now m)
  end.

Definition run (calls : list (Z * Call)) (m : t) : t :=
  fold_left step calls m.

End TaskManager.

(** ** app.js: GET /api/system/health *)

Module App.

Inductive OssProbe : Type :=
| NotConfigured
| ConnectionSucceeds
| ConnectionFails (message : string).

Record HealthResponse : Type := mkHealthResponse {
  statusCode : Z;
  msg : string;
  status : string;
  checkQueue : string;
  checkMemory : string;
  ossStatus : string;
  ossError : option string
}.

(** The response of [getSystemHealth] when nothing throws; [heapUsed] is
    [process.memoryUsage().heapUsed]. *)
Definition getSystemHealth (m : TaskManager.t) (heapUsed : Z) (oss : OssProbe)
    : HealthResponse :=
  let statistics := TaskManager.getStatistics m in
  let pendingTasks := TaskQueue.QueueStatus.pendingTasks statistics in
  let '(ossStatus, ossError) :=
    match oss with
    | NotConfigured => ("not_configured"%string, None)
    | ConnectionSucceeds => ("healthy"%string, None)
    | ConnectionFails message => ("error"%string, Some message)
    end in
  let isHealthy := pendingTasks <? 1000 in
  let statusCode := if isHealthy then 200 else 503 in
  mkHealthResponse
    statusCode
    (if isHealthy then "System is healthy" else "System has issues")
    (if isHealthy then "ok" else "degraded")
    (if pendingTasks <? 1000 then "ok" else "warning")
    (if heapUsed <? 500 * 1024 * 1024 then "ok" else "warning")
    ossStatus ossError.

End App.

(** ** services/CleanupService.js: the retry loop and its statistics *)

Module CleanupService.

Record CleanupStats : Type := mkCleanupStats {
  totalRuns : Z;
  totalTasksCleaned : Z;
  totalFilesCleaned : Z;
  totalErrors : Z;
  lastRunDuration : Z
}.

(** What [taskManager.cleanupExpiredTasks()] resolves with; [errors] holds
    the messages of the failures it collected. *)
Record CleanupResult : Type := mkCleanupResult {
  cleanedTasks : Z;
  deletedFiles : Z;
  errors : list string
}.

Record JsError : Type := mkJsError { message : string }.

(** One call of [taskManager.cleanupExpiredTasks()]. *)
Inductive Attempt : Type :=
| Resolves (result : CleanupResult)
| Rejects (error : JsError).

Record t : Type := mk {
  maxRetries : Z;
  cleanupStats : CleanupStats;
  lastCleanupTime : option Z;
  isRunning : bool;
  timerArmed : bool;
  delays : list Z       (* the waits of [delay], most recent first *)
}.

Definition new (retries : option Z) (autoStart : bool) : t :=
  mk (match retries with Some v => v | None => 3 end)
     (mkCleanupStats 0 0 0 0 0) None autoStart autoStart [].

(** How an asynchronous call settles; a rejection carries the thrown
    value, [None] being [undefined]. *)
Inductive Settled (A : Type) : Type :=
| Fulfilled (a : A)
| Rejected (reason : option JsError).
Arguments Fulfilled {A} a.
Arguments Rejected {A} reason.

(** The [for] loop of [executeCleanupWithRetry], from [attempt] on, with
    [remaining] iterations left; [attempts n] is how the [n]-th call of
    the manager's cleanup settles. *)
Fixpoint retryLoop (attempts : Z -> Attempt) (remaining : nat) (attempt : Z)
    (lastError : option JsError) (s : t) : t * Settled CleanupResult :=
  match remaining with
  | O => (s, Rejected lastError)
  | S remaining' =>
      match attempts attempt with
      | Resolves result => (s, Fulfilled result)
      | Rejects error =>
          let s1 :=
            if attempt <? maxRetries s
            then mk (maxRetries s) (cleanupStats s) (lastCleanupTime s)
                    (isRunning s) (timerArmed s) (5000 * attempt :: delays s)
            else s in
          retryLoop attempts remaining' (attempt + 1) (Some error) s1
      end
  end.

Definition executeCleanupWithRetry (attempts : Z -> Attempt) (s : t)
    : t * Settled CleanupResult :=
  retryLoop attempts (Z.to_nat (maxRetries s)) 1 None s.

Definition updateStats (result : CleanupResult) (duration : Z) (now : Z) (s : t) : t :=
  let c := cleanupStats s in
  mk (maxRetries s)
     (mkCleanupStats
        (totalRuns c + 1)
        (totalTasksCleaned c + cleanedTasks result)
        (totalFilesCleaned c + deletedFiles result)
        (totalErrors c + Z.of_nat (List.length (errors result)))
        duration)
     (Some now) (isRunning s) (timerArmed s) (delays s).

Definition scheduleNextCleanup (s : t) : t :=
  mk (maxRetries s) (cleanupStats s) (lastCleanupTime s) (isRunning s) true (delays s).

(** [runCleanupCycle], started at [startTime] and ending at [endTime].  A
    rejection with [undefined] makes the [catch] block itself throw on
    [error.message], before it counts the error: the cycle then rejects. *)
Definition runCleanupCycle (attempts : Z -> Attempt) (startTime endTime : Z) (s : t)
    : t * Settled unit :=
  let reschedule s := if isRunning s then scheduleNextCleanup s else s in
  match executeCleanupWithRetry attempts s with
  | (s1, Fulfilled result) =>
      (reschedule (updateStats result (endTime - startTime) endTime s1), Fulfilled tt)
  | (s1, Rejected (Some error)) =>
      let c := cleanupStats s1 in
      (reschedule
         (mk (maxRetries s1)
             (mkCleanupStats (totalRuns c) (totalTasksCleaned c) (totalFilesCleaned c)
                             (totalErrors c + 1) (lastRunDuration c))
             (lastCleanupTime s1) (isRunning s1) (timerArmed s1) (delays s1)),
       Fulfilled tt)
  | (s1, Rejected None) =>
      (s1, Rejected (Some (mkJsError "Cannot read properties of undefined (reading 'message')")))
  end.

(** [manualCleanup]: the totals grow, the run counter, the duration and
    the time of the last run do not; a rejection is handed on. *)
Definition manualCleanup (attempts : Z -> Attempt) (s : t)
    : t * Settled CleanupResult :=
  match executeCleanupWithRetry attempts s with
  | (s1, Fulfilled result) =>
      let c := cleanupStats s1 in
      (mk (maxRetries s1)
          (mkCleanupStats
             (totalRuns c)
             (totalTasksCleaned c + cleanedTasks result)
             (totalFilesCleaned c + deletedFiles result)
             (totalErrors c + Z.of_nat (List.length (errors result)))
             (lastRunDuration c))
          (lastCleanupTime s1) (isRunning s1) (timerArmed s1) (delays s1),
       Fulfilled result)
  | (s1, Rejected reason) => (s1, Rejected reason)
  end.

End CleanupService.

(** ** services/MetricsService.js: the queue, OSS and HTTP sections

    Each method below reads and writes one section of the [metrics]
    object only; the sections are kept apart here. *)

Module MetricsQueue.

Record t : Type := mk {
  maxPending : Z;
  maxProcessing : Z;
  currentPending : Z;
  currentProcessing : Z
}.

Definition new : t := mk 0 0 0 0.

Definition updateQueueStatus (pendingTasks processingTasks : Z) (g : t) : t :=
  mk (if pendingTasks >? maxPending g then pendingTasks else maxPending g)
     (if processingTasks >? maxProcessing g then processingTasks
      else maxProcessing g)
     pendingTasks processingTasks.

End MetricsQueue.

Module MetricsOSS.

Record t : Type := mk {
  uploads : Z;
  uploadFailures : Z;
  deletes : Z;
  deleteFailures : Z;
  uploadSizes : list Z;
  uploadTimes : list Z
}.

Definition new : t := mk 0 0 0 0 [] [].




Definition recordOSSDelete (success : bool) (o : t) : t :=
  if success then
    mk (uploads o) (uploadFailures o) (deletes o + 1) (deleteFailures o)
       (uploadSizes o) (uploadTimes o)
  else
    mk (uploads o) (uploadFailures o) (deletes o) (deleteFailures o + 1)
       (uploadSizes o) (uploadTimes o).

End MetricsOSS.

Module MetricsHTTP.

Record t : Type := mk {
  requests : Z;
  responses2xx : Z;
  responses4xx : Z;
  responses5xx : Z;
  responseTimes : list Z
}.

Definition new : t := mk 0 0 0 0 [].

Definition addResponseTime (time : Z) (h : t) : t :=
  let pushed := responseTimes h ++ [time] in
  mk (requests h) (responses2xx h) (responses4xx h) (responses5xx h)
     (if Z.of_nat (List.length pushed) >? 1000 then tl pushed else pushed).

Definition recordHTTPRequest (statusCode responseTime : Z) (h : t) : t :=
  let h1 :=
    mk (requests h + 1) (responses2xx h) (responses4xx h) (responses5xx h)
       (responseTimes h) in
  let h2 :=
    if (statusCode >=? 200) && (statusCode <? 300) then
      mk (requests h1) (responses2xx h1 + 1) (responses4xx h1) (responses5xx h1)
         (responseTimes h1)
    else if (statusCode >=? 400) && (statusCode <? 500) then
      mk (requests h1) (responses2xx h1) (responses4xx h1 + 1) (responses5xx h1)
         (responseTimes h1)
    else if statusCode >=? 500 then
      mk (requests h1) (responses2xx h1) (responses4xx h1) (responses5xx h1 + 1)
         (responseTimes h1)
    else h1 in
  addResponseTime responseTime h2.

End MetricsHTTP.

(** ** services/OSSClient.js: retries around the storage calls *)

Module OSSClient.

(** What a storage call rejects with: [code] is the error code of the
    storage service, when the error carries one. *)
Record OssError : Type := mkOssError {
  code : option string;
  message : string
}.

Inductive Attempt (A : Type) : Type :=
| Resolves (a : A)
| Rejects (error : OssError).
Arguments Resolves {A} a.
Arguments Rejects {A} error.

Inductive Settled (A : Type) : Type :=
| Fulfilled (a : A)
| Rejected (error : OssError).
Arguments Fulfilled {A} a.
Arguments Rejected {A} error.

Record t : Type := mk {
  maxRetries : Z;
  retryDelay : Z;
  metricsService : option MetricsOSS.t;
  delays : list Z       (* the waits of [delay], most recent first *)
}.

(** The constructor: [maxRetries] and [retryDelay] default to 3 and 1000
    when the configuration has no such key. *)
Definition new (retries delay : option Z) (metrics : option MetricsOSS.t) : t :=
  mk (match retries with Some v => v | None => 3 end)
     (match delay with Some v => v | None => 1000 end)
     metrics [].

(** An integer in a template string (integers below 10^21 print in
    decimal). *)
Definition numberToString (n : Z) : string :=
  NilZero.string_of_int (Z.to_int n).

(** The [throw] that follows the loop of [retryOperation]; reading
    [lastError.message] fails when no attempt was made. *)
Definition failedAfter {A} (operationType : string) (lastError : option OssError)
    (c : t) : Settled A :=
  match lastError with
  | Some error =>
      Rejected
        (mkOssError None
           ("OSS " ++ operationType ++ " failed after "
            ++ numberToString (maxRetries c) ++ " attempts: " ++ message error))
  | None =>
      Rejected
        (mkOssError None "Cannot read properties of undefined (reading 'message')")
  end.

(** The [for] loop of [retryOperation], from [attempt] on, with
    [remaining] iterations left; [operation n] is how the [n]-th call of
    the operation settles.  A skipped retry returns [undefined], here
    [Fulfilled None]. *)
Fixpoint retryLoop {A} (operation : Z -> Attempt A) (operationType : string)
    (shouldSkipRetry : option (OssError -> bool))
    (remaining : nat) (attempt : Z) (lastError : option OssError) (c : t)
    : t * Settled (option A) :=
  match remaining with
  | O => (c, failedAfter operationType lastError c)
  | S remaining' =>
      match operation attempt with
      | Resolves a => (c, Fulfilled (Some a))
      | Rejects error =>
          if match shouldSkipRetry with
             | Some skip => skip error
             | None => false
             end
          then (c, Fulfilled None)
          else if attempt =? maxRetries c
          then (c, failedAfter operationType (Some error) c)
          else
            retryLoop operation operationType shouldSkipRetry remaining'
              (attempt + 1) (Some error)
              (mk (maxRetries c) (retryDelay c) (metricsService c)
                  (retryDelay c * attempt :: delays c))
      end
  end.

Definition retryOperation {A} (operation : Z -> Attempt A) (operationType : string)
    (shouldSkipRetry : option (OssError -> bool)) (c : t)
    : t * Settled (option A) :=
  retryLoop operation operationType shouldSkipRetry
            (Z.to_nat (maxRetries c)) 1 None c.

Definition record (f : MetricsOSS.t -> MetricsOSS.t) (c : t) : t :=
  match metricsService c with
  | Some metrics =>
      mk (maxRetries c) (retryDelay c) (Some (f metrics)) (delays c)
  | None => c
  end.

(** [error.code === 'NoSuchKey'] *)
Definition noSuchKey (error : OssError) : bool :=
  match code error with
  | Some k => (k =? "NoSuchKey")%string
  | None => false
  end.

(** [deleteFile]; [operation n] is how the [n]-th [client.delete]
    settles. *)
Definition deleteFile (operation : Z -> Attempt unit) (c : t) : t * Settled unit :=
  match retryOperation operation "delete" (Some noSuchKey) c with
  | (c1, Fulfilled _) => (record (MetricsOSS.recordOSSDelete true) c1, Fulfilled tt)
  | (c1, Rejected error) =>
      (record (MetricsOSS.recordOSSDelete false) c1, Rejected error)
  end.



End OSSClient.

(** ** services/ImageGenerator.js: what is rendered, apart from the canvas *)

Module ImageGenerator.

(** [String.prototype.toLowerCase] on the letters A-Z.  (No character
    outside ASCII has a lower case that spells one of the format names.) *)
Definition lower (c : ascii) : ascii :=
  let n := N_of_ascii c in
  if (65 <=? n)%N && (n <=? 90)%N then ascii_of_N (n + 32) else c.

Fixpoint toLowerCase (s : string) : string :=
  match s with
  | EmptyString => EmptyString
  | String c rest => String (lower c) (toLowerCase rest)
  end.

Definition validateChartOption (option_ : Js.value) : bool :=
  if negb (Js.truthy option_) || negb (Js.typeof option_ =? "object")%string
  then false
  else if negb (Js.truthy (Js.get option_ "series"))
          && negb (Js.truthy (Js.get option_ "dataset"))
  then false
  else true.

Record Image : Type := mkImage {
  contentType : string;
  extension : string
}.

(** [generateImage], as far as the result does not depend on the pixels:
    [setup] is the error thrown by creating the canvas and the chart, if
    any, and [encode] the one thrown by encoding the buffer and disposing
    of the chart.  Every error is rethrown with a prefix. *)
Definition generateImage (config : Js.value) (setup encode : option string)
    : Outcome Image :=
  let failed message := Thrown ("Image generation failed: " ++ message)%string in
  if negb (validateChartOption (Js.get config "option"))
  then failed "Invalid chart option provided"%string
  else
    let type :=
      if Js.truthy (Js.get config "type") then Js.get config "type"
      else Js.str "png" in
    match setup with
    | Some message => failed message
    | None =>
        match type with
        | Js.str s =>
            let encoded image :=
              match encode with
              | Some message => failed message
              | None => Returned image
              end in
            let t := toLowerCase s in
            if (t =? "png")%string then encoded (mkImage "image/png" "png")
            else if (t =? "jpeg")%string || (t =? "jpg")%string
            then encoded (mkImage "image/jpeg" "jpeg")
            else if (t =? "svg")%string
            then encoded (mkImage "image/svg+xml" "svg")
            else if (t =? "pdf")%string then encoded (mkImage "image/png" "png")
            else failed ("Unsupported image type: " ++ s)%string
        | _ => failed "type.toLowerCase is not a function"%string
        end
    end.

Definition getSupportedFormats : list string :=
  ["png"; "jpeg"; "jpg"; "svg"; "pdf"]%string.

End ImageGenerator.

(** ** app.js: POST /api/charts/generate and GET /api/charts/status/:taskId *)

Module ChartRoutes.

(** The JSON body of a response, with its HTTP status; [error] is the
    type and the details. *)
Record Reply (A : Type) : Type := mkReply {
  statusCode : Z;
  code : Z;
  msg : string;
  data : option A;
  error : option (string * string)
}.
Arguments mkReply {A} statusCode code msg data error.
Arguments statusCode {A} r.
Arguments code {A} r.
Arguments msg {A} r.
Arguments data {A} r.
Arguments error {A} r.

(** [v < bound] and [v > bound] for a value already known to be a
    number. *)
Definition lessThan (v : Js.value) (bound : Q) : bool :=
  match v with Js.number q => Qlt_bool q bound | _ => false end.

Definition greaterThan (v : Js.value) (bound : Q) : bool :=
  match v with Js.number q => Qlt_bool bound q | _ => false end.

(** The checks of [validateChartRequest]: the list of errors, in the
    order pushed.  Calling [toLowerCase] on a truthy type that is not a
    string throws. *)
Definition validateChartRequest (body : Js.value) : Outcome (list string) :=
  let type := Js.get body "type" in
  let width := Js.get body "width" in
  let height := Js.get body "height" in
  let option_ := Js.get body "option" in
  let e1 :=
    if negb (Js.truthy option_) then ["option is required"%string]
    else if negb (Js.typeof option_ =? "object")%string
    then ["option must be an object"%string] else [] in
  let rest (e2 : list string) :=
    let e3 :=
      if Js.truthy width
         && (negb (Js.typeof width =? "number")%string
             || lessThan width 1 || greaterThan width 4000)
      then ["width must be a number between 1 and 4000"%string] else [] in
    let e4 :=
      if Js.truthy height
         && (negb (Js.typeof height =? "number")%string
             || lessThan height 1 || greaterThan height 4000)
      then ["height must be a number between 1 and 4000"%string] else [] in
    Returned (e1 ++ e2 ++ e3 ++ e4) in
  if Js.truthy type then
    match type with
    | Js.str s =>
        if negb (existsb (String.eqb (ImageGenerator.toLowerCase s))
                         ["png"; "jpeg"; "jpg"; "svg"; "pdf"]%string)
        then rest ["type must be one of: png, jpeg, jpg, svg, pdf"%string]
        else rest []
    | _ => Thrown "type.toLowerCase is not a function"
    end
  else rest [].

(** [v || fallback] *)
Definition orElse (v fallback : Js.value) : Js.value :=
  if Js.truthy v then v else fallback.

(** [v === true] *)
Definition isTrue (v : Js.value) : bool :=
  match v with Js.boolean true => true | _ => false end.

(** The task configuration [createChartTask] builds from the body. *)
Definition taskConfig (body : Js.value) : Js.value :=
  Js.object
    [("type", orElse (Js.get body "type") (Js.str "png"));
     ("width", orElse (Js.get body "width") (Js.number 600));
     ("height", orElse (Js.get body "height") (Js.number 400));
     ("option", Js.get body "option");
     ("ossPath", Js.get body "ossPath");
     ("base64", Js.boolean (isTrue (Js.get body "base64")));
     ("download", Js.boolean (isTrue (Js.get body "download")))]%string.

Record Created : Type := mkCreated {
  created_taskId : string;
  created_status : Task.Status;
  statusUrl : string;
  created_createdAt : Z
}.

(** A rendering that settled: the time, the task and the outcome. *)
Definition Settled : Type := (Z * (string * TaskManager.Render))%type.

(** [processTask] going on for each of the renderings, in their order. *)
Definition settle (between : list Settled) (m : TaskManager.t) : TaskManager.t :=
  TaskManager.run
    (map (fun s => (fst s, TaskManager.ProcessTask (fst (snd s)) (snd (snd s))))
         between)
    m.

(** [createChartTask].  The handler awaits [createTask], which started
    [processTask] for every task it admitted: the renderings [between] are
    those that have settled, and whose [processTask] has gone on, by the
    time the handler goes on (a rendering that awaits no storage service
    settles first).  The task the handler then reads is the object the
    queue holds under its id.  When [createTask] throws, nothing was
    started and the handler goes on in the state of the throw. *)
Definition createChartTask (body : Js.value) (uuid : string) (now : Z)
    (between : list Settled) (m : TaskManager.t)
    : TaskManager.t * Reply Created :=
  match TaskManager.createTask (taskConfig body) uuid now m with
  | (m1, Returned created) =>
      let m2 := settle between m1 in
      let task :=
        match TaskQueue.getTask (Task.taskId created) (TaskManager.taskQueue m2) with
        | Some k => k
        | None => created
        end in
      (m2,
       mkReply 200 200 "Task created successfully"
         (Some (mkCreated (Task.taskId task) (Task.status task)
                  ("/api/charts/status/" ++ Task.taskId task)%string
                  (Task.createdAt task)))
         None)
  | (m1, Thrown message) =>
      (m1,
       mkReply 500 500 "Failed to create task" None
         (Some ("PROCESSING_ERROR"%string, message)))
  end.

(** The route: the validation middleware, then the handler; an error
    thrown by the middleware reaches the global error handler, which
    shows its message in development only. *)
Definition postGenerate (development : bool) (body : Js.value) (uuid : string)
    (now : Z) (between : list Settled) (m : TaskManager.t)
    : TaskManager.t * Reply Created :=
  match validateChartRequest body with
  | Thrown message =>
      (m,
       mkReply 500 500 "Internal server error" None
         (Some ("SYSTEM_ERROR"%string,
                if development then message
                else "An unexpected error occurred"%string)))
  | Returned [] => createChartTask body uuid now between m
  | Returned errors =>
      (m,
       mkReply 400 400 "Validation failed" None
         (Some ("VALIDATION_ERROR"%string, Js.join ", " errors)))
  end.




End ChartRoutes.

(** ** legacy/syncHandler.js: the synchronous route *)

Module SyncHandler.

(** The double quote, and text in double quotes. *)
Definition quote : string := String (ascii_of_nat 34) EmptyString.

Definition quoted (s : string) : string := (quote ++ s ++ quote)%string.

(** [generateBase64] of the image generator: the format of the data URL
    it returns; [canvas] is the error thrown by the canvas, if any. *)
Definition generateBase64 (config : Js.value) (canvas : option string)
    : Outcome string :=
  match canvas with
  | Some message => Thrown ("Base64 generation failed: " ++ message)%string
  | None =>
      let type :=
        if Js.truthy (Js.get config "type") then Js.get config "type"
        else Js.str "png" in
      Returned (match type with
                | Js.str s => if (s =? "jpeg")%string then "image/jpeg"%string
                              else "image/png"%string
                | _ => "image/png"%string
                end)
  end.

Inductive Body : Type :=
| Json (code : Z) (msg : string) (data : option string)
       (error : option (string * string))
| Buffer.                 (* the bytes of the image *)

(** A response: the status, the headers the handler sets, and the body.
    The [data] of a base64 answer is given by the format of its data
    URL. *)
Record Response : Type := mkResponse {
  statusCode : Z;
  contentType : option string;
  disposition : option string;
  body : Body
}.

(** The type after the defaults: one of the four formats, else png. *)
Definition typeOf (config : Js.value) : Js.value :=
  let type :=
    if Js.truthy (Js.get config "type") then Js.get config "type"
    else Js.str "png" in
  if Js.includes ["png"; "jpeg"; "svg"; "pdf"]%string type then type
  else Js.str "png".

Definition typeName (config : Js.value) : string :=
  match typeOf config with Js.str s => s | _ => "png"%string end.

(** The configuration after the assignments of the handler. *)
Definition withDefaults (config : Js.value) : Js.value :=
  let props := match config with Js.object props => props | _ => [] end in
  Js.object
    (("width",
      if Js.truthy (Js.get config "width") then Js.get config "width"
      else Js.number 600)
     :: ("height",
         if Js.truthy (Js.get config "height") then Js.get config "height"
         else Js.number 400)
     :: ("type", typeOf config)
     :: ("base64",
         Js.boolean (match Js.get config "base64" with
                     | Js.boolean true => true
                     | _ => false
                     end))
     :: ("download",
         Js.boolean (match Js.get config "download" with
                     | Js.boolean true => true
                     | _ => false
                     end))
     :: props)%string.

(** The request as the route sees it.  For GET, the value of
    [params.config] in the parsed query.  For any other method (POST),
    the [data] events that reach the listeners of [processConfig], each
    with the length of its chunk, and whether the [end] event reaches
    them. *)
Inductive Request : Type :=
| Get (config : Js.value)
| Post (chunks : list Z) (ended : bool).

(** [body.length] after each chunk. *)
Fixpoint lengths (body : Z) (chunks : list Z) : list Z :=
  match chunks with
  | [] => []
  | chunk :: rest => (body + chunk) :: lengths (body + chunk) rest
  end.

Definition tooLarge (chunks : list Z) : bool :=
  existsb (fun length => length >? 1000000) (lengths 0 chunks).

Definition refused (msg : string) : Response :=
  mkResponse 400 None None (Json 400 msg None None).

(** [processConfig]: the answer it sends, if it sends one, and whether it
    calls back. *)
Definition processConfig (request : Request) : option Response * bool :=
  match request with
  | Get config =>
      if negb (Js.truthy config)
      then (Some (refused ("request parameter " ++ quoted "config"
                           ++ " invalid!")%string),
            false)
      else (None, true)
  | Post chunks ended =>
      (if tooLarge chunks then Some (refused "request body too large!")
       else None,
       ended)
  end.

(** [syncHandler]: the answer the client receives, if any.  The handler
    waits for [processConfig] to call back, for ever if it does not.  An
    answer that was sent stays the answer, whatever the handler does
    afterwards.  [parsed] is what [JSON.parse] gives for the text
    [processConfig] stored, [None] when it throws; [setup] and [encode]
    are the errors of the canvas, as for [generateImage]. *)
Definition syncHandler (request : Request) (parsed : option Js.value)
    (setup encode : option string) : option Response :=
  match processConfig request with
  | (Some answer, _) => Some answer
  | (None, false) => None
  | (None, true) =>
      Some
        match parsed with
        | None =>
            refused ("request parameter " ++ quoted "config"
                     ++ " format invalid, is not JSON!")%string
        | Some config =>
            if negb (Js.truthy config)
               || negb (Js.truthy (Js.get config "option"))
            then
              refused ("request parameter " ++ quoted "config"
                       ++ " format invalid, option is required!")%string
            else
              let config' := withDefaults config in
              let failed message :=
                mkResponse 500 None None
                  (Json 500
                     ("Error: Canvas rendering failed! The content of the request parameter "
                      ++ quoted "option" ++ " may be invalid!")%string
                     None (Some ("PROCESSING_ERROR"%string, message))) in
              match Js.get config' "base64" with
              | Js.boolean true =>
                  match generateBase64 config' setup with
                  | Returned format =>
                      mkResponse 200
                        (Some "application/json;charset=UTF-8"%string) None
                        (Json 200 "success" (Some format) None)
                  | Thrown message => failed message
                  end
              | _ =>
                  match ImageGenerator.generateImage config' setup encode with
                  | Returned image =>
                      mkResponse 200 (Some (ImageGenerator.contentType image))
                        (match Js.get config' "download" with
                         | Js.boolean true =>
                             Some ("attachment; filename="
                                   ++ quoted ("chart." ++ typeName config))%string
                         | _ => None
                         end)
                        Buffer
                  | Thrown message => failed message
                  end
              end
        end
  end.

End SyncHandler.

(** ** config.js: the configuration read from the environment *)

Module ConfigManager.

(** The environment, as far as [loadConfig] reads it.  A numeric variable
    is given by what [parseInt] makes of it, [None] standing for [NaN]
    (the variable is not set or does not begin with a number); [PORT],
    when it is set and not empty, by the number it converts to, if any. *)
Record Env : Type := mkEnv {
  PORT : option (option Q);
  NODE_ENV : option string;
  OSS_ACCESS_KEY_ID : option string;
  OSS_ACCESS_KEY_SECRET : option string;
  OSS_BUCKET : option string;
  OSS_REGION : option string;
  OSS_CUSTOM_DOMAIN : option string;
  OSS_PATH_PREFIX : option string;
  QUEUE_MAX_CONCURRENT : option Z;
  QUEUE_TASK_TIMEOUT : option Z;
  QUEUE_RETRY_ATTEMPTS : option Z;
  CLEANUP_INTERVAL_HOURS : option Z;
  TASK_RETENTION_DAYS : option Z
}.

Record Config : Type := mkConfig {
  port : option Q;               (* as a number; [None] is [NaN] *)
  nodeEnv : string;
  accessKeyId : option string;
  accessKeySecret : option string;
  bucket : option string;
  region : string;
  customDomain : option string;
  pathPrefix : string;
  maxConcurrent : Z;
  taskTimeout : Z;
  retryAttempts : Z;
  cleanupInterval : Z;
  taskRetentionDays : Z
}.

(** A string that may be [undefined], as a condition. *)
Definition set (v : option string) : bool :=
  match v with Some s => negb (s =? "")%string | None => false end.

(** [v || fallback] for a string, and [parseInt(v) || fallback]. *)
Definition stringOr (v : option string) (fallback : string) : string :=
  match v with
  | Some s => if (s =? "")%string then fallback else s
  | None => fallback
  end.

Definition numberOr (v : option Z) (fallback : Z) : Z :=
  match v with
  | Some n => if n =? 0 then fallback else n
  | None => fallback
  end.

Definition loadConfig (env : Env) : Config :=
  mkConfig
    (match PORT env with Some number => number | None => Some 3000%Q end)
    (stringOr (NODE_ENV env) "development")
    (OSS_ACCESS_KEY_ID env) (OSS_ACCESS_KEY_SECRET env) (OSS_BUCKET env)
    (stringOr (OSS_REGION env) "oss-cn-hangzhou")
    (OSS_CUSTOM_DOMAIN env)
    (stringOr (OSS_PATH_PREFIX env) "charts/")
    (numberOr (QUEUE_MAX_CONCURRENT env) 10)
    (numberOr (QUEUE_TASK_TIMEOUT env) 300)
    (numberOr (QUEUE_RETRY_ATTEMPTS env) 3)
    (numberOr (CLEANUP_INTERVAL_HOURS env) 24 * 60 * 60 * 1000)
    (numberOr (TASK_RETENTION_DAYS env) 7).

Fixpoint endsWith (c : ascii) (s : string) : bool :=
  match s with
  | EmptyString => false
  | String a EmptyString => Ascii.eqb a c
  | String _ rest => endsWith c rest
  end.

Definition outside (low high : Z) (n : Z) : bool := (n <? low) || (n >? high).

(** The errors [validateConfig] collects, in the order pushed. *)
Definition errors (c : Config) : list string :=
  ((match port c with
    | None => ["PORT must be a valid port number (1-65535)"]
    | Some p =>
        if Qlt_bool p 1 || Qlt_bool 65535 p
        then ["PORT must be a valid port number (1-65535)"] else []
    end)
   ++ (if outside 1 100 (maxConcurrent c)
       then ["QUEUE_MAX_CONCURRENT must be between 1 and 100"] else [])
   ++ (if outside 30 3600 (taskTimeout c)
       then ["QUEUE_TASK_TIMEOUT must be between 30 and 3600 seconds"] else [])
   ++ (if outside 0 10 (retryAttempts c)
       then ["QUEUE_RETRY_ATTEMPTS must be between 0 and 10"] else [])
   ++ (if outside 1 365 (taskRetentionDays c)
       then ["TASK_RETENTION_DAYS must be between 1 and 365"] else [])
   ++ (if (set (accessKeyId c) || set (accessKeySecret c) || set (bucket c))
          && negb (set (accessKeyId c) && set (accessKeySecret c)
                   && set (bucket c))
       then ["OSS configuration is incomplete. Please set all required OSS environment variables: OSS_ACCESS_KEY_ID, OSS_ACCESS_KEY_SECRET, and OSS_BUCKET."]
       else [])
   ++ (if negb (region c =? "")%string && negb (String.prefix "oss-" (region c))
       then [("OSS_REGION must be in format " ++ SyncHandler.quoted "oss-region-name"
              ++ " (e.g., " ++ SyncHandler.quoted "oss-cn-hangzhou" ++ ")")%string]
       else []))%list%string.

Definition newline : string := String (ascii_of_nat 10) EmptyString.

(** [validateConfig]: the path prefix is completed with a slash in any
    case; the errors, if any, are thrown in one message. *)
Definition validateConfig (c : Config) : Config * Outcome unit :=
  let c' :=
    if negb (pathPrefix c =? "")%string && negb (endsWith "/" (pathPrefix c))
    then mkConfig (port c) (nodeEnv c) (accessKeyId c) (accessKeySecret c)
                  (bucket c) (region c) (customDomain c)
                  (pathPrefix c ++ "/")%string
                  (maxConcurrent c) (taskTimeout c) (retryAttempts c)
                  (cleanupInterval c) (taskRetentionDays c)
    else c in
  (c',
   match errors c with
   | [] => Returned tt
   | es =>
       Thrown ("Configuration validation failed:" ++ newline
               ++ Js.join newline (map (fun e => "  - " ++ e) es))%string
   end).

(** The constructor: the configuration, unless validation throws. *)
Definition new (env : Env) : Outcome Config :=
  match validateConfig (loadConfig env) with
  | (c, Returned _) => Returned c
  | (_, Thrown message) => Thrown message
  end.

Definition isOSSConfigured (c : Config) : bool :=
  set (accessKeyId c) && set (accessKeySecret c) && set (bucket c).

(** The options [initializeServices] hands to the task manager, and so to
    the queue. *)
Definition queueOptions (c : Config) : TaskQueue.UserOptions :=
  TaskQueue.mkUserOptions (Some (maxConcurrent c)) (Some (taskTimeout c))
                          (Some (retryAttempts c)).

End ConfigManager.

(** * Vocabulary of the properties *)

Section QueueVocabulary.

Import TaskQueue.

(** The in-flight map holds at most [maxConcurrent] records. *)
Definition bounded (q : TaskQueue.t) : Prop :=
  JsMap.size (processingTasks q) <= maxConcurrent (options q).

(** The records an event hands to its listeners. *)
Definition payload (e : Event.t) : list Task.t :=
  match e with
  | Event.taskEnqueued k | Event.taskStarted k | Event.taskCompleted k
  | Event.taskFailed k | Event.taskRetry k => [k]
  | Event.taskTimeout (Some k) => [k]
  | Event.taskTimeout None => []
  | Event.tasksCleanedUp ks => ks
  | Event.queuePaused | Event.queueResumed | Event.queueCleared => []
  end.

(** Every record one can observe: those the three containers hold and
    those that were handed to listeners. *)
Definition observable (q : TaskQueue.t) : list Task.t :=
  pendingQueue q ++ JsMap.values (processingTasks q)
    ++ JsMap.values (completedTasks q) ++ flat_map payload (emitted q).

Definition withinBudget (q : TaskQueue.t) : Prop :=
  forall k, In k (observable q) ->
    Task.retryCount k <= retryAttempts (options q).

Definition budgetParts (q : TaskQueue.t) : Prop :=
  let ok k := Task.retryCount k <= retryAttempts (options q) in
  (forall k, In k (pendingQueue q) -> ok k)
  /\ (forall k, In k (JsMap.values (processingTasks q)) -> ok k)
  /\ (forall k, In k (JsMap.values (completedTasks q)) -> ok k)
  /\ (forall e k, In e (emitted q) -> In k (payload e) -> ok k).

(** Calls that hand the queue a record do so within the budget; a record
    fresh from the [Task] constructor has [retryCount] 0. *)
Definition enqueuesWithin (retries : Z) (c : Call) : Prop :=
  match c with
  | Enqueue (Some task) => Task.retryCount task <= retries
  | _ => True
  end.

(** How many records reached the completed state, how many the failed
    state, and how many were evicted, read off the history of events. *)
Definition completions (history : list Event.t) : Z :=
  Z.of_nat (List.length
    (filter (fun e => match e with Event.taskCompleted _ => true | _ => false end)
            history)).

Definition failures (history : list Event.t) : Z :=
  Z.of_nat (List.length
    (filter (fun e => match e with Event.taskFailed _ => true | _ => false end)
            history)).

Definition evictions (history : list Event.t) : Z :=
  fold_right
    (fun e n =>
       match e with
       | Event.tasksCleanedUp ks => Z.of_nat (List.length ks) + n
       | _ => n
       end)
    0 history.

(** The two counters agree with the history, up to the offsets [dp] and
    [df], and [totalProcessed] is at least [low]. *)
Definition counted (low dp df : Z) (q : TaskQueue.t) : Prop :=
  low <= totalProcessed (stats q)
  /\ totalProcessed (stats q) = completions (emitted q) + dp
  /\ totalFailed (stats q) = failures (emitted q) + df.

(** No id is pending twice or both pending and in flight; the in-flight
    map holds each record under its own id, in state processing, with its
    start time set. *)
Definition wellFormed (q : TaskQueue.t) : Prop :=
  NoDup (map Task.taskId (pendingQueue q))
  /\ NoDup (JsMap.keys (processingTasks q))
  /\ (forall k, In k (pendingQueue q) ->
        JsMap.get (Task.taskId k) (processingTasks q) = None)
  /\ (forall id k, In (id, k) (processingTasks q) ->
        Task.taskId k = id /\ Task.status k = Task.processing
        /\ exists s, Task.startedAt k = Some s).

(** Admission has nothing left to do: the in-flight map is full or the
    pending deque is empty. *)
Definition saturatedOrEmpty (q : TaskQueue.t) : Prop :=
  JsMap.size (processingTasks q) >= maxConcurrent (options q)
  \/ pendingQueue q = [].

Definition filled (q : TaskQueue.t) : Prop :=
  wellFormed q /\ saturatedOrEmpty q.

(** The archive: no id is archived twice, or archived while pending or
    in flight; each archived record sits under its own id, has started and
    ended, and is either completed without an error or failed with one. *)
Definition archiveFormed (q : TaskQueue.t) : Prop :=
  NoDup (JsMap.keys (completedTasks q))
  /\ (forall k, In k (pendingQueue q) ->
        JsMap.get (Task.taskId k) (completedTasks q) = None)
  /\ (forall id k, JsMap.get id (processingTasks q) = Some k ->
        JsMap.get id (completedTasks q) = None)
  /\ (forall id k, In (id, k) (completedTasks q) ->
        Task.taskId k = id
        /\ (exists s, Task.startedAt k = Some s)
        /\ (exists c, Task.completedAt k = Some c)
        /\ ((Task.status k = Task.completed /\ Task.error k = None)
            \/ (Task.status k = Task.failed /\ exists r, Task.error k = Some r))).

Definition sound (q : TaskQueue.t) : Prop :=
  wellFormed q /\ archiveFormed q.

(** The ids the queue holds: pending, in flight, archived. *)
Definition heldIds (q : TaskQueue.t) : list string :=
  map Task.taskId (pendingQueue q) ++ JsMap.keys (processingTasks q)
    ++ JsMap.keys (completedTasks q).

(** How many records were placed in the pending deque by [enqueue]. *)
Definition submissions (history : list Event.t) : Z :=
  Z.of_nat (List.length
    (filter (fun e => match e with Event.taskEnqueued _ => true | _ => false end)
            history)).

(** The three counts of [getQueueStatus] add up to the submissions that
    were not evicted. *)
Definition conserved (q : TaskQueue.t) : Prop :=
  QueueStatus.pendingTasks (getQueueStatus q)
  + QueueStatus.processingTasks (getQueueStatus q)
  + QueueStatus.completedTasks (getQueueStatus q)
  = submissions (emitted q) - evictions (emitted q).

(** Calls that hand the queue a record hand it one in state pending, as
    the [Task] constructor builds it. *)
Definition enqueuesPending (c : Call) : Prop :=
  match c with
  | Enqueue (Some task) => Task.status task = Task.pending
  | _ => True
  end.

Definition pendingArePending (q : TaskQueue.t) : Prop :=
  forall k, In k (pendingQueue q) -> Task.status k = Task.pending.

(** The ids of the records started, and of the records enqueued, oldest
    first. *)
Definition startedIds (history : list Event.t) : list string :=
  rev (flat_map
         (fun e => match e with Event.taskStarted k => [Task.taskId k] | _ => [] end)
         history).

Definition enqueuedIds (history : list Event.t) : list string :=
  rev (flat_map
         (fun e => match e with Event.taskEnqueued k => [Task.taskId k] | _ => [] end)
         history).

Definition retried (history : list Event.t) : Prop :=
  exists k, In (Event.taskRetry k) history.

(** Admission follows submission: the records started so far, followed by
    the pending deque, are the records enqueued, in that order. *)
Definition fifo (q : TaskQueue.t) : Prop :=
  startedIds (emitted q) ++ map Task.taskId (pendingQueue q)
  = enqueuedIds (emitted q).


(** The number of records held, and the submissions net of evictions. *)
Definition held (q : TaskQueue.t) : Z :=
  Z.of_nat (List.length (pendingQueue q)) + JsMap.size (processingTasks q)
  + JsMap.size (completedTasks q).

Definition net (q : TaskQueue.t) : Z :=
  submissions (emitted q) - evictions (emitted q).

(** The queue holds the record [k], and holds a record with the id
    [taskId] that was created at [created]. *)
Definition holds (q : TaskQueue.t) (k : Task.t) : Prop :=
  In k (pendingQueue q) \/ In k (JsMap.values (processingTasks q))
  \/ In k (JsMap.values (completedTasks q)).

Definition keeps (taskId : string) (created : Z) (q : TaskQueue.t) : Prop :=
  exists k, holds q k /\ Task.taskId k = taskId /\ Task.createdAt k = created.

(** What [failTask] emits for a record, by its retry budget. *)
Definition failureEvent (reason : string) (retries now : Z) (task : Task.t)
    : Event.t :=
  if Task.retryCount task <? retries
  then Event.taskRetry (Task.retry task)
  else Event.taskFailed (Task.fail reason now task).

End QueueVocabulary.

Section MetricsVocabulary.

Import MetricsService.

(** The exact nearest rank: the index [ceil (n * q) - 1]. *)
Definition nearestRank (n : Z) (q : Q) : Z := Qceiling (inject_Z n * q) - 1.

(** [Math.ceil (n * digits/scale)] in doubles is the exact ceiling. *)
Definition ceilingIsExact (digits scale : Z) (n : Z) : bool :=
  match Double.ceil (Double.mul (Double.ofZ n) (Double.decimal digits scale)) with
  | Double.Integer rank =>
      rank =? Qceiling (inject_Z n * (digits # Z.to_pos scale))
  | _ => false
  end.

(** [n] times zero is zero, in doubles. *)
Definition zeroTimes (n : Z) : bool :=
  match Double.mul (Double.ofZ n) (Double.ofZ 0) with
  | S754_zero _ => true
  | _ => false
  end.

(** [k] samples, all equal to [d], one after the other. *)
Definition addMany (k : nat) (d : Z) (m : MetricsService.t) : MetricsService.t :=
  Nat.iter k (addProcessingTime d) m.

(** The samples handed to [addProcessingTime], one after the other. *)
Definition addAll (times : list Z) (m : MetricsService.t) : MetricsService.t :=
  fold_left (fun m time => addProcessingTime time m) times m.

(** The last [n] elements of a list. *)
Definition lastN {A : Type} (n : nat) (l : list A) : list A :=
  skipn (List.length l - n) l.

(** The status codes that [recordHTTPRequest] puts in no class. *)
Definition unclassified (statusCode : Z) : bool :=
  (statusCode <? 200) || ((300 <=? statusCode) && (statusCode <? 400)).

Definition recordAll (responses : list (Z * Z)) (h : MetricsHTTP.t) : MetricsHTTP.t :=
  fold_left (fun h r => MetricsHTTP.recordHTTPRequest (fst r) (snd r) h)
            responses h.

(** The gauges after the monitor has sampled the queue in each of the
    given states. *)
Definition monitor (states : list TaskQueue.t) (g : MetricsQueue.t) : MetricsQueue.t :=
  fold_left
    (fun g q =>
       let status := TaskQueue.getQueueStatus q in
       MetricsQueue.updateQueueStatus
         (TaskQueue.QueueStatus.pendingTasks status)
         (TaskQueue.QueueStatus.processingTasks status) g)
    states g.

(** One [push], followed by a [shift] when the array has outgrown [cap]. *)
Definition pushCapped (cap : Z) (l : list Z) (x : Z) : list Z :=
  let pushed := l ++ [x] in
  if Z.of_nat (List.length pushed) >? cap then tl pushed else pushed.

End MetricsVocabulary.

Section RetryVocabulary.

(** The waits after the failed attempts [first], [first + 1], ... ([count]
    of them) of a retry loop that waits [unit * attempt], most recent
    first. *)
Fixpoint waits (unit first : Z) (count : nat) : list Z :=
  match count with
  | O => []
  | S count' => waits unit (first + 1) count' ++ [unit * first]
  end.

Definition waited (d : list Z) (s : CleanupService.t) : CleanupService.t :=
  CleanupService.mk (CleanupService.maxRetries s) (CleanupService.cleanupStats s)
    (CleanupService.lastCleanupTime s) (CleanupService.isRunning s)
    (CleanupService.timerArmed s) (d ++ CleanupService.delays s).

Definition ossWaited (d : list Z) (c : OSSClient.t) : OSSClient.t :=
  OSSClient.mk (OSSClient.maxRetries c) (OSSClient.retryDelay c)
    (OSSClient.metricsService c) (d ++ OSSClient.delays c).

(** Does the predicate handed to [retryOperation], if any, skip the retry
    after this error? *)
Definition skips (shouldSkipRetry : option (OSSClient.OssError -> bool))
    (error : OSSClient.OssError) : bool :=
  match shouldSkipRetry with
  | Some skip => skip error
  | None => false
  end.




End RetryVocabulary.

Section ManagerVocabulary.

(** How many retries and how many timeouts of a held task the history of
    the queue shows. *)
Definition retries (history : list TaskQueue.Event.t) : Z :=
  Z.of_nat (List.length
    (filter (fun e => match e with TaskQueue.Event.taskRetry _ => true | _ => false end)
            history)).

Definition timeouts (history : list TaskQueue.Event.t) : Z :=
  Z.of_nat (List.length
    (filter (fun e => match e with
                      | TaskQueue.Event.taskTimeout (Some _) => true
                      | _ => false
                      end)
            history)).

(** The events of a call that neither enqueues, retries nor times out. *)
Definition silent (new : list TaskQueue.Event.t) : Prop :=
  submissions new = 0 /\ retries new = 0 /\ timeouts new = 0.

(** How many of the [processTask] calls of a run rejected. *)
Fixpoint rejections (calls : list (Z * TaskManager.Call)) (m : TaskManager.t) : Z :=
  match calls with
  | [] => 0
  | c :: rest =>
      match snd c with
      | TaskManager.ProcessTask taskId render =>
          match snd (TaskManager.processTask taskId render (fst c) m) with
          | Thrown _ => 1
          | Returned _ => 0
          end
      | _ => 0
      end + rejections rest (TaskManager.step m c)
  end.

(** The counters of the metrics agree with the queue, [late] failures
    having been counted for tasks that were no longer in flight. *)
Definition accounted (late : Z) (m : TaskManager.t) : Prop :=
  let counters := MetricsService.tasks (TaskManager.metricsService m) in
  let q := TaskManager.taskQueue m in
  MetricsService.created counters = submissions (TaskQueue.emitted q)
  /\ MetricsService.completed counters
     = TaskQueue.totalProcessed (TaskQueue.stats q)
  /\ MetricsService.retried counters = retries (TaskQueue.emitted q)
  /\ MetricsService.timeout counters = timeouts (TaskQueue.emitted q)
  /\ MetricsService.failed counters
     = MetricsService.retried counters
       + TaskQueue.totalFailed (TaskQueue.stats q) + late.

(** The files of the evicted records that the cleanup deletes. *)
Definition filesOf (expiredTasks : list Task.t) : list string :=
  map TaskManager.storedFile (filter TaskManager.hasStoredFile expiredTasks).

(** The deletions that resolve, counted, and those that reject, listed
    with their messages. *)
Definition resolved (deleteFile : string -> option string)
    (fileNames : list string) : Z :=
  Z.of_nat (List.length
    (filter (fun name => match deleteFile name with None => true | Some _ => false end)
            fileNames)).

Definition rejected (deleteFile : string -> option string)
    (fileNames : list string) : list (string * string) :=
  flat_map (fun name => match deleteFile name with
                        | None => []
                        | Some message => [(name, message)]
                        end)
           fileNames.

(** A call of the manager other than the cleanup. *)
Definition noCleanup (c : TaskManager.Call) : Prop :=
  match c with
  | TaskManager.CleanupExpiredTasks _ _ => False
  | _ => True
  end.

(** A call of the queue that hands it a record as [createTask] builds
    it. *)
Definition enqueuesFresh (c : TaskQueue.Call) : Prop :=
  match c with
  | TaskQueue.Enqueue (Some task) =>
      Task.status task = Task.pending /\ Task.retryCount task = 0
  | TaskQueue.Enqueue None => False
  | _ => True
  end.

End ManagerVocabulary.

(** The violations of a configuration: the option is not an object, the
    width or the height is truthy (neither absent nor null, 0, NaN, the
    empty string or false) and not a positive number, or the type is
    truthy and not one of the four formats. *)
Module ConfigSpec.

Definition isObject (v : Js.value) : bool :=
  match v with Js.object _ => true | _ => false end.

Definition positiveNumber (v : Js.value) : bool :=
  match v with Js.number q => Qlt_bool 0 q | _ => false end.

Definition formats : list string := ["png"; "jpeg"; "svg"; "pdf"]%string.

Definition badOption (cfg : Js.value) : bool :=
  negb (isObject (Js.get cfg "option")).

Definition badSize (v : Js.value) : bool :=
  Js.truthy v && negb (positiveNumber v).

Definition badType (cfg : Js.value) : bool :=
  Js.truthy (Js.get cfg "type") && negb (Js.includes formats (Js.get cfg "type")).

Definition violated (cfg : Js.value) : bool :=
  badOption cfg || badSize (Js.get cfg "width")
  || badSize (Js.get cfg "height") || badType cfg.

Definition messages (cfg : Js.value) : list string :=
  if isObject cfg then
    (if badOption cfg
     then ["Config.option is required and must be an object"%string] else [])
    ++ (if badSize (Js.get cfg "width")
        then ["Config.width must be a positive number"%string] else [])
    ++ (if badSize (Js.get cfg "height")
        then ["Config.height must be a positive number"%string] else [])
    ++ (if badType cfg
        then ["Config.type must be one of: png, jpeg, svg, pdf"%string] else [])
  else ["Config must be an object"%string].

End ConfigSpec.

(** Sample data: default options, a chart configuration, two fresh
    records and a sequence of calls. *)
Module Sample.

Definition defaults : TaskQueue.UserOptions :=
  TaskQueue.mkUserOptions None None None.

Definition chart : Js.value :=
  Js.object
    [("type", Js.str "png"); ("width", Js.number 600); ("height", Js.number 400);
     ("option",
      Js.object [("series", Js.object [("type", Js.str "bar")])])]%string.

Definition taskA : Task.t := Task.new "a" chart 0.
Definition taskB : Task.t := Task.new "b" chart 1.

(** Two submissions, a failure that is retried, a completion, a sweep and
    a retention cleanup. *)
Definition calls : list (Z * TaskQueue.Call) :=
  [(0, TaskQueue.Enqueue (Some taskA));
   (1, TaskQueue.Enqueue (Some taskB));
   (5, TaskQueue.FailTask "a" "render failed");
   (9, TaskQueue.CompleteTask "b" (Some "https://cdn/b.png") (Some "b.png"));
   (30000, TaskQueue.TimerFires);
   (864000000, TaskQueue.CleanupExpiredTasks 7)]%string.

End Sample.

(** Sample data for the manager, the storage client and the routes. *)
Module ManagerSample.

(** A creation, a failed rendering that is retried, a rendering that
    settles for a task no longer in flight, a success, a sweep and a
    cleanup. *)
Definition calls : list (Z * TaskManager.Call) :=
  [(0, TaskManager.CreateTask Sample.chart "a");
   (5, TaskManager.ProcessTask "a" (TaskManager.RenderFails "render failed"));
   (7, TaskManager.ProcessTask "zz" (TaskManager.RenderFails "late"));
   (9, TaskManager.ProcessTask "a"
         (TaskManager.Rendered "https://cdn/a.png" (Some "a.png")));
   (30000, TaskManager.TimerFires);
   (864000000, TaskManager.CleanupExpiredTasks None 7)]%string.

(** A request the middleware accepts with a type the task validation
    refuses. *)
Definition jpgBody : Js.value :=
  Js.object
    [("type", Js.str "jpg");
     ("option", Js.object [("series", Js.object [("type", Js.str "bar")])])]%string.

(** A request for a pie chart, and its rendering, which without a
    storage service settles before the handler of the request goes on. *)
Definition pieBody : Js.value :=
  Js.object
    [("option", Js.object [("series", Js.object [("type", Js.str "pie")])])]%string.

Definition atOnce : list ChartRoutes.Settled :=
  [(0, ("a", TaskManager.Rendered "data:image/png;base64,iVBORw0KGgo=" None))]%string.

Definition busy : CleanupService.JsError := CleanupService.mkJsError "busy".

(** Two rejections, then a result. *)
Definition thirdTime (n : Z) : CleanupService.Attempt :=
  if n <? 3 then CleanupService.Rejects busy
  else CleanupService.Resolves (CleanupService.mkCleanupResult 2 1 []).

Definition timedOut : OSSClient.OssError :=
  OSSClient.mkOssError (Some "RequestTimeout"%string) "timed out".

Definition missing : OSSClient.OssError :=
  OSSClient.mkOssError (Some "NoSuchKey"%string) "missing".

Definition secondTime (n : Z) : OSSClient.Attempt unit :=
  if n <? 2 then OSSClient.Rejects timedOut else OSSClient.Resolves tt.

(** A download of a pdf through the synchronous route: the text of the
    query parameter and the configuration it parses to. *)
Definition pdfQuery : string :=
  ("{" ++ SyncHandler.quoted "type" ++ ":" ++ SyncHandler.quoted "pdf" ++ ","
   ++ SyncHandler.quoted "download" ++ ":true,"
   ++ SyncHandler.quoted "option" ++ ":{" ++ SyncHandler.quoted "series" ++ ":{"
   ++ SyncHandler.quoted "type" ++ ":" ++ SyncHandler.quoted "pie" ++ "}}}")%string.

Definition pdfDownload : Js.value :=
  Js.object
    [("type", Js.str "pdf"); ("download", Js.boolean true);
     ("option", Js.object [("series", Js.object [("type", Js.str "pie")])])]%string.

(** An environment that sets [QUEUE_RETRY_ATTEMPTS=0] and nothing else. *)
Definition noRetries : ConfigManager.Env :=
  ConfigManager.mkEnv None None None None None None None None
                      None None (Some 0) None None.

End ManagerSample.

(** * Properties *)

(** ** The association-list [Map] *)

Section JsMapFacts.

Context {V : Type}.
Implicit Types (m : JsMap.t V) (k : string) (v : V).

Lemma JsMap_get_set_same m k v : JsMap.get k (JsMap.set k v m) = Some v.
Proof.
  induction m as [|[k' v'] m IH]; simpl.
  - now rewrite String.eqb_refl.
  - destruct (String.eqb_spec k k'); simpl.
    + now rewrite String.eqb_refl.
    + destruct (String.eqb_spec k k'); [contradiction|exact IH].
Qed.

Lemma JsMap_get_set_other m k k' v :
  k <> k' -> JsMap.get k' (JsMap.set k v m) = JsMap.get k' m.
Proof.
  intros Hne. induction m as [|[k0 v0] m IH]; simpl.
  - destruct (String.eqb_spec k' k); [congruence|reflexivity].
  - destruct (String.eqb_spec k k0); simpl.
    + subst k0. destruct (String.eqb_spec k' k); [congruence|reflexivity].
    + destruct (String.eqb_spec k' k0); [reflexivity|exact IH].
Qed.

Lemma JsMap_get_delete_same m k : JsMap.get k (JsMap.delete k m) = None.
Proof.
  induction m as [|[k' v'] m IH]; simpl; [reflexivity|].
  destruct (String.eqb_spec k k') as [->|Hne]; simpl; [exact IH|].
  destruct (String.eqb_spec k k'); [contradiction|exact IH].
Qed.

Lemma JsMap_get_delete_other m k k' :
  k <> k' -> JsMap.get k' (JsMap.delete k m) = JsMap.get k' m.
Proof.
  intros Hne. induction m as [|[k0 v0] m IH]; simpl; [reflexivity|].
  destruct (String.eqb_spec k k0) as [->|Hne0]; simpl.
  - destruct (String.eqb_spec k' k0); [congruence|exact IH].
  - destruct (String.eqb_spec k' k0); [reflexivity|exact IH].
Qed.

Lemma JsMap_size_nonneg m : 0 <= JsMap.size m.
Proof. unfold JsMap.size. lia. Qed.

Lemma JsMap_size_set_le m k v : JsMap.size (JsMap.set k v m) <= JsMap.size m + 1.
Proof.
  unfold JsMap.size. induction m as [|[k' v'] m IH]; simpl; [lia|].
  destruct (k =? k')%string; simpl in *; lia.
Qed.

Lemma JsMap_size_delete_le m k : JsMap.size (JsMap.delete k m) <= JsMap.size m.
Proof.
  unfold JsMap.size. induction m as [|[k' v'] m IH]; simpl; [lia|].
  destruct (k =? k')%string; simpl in *; lia.
Qed.

Lemma JsMap_get_In m k v : JsMap.get k m = Some v -> In (k, v) m.
Proof.
  induction m as [|[k' v'] m IH]; simpl; [discriminate|].
  destruct (String.eqb_spec k k') as [->|Hne].
  - intros [= ->]. now left.
  - intros H. right. now apply IH.
Qed.

Lemma JsMap_get_In_values m k v : JsMap.get k m = Some v -> In v (JsMap.values m).
Proof.
  intros H. apply JsMap_get_In in H.
  unfold JsMap.values. change v with (snd (k, v)). now apply in_map.
Qed.

Lemma JsMap_In_set m k v e :
  In e (JsMap.set k v m) -> e = (k, v) \/ In e m.
Proof.
  induction m as [|[k' v'] m IH]; simpl.
  - intros [<-|[]]. now left.
  - destruct (k =? k')%string; simpl.
    + intros [<-|H]; [now left|right; now right].
    + intros [<-|H]; [right; now left|].
      destruct (IH H) as [->|H']; [now left|right; now right].
Qed.

Lemma JsMap_In_delete m k e : In e (JsMap.delete k m) -> In e m /\ fst e <> k.
Proof.
  induction m as [|[k' v'] m IH]; simpl; [intros []|].
  destruct (String.eqb_spec k k') as [->|Hne]; simpl.
  - intros H. destruct (IH H). split; [now right|assumption].
  - intros [<-|H]; [split; [now left|simpl; congruence]|].
    destruct (IH H). split; [now right|assumption].
Qed.

Lemma JsMap_In_values_set m k v x :
  In x (JsMap.values (JsMap.set k v m)) -> x = v \/ In x (JsMap.values m).
Proof.
  unfold JsMap.values. intros H. apply in_map_iff in H.
  destruct H as [e [<- He]].
  destruct (JsMap_In_set _ _ _ _ He) as [->|H]; [now left|].
  right. apply in_map_iff. now exists e.
Qed.

Lemma JsMap_In_values_delete m k x :
  In x (JsMap.values (JsMap.delete k m)) -> In x (JsMap.values m).
Proof.
  unfold JsMap.values. intros H. apply in_map_iff in H.
  destruct H as [e [<- He]].
  apply in_map_iff. exists e. split; [reflexivity|]. now apply JsMap_In_delete in He.
Qed.

Lemma JsMap_get_None_keys m k : JsMap.get k m = None <-> ~ In k (JsMap.keys m).
Proof.
  unfold JsMap.keys. induction m as [|[k' v'] m IH]; simpl.
  - split; [intros _ []|reflexivity].
  - destruct (String.eqb_spec k k') as [->|Hne].
    + split; [discriminate|]. intros H. exfalso. apply H. now left.
    + rewrite IH. split.
      * intros H [Heq|Hin]; [congruence|now apply H].
      * intros H Hin. apply H. now right.
Qed.

Lemma JsMap_keys_set_fresh m k v :
  JsMap.get k m = None -> JsMap.keys (JsMap.set k v m) = JsMap.keys m ++ [k].
Proof.
  unfold JsMap.keys. induction m as [|[k' v'] m IH]; simpl; [reflexivity|].
  destruct (String.eqb_spec k k'); [discriminate|].
  intros H. simpl. now rewrite IH.
Qed.

Lemma JsMap_keys_delete_In m k x :
  In x (JsMap.keys (JsMap.delete k m)) <-> In x (JsMap.keys m) /\ x <> k.
Proof.
  unfold JsMap.keys. induction m as [|[k' v'] m IH]; simpl; [tauto|].
  destruct (String.eqb_spec k k') as [->|Hne]; simpl.
  - rewrite IH. split; [tauto|]. intros [[Heq|Hin] Hx]; [congruence|tauto].
  - rewrite IH. split.
    + intros [<-|[Hin Hx]]; [split; [now left|congruence]|tauto].
    + tauto.
Qed.

Lemma JsMap_keys_delete_NoDup m k :
  NoDup (JsMap.keys m) -> NoDup (JsMap.keys (JsMap.delete k m)).
Proof.
  induction m as [|[k' v'] m IH]; simpl; [constructor|].
  intros Hnd. inversion Hnd as [|? ? Hnotin Hnd']; subst.
  destruct (k =? k')%string; [now apply IH|].
  simpl. constructor; [|now apply IH].
  intros Hin. apply Hnotin. now apply JsMap_keys_delete_In in Hin.
Qed.

End JsMapFacts.

(** ** The queue: concurrency bound *)

Section QueueBound.

Import TaskQueue.

Lemma processNext_options now q : options (processNext now q) = options q.
Proof.
  unfold processNext.
  destruct (_ >=? _); [reflexivity|].
  destruct (pendingQueue q); reflexivity.
Qed.

Lemma processNext_bounded now q : bounded q -> bounded (processNext now q).
Proof.
  unfold bounded, processNext. intros Hb.
  destruct (Z.geb_spec (JsMap.size (processingTasks q)) (maxConcurrent (options q)))
    as [Hge|Hlt]; [exact Hb|].
  destruct (pendingQueue q) as [|task rest]; [exact Hb|].
  simpl.
  pose proof (JsMap_size_set_le (processingTasks q) (Task.taskId task)
                (Task.start now task)).
  lia.
Qed.

Lemma completeTask_options taskId url file now q :
  options (fst (completeTask taskId url file now q)) = options q.
Proof.
  unfold completeTask. destruct (JsMap.get taskId (processingTasks q)); simpl;
    [|reflexivity].
  rewrite processNext_options. unfold updateStats.
  destruct (Task.getProcessingTime _); reflexivity.
Qed.

Lemma completeTask_bounded taskId url file now q :
  bounded q -> bounded (fst (completeTask taskId url file now q)).
Proof.
  unfold completeTask. intros Hb.
  destruct (JsMap.get taskId (processingTasks q)); simpl; [|exact Hb].
  apply processNext_bounded. unfold bounded in *.
  unfold updateStats. pose proof (JsMap_size_delete_le (processingTasks q) taskId).
  destruct (Task.getProcessingTime _); simpl; lia.
Qed.

Lemma failTask_options taskId reason now q :
  options (fst (failTask taskId reason now q)) = options q.
Proof.
  unfold failTask. destruct (JsMap.get taskId (processingTasks q)); simpl;
    [|reflexivity].
  destruct (_ <? _); simpl; now rewrite processNext_options.
Qed.

Lemma failTask_bounded taskId reason now q :
  bounded q -> bounded (fst (failTask taskId reason now q)).
Proof.
  unfold failTask. intros Hb.
  destruct (JsMap.get taskId (processingTasks q)); simpl; [|exact Hb].
  pose proof (JsMap_size_delete_le (processingTasks q) taskId).
  destruct (_ <? _); simpl; apply processNext_bounded; unfold bounded in *;
    simpl; lia.
Qed.

Lemma enqueue_options task now q :
  options (fst (enqueue task now q)) = options q.
Proof.
  unfold enqueue. destruct task as [task|]; [|reflexivity].
  destruct (_ =? _)%string; [reflexivity|].
  destruct (hasTask _ _); [reflexivity|].
  simpl. now rewrite processNext_options.
Qed.

Lemma enqueue_bounded task now q :
  bounded q -> bounded (fst (enqueue task now q)).
Proof.
  unfold enqueue. intros Hb. destruct task as [task|]; [|exact Hb].
  destruct (_ =? _)%string; [exact Hb|].
  destruct (hasTask _ _); [exact Hb|].
  simpl. apply processNext_bounded. exact Hb.
Qed.

Lemma failTimedOut_options ids now q :
  options (fst (failTimedOut ids now q)) = options q.
Proof.
  revert q. induction ids as [|id ids IH]; intros q; simpl; [reflexivity|].
  destruct (failTask id timeoutReason now _) as [q2 [u|m]] eqn:E.
  - rewrite IH. change q2 with (fst (q2, @Returned unit u)). rewrite <- E.
    now rewrite failTask_options.
  - simpl. change q2 with (fst (q2, @Thrown unit m)). rewrite <- E.
    now rewrite failTask_options.
Qed.

Lemma failTimedOut_bounded ids now q :
  bounded q -> bounded (fst (failTimedOut ids now q)).
Proof.
  revert q. induction ids as [|id ids IH]; intros q Hb; simpl; [exact Hb|].
  pose proof (failTask_bounded id timeoutReason now
                (emit (Event.taskTimeout (JsMap.get id (processingTasks q))) q) Hb)
    as Hb'.
  destruct (failTask id timeoutReason now _) as [q2 [u|m]]; simpl in *.
  - now apply IH.
  - exact Hb'.
Qed.

Lemma cleanupExpiredTasks_frame days now q :
  let q' := fst (cleanupExpiredTasks days now q) in
  options q' = options q /\ processingTasks q' = processingTasks q /\
  pendingQueue q' = pendingQueue q /\ stats q' = stats q /\
  timeoutCheckInterval q' = timeoutCheckInterval q.
Proof.
  unfold cleanupExpiredTasks.
  destruct (cleanupLoop _ _ _ _) as [kept expired].
  destruct expired; simpl; repeat split.
Qed.

Lemma step_options q c : options (step q c) = options q.
Proof.
  destruct c as [now []]; unfold step; simpl.
  - apply enqueue_options.
  - apply processNext_options.
  - apply completeTask_options.
  - apply failTask_options.
  - apply failTimedOut_options.
  - destruct (timeoutCheckInterval q); [apply failTimedOut_options|reflexivity].
  - apply cleanupExpiredTasks_frame.
  - unfold pause, stopTimeoutChecker. now destruct (timeoutCheckInterval q).
  - unfold resume. simpl. rewrite processNext_options.
    unfold startTimeoutChecker. now destruct (timeoutCheckInterval q).
Qed.

Lemma step_bounded q c : bounded q -> bounded (step q c).
Proof.
  intros Hb. destruct c as [now []]; unfold step; simpl.
  - now apply enqueue_bounded.
  - now apply processNext_bounded.
  - now apply completeTask_bounded.
  - now apply failTask_bounded.
  - now apply failTimedOut_bounded.
  - destruct (timeoutCheckInterval q); [now apply failTimedOut_bounded|exact Hb].
  - destruct (cleanupExpiredTasks_frame retentionDays now q) as (Ho & Hp & _).
    unfold bounded. rewrite Ho, Hp. exact Hb.
  - unfold pause, stopTimeoutChecker. now destruct (timeoutCheckInterval q).
  - unfold resume.
    assert (bounded (processNext now (startTimeoutChecker q))) as H.
    { apply processNext_bounded. unfold startTimeoutChecker.
      now destruct (timeoutCheckInterval q). }
    exact H.
Qed.

Lemma run_options calls q : options (run calls q) = options q.
Proof.
  revert q. induction calls as [|c calls IH]; intros q; simpl; [reflexivity|].
  unfold run in *. simpl. now rewrite IH, step_options.
Qed.

Lemma run_bounded calls q : bounded q -> bounded (run calls q).
Proof.
  revert q. induction calls as [|c calls IH]; intros q Hb; [exact Hb|].
  unfold run in *. simpl. apply IH. now apply step_bounded.
Qed.

End QueueBound.

Section Claim_C1.

Import TaskQueue.

(** C1.  Whatever calls are made on a freshly constructed queue whose
    [maxConcurrent] is not negative, the in-flight map never holds more than
    [maxConcurrent] records.  [processNext] leaves the queue exactly as it
    was when the in-flight count has reached [maxConcurrent] or nothing is
    pending; otherwise it admits one task, the head of the pending deque:
    the head is removed from the deque, its status becomes processing and
    its [startedAt] the current time, it is stored in the in-flight map
    under its id, [taskStarted] is emitted, and nothing else changes. *)
Theorem processNext_respects_maxConcurrent :
  forall (o : UserOptions) (calls : list (Z * Call)) (now : Z) (q : TaskQueue.t),
    0 <= maxConcurrent (options (new o)) ->
    JsMap.size (processingTasks (run calls (new o)))
      <= maxConcurrent (options (new o))
    /\ (JsMap.size (processingTasks q) >= maxConcurrent (options q)
        \/ pendingQueue q = [] ->
        processNext now q = q)
    /\ (JsMap.size (processingTasks q) < maxConcurrent (options q) ->
        forall task rest, pendingQueue q = task :: rest ->
          let started :=
            Task.mk (Task.taskId task) Task.processing (Task.config task)
                    (Task.imageUrl task) (Task.fileName task)
                    (Task.createdAt task) (Some now) (Task.completedAt task)
                    (Task.error task) (Task.retryCount task) in
          let q' := processNext now q in
          pendingQueue q' = rest
          /\ processingTasks q'
             = JsMap.set (Task.taskId task) started (processingTasks q)
          /\ JsMap.get (Task.taskId task) (processingTasks q') = Some started
          /\ JsMap.size (processingTasks q') <= JsMap.size (processingTasks q) + 1
          /\ emitted q' = Event.taskStarted started :: emitted q
          /\ completedTasks q' = completedTasks q
          /\ stats q' = stats q
          /\ options q' = options q
          /\ timeoutCheckInterval q' = timeoutCheckInterval q).
Proof.
  intros o calls now q Hmax. split; [|split].
  - pose proof (run_bounded calls (new o)) as H. unfold bounded in H.
    rewrite run_options in H. apply H. simpl.
    unfold JsMap.size. simpl. exact Hmax.
  - intros [Hfull|Hempty]; unfold processNext.
    + destruct (Z.geb_spec (JsMap.size (processingTasks q))
                           (maxConcurrent (options q))); [reflexivity|lia].
    + rewrite Hempty. now destruct (_ >=? _).
  - intros Hroom task rest Hpending. unfold processNext.
    destruct (Z.geb_spec (JsMap.size (processingTasks q))
                         (maxConcurrent (options q))); [lia|].
    rewrite Hpending. simpl. repeat split.
    + apply JsMap_get_set_same.
    + apply JsMap_size_set_le.
Qed.

End Claim_C1.

(** ** A scheme for invariants of the queue

    A property kept by each method, by the timer flag and by the events
    that carry no new record is kept by every sequence of calls. *)

Section QueueInvariant.

Import TaskQueue.

Variable I : TaskQueue.t -> Prop.
Variable admissible : Call -> Prop.

Hypothesis I_enqueue : forall task now q,
  admissible (Enqueue task) -> I q -> I (fst (enqueue task now q)).
Hypothesis I_processNext : forall now q, I q -> I (processNext now q).
Hypothesis I_completeTask : forall taskId url file now q,
  I q -> I (fst (completeTask taskId url file now q)).
Hypothesis I_failTask : forall taskId reason now q,
  I q -> I (fst (failTask taskId reason now q)).
Hypothesis I_cleanup : forall days now q,
  I q -> I (fst (cleanupExpiredTasks days now q)).
Hypothesis I_timer : forall b q, I q -> I (set_timeoutCheckInterval b q).
Hypothesis I_taskTimeout : forall taskId q,
  I q -> I (emit (Event.taskTimeout (JsMap.get taskId (processingTasks q))) q).
Hypothesis I_queuePaused : forall q, I q -> I (emit Event.queuePaused q).
Hypothesis I_queueResumed : forall q, I q -> I (emit Event.queueResumed q).

Lemma invariant_failTimedOut ids now q : I q -> I (fst (failTimedOut ids now q)).
Proof.
  revert q. induction ids as [|id ids IH]; intros q Hq; simpl; [exact Hq|].
  pose proof (I_failTask id timeoutReason now _ (I_taskTimeout id q Hq)) as H.
  destruct (failTask id timeoutReason now _) as [q2 [u|m]]; simpl in *.
  - now apply IH.
  - exact H.
Qed.

Lemma invariant_step q c : admissible (snd c) -> I q -> I (step q c).
Proof.
  intros Hc Hq. destruct c as [now c]. unfold step. simpl in *. destruct c.
  - now apply I_enqueue.
  - now apply I_processNext.
  - now apply I_completeTask.
  - now apply I_failTask.
  - now apply invariant_failTimedOut.
  - destruct (timeoutCheckInterval q); [now apply invariant_failTimedOut|exact Hq].
  - now apply I_cleanup.
  - unfold pause, stopTimeoutChecker. apply I_queuePaused.
    destruct (timeoutCheckInterval q); [now apply I_timer|exact Hq].
  - unfold resume, startTimeoutChecker. apply I_queueResumed, I_processNext.
    destruct (timeoutCheckInterval q); [exact Hq|now apply I_timer].
Qed.

Lemma invariant_run calls q :
  Forall (fun c => admissible (snd c)) calls -> I q -> I (run calls q).
Proof.
  revert q. induction calls as [|c calls IH]; intros q Hok Hq; [exact Hq|].
  inversion Hok; subst. unfold run in *. simpl.
  apply IH; [assumption|]. now apply invariant_step.
Qed.

End QueueInvariant.

(** ** The queue: retry budget *)

Section QueueBudget.

Import TaskQueue.

Lemma withinBudget_parts q : withinBudget q <-> budgetParts q.
Proof.
  unfold withinBudget, budgetParts, observable. split.
  - intros H. repeat split; intros.
    + apply H. rewrite !in_app_iff. tauto.
    + apply H. rewrite !in_app_iff. tauto.
    + apply H. rewrite !in_app_iff. tauto.
    + apply H. rewrite !in_app_iff, in_flat_map. right. right. right. eauto.
  - intros (Hp & Hr & Hc & He) k. rewrite !in_app_iff, in_flat_map.
    intros [H|[H|[H|[e [H1 H2]]]]]; eauto.
Qed.

Lemma budget_processNext now q : budgetParts q -> budgetParts (processNext now q).
Proof.
  unfold processNext. intros Hq.
  destruct (_ >=? _); [exact Hq|].
  destruct (pendingQueue q) as [|task rest] eqn:Hpending; [exact Hq|].
  destruct Hq as (Hp & Hr & Hc & He). rewrite Hpending in Hp.
  unfold budgetParts. simpl. repeat split.
  - intros k Hk. apply Hp. now right.
  - intros k Hk. apply JsMap_In_values_set in Hk. destruct Hk as [->|Hk].
    + simpl. apply Hp. now left.
    + now apply Hr.
  - exact Hc.
  - intros e k [<-|Hin] Hk.
    + simpl in Hk. destruct Hk as [<-|[]]. simpl. apply Hp. now left.
    + eapply He; eassumption.
Qed.

Lemma budget_completeTask taskId url file now q :
  budgetParts q -> budgetParts (fst (completeTask taskId url file now q)).
Proof.
  unfold completeTask. intros Hq.
  destruct (JsMap.get taskId (processingTasks q)) as [task|] eqn:Hget; simpl;
    [|exact Hq].
  apply budget_processNext.
  destruct Hq as (Hp & Hr & Hc & He).
  pose proof (Hr task (JsMap_get_In_values _ _ _ Hget)) as Htask.
  assert (forall s, budgetParts
            (emit (Event.taskCompleted (Task.complete url file now task))
               (set_stats s
                  (set_completedTasks
                     (JsMap.set taskId (Task.complete url file now task)
                                (completedTasks q))
                     (set_processingTasks
                        (JsMap.delete taskId (processingTasks q)) q))))) as H.
  { intros s. unfold budgetParts. simpl. repeat split.
    - exact Hp.
    - intros k Hk. apply Hr. eapply JsMap_In_values_delete; eassumption.
    - intros k Hk. apply JsMap_In_values_set in Hk.
      destruct Hk as [->|Hk]; [exact Htask|now apply Hc].
    - intros e k [<-|Hin] Hk.
      + simpl in Hk. destruct Hk as [<-|[]]. exact Htask.
      + eapply He; eassumption. }
  unfold updateStats. destruct (Task.getProcessingTime _); apply H.
Qed.

Lemma budget_failTask taskId reason now q :
  budgetParts q -> budgetParts (fst (failTask taskId reason now q)).
Proof.
  unfold failTask. intros Hq.
  destruct (JsMap.get taskId (processingTasks q)) as [task|] eqn:Hget; simpl;
    [|exact Hq].
  destruct Hq as (Hp & Hr & Hc & He).
  pose proof (Hr task (JsMap_get_In_values _ _ _ Hget)) as Htask.
  destruct (Z.ltb_spec (Task.retryCount task) (retryAttempts (options q)))
    as [Hlt|Hge]; simpl; apply budget_processNext; unfold budgetParts; simpl;
    repeat split.
  - intros k [<-|Hk]; [simpl; lia|now apply Hp].
  - intros k Hk. apply Hr. eapply JsMap_In_values_delete; eassumption.
  - exact Hc.
  - intros e k [<-|Hin] Hk.
    + simpl in Hk. destruct Hk as [<-|[]]. simpl. lia.
    + eapply He; eassumption.
  - exact Hp.
  - intros k Hk. apply Hr. eapply JsMap_In_values_delete; eassumption.
  - intros k Hk. apply JsMap_In_values_set in Hk.
    destruct Hk as [->|Hk]; [exact Htask|now apply Hc].
  - intros e k [<-|Hin] Hk.
    + simpl in Hk. destruct Hk as [<-|[]]. exact Htask.
    + eapply He; eassumption.
Qed.

Lemma budget_enqueue task now q :
  enqueuesWithin (retryAttempts (options q)) (Enqueue task) ->
  budgetParts q -> budgetParts (fst (enqueue task now q)).
Proof.
  unfold enqueue. intros Hok Hq. destruct task as [task|]; [|exact Hq].
  destruct (_ =? _)%string; [exact Hq|].
  destruct (hasTask _ _); [exact Hq|].
  simpl. apply budget_processNext.
  destruct Hq as (Hp & Hr & Hc & He). simpl in Hok.
  unfold budgetParts. simpl. repeat split; try assumption.
  - intros k Hk. apply in_app_iff in Hk.
    destruct Hk as [Hk|[<-|[]]]; [now apply Hp|exact Hok].
  - intros e k [<-|Hin] Hk.
    + simpl in Hk. destruct Hk as [<-|[]]. exact Hok.
    + eapply He; eassumption.
Qed.

Lemma cleanupLoop_sub days now entries acc :
  let r := cleanupLoop days now entries acc in
  (forall k, In k (JsMap.values (fst r)) -> In k (JsMap.values (fst acc)))
  /\ (forall k, In k (snd r) -> In k (snd acc) \/ In k (JsMap.values entries)).
Proof.
  unfold cleanupLoop. revert acc.
  induction entries as [|[id task] entries IH]; intros acc; simpl.
  - split; auto.
  - destruct (Task.isExpired days now task).
    + destruct (IH (JsMap.delete id (fst acc), snd acc ++ [task])) as [H1 H2].
      simpl in *. split.
      * intros k Hk. eapply JsMap_In_values_delete. apply H1, Hk.
      * intros k Hk. destruct (H2 k Hk) as [H|H]; [|tauto].
        apply in_app_iff in H. destruct H as [H|[<-|[]]]; tauto.
    + destruct (IH acc) as [H1 H2]. split; [exact H1|].
      intros k Hk. destruct (H2 k Hk); tauto.
Qed.

Lemma budget_cleanup days now q :
  budgetParts q -> budgetParts (fst (cleanupExpiredTasks days now q)).
Proof.
  unfold cleanupExpiredTasks. intros (Hp & Hr & Hc & He).
  pose proof (cleanupLoop_sub days now (completedTasks q) (completedTasks q, []))
    as [H1 H2].
  destruct (cleanupLoop _ _ _ _) as [kept expired]. simpl in H1, H2.
  assert (forall k, In k expired ->
            Task.retryCount k <= retryAttempts (options q)) as Hexp.
  { intros k Hk. destruct (H2 k Hk) as [[]|H]. now apply Hc. }
  destruct expired as [|x expired]; unfold budgetParts; simpl;
    repeat split; auto.
  intros e k [<-|Hin] Hk; [now apply Hexp|eapply He; eassumption].
Qed.

Lemma budget_run calls q :
  Forall (fun c => enqueuesWithin (retryAttempts (options q)) (snd c)) calls ->
  withinBudget q -> withinBudget (run calls q).
Proof.
  intros Hcalls Hq. apply withinBudget_parts.
  apply withinBudget_parts in Hq.
  apply (invariant_run
           (fun q' => options q' = options q /\ budgetParts q')
           (enqueuesWithin (retryAttempts (options q)))); try assumption;
    try (now split).
  - intros task now q' Hok [Ho Hb]. split.
    + now rewrite enqueue_options.
    + apply budget_enqueue; [now rewrite Ho|assumption].
  - intros now q' [Ho Hb]. split;
      [now rewrite processNext_options|now apply budget_processNext].
  - intros id url file now q' [Ho Hb]. split;
      [now rewrite completeTask_options|now apply budget_completeTask].
  - intros id reason now q' [Ho Hb]. split;
      [now rewrite failTask_options|now apply budget_failTask].
  - intros days now q' [Ho Hb]. split; [|now apply budget_cleanup].
    destruct (cleanupExpiredTasks_frame days now q') as [-> _]. exact Ho.
  - intros id q' [Ho (Hp & Hr & Hc & He)]. split; [exact Ho|].
    unfold budgetParts. simpl. repeat split; try assumption.
    intros e k [<-|Hin] Hk; [|eapply He; eassumption].
    destruct (JsMap.get id (processingTasks q')) as [task|] eqn:Hget;
      simpl in Hk; [|contradiction].
    destruct Hk as [<-|[]]. apply Hr. eapply JsMap_get_In_values; eassumption.
  - intros q' [Ho (Hp & Hr & Hc & He)]. split; [exact Ho|].
    unfold budgetParts. simpl. repeat split; try assumption.
    intros e k [<-|Hin] Hk; [contradiction|eapply He; eassumption].
  - intros q' [Ho (Hp & Hr & Hc & He)]. split; [exact Ho|].
    unfold budgetParts. simpl. repeat split; try assumption.
    intros e k [<-|Hin] Hk; [contradiction|eapply He; eassumption].
Qed.

End QueueBudget.

Section Claim_C2.

Import TaskQueue.

(** C2.  For a task id held in the in-flight map, [failTask] with the
    record's [retryCount] below [retryAttempts] increments [retryCount],
    sets the status to pending, clears the error, removes the record from
    the in-flight map, pushes it at the head of the pending deque and emits
    [taskRetry]; otherwise it sets the status to failed, the error to the
    reason and [completedAt] to the current time, moves the record to the
    completed archive, counts it in [totalFailed] and emits [taskFailed].
    Either way it ends with one admission attempt.  As a consequence, when
    the records handed to [enqueue] are within the retry budget (a record
    fresh from the constructor has [retryCount] 0), every record in the
    three containers and every record handed to a listener has
    [retryCount <= retryAttempts], after any sequence of calls. *)
Theorem failTask_retries_within_budget :
  forall (q : TaskQueue.t) (taskId reason : string) (now : Z) (task : Task.t)
         (o : UserOptions) (calls : list (Z * Call)),
    JsMap.get taskId (processingTasks q) = Some task ->
    (Task.retryCount task < retryAttempts (options q) ->
       let retried :=
         Task.mk (Task.taskId task) Task.pending (Task.config task)
                 (Task.imageUrl task) (Task.fileName task) (Task.createdAt task)
                 (Task.startedAt task) (Task.completedAt task) None
                 (Task.retryCount task + 1) in
       exists q',
         failTask taskId reason now q = (processNext now q', Returned tt)
         /\ processingTasks q' = JsMap.delete taskId (processingTasks q)
         /\ JsMap.get taskId (processingTasks q') = None
         /\ pendingQueue q' = retried :: pendingQueue q
         /\ emitted q' = Event.taskRetry retried :: emitted q
         /\ completedTasks q' = completedTasks q
         /\ stats q' = stats q
         /\ options q' = options q)
    /\ (~ Task.retryCount task < retryAttempts (options q) ->
       let failed :=
         Task.mk (Task.taskId task) Task.failed (Task.config task)
                 (Task.imageUrl task) (Task.fileName task) (Task.createdAt task)
                 (Task.startedAt task) (Some now) (Some reason)
                 (Task.retryCount task) in
       exists q',
         failTask taskId reason now q = (processNext now q', Returned tt)
         /\ processingTasks q' = JsMap.delete taskId (processingTasks q)
         /\ JsMap.get taskId (processingTasks q') = None
         /\ completedTasks q' = JsMap.set taskId failed (completedTasks q)
         /\ JsMap.get taskId (completedTasks q') = Some failed
         /\ emitted q' = Event.taskFailed failed :: emitted q
         /\ pendingQueue q' = pendingQueue q
         /\ totalFailed (stats q') = totalFailed (stats q) + 1
         /\ totalProcessed (stats q') = totalProcessed (stats q)
         /\ options q' = options q)
    /\ (Forall (fun c => enqueuesWithin (retryAttempts (options (new o))) (snd c))
               calls ->
        withinBudget (run calls (new o))
        /\ forall k, In k (observable (run calls (new o))) ->
             Task.retryCount k <= retryAttempts (options (new o))).
Proof.
  intros q taskId reason now task o calls Hget. split; [|split].
  - intros Hlt. unfold failTask. rewrite Hget.
    destruct (Z.ltb_spec (Task.retryCount task) (retryAttempts (options q)));
      [|lia].
    eexists. split; [reflexivity|]. simpl. repeat split.
    apply JsMap_get_delete_same.
  - intros Hge. unfold failTask. rewrite Hget.
    destruct (Z.ltb_spec (Task.retryCount task) (retryAttempts (options q)));
      [contradiction|].
    eexists. split; [reflexivity|]. simpl. repeat split.
    + apply JsMap_get_delete_same.
    + apply JsMap_get_set_same.
  - intros Hcalls.
    assert (withinBudget (run calls (new o))) as H.
    { apply budget_run; [exact Hcalls|]. intros k Hk. destruct Hk. }
    split; [exact H|]. intros k Hk. specialize (H k Hk).
    now rewrite run_options in H.
Qed.

End Claim_C2.

Section Claim_C10.

Import TaskQueue.

(** C10.  For a task id that is not in the in-flight map, [completeTask]
    and [failTask] each throw the error "Task <id> not found in processing
    queue" and leave the queue as it was: the three containers with every
    record in them, the statistics and the history of emitted events. *)
Theorem unknown_id_throws_and_changes_nothing :
  forall (q : TaskQueue.t) (taskId : string) (imageUrl fileName : option string)
         (reason : string) (now : Z),
    JsMap.get taskId (processingTasks q) = None ->
    completeTask taskId imageUrl fileName now q
      = (q, Thrown ("Task " ++ taskId ++ " not found in processing queue")%string)
    /\ failTask taskId reason now q
      = (q, Thrown ("Task " ++ taskId ++ " not found in processing queue")%string).
Proof.
  intros q taskId imageUrl fileName reason now Hget.
  unfold completeTask, failTask. rewrite Hget. split; reflexivity.
Qed.

End Claim_C10.

(** ** The health endpoint *)

Section Claim_C7.

Import App.

Lemma getSystemHealth_pending m heapUsed oss :
  let pending :=
    TaskQueue.QueueStatus.pendingTasks (TaskManager.getStatistics m) in
  getSystemHealth m heapUsed oss
  = mkHealthResponse
      (if pending <? 1000 then 200 else 503)
      (if pending <? 1000 then "System is healthy" else "System has issues")
      (if pending <? 1000 then "ok" else "degraded")
      (if pending <? 1000 then "ok" else "warning")
      (if heapUsed <? 500 * 1024 * 1024 then "ok" else "warning")
      (ossStatus (getSystemHealth m heapUsed oss))
      (ossError (getSystemHealth m heapUsed oss)).
Proof.
  unfold getSystemHealth. destruct oss; reflexivity.
Qed.

(** C7, as amended.  The health endpoint answers 503 with status
    "degraded" exactly when at least 1000 tasks are pending, and 200 with
    status "ok" ("System is healthy") otherwise.  Memory usage has no part
    in the status code: a heap of 500 MiB or more only turns the memory
    check of the response body to "warning". *)
Theorem health_degraded_iff_thousand_pending :
  forall (m : TaskManager.t) (heapUsed : Z) (oss : OssProbe),
    let pending :=
      TaskQueue.QueueStatus.pendingTasks (TaskManager.getStatistics m) in
    let response := getSystemHealth m heapUsed oss in
    (statusCode response = 503 /\ status response = "degraded"%string
       <-> 1000 <= pending)
    /\ (statusCode response = 200 /\ status response = "ok"%string
          /\ msg response = "System is healthy"%string
       <-> pending < 1000)
    /\ (checkMemory response = "warning"%string
       <-> 500 * 1024 * 1024 <= heapUsed)
    /\ statusCode response = statusCode (getSystemHealth m 0 oss).
Proof.
  intros m heapUsed oss pending response. subst response.
  rewrite (getSystemHealth_pending m heapUsed oss).
  rewrite (getSystemHealth_pending m 0 oss). fold pending. simpl.
  destruct (Z.ltb_spec pending 1000); destruct (Z.ltb_spec heapUsed 524288000);
    repeat split; intros; try lia; try discriminate;
    try (match goal with H : _ /\ _ |- _ => destruct H; discriminate end).
Qed.

End Claim_C7.

(** ** The cleanup scheduler *)

Section CleanupFacts.

Import CleanupService.

Variable attempts : Z -> Attempt.

Lemma retryLoop_frame remaining attempt lastError s :
  let s' := fst (retryLoop attempts remaining attempt lastError s) in
  cleanupStats s' = cleanupStats s /\ maxRetries s' = maxRetries s
  /\ lastCleanupTime s' = lastCleanupTime s /\ isRunning s' = isRunning s
  /\ timerArmed s' = timerArmed s.
Proof.
  revert attempt lastError s.
  induction remaining as [|remaining IH]; intros attempt lastError s; simpl.
  - repeat split.
  - destruct (attempts attempt); simpl; [repeat split|].
    destruct (attempt <? maxRetries s).
    + destruct (IH (attempt + 1) (Some error)
                   (mk (maxRetries s) (cleanupStats s) (lastCleanupTime s)
                       (isRunning s) (timerArmed s) (5000 * attempt :: delays s)))
        as (H1 & H2 & H3 & H4 & H5).
      simpl in *. repeat split; assumption.
    + apply IH.
Qed.

Lemma retryLoop_all_reject remaining attempt lastError s :
  (forall n, attempt <= n < attempt + Z.of_nat remaining ->
             exists e, attempts n = Rejects e) ->
  (remaining <> O \/ lastError <> None) ->
  exists e, snd (retryLoop attempts remaining attempt lastError s)
            = Rejected (Some e).
Proof.
  revert attempt lastError s.
  induction remaining as [|remaining IH]; intros attempt lastError s Hall Hne;
    simpl.
  - destruct Hne as [H|H]; [congruence|].
    destruct lastError as [e|]; [now exists e|congruence].
  - destruct (Hall attempt) as [e He]; [lia|]. rewrite He.
    apply IH; [|right; discriminate].
    intros n Hn. apply Hall. lia.
Qed.

Lemma retryLoop_first_success (k : nat) result remaining attempt lastError s :
  (k < remaining)%nat ->
  attempts (attempt + Z.of_nat k) = Resolves result ->
  (forall n, attempt <= n < attempt + Z.of_nat k ->
             exists e, attempts n = Rejects e) ->
  snd (retryLoop attempts remaining attempt lastError s) = Fulfilled result.
Proof.
  revert remaining attempt lastError s.
  induction k as [|k IH]; intros remaining attempt lastError s Hk Hres Hrej;
    (destruct remaining as [|remaining]; [lia|]); simpl.
  - rewrite Z.add_0_r in Hres. now rewrite Hres.
  - destruct (Hrej attempt) as [e He]; [lia|]. rewrite He.
    apply IH; [lia| |].
    + rewrite <- Hres. f_equal. lia.
    + intros n Hn. apply Hrej. lia.
Qed.

End CleanupFacts.

Section Claim_C9.

Import CleanupService.

(** C9, as amended.  When at least one attempt is made and every attempt
    of a scheduled cleanup cycle throws, the cycle leaves [totalRuns],
    [totalTasksCleaned] and [totalFilesCleaned] unchanged and adds one to
    [totalErrors]; when an attempt succeeds, the attempts before it having
    thrown, the cycle adds one to [totalRuns] and adds that attempt's
    cleaned tasks, deleted files and number of errors to the three
    totals. *)
Theorem cleanup_cycle_statistics :
  forall (attempts : Z -> Attempt) (startTime endTime : Z) (s : CleanupService.t),
    let before := cleanupStats s in
    let after := cleanupStats (fst (runCleanupCycle attempts startTime endTime s)) in
    (1 <= maxRetries s ->
     (forall n, 1 <= n <= maxRetries s -> exists e, attempts n = Rejects e) ->
       totalRuns after = totalRuns before
       /\ totalTasksCleaned after = totalTasksCleaned before
       /\ totalFilesCleaned after = totalFilesCleaned before
       /\ totalErrors after = totalErrors before + 1
       /\ lastRunDuration after = lastRunDuration before
       /\ snd (runCleanupCycle attempts startTime endTime s) = Fulfilled tt)
    /\ (forall (k : Z) (result : CleanupResult),
          1 <= k <= maxRetries s ->
          attempts k = Resolves result ->
          (forall n, 1 <= n < k -> exists e, attempts n = Rejects e) ->
            totalRuns after = totalRuns before + 1
            /\ totalTasksCleaned after
               = totalTasksCleaned before + cleanedTasks result
            /\ totalFilesCleaned after
               = totalFilesCleaned before + deletedFiles result
            /\ totalErrors after
               = totalErrors before + Z.of_nat (List.length (errors result))
            /\ lastRunDuration after = endTime - startTime
            /\ snd (runCleanupCycle attempts startTime endTime s) = Fulfilled tt).
Proof.
  intros attempts startTime endTime s before after. subst before after.
  unfold runCleanupCycle, executeCleanupWithRetry.
  pose proof (retryLoop_frame attempts (Z.to_nat (maxRetries s)) 1 None s)
    as (Hstats & _).
  split.
  - intros Hone Hall.
    destruct (retryLoop_all_reject attempts (Z.to_nat (maxRetries s)) 1 None s)
      as [e He].
    { intros n Hn. apply Hall. lia. }
    { left. lia. }
    destruct (retryLoop _ _ _ _ _) as [s1 settled]. simpl in *. subst settled.
    rewrite <- Hstats. destruct (isRunning s1); simpl; repeat split.
  - intros k result Hk Hres Hrej.
    pose proof (retryLoop_first_success attempts (Z.to_nat (k - 1)) result
                  (Z.to_nat (maxRetries s)) 1 None s) as Hok.
    replace (1 + Z.of_nat (Z.to_nat (k - 1))) with k in Hok by lia.
    specialize (Hok ltac:(lia) Hres).
    assert (forall n, 1 <= n < k -> exists e, attempts n = Rejects e) as Hrej'
        by exact Hrej.
    specialize (Hok Hrej').
    destruct (retryLoop _ _ _ _ _) as [s1 settled]. simpl in *. subst settled.
    rewrite <- Hstats. destruct (isRunning s1); simpl; repeat split.
Qed.

End Claim_C9.

(** ** The queue: statistics *)

Section QueueStatistics.

Import TaskQueue.

Lemma completions_cons e history :
  completions (e :: history)
  = (match e with Event.taskCompleted _ => 1 | _ => 0 end) + completions history.
Proof.
  unfold completions. simpl. destruct e; simpl List.length; lia.
Qed.

Lemma failures_cons e history :
  failures (e :: history)
  = (match e with Event.taskFailed _ => 1 | _ => 0 end) + failures history.
Proof.
  unfold failures. simpl. destruct e; simpl List.length; lia.
Qed.

Arguments completions : simpl never.
Arguments failures : simpl never.

Lemma counted_processNext low dp df now q :
  counted low dp df q -> counted low dp df (processNext now q).
Proof.
  unfold processNext. intros Hq.
  destruct (_ >=? _); [exact Hq|].
  destruct (pendingQueue q); [exact Hq|].
  unfold counted in *. cbn. now rewrite completions_cons, failures_cons.
Qed.

Lemma counted_completeTask low dp df taskId url file now q :
  counted low dp df q ->
  counted low dp df (fst (completeTask taskId url file now q)).
Proof.
  unfold completeTask. intros Hq.
  destruct (JsMap.get taskId (processingTasks q)) as [task|]; simpl; [|exact Hq].
  apply counted_processNext. destruct Hq as (Hlow & Hp & Hf).
  unfold counted, updateStats in *.
  destruct (Task.getProcessingTime _); cbn;
    rewrite completions_cons, failures_cons; lia.
Qed.

Lemma counted_failTask low dp df taskId reason now q :
  counted low dp df q -> counted low dp df (fst (failTask taskId reason now q)).
Proof.
  unfold failTask. intros Hq.
  destruct (JsMap.get taskId (processingTasks q)) as [task|]; simpl; [|exact Hq].
  destruct Hq as (Hlow & Hp & Hf).
  destruct (_ <? _); simpl; apply counted_processNext;
    unfold counted in *; cbn; rewrite completions_cons, failures_cons; lia.
Qed.

Lemma counted_enqueue low dp df task now q :
  counted low dp df q -> counted low dp df (fst (enqueue task now q)).
Proof.
  unfold enqueue. intros Hq. destruct task as [task|]; [|exact Hq].
  destruct (_ =? _)%string; [exact Hq|].
  destruct (hasTask _ _); [exact Hq|].
  simpl. apply counted_processNext.
  unfold counted in *. cbn. now rewrite completions_cons, failures_cons.
Qed.

Lemma counted_cleanup low dp df days now q :
  counted low dp df q -> counted low dp df (fst (cleanupExpiredTasks days now q)).
Proof.
  unfold cleanupExpiredTasks. intros Hq.
  destruct (cleanupLoop _ _ _ _) as [kept expired].
  destruct expired; [exact Hq|].
  unfold counted in *. cbn. now rewrite completions_cons, failures_cons.
Qed.

Lemma counted_run low dp df calls q :
  counted low dp df q -> counted low dp df (run calls q).
Proof.
  intros Hq.
  apply (invariant_run (counted low dp df) (fun _ => True)); try assumption.
  - intros. now apply counted_enqueue.
  - intros. now apply counted_processNext.
  - intros. now apply counted_completeTask.
  - intros. now apply counted_failTask.
  - intros. now apply counted_cleanup.
  - intros b q' Hq'. exact Hq'.
  - intros id q' Hq'. unfold counted in *. cbn.
    now rewrite completions_cons, failures_cons.
  - intros q' Hq'. unfold counted in *. cbn.
    now rewrite completions_cons, failures_cons.
  - intros q' Hq'. unfold counted in *. cbn.
    now rewrite completions_cons, failures_cons.
  - apply Forall_forall. trivial.
Qed.

Lemma run_app calls more q : run (calls ++ more) q = run more (run calls q).
Proof. unfold run. apply fold_left_app. Qed.

(** C4, as amended.  Over every sequence of calls, [totalProcessed] never
    decreases, and on a queue that started empty it equals the number of
    records that reached the completed state; the records that reached the
    failed state are counted by [totalFailed] instead, and retention
    cleanup changes neither counter. *)
Theorem totalProcessed_counts_completions :
  forall (o : UserOptions) (calls more : list (Z * Call)) (days now : Z),
    let q := run calls (new o) in
    totalProcessed (stats q) <= totalProcessed (stats (run more q))
    /\ totalProcessed (stats q) = completions (emitted q)
    /\ totalFailed (stats q) = failures (emitted q)
    /\ stats (fst (cleanupExpiredTasks days now q)) = stats q.
Proof.
  intros o calls more days now q.
  assert (counted 0 0 0 q) as (_ & Hp & Hf).
  { apply counted_run. unfold counted. simpl. lia. }
  assert (counted (totalProcessed (stats q)) 0 0 (run more q)) as (Hlow & _).
  { apply counted_run. unfold counted. lia. }
  repeat split; try lia.
  apply cleanupExpiredTasks_frame.
Qed.

End QueueStatistics.

(** ** The queue: identity of the records in flight *)

Section QueueWellFormed.

Import TaskQueue.

Lemma NoDup_snoc {A} (l : list A) (x : A) :
  NoDup l -> ~ In x l -> NoDup (l ++ [x]).
Proof.
  intros Hnd Hx. apply NoDup_app. repeat split.
  - exact Hnd.
  - constructor; [intros []|constructor].
  - intros y Hy [<-|[]]. contradiction.
Qed.

Lemma JsMap_In_get {V} (m : JsMap.t V) k v :
  NoDup (JsMap.keys m) -> In (k, v) m -> JsMap.get k m = Some v.
Proof.
  unfold JsMap.keys. induction m as [|[k' v'] m IH]; simpl; [intros _ []|].
  intros Hnd [Heq|Hin].
  - inversion Heq; subst. now rewrite String.eqb_refl.
  - inversion Hnd as [|? ? Hnotin Hnd']; subst.
    destruct (String.eqb_spec k k') as [->|Hne]; [|now apply IH].
    exfalso. apply Hnotin. change k' with (fst (k', v)). now apply in_map.
Qed.

Lemma wellFormed_emit e q : wellFormed q -> wellFormed (emit e q).
Proof. intros H. exact H. Qed.

Lemma wellFormed_processNext now q :
  wellFormed q -> wellFormed (processNext now q).
Proof.
  unfold processNext. intros Hq.
  destruct (_ >=? _); [exact Hq|].
  destruct (pendingQueue q) as [|task rest] eqn:Hpending; [exact Hq|].
  destruct Hq as (Hp & Hr & Hd & He). rewrite Hpending in Hp, Hd.
  simpl in Hp. inversion Hp as [|? ? Hnotin Hp']; subst.
  assert (JsMap.get (Task.taskId task) (processingTasks q) = None) as Hfresh
      by (apply Hd; now left).
  unfold wellFormed. simpl. repeat split.
  - exact Hp'.
  - rewrite JsMap_keys_set_fresh by exact Hfresh.
    apply NoDup_snoc; [exact Hr|]. now apply JsMap_get_None_keys.
  - intros k Hk. rewrite JsMap_get_set_other; [apply Hd; now right|].
    intros Heq. apply Hnotin. rewrite Heq. now apply in_map.
  - apply JsMap_In_set in H. destruct H as [[= -> ->]|H]; [reflexivity|].
    now apply (He id k).
  - apply JsMap_In_set in H. destruct H as [[= -> ->]|H]; [reflexivity|].
    now apply (He id k).
  - apply JsMap_In_set in H. destruct H as [[= -> ->]|H]; [now exists now|].
    now apply (He id k).
Qed.

(** Removing a record from the in-flight map, whether it is dropped or
    pushed back at the head of the pending deque. *)
Lemma wellFormed_delete taskId q :
  wellFormed q ->
  wellFormed (set_processingTasks (JsMap.delete taskId (processingTasks q)) q).
Proof.
  intros (Hp & Hr & Hd & He). unfold wellFormed. simpl. repeat split.
  - exact Hp.
  - now apply JsMap_keys_delete_NoDup.
  - intros k Hk. apply JsMap_get_None_keys. intros Hin.
    apply JsMap_keys_delete_In in Hin. destruct Hin as [Hin _].
    revert Hin. apply JsMap_get_None_keys. now apply Hd.
  - apply JsMap_In_delete in H. now apply (He id k).
  - apply JsMap_In_delete in H. now apply (He id k).
  - apply JsMap_In_delete in H. now apply (He id k).
Qed.

Lemma wellFormed_requeue taskId task q :
  wellFormed q ->
  JsMap.get taskId (processingTasks q) = Some task ->
  wellFormed
    (set_pendingQueue
       (Task.retry task :: pendingQueue q)
       (set_processingTasks (JsMap.delete taskId (processingTasks q)) q)).
Proof.
  intros Hq Hget.
  pose proof (wellFormed_delete taskId q Hq) as (Hp' & Hr' & Hd' & He').
  destruct Hq as (Hp & Hr & Hd & He).
  destruct (He taskId task (JsMap_get_In _ _ _ Hget)) as (Hid & _).
  unfold wellFormed. simpl in *. repeat split.
  - constructor; [|exact Hp]. rewrite Hid. intros Hin.
    apply in_map_iff in Hin. destruct Hin as [k [Hk Hin]].
    specialize (Hd k Hin). rewrite Hk in Hd. congruence.
  - exact Hr'.
  - intros k [<-|Hk]; [|now apply Hd'].
    simpl. rewrite Hid. apply JsMap_get_delete_same.
  - now apply (He' id k).
  - now apply (He' id k).
  - now apply (He' id k).
Qed.

Lemma wellFormed_completeTask taskId url file now q :
  wellFormed q -> wellFormed (fst (completeTask taskId url file now q)).
Proof.
  unfold completeTask. intros Hq.
  destruct (JsMap.get taskId (processingTasks q)) as [task|]; simpl; [|exact Hq].
  apply wellFormed_processNext.
  pose proof (wellFormed_delete taskId q Hq) as H.
  unfold updateStats. destruct (Task.getProcessingTime _); exact H.
Qed.

Lemma wellFormed_failTask taskId reason now q :
  wellFormed q -> wellFormed (fst (failTask taskId reason now q)).
Proof.
  unfold failTask. intros Hq.
  destruct (JsMap.get taskId (processingTasks q)) as [task|] eqn:Hget; simpl;
    [|exact Hq].
  destruct (_ <? _); simpl; apply wellFormed_processNext.
  - exact (wellFormed_requeue taskId task q Hq Hget).
  - exact (wellFormed_delete taskId q Hq).
Qed.

Lemma hasTask_false taskId q :
  hasTask taskId q = false ->
  JsMap.get taskId (processingTasks q) = None
  /\ JsMap.get taskId (completedTasks q) = None
  /\ forall k, In k (pendingQueue q) -> Task.taskId k <> taskId.
Proof.
  unfold hasTask, getTask, JsMap.has.
  destruct (JsMap.get taskId (processingTasks q)) as [k|] eqn:Hr; simpl;
    [discriminate|].
  destruct (JsMap.get taskId (completedTasks q)) as [k|] eqn:Hc; simpl;
    [discriminate|].
  destruct (find _ _) as [k|] eqn:Hf; [discriminate|]. intros _.
  repeat split. intros k Hk Heq.
  pose proof (find_none _ _ Hf k Hk) as Hno. simpl in Hno.
  rewrite Heq, String.eqb_refl in Hno. discriminate.
Qed.

Lemma wellFormed_enqueue task now q :
  wellFormed q -> wellFormed (fst (enqueue task now q)).
Proof.
  unfold enqueue. intros Hq. destruct task as [task|]; [|exact Hq].
  destruct (_ =? _)%string; [exact Hq|].
  destruct (hasTask _ _) eqn:Hhas; [exact Hq|].
  apply hasTask_false in Hhas. destruct Hhas as (Hnr & _ & Hnp).
  simpl. apply wellFormed_processNext.
  destruct Hq as (Hp & Hr & Hd & He).
  unfold wellFormed. simpl. repeat split.
  - rewrite map_app. simpl. apply NoDup_snoc; [exact Hp|].
    intros Hin. apply in_map_iff in Hin. destruct Hin as [k [Hk Hin]].
    now apply (Hnp k Hin).
  - exact Hr.
  - intros k Hk. apply in_app_iff in Hk.
    destruct Hk as [Hk|[<-|[]]]; [now apply Hd|exact Hnr].
  - now apply (He id k).
  - now apply (He id k).
  - now apply (He id k).
Qed.

Lemma wellFormed_cleanup days now q :
  wellFormed q -> wellFormed (fst (cleanupExpiredTasks days now q)).
Proof.
  unfold cleanupExpiredTasks. intros Hq.
  destruct (cleanupLoop _ _ _ _) as [kept expired].
  destruct expired; exact Hq.
Qed.

Lemma wellFormed_run calls q : wellFormed q -> wellFormed (run calls q).
Proof.
  intros Hq.
  apply (invariant_run wellFormed (fun _ => True)); try assumption.
  - intros. now apply wellFormed_enqueue.
  - intros. now apply wellFormed_processNext.
  - intros. now apply wellFormed_completeTask.
  - intros. now apply wellFormed_failTask.
  - intros. now apply wellFormed_cleanup.
  - intros b q' Hq'. exact Hq'.
  - intros id q' Hq'. exact Hq'.
  - intros q' Hq'. exact Hq'.
  - intros q' Hq'. exact Hq'.
  - apply Forall_forall. trivial.
Qed.

Lemma wellFormed_new o : wellFormed (new o).
Proof.
  unfold wellFormed. simpl. repeat split; try constructor; intros; contradiction.
Qed.

End QueueWellFormed.

(** ** The queue: the timeout sweep *)

Section TimeoutSweep.

Import TaskQueue.

Lemma Qlt_bool_div (t a d : Z) :
  0 < d ->
  Qlt_bool (inject_Z t) (inject_Z a / inject_Z d)%Q = true <-> d * t < a.
Proof.
  intros Hd. unfold Qlt_bool. rewrite negb_true_iff.
  rewrite <- not_true_iff_false, Qle_bool_iff.
  destruct d as [|p|p]; try lia.
  unfold Qle, Qdiv, Qmult, Qinv, inject_Z. cbn [Qnum Qden Pos.mul].
  lia.
Qed.

(** A record has timed out when it is processing and more than
    [timeoutSeconds] seconds have passed since it started. *)
Lemma isTimeout_true timeoutSeconds now k :
  Task.isTimeout timeoutSeconds now k = true
  <-> Task.status k = Task.processing
      /\ exists s, Task.startedAt k = Some s /\ 1000 * timeoutSeconds < now - s.
Proof.
  unfold Task.isTimeout.
  destruct (Task.status k); destruct (Task.startedAt k) as [s|];
    try (split; [discriminate|intros [H [s' [H' _]]]; discriminate]).
  rewrite Qlt_bool_div by lia. split.
  - intros H. split; [reflexivity|]. now exists s.
  - intros [_ [s' [[= <-] H]]]. exact H.
Qed.

(** A record is expired when more than [retentionDays] days have passed
    since it was created. *)
Lemma isExpired_true retentionDays now k :
  Task.isExpired retentionDays now k = true
  <-> 86400000 * retentionDays < now - Task.createdAt k.
Proof.
  unfold Task.isExpired. change (1000 * 60 * 60 * 24) with 86400000.
  apply Qlt_bool_div. lia.
Qed.

Lemma processNext_get_processing now q id k :
  wellFormed q ->
  JsMap.get id (processingTasks q) = Some k ->
  JsMap.get id (processingTasks (processNext now q)) = Some k.
Proof.
  unfold processNext. intros (Hp & Hr & Hd & He) Hget.
  destruct (_ >=? _); [exact Hget|].
  destruct (pendingQueue q) as [|task rest] eqn:Hpending; [exact Hget|].
  simpl. rewrite JsMap_get_set_other; [exact Hget|].
  intros Heq.
  assert (JsMap.get (Task.taskId task) (processingTasks q) = None) as Hnone
      by (apply Hd; now left).
  rewrite Heq in Hnone. congruence.
Qed.

Lemma processNext_emitted now q :
  exists started, emitted (processNext now q) = started ++ emitted q.
Proof.
  unfold processNext. destruct (_ >=? _); [now exists []|].
  destruct (pendingQueue q) as [|task rest]; [now exists []|].
  now exists [Event.taskStarted (Task.start now task)].
Qed.

Lemma processNext_completedTasks now q :
  completedTasks (processNext now q) = completedTasks q.
Proof.
  unfold processNext. destruct (_ >=? _); [reflexivity|].
  destruct (pendingQueue q); reflexivity.
Qed.

Lemma failTask_sweep_step taskId task reason now q :
  wellFormed q ->
  JsMap.get taskId (processingTasks q) = Some task ->
  exists q2 started,
    failTask taskId reason now
      (emit (Event.taskTimeout (JsMap.get taskId (processingTasks q))) q)
      = (q2, Returned tt)
    /\ wellFormed q2
    /\ options q2 = options q
    /\ emitted q2
       = started ++ failureEvent reason (retryAttempts (options q)) now task
                 :: Event.taskTimeout (Some task) :: emitted q
    /\ (forall id k, id <> taskId ->
          JsMap.get id (processingTasks q) = Some k ->
          JsMap.get id (processingTasks q2) = Some k)
    /\ (forall id, id <> taskId ->
          JsMap.get id (completedTasks q2) = JsMap.get id (completedTasks q))
    /\ (retryAttempts (options q) <= Task.retryCount task ->
          JsMap.get taskId (completedTasks q2) = Some (Task.fail reason now task)).
Proof.
  intros Hq Hget.
  pose proof (wellFormed_failTask taskId reason now
                (emit (Event.taskTimeout (JsMap.get taskId (processingTasks q))) q)
                Hq) as Hwf.
  pose proof (failTask_options taskId reason now
                (emit (Event.taskTimeout (JsMap.get taskId (processingTasks q))) q))
    as Hopt.
  unfold failTask, failureEvent in *. simpl in *. rewrite Hget in *.
  destruct (Z.ltb_spec (Task.retryCount task) (retryAttempts (options q)))
    as [Hlt|Hge]; simpl in *;
    match goal with |- context [processNext now ?qi] =>
      destruct (processNext_emitted now qi) as [started Hem];
      exists (processNext now qi), started;
      pose proof (fun id k => processNext_get_processing now qi id k) as Hpres;
      pose proof (processNext_completedTasks now qi) as Hcomp
    end;
    simpl in *;
    (split; [reflexivity|]); (split; [exact Hwf|]); (split; [exact Hopt|]);
    (split; [exact Hem|]); (split; [|split]).
  - intros id k Hne Hk. apply Hpres.
    + exact (wellFormed_requeue taskId task q Hq Hget).
    + rewrite JsMap_get_delete_other; [exact Hk|congruence].
  - intros id Hne. now rewrite Hcomp.
  - lia.
  - intros id k Hne Hk. apply Hpres.
    + exact (wellFormed_delete taskId q Hq).
    + rewrite JsMap_get_delete_other; [exact Hk|congruence].
  - intros id Hne. rewrite Hcomp. apply JsMap_get_set_other. congruence.
  - intros _. rewrite Hcomp. apply JsMap_get_set_same.
Qed.

Lemma failTimedOut_spec ids now q :
  wellFormed q ->
  NoDup ids ->
  (forall id, In id ids -> exists k, JsMap.get id (processingTasks q) = Some k) ->
  exists q',
    failTimedOut ids now q = (q', Returned tt)
    /\ wellFormed q'
    /\ options q' = options q
    /\ (exists newer, emitted q' = newer ++ emitted q)
    /\ (forall id k, ~ In id ids ->
          JsMap.get id (processingTasks q) = Some k ->
          JsMap.get id (processingTasks q') = Some k)
    /\ (forall id, ~ In id ids ->
          JsMap.get id (completedTasks q') = JsMap.get id (completedTasks q))
    /\ (forall id task, In id ids ->
          JsMap.get id (processingTasks q) = Some task ->
          (exists newer older,
             emitted q'
             = newer ++ failureEvent timeoutReason (retryAttempts (options q))
                          now task
                     :: Event.taskTimeout (Some task) :: older)
          /\ (retryAttempts (options q) <= Task.retryCount task ->
              JsMap.get id (completedTasks q')
              = Some (Task.fail timeoutReason now task))).
Proof.
  revert q. induction ids as [|id0 ids IH]; intros q Hq Hnd Hall; simpl.
  - exists q. split; [reflexivity|]. split; [exact Hq|]. split; [reflexivity|].
    split; [now exists []|]. split; [auto|]. split; [auto|].
    intros id task [].
  - inversion Hnd as [|? ? Hnotin Hnd']; subst.
    destruct (Hall id0) as [task0 Hget0]; [now left|].
    destruct (failTask_sweep_step id0 task0 timeoutReason now q Hq Hget0)
      as (q2 & started & Hfail & Hwf2 & Hopt2 & Hem2 & Hproc2 & Hcomp2 & Hdone2).
    rewrite Hfail.
    destruct (IH q2 Hwf2 Hnd')
      as (q' & Hrun & Hwf' & Hopt' & [newer Hnewer] & Hproc' & Hcomp' & Hev').
    { intros id Hin. destruct (Hall id) as [k Hk]; [now right|].
      exists k. apply Hproc2; [|exact Hk]. intros ->. contradiction. }
    exists q'. split; [exact Hrun|]. split; [exact Hwf'|].
    split; [congruence|]. split; [|split; [|split]].
    + exists (newer ++ started
                ++ [failureEvent timeoutReason (retryAttempts (options q)) now task0;
                    Event.taskTimeout (Some task0)]).
      rewrite Hnewer, Hem2, <- !app_assoc. reflexivity.
    + intros id k Hno Hk. apply Hproc'; [tauto|].
      apply Hproc2; [|exact Hk]. intros ->. apply Hno. now left.
    + intros id Hno. rewrite Hcomp' by tauto. apply Hcomp2.
      intros ->. apply Hno. now left.
    + intros id task [<-|Hin] Hget.
      * rewrite Hget0 in Hget. injection Hget as <-. split.
        -- exists (newer ++ started), (emitted q).
           rewrite Hnewer, Hem2, <- app_assoc. reflexivity.
        -- intros Hge. rewrite Hcomp' by exact Hnotin. now apply Hdone2.
      * assert (id <> id0) as Hne by (intros ->; contradiction).
        rewrite <- Hopt2. apply Hev'; [exact Hin|].
        apply Hproc2; assumption.
Qed.

End TimeoutSweep.

(** ** The queue: admission keeps the slots filled *)

Section QueueSaturation.

Import TaskQueue.

Lemma JsMap_size_set_fresh {V} (m : JsMap.t V) k v :
  JsMap.get k m = None -> JsMap.size (JsMap.set k v m) = JsMap.size m + 1.
Proof.
  unfold JsMap.size. induction m as [|[k' v'] m IH]; simpl; [lia|].
  destruct (k =? k')%string; [discriminate|].
  intros H. specialize (IH H). simpl List.length. lia.
Qed.

Lemma JsMap_delete_absent {V} (m : JsMap.t V) k :
  ~ In k (JsMap.keys m) -> JsMap.delete k m = m.
Proof.
  unfold JsMap.keys. induction m as [|[k0 v0] m IH]; simpl; [reflexivity|].
  intros Hnotin. destruct (String.eqb_spec k k0) as [->|Hne].
  - exfalso. apply Hnotin. now left.
  - f_equal. apply IH. intros Hin. apply Hnotin. now right.
Qed.

Lemma JsMap_length_delete_present {V} (m : JsMap.t V) k v :
  NoDup (JsMap.keys m) -> JsMap.get k m = Some v ->
  S (List.length (JsMap.delete k m)) = List.length m.
Proof.
  unfold JsMap.keys. induction m as [|[k' v'] m IH]; simpl; [discriminate|].
  intros Hnd Hget. inversion Hnd as [|? ? Hnotin Hnd']; subst.
  destruct (String.eqb_spec k k') as [->|Hne].
  - now rewrite JsMap_delete_absent.
  - simpl. f_equal. now apply IH.
Qed.

Lemma JsMap_size_delete_present {V} (m : JsMap.t V) k v :
  NoDup (JsMap.keys m) -> JsMap.get k m = Some v ->
  JsMap.size (JsMap.delete k m) = JsMap.size m - 1.
Proof.
  intros Hnd Hget. unfold JsMap.size.
  rewrite <- (JsMap_length_delete_present m k v Hnd Hget). lia.
Qed.

(** One admission attempt is enough when at most one slot is free or at
    most one record is pending. *)
Lemma processNext_fills now q :
  wellFormed q ->
  JsMap.size (processingTasks q) >= maxConcurrent (options q) - 1
  \/ Z.of_nat (List.length (pendingQueue q)) <= 1 ->
  saturatedOrEmpty (processNext now q).
Proof.
  unfold saturatedOrEmpty, processNext. intros (_ & _ & Hd & _) Hnear.
  destruct (Z.geb_spec (JsMap.size (processingTasks q))
                       (maxConcurrent (options q))); [left; lia|].
  destruct (pendingQueue q) as [|task rest] eqn:Hpending; [now right|].
  simpl. rewrite JsMap_size_set_fresh by (apply Hd; now left).
  destruct Hnear as [Hsize|Hone]; [left; lia|right].
  destruct rest; [reflexivity|simpl List.length in Hone; lia].
Qed.

Lemma wellFormed_push task q :
  wellFormed q ->
  hasTask (Task.taskId task) q = false ->
  wellFormed (set_pendingQueue (pendingQueue q ++ [task]) q).
Proof.
  intros (Hp & Hr & Hd & He) Hhas.
  apply hasTask_false in Hhas. destruct Hhas as (Hnr & _ & Hnp).
  unfold wellFormed. simpl. split; [|split; [exact Hr|split; [|exact He]]].
  - rewrite map_app. simpl. apply NoDup_snoc; [exact Hp|].
    intros Hin. apply in_map_iff in Hin. destruct Hin as [k [Hk Hin]].
    now apply (Hnp k Hin).
  - intros k Hk. apply in_app_iff in Hk.
    destruct Hk as [Hk|[<-|[]]]; [now apply Hd|exact Hnr].
Qed.

Lemma filled_processNext now q : filled q -> filled (processNext now q).
Proof.
  intros [Hwf Hsat]. split; [now apply wellFormed_processNext|].
  apply processNext_fills; [exact Hwf|].
  destruct Hsat as [H|H]; [left; lia|right; rewrite H; simpl; lia].
Qed.

Lemma filled_enqueue task now q : filled q -> filled (fst (enqueue task now q)).
Proof.
  intros [Hwf Hsat]. split; [now apply wellFormed_enqueue|].
  unfold enqueue. destruct task as [task|]; [|exact Hsat].
  destruct (_ =? _)%string; [exact Hsat|].
  destruct (hasTask _ _) eqn:Hhas; [exact Hsat|].
  cbn [fst]. apply processNext_fills.
  - exact (wellFormed_push task q Hwf Hhas).
  - simpl. destruct Hsat as [H|H]; [left; lia|right].
    rewrite H. simpl. lia.
Qed.

Lemma filled_completeTask taskId url file now q :
  filled q -> filled (fst (completeTask taskId url file now q)).
Proof.
  intros [Hwf Hsat]. split; [now apply wellFormed_completeTask|].
  unfold completeTask.
  destruct (JsMap.get taskId (processingTasks q)) as [task|] eqn:Hget;
    [|exact Hsat].
  cbn [fst]. pose proof Hwf as (_ & Hkeys & _).
  pose proof (JsMap_size_delete_present _ _ _ Hkeys Hget) as Hsize.
  pose proof (wellFormed_delete taskId q Hwf) as Hwf'.
  unfold updateStats.
  destruct (Task.getProcessingTime _); (apply processNext_fills; [exact Hwf'|]);
    simpl; (destruct Hsat as [H|H]; [left; lia|right; rewrite H; simpl; lia]).
Qed.

Lemma filled_failTask taskId reason now q :
  filled q -> filled (fst (failTask taskId reason now q)).
Proof.
  intros [Hwf Hsat]. split; [now apply wellFormed_failTask|].
  unfold failTask.
  destruct (JsMap.get taskId (processingTasks q)) as [task|] eqn:Hget;
    [|exact Hsat].
  pose proof Hwf as (_ & Hkeys & _).
  pose proof (JsMap_size_delete_present _ _ _ Hkeys Hget) as Hsize.
  destruct (_ <? _); cbn [fst]; apply processNext_fills.
  - exact (wellFormed_requeue taskId task q Hwf Hget).
  - simpl. destruct Hsat as [H|H]; [left; lia|right; rewrite H; simpl; lia].
  - exact (wellFormed_delete taskId q Hwf).
  - simpl. destruct Hsat as [H|H]; [left; lia|right; rewrite H; simpl; lia].
Qed.

Lemma filled_cleanup days now q :
  filled q -> filled (fst (cleanupExpiredTasks days now q)).
Proof.
  intros [Hwf Hsat]. split; [now apply wellFormed_cleanup|].
  destruct (cleanupExpiredTasks_frame days now q) as (Ho & Hp & Hq & _).
  unfold saturatedOrEmpty. now rewrite Ho, Hp, Hq.
Qed.

(** After every call the queue is full or nothing is pending: admission
    never falls behind. *)
Lemma filled_run calls o : filled (run calls (new o)).
Proof.
  apply (invariant_run filled (fun _ => True)).
  - intros. now apply filled_enqueue.
  - intros. now apply filled_processNext.
  - intros. now apply filled_completeTask.
  - intros. now apply filled_failTask.
  - intros. now apply filled_cleanup.
  - intros b q Hq. exact Hq.
  - intros id q Hq. exact Hq.
  - intros q Hq. exact Hq.
  - intros q Hq. exact Hq.
  - apply Forall_forall. trivial.
  - split; [apply wellFormed_new|right; reflexivity].
Qed.

End QueueSaturation.

Section SweepSelection.

Import TaskQueue.

Lemma timedOutIds_In now q id :
  NoDup (JsMap.keys (processingTasks q)) ->
  In id (timedOutIds now q)
  <-> exists k, JsMap.get id (processingTasks q) = Some k
                /\ Task.isTimeout (taskTimeout (options q)) now k = true.
Proof.
  intros Hnd. unfold timedOutIds. rewrite in_map_iff. split.
  - intros [[id' k] [Hid Hin]]. simpl in Hid. subst id'.
    apply filter_In in Hin. destruct Hin as [Hin Ht]. simpl in Ht.
    exists k. split; [now apply JsMap_In_get|exact Ht].
  - intros [k [Hget Ht]]. exists (id, k). split; [reflexivity|].
    apply filter_In. split; [now apply JsMap_get_In|exact Ht].
Qed.

Lemma timedOutIds_NoDup now q :
  NoDup (JsMap.keys (processingTasks q)) -> NoDup (timedOutIds now q).
Proof.
  unfold timedOutIds, JsMap.keys.
  generalize (fun entry : string * Task.t =>
                Task.isTimeout (taskTimeout (options q)) now (snd entry)).
  intros f. induction (processingTasks q) as [|[id k] m IH]; simpl;
    [constructor|].
  intros Hnd. inversion Hnd as [|? ? Hnotin Hnd']; subst.
  destruct (f (id, k)); [|now apply IH].
  simpl. constructor; [|now apply IH].
  intros Hin. apply Hnotin. apply in_map_iff in Hin.
  destruct Hin as [e [He Hin]]. apply filter_In in Hin.
  apply in_map_iff. exists e. tauto.
Qed.

End SweepSelection.

(** ** The metrics collector: processing-time statistics *)

Section MetricsFacts.

Import MetricsService.

Lemma insert_perm x l : Permutation (x :: l) (insert x l).
Proof.
  induction l as [|y l IH]; simpl; [reflexivity|].
  destruct (x <=? y); [reflexivity|].
  rewrite perm_swap. now constructor.
Qed.

(** The sort returns its argument rearranged ... *)
Lemma sort_perm l : Permutation l (sort l).
Proof.
  induction l as [|x l IH]; simpl; [constructor|].
  rewrite <- insert_perm. now constructor.
Qed.

Lemma insert_sorted x l :
  LocallySorted Z.le l -> LocallySorted Z.le (insert x l).
Proof.
  induction 1 as [|y|y z l Hs IH Hyz]; simpl.
  - constructor.
  - destruct (Z.leb_spec x y); repeat constructor; lia.
  - simpl in IH. destruct (Z.leb_spec x y).
    + repeat constructor; [assumption..|lia].
    + destruct (Z.leb_spec x z); repeat constructor; try assumption; lia.
Qed.

(** ... in ascending order. *)
Lemma sort_sorted l : LocallySorted Z.le (sort l).
Proof.
  induction l as [|x l IH]; simpl; [constructor|]. now apply insert_sorted.
Qed.

Lemma sort_repeat d n : sort (repeat d n) = repeat d n.
Proof.
  induction n as [|n IH]; simpl; [reflexivity|]. rewrite IH.
  destruct n; simpl; [reflexivity|]. now rewrite Z.leb_refl.
Qed.

Lemma at_repeat d n i :
  0 <= i < Z.of_nat n -> at_ (repeat d n) i = Some d.
Proof.
  intros Hi. unfold at_. destruct (Z.ltb_spec i 0); [lia|].
  apply nth_error_repeat. lia.
Qed.

Lemma at_In a i x : at_ a i = Some x -> In x a.
Proof.
  unfold at_. destruct (i <? 0); [discriminate|]. apply nth_error_In.
Qed.

Lemma at_in_range a i :
  0 <= i < Z.of_nat (List.length a) -> exists x, at_ a i = Some x.
Proof.
  intros Hi. unfold at_. destruct (Z.ltb_spec i 0); [lia|].
  destruct (nth_error a (Z.to_nat i)) as [x|] eqn:E; [now exists x|].
  apply nth_error_None in E. lia.
Qed.

Lemma sum_repeat d n a :
  fold_left Z.add (repeat d n) a = a + Z.of_nat n * d.
Proof.
  revert a. induction n as [|n IH]; intros a; simpl repeat; simpl fold_left;
    [lia|].
  rewrite IH. lia.
Qed.

Lemma percentile_index_in_range (n : Z) (q : Q) :
  1 <= n -> (0 < q)%Q -> (q <= 1)%Q ->
  1 <= Qceiling (inject_Z n * q) <= n.
Proof.
  intros Hn Hpos Hle. split.
  - assert (0 < inject_Z n * q)%Q as Hprod.
    { apply Qmult_lt_0_compat; [|exact Hpos].
      change 0%Q with (inject_Z 0). rewrite <- Zlt_Qlt. lia. }
    pose proof (Qle_ceiling (inject_Z n * q)) as Hc.
    assert (0 < inject_Z (Qceiling (inject_Z n * q)))%Q as H
        by (eapply Qlt_le_trans; eassumption).
    change 0%Q with (inject_Z 0) in H. rewrite <- Zlt_Qlt in H. lia.
  - rewrite <- (Qceiling_Z n) at 2. apply Qceiling_resp_le.
    rewrite <- (Qmult_1_r (inject_Z n)) at 2.
    apply Qmult_le_l; [|exact Hle].
    change 0%Q with (inject_Z 0). rewrite <- Zlt_Qlt. lia.
Qed.

Lemma percentile_index_nonpositive (n : Z) (q : Q) :
  0 <= n -> (q <= 0)%Q -> Qceiling (inject_Z n * q) - 1 < 0.
Proof.
  intros Hn Hq.
  assert (inject_Z n * q <= 0)%Q as Hprod.
  { rewrite <- (Qmult_0_r (inject_Z n)).
    destruct (Z.eq_dec n 0) as [->|Hne].
    - rewrite !Qmult_0_l. apply Qle_refl.
    - apply Qmult_le_l; [|exact Hq].
      change 0%Q with (inject_Z 0). rewrite <- Zlt_Qlt. lia. }
  apply Qceiling_resp_le in Hprod. change (Qceiling 0) with 0 in Hprod. lia.
Qed.

Lemma avg_repeat (d n : Z) :
  1 <= n -> (inject_Z (n * d) / inject_Z n == inject_Z d)%Q.
Proof.
  intros Hn. rewrite Z.mul_comm, inject_Z_mult. apply Qdiv_mult_l.
  change 0%Q with (inject_Z 0). rewrite inject_Z_injective. lia.
Qed.

(** The three quantiles of the service as doubles: 0.5 is exact, 0.95
    and 0.99 are the neighbours of the fractions. *)
Lemma quantile_literals :
  Double.decimal 5 10 = S754_finite false 4503599627370496 (-53)
  /\ Double.decimal 95 100 = S754_finite false 8556839292003942 (-53)
  /\ Double.decimal 99 100 = S754_finite false 8917127262193582 (-53).
Proof. vm_compute. repeat split. Qed.

(** For the three quantiles of the service and every length the
    reservoir can have, rounding the product in doubles does not move the
    ceiling; and zero times a length is zero. *)
Lemma reservoir_checked :
  forallb
    (fun n => ceilingIsExact 5 10 n && ceilingIsExact 95 100 n
              && ceilingIsExact 99 100 n && zeroTimes n)
    (map Z.of_nat (seq 1 1000)) = true.
Proof. vm_compute. reflexivity. Qed.

Lemma reservoir_ranks (n : Z) :
  1 <= n <= 1000 ->
  ceilingIsExact 5 10 n = true /\ ceilingIsExact 95 100 n = true
  /\ ceilingIsExact 99 100 n = true /\ zeroTimes n = true.
Proof.
  intros Hn. pose proof reservoir_checked as H.
  rewrite forallb_forall in H. specialize (H n).
  rewrite !andb_true_iff in H. rewrite <- !and_assoc. apply H.
  apply in_map_iff. exists (Z.to_nat n). split; [lia|].
  apply in_seq. lia.
Qed.

(** Where the ceiling is exact, [getPercentile] reports the nearest-rank
    element. *)
Lemma getPercentile_exact sortedArray digits scale :
  let n := Z.of_nat (List.length sortedArray) in
  1 <= n ->
  (0 < digits # Z.to_pos scale)%Q -> (digits # Z.to_pos scale <= 1)%Q ->
  ceilingIsExact digits scale n = true ->
  getPercentile sortedArray (Double.decimal digits scale)
  = at_ sortedArray (nearestRank n (digits # Z.to_pos scale))
  /\ 0 <= nearestRank n (digits # Z.to_pos scale) <= n - 1.
Proof.
  intros n Hn Hpos Hle Hexact.
  pose proof (percentile_index_in_range n _ Hn Hpos Hle) as Hrange.
  unfold getPercentile, nearestRank. fold n.
  destruct (Z.eqb_spec n 0) as [Hz|_]; [lia|].
  unfold ceilingIsExact in Hexact.
  destruct (Double.ceil _) as [rank| | |]; try discriminate Hexact.
  apply Z.eqb_eq in Hexact. subst rank.
  rewrite Z.max_r by lia. split; [reflexivity|lia].
Qed.

Lemma getPercentile_zero sortedArray :
  let n := Z.of_nat (List.length sortedArray) in
  1 <= n -> zeroTimes n = true ->
  getPercentile sortedArray (Double.ofZ 0) = at_ sortedArray 0.
Proof.
  intros n Hn Hzero. unfold getPercentile. fold n.
  destruct (Z.eqb_spec n 0) as [Hz|_]; [lia|].
  unfold zeroTimes in Hzero.
  destruct (Double.mul _ _); try discriminate Hzero. reflexivity.
Qed.

(** Whatever the quantile, a reported percentile is one of the samples. *)
Lemma getPercentile_In sortedArray q x :
  sortedArray <> [] -> getPercentile sortedArray q = Some x -> In x sortedArray.
Proof.
  intros Hne. unfold getPercentile.
  destruct (Z.eqb_spec (Z.of_nat (List.length sortedArray)) 0) as [Hz|_].
  - destruct sortedArray; [congruence|simpl List.length in Hz; lia].
  - destruct (Double.ceil _); try discriminate; apply at_In.
Qed.

Lemma getPercentile_repeat d n digits scale :
  (1 <= n)%nat ->
  (0 < digits # Z.to_pos scale)%Q -> (digits # Z.to_pos scale <= 1)%Q ->
  ceilingIsExact digits scale (Z.of_nat n) = true ->
  getPercentile (repeat d n) (Double.decimal digits scale) = Some d.
Proof.
  intros Hn Hpos Hle Hexact.
  pose proof (getPercentile_exact (repeat d n) digits scale) as H.
  cbv zeta in H. rewrite repeat_length in H.
  destruct (H ltac:(lia) Hpos Hle Hexact) as [-> Hrange].
  apply at_repeat. lia.
Qed.

Lemma addProcessingTime_repeat d n m :
  samples (processingTimes m) = repeat d n ->
  Z.of_nat n <= 1000 ->
  exists n', (1 <= n')%nat /\ Z.of_nat n' <= 1000
    /\ addProcessingTime d m
       = mk (tasks m)
            (mkProcessingTimes (repeat d n') (Some d) (Some d)
               (inject_Z (Z.of_nat n' * d) / inject_Z (Z.of_nat n'))%Q
               (Some d) (Some d) (Some d)).
Proof.
  intros Hsamples Hn. unfold addProcessingTime. rewrite Hsamples.
  rewrite <- repeat_cons.
  set (kept := if Z.of_nat (List.length (d :: repeat d n)) >? 1000
               then tl (d :: repeat d n) else d :: repeat d n).
  assert (exists n', (1 <= n')%nat /\ Z.of_nat n' <= 1000 /\ kept = repeat d n')
    as (n' & Hn1 & Hn2 & Hkept).
  { subst kept. change (d :: repeat d n) with (repeat d (S n)).
    rewrite repeat_length.
    destruct (Z.gtb_spec (Z.of_nat (S n)) 1000).
    - exists n. simpl. repeat split; lia.
    - exists (S n). repeat split; lia. }
  exists n'. split; [exact Hn1|]. split; [exact Hn2|].
  rewrite Hkept. unfold updateProcessingTimeStats.
  cbn [samples processingTimes tasks]. rewrite repeat_length.
  destruct (Z.eqb_spec (Z.of_nat n') 0); [lia|].
  rewrite sort_repeat, repeat_length, sum_repeat.
  destruct (reservoir_ranks (Z.of_nat n')) as (H50 & H95 & H99 & _); [lia|].
  rewrite !getPercentile_repeat
    by (try exact Hn1; try assumption; reflexivity || discriminate).
  rewrite !at_repeat by lia. reflexivity.
Qed.

Lemma addMany_repeat (k : nat) d :
  (1 <= k)%nat ->
  exists n, (1 <= n)%nat /\ Z.of_nat n <= 1000
    /\ addMany k d MetricsService.new
       = mk (tasks MetricsService.new)
            (mkProcessingTimes (repeat d n) (Some d) (Some d)
               (inject_Z (Z.of_nat n * d) / inject_Z (Z.of_nat n))%Q
               (Some d) (Some d) (Some d)).
Proof.
  intros Hk. destruct k as [|k]; [lia|]. clear Hk.
  induction k as [|k IH].
  - unfold addMany. simpl Nat.iter.
    destruct (addProcessingTime_repeat d 0 MetricsService.new) as (n & H);
      [reflexivity|lia|]. now exists n.
  - destruct IH as (n & Hn1 & Hn2 & IH).
    unfold addMany in *. rewrite Nat.iter_succ, IH.
    match goal with |- context [addProcessingTime d ?m] =>
      destruct (addProcessingTime_repeat d n m) as (n' & H);
        [reflexivity|exact Hn2|]
    end.
    now exists n'.
Qed.

End MetricsFacts.

Section Claim_C8.

Import MetricsService.

(** C8, as amended.  For a non-empty sorted sample list of length [n]
    up to 1000, the bound of the reservoir, and each quantile [q] the
    service computes (0.5, 0.95 and 0.99), the reported percentile is the
    nearest-rank element at index [ceil (n * q) - 1], which exists; for
    the quantile 0 it is the first element.  For any list and any
    quantile, a reported percentile is an element of the list.  Hence
    after [k >= 1] inserted samples all equal to [d], p50 = p95 = p99 = d
    and min = max = avg = d. *)
Theorem percentile_is_nearest_rank :
  forall (sortedArray : list Z) (q : Double.t) (k : nat) (d : Z),
    let n := Z.of_nat (List.length sortedArray) in
    (sortedArray <> [] ->
       (n <= 1000 ->
          getPercentile sortedArray (Double.decimal 5 10)
          = at_ sortedArray (nearestRank n (5 # 10))
          /\ getPercentile sortedArray (Double.decimal 95 100)
             = at_ sortedArray (nearestRank n (95 # 100))
          /\ getPercentile sortedArray (Double.decimal 99 100)
             = at_ sortedArray (nearestRank n (99 # 100))
          /\ (exists a b c,
                getPercentile sortedArray (Double.decimal 5 10) = Some a
                /\ getPercentile sortedArray (Double.decimal 95 100) = Some b
                /\ getPercentile sortedArray (Double.decimal 99 100) = Some c)
          /\ getPercentile sortedArray (Double.ofZ 0) = at_ sortedArray 0)
       /\ (forall x, getPercentile sortedArray q = Some x -> In x sortedArray))
    /\ ((1 <= k)%nat ->
        let pt := processingTimes (addMany k d MetricsService.new) in
        p50 pt = Some d /\ p95 pt = Some d /\ p99 pt = Some d
        /\ min pt = Some d /\ max pt = Some d /\ (avg pt == inject_Z d)%Q).
Proof.
  intros sortedArray q k d n. split.
  - intros Hne.
    assert (1 <= n) as Hn.
    { subst n. destruct sortedArray; [congruence|]. simpl List.length. lia. }
    split.
    + intros Hcap.
      destruct (reservoir_ranks n) as (H50 & H95 & H99 & Hzero); [lia|].
      destruct (getPercentile_exact sortedArray 5 10) as [E50 R50];
        try assumption; try reflexivity; try discriminate.
      destruct (getPercentile_exact sortedArray 95 100) as [E95 R95];
        try assumption; try reflexivity; try discriminate.
      destruct (getPercentile_exact sortedArray 99 100) as [E99 R99];
        try assumption; try reflexivity; try discriminate.
      fold n in E50, E95, E99, R50, R95, R99.
      change (5 # Z.to_pos 10) with (5 # 10) in *.
      change (95 # Z.to_pos 100) with (95 # 100) in *.
      change (99 # Z.to_pos 100) with (99 # 100) in *.
      split; [exact E50|]. split; [exact E95|]. split; [exact E99|].
      split.
      * destruct (at_in_range sortedArray (nearestRank n (5 # 10)))
          as [a Ha]; [fold n; lia|].
        destruct (at_in_range sortedArray (nearestRank n (95 # 100)))
          as [b Hb]; [fold n; lia|].
        destruct (at_in_range sortedArray (nearestRank n (99 # 100)))
          as [c Hc]; [fold n; lia|].
        exists a, b, c. rewrite E50, E95, E99. now repeat split.
      * now apply getPercentile_zero.
    + intros x. now apply getPercentile_In.
  - intros Hk. destruct (addMany_repeat k d Hk) as (m & Hm1 & Hm2 & ->).
    cbn [processingTimes p50 p95 p99 min max avg]. repeat split.
    apply avg_repeat. lia.
Qed.

End Claim_C8.

(** ** The task manager: submission *)

Section ConfigFacts.

Import ConfigSpec.

Lemma badSize_code v :
  Js.truthy v && (negb (Js.typeof v =? "number")%string || Js.le_zero v)
  = badSize v.
Proof.
  unfold badSize, positiveNumber, Qlt_bool.
  destruct v; simpl; try reflexivity.
  now rewrite negb_involutive.
Qed.

Lemma badOption_code v :
  negb (Js.truthy v) || negb (Js.typeof v =? "object")%string
  = negb (isObject v).
Proof.
  destruct v as [| |b|q| |s|props]; simpl; rewrite ?orb_true_r; reflexivity.
Qed.

Lemma validateConfig_spec cfg :
  Task.validateConfig cfg = (negb (violated cfg), messages cfg).
Proof.
  unfold Task.validateConfig, violated, messages.
  rewrite (badOption_code cfg).
  destruct cfg as [| |b|q| |s|props]; try reflexivity.
  cbn [isObject negb]. rewrite !badSize_code, badOption_code.
  fold (badOption (Js.object props)). fold formats.
  fold (badType (Js.object props)).
  destruct (badOption _), (badSize (Js.get _ "width")),
    (badSize (Js.get _ "height")), (badType _); reflexivity.
Qed.

Lemma messages_nonempty cfg : violated cfg = true -> messages cfg <> [].
Proof.
  unfold violated, messages.
  destruct (isObject cfg); [|discriminate].
  destruct (badOption _), (badSize (Js.get _ "width")),
    (badSize (Js.get _ "height")), (badType _); simpl; discriminate.
Qed.

End ConfigFacts.

Section Claim_C6.

Import ConfigSpec.
Import TaskManager.

Lemma messages_empty cfg : violated cfg = false -> messages cfg = [].
Proof.
  unfold violated, messages, badOption.
  destruct cfg as [| |b|q| |s|props]; try discriminate.
  cbn [isObject]. fold (badOption (Js.object props)).
  destruct (badOption _), (badSize (Js.get _ "width")),
    (badSize (Js.get _ "height")), (badType _); simpl; try discriminate.
  reflexivity.
Qed.

Lemma find_snoc {A} (f : A -> bool) (l : list A) (x : A) :
  (forall y, In y l -> f y = false) -> f x = true ->
  find f (l ++ [x]) = Some x.
Proof.
  induction l as [|y l IH]; intros Hl Hx; simpl.
  - now rewrite Hx.
  - rewrite (Hl y) by now left. apply IH; [|exact Hx].
    intros z Hz. apply Hl. now right.
Qed.

Lemma enqueue_getTask task now q :
  Task.taskId task <> ""%string ->
  TaskQueue.hasTask (Task.taskId task) q = false ->
  snd (TaskQueue.enqueue (Some task) now q) = Returned true
  /\ (exists started,
        TaskQueue.emitted (fst (TaskQueue.enqueue (Some task) now q))
        = started ++ TaskQueue.Event.taskEnqueued task :: TaskQueue.emitted q)
  /\ exists k,
       TaskQueue.getTask (Task.taskId task) (fst (TaskQueue.enqueue (Some task) now q))
       = Some k
       /\ (k = task \/ k = Task.start now task).
Proof.
  intros Hid Hfresh. unfold TaskQueue.enqueue.
  destruct (String.eqb_spec (Task.taskId task) ""); [contradiction|].
  rewrite Hfresh. cbn [fst snd]. split; [reflexivity|]. split.
  { match goal with |- context [TaskQueue.processNext now ?qi] =>
      destruct (processNext_emitted now qi) as [started Hst]
    end.
    exists started. exact Hst. }
  apply hasTask_false in Hfresh. destruct Hfresh as (Hnr & Hnc & Hnp).
  assert (forall y, In y (TaskQueue.pendingQueue q) ->
            (Task.taskId y =? Task.taskId task)%string = false) as Hnp'.
  { intros y Hy. apply String.eqb_neq. now apply Hnp. }
  unfold TaskQueue.processNext. cbn.
  destruct (_ >=? _).
  - exists task. split; [|now left].
    unfold TaskQueue.getTask, JsMap.has. cbn. rewrite Hnr, Hnc.
    apply find_snoc; [exact Hnp'|apply String.eqb_refl].
  - destruct (TaskQueue.pendingQueue q) as [|h rest] eqn:Hpending; cbn.
    + exists (Task.start now task). split; [|now right].
      unfold TaskQueue.getTask, JsMap.has. cbn.
      now rewrite JsMap_get_set_same.
    + exists task. split; [|now left].
      assert (Task.taskId h <> Task.taskId task) as Hne
          by (apply Hnp; now left).
      unfold TaskQueue.getTask, JsMap.has. cbn.
      rewrite JsMap_get_set_other by exact Hne. rewrite Hnr, Hnc.
      apply find_snoc; [|apply String.eqb_refl].
      intros y Hy. apply Hnp'. now right.
Qed.

(** C6, as amended.  [createTask] throws "Invalid task config: " followed
    by the messages of the violations, and changes nothing, exactly when
    the configuration is violated: its option is missing or not an object,
    or its width or height is truthy and not a positive number, or its type
    is truthy and not one of png, jpeg, svg, pdf; the messages then name
    each violated clause.  (A width or height of 0, NaN, null, false or the
    empty string counts as absent.)  For a configuration that is not
    violated, and an identifier that is not empty and not yet in the queue,
    it constructs a pending record with that configuration, enqueues it,
    counts it as created and returns it. *)
Theorem createTask_validates_config :
  forall (cfg : Js.value) (uuid : string) (now : Z) (m : TaskManager.t),
    (createTask cfg uuid now m
       = (m, Thrown ("Invalid task config: " ++ Js.join ", " (messages cfg))%string)
     /\ messages cfg <> []
     <-> violated cfg = true)
    /\ (violated cfg = false ->
        uuid <> ""%string ->
        TaskQueue.hasTask uuid (taskQueue m) = false ->
        let task := Task.new uuid cfg now in
        Task.status task = Task.pending
        /\ Task.config task = cfg
        /\ TaskQueue.enqueue (Some task) now (taskQueue m)
           = (taskQueue (fst (createTask cfg uuid now m)), Returned true)
        /\ metricsService (fst (createTask cfg uuid now m))
           = MetricsService.recordTaskCreated (metricsService m)
        /\ (exists started,
              TaskQueue.emitted (taskQueue (fst (createTask cfg uuid now m)))
              = started ++ TaskQueue.Event.taskEnqueued task
                        :: TaskQueue.emitted (taskQueue m))
        /\ exists k,
             snd (createTask cfg uuid now m) = Returned k
             /\ TaskQueue.getTask uuid (taskQueue (fst (createTask cfg uuid now m)))
                = Some k
             /\ (k = task \/ k = Task.start now task)).
Proof.
  intros cfg uuid now m. unfold createTask.
  rewrite validateConfig_spec. cbn [fst snd]. rewrite negb_involutive.
  split.
  - split.
    + intros [_ Hne]. destruct (violated cfg) eqn:Hv; [reflexivity|].
      now rewrite messages_empty in Hne.
    + intros Hv. rewrite Hv. split; [reflexivity|]. now apply messages_nonempty.
  - intros Hv Hid Hfresh. rewrite Hv.
    set (task := Task.new uuid cfg now).
    destruct (enqueue_getTask task now (taskQueue m) Hid Hfresh)
      as (Hret & Hem & k & Hk & Hkind).
    destruct (TaskQueue.enqueue (Some task) now (taskQueue m))
      as [q' out] eqn:Henq.
    cbn [fst snd] in *. subst out. cbn [fst snd taskQueue metricsService].
    repeat split; try assumption.
    exists k. change (Task.taskId task) with uuid in Hk. rewrite Hk.
    repeat split; assumption.
Qed.

End Claim_C6.

(** ** The properties on sample runs *)

Section ClosedInstances.

Import TaskQueue.
Local Open Scope string_scope.

Lemma processNext_respects_maxConcurrent_witness :
  JsMap.size (processingTasks (run Sample.calls (new Sample.defaults))) <= 10
  /\ processNext 7 (new Sample.defaults) = new Sample.defaults
  /\ (let q := set_pendingQueue [Sample.taskA; Sample.taskB]
                                (new Sample.defaults) in
      pendingQueue (processNext 7 q) = [Sample.taskB]
      /\ JsMap.get "a" (processingTasks (processNext 7 q))
         = Some (Task.start 7 Sample.taskA)).
Proof.
  pose proof (processNext_respects_maxConcurrent
                Sample.defaults Sample.calls 7 (new Sample.defaults)
                ltac:(simpl; lia)) as (Hbound & Hguard & _).
  pose proof (processNext_respects_maxConcurrent
                Sample.defaults Sample.calls 7
                (set_pendingQueue [Sample.taskA; Sample.taskB]
                                  (new Sample.defaults))
                ltac:(simpl; lia)) as (_ & _ & Hadmit).
  split; [exact Hbound|]. split; [apply Hguard; right; reflexivity|].
  destruct (Hadmit ltac:(vm_compute; reflexivity) Sample.taskA [Sample.taskB]
                   eq_refl) as (Hpending & _ & Hget & _).
  split; [exact Hpending|exact Hget].
Defined.

Lemma failTask_retries_within_budget_witness :
  (exists q',
     failTask "a" "render failed" 5
       (fst (enqueue (Some Sample.taskA) 0 (new Sample.defaults)))
     = (processNext 5 q', Returned tt)
     /\ pendingQueue q' = [Task.retry (Task.start 0 Sample.taskA)])
  /\ (exists q',
        failTask "a" "render failed" 5
          (fst (enqueue (Some Sample.taskA) 0
                  (new (mkUserOptions None None (Some 0)))))
        = (processNext 5 q', Returned tt)
        /\ JsMap.get "a" (completedTasks q')
           = Some (Task.fail "render failed" 5 (Task.start 0 Sample.taskA)))
  /\ withinBudget (run Sample.calls (new Sample.defaults)).
Proof.
  pose proof (failTask_retries_within_budget
                (fst (enqueue (Some Sample.taskA) 0 (new Sample.defaults)))
                "a" "render failed" 5 (Task.start 0 Sample.taskA)
                Sample.defaults Sample.calls eq_refl) as (Hretry & _ & Hbudget).
  pose proof (failTask_retries_within_budget
                (fst (enqueue (Some Sample.taskA) 0
                        (new (mkUserOptions None None (Some 0)))))
                "a" "render failed" 5 (Task.start 0 Sample.taskA)
                Sample.defaults Sample.calls eq_refl) as (_ & Hfail & _).
  split; [|split].
  - destruct (Hretry ltac:(simpl; lia)) as (q' & Hstep & _ & _ & Hpending & _).
    exists q'. split; [exact Hstep|exact Hpending].
  - destruct (Hfail ltac:(simpl; lia)) as (q' & Hstep & _ & _ & _ & Hget & _).
    exists q'. split; [exact Hstep|exact Hget].
  - apply Hbudget. repeat constructor; simpl; lia.
Defined.

Lemma unknown_id_throws_and_changes_nothing_witness :
  completeTask "ghost" (Some "https://cdn/x.png") None 3 (new Sample.defaults)
  = (new Sample.defaults, Thrown "Task ghost not found in processing queue")
  /\ failTask "ghost" "render failed" 3 (new Sample.defaults)
     = (new Sample.defaults, Thrown "Task ghost not found in processing queue").
Proof.
  exact (unknown_id_throws_and_changes_nothing
           (new Sample.defaults) "ghost" (Some "https://cdn/x.png") None
           "render failed" 3 eq_refl).
Defined.

(** C3, on the code.  [pause] leaves admission as it was: [processNext]
    admits the same task whether or not the queue was paused, and a task
    enqueued on a paused queue is started at once.  (The claim asks for no
    admission between [pause] and [resume].)  [resume] makes a single
    admission attempt; as admission was never held back, the queue is then
    full or has nothing pending. *)
Theorem pause_does_not_stop_admission :
  (forall q now,
     pendingQueue (processNext now (pause q)) = pendingQueue (processNext now q)
     /\ processingTasks (processNext now (pause q))
        = processingTasks (processNext now q))
  /\ (let q := run [(0, Pause); (1, Enqueue (Some Sample.taskA))]
                   (new Sample.defaults) in
      timeoutCheckInterval q = false
      /\ pendingQueue q = []
      /\ JsMap.get "a" (processingTasks q) = Some (Task.start 1 Sample.taskA)
      /\ emitted q
         = [Event.taskStarted (Task.start 1 Sample.taskA);
            Event.taskEnqueued Sample.taskA; Event.queuePaused])
  /\ (forall o calls now,
        let q := run calls (new o) in
        pendingQueue (resume now q) = pendingQueue (processNext now q)
        /\ processingTasks (resume now q) = processingTasks (processNext now q)
        /\ saturatedOrEmpty (resume now q)).
Proof.
  split; [|split].
  - intros q now. unfold pause, stopTimeoutChecker, processNext.
    destruct (timeoutCheckInterval q); simpl;
      destruct (_ >=? _); simpl; try (split; reflexivity);
      destruct (pendingQueue q); split; reflexivity.
  - repeat split.
  - intros o calls now q.
    assert (filled (resume now q)) as [_ Hsat].
    { pose proof (filled_run (calls ++ [(now, Resume)]) o) as H.
      rewrite run_app in H. exact H. }
    split; [|split; [|exact Hsat]];
      unfold resume, startTimeoutChecker, processNext;
      destruct (timeoutCheckInterval q); simpl;
        destruct (_ >=? _); simpl; try reflexivity;
        destruct (pendingQueue q); reflexivity.
Qed.

(** C4, as stated, fails: one record completed and was then evicted, so
    completed plus failed minus evicted is 0 while [totalProcessed] is 1. *)
Lemma totalProcessed_not_reduced_by_eviction :
  let q := run [(0, Enqueue (Some Sample.taskA));
                (10, CompleteTask "a" (Some "https://cdn/a.png") (Some "a.png"));
                (864000000, CleanupExpiredTasks 7)]
               (new Sample.defaults) in
  totalProcessed (stats q)
  <> completions (emitted q) + failures (emitted q) - evictions (emitted q).
Proof. vm_compute. discriminate. Qed.

(** C5, as stated, fails on the reason: the sweep fails the record with
    "Task timeout". *)
Lemma timeout_reason_is_capitalised :
  let q := run [(0, Enqueue (Some Sample.taskA)); (5000, TimerFires)]
               (new (mkUserOptions None (Some 1) (Some 0))) in
  option_map Task.error (JsMap.get "a" (completedTasks q))
  = Some (Some "Task timeout")
  /\ option_map Task.error (JsMap.get "a" (completedTasks q))
     <> Some (Some "task timeout").
Proof. vm_compute. split; [reflexivity|discriminate]. Qed.

End ClosedInstances.

Section ClosedInstancesManager.

Local Open Scope string_scope.

(** C6, as stated, fails: a width of 0 is present and is not a positive
    number, yet the configuration is accepted and the task created. *)
Lemma createTask_accepts_zero_width :
  let cfg := Js.object [("option", Js.object []); ("width", Js.number 0)] in
  Js.get cfg "width" = Js.number 0
  /\ ConfigSpec.positiveNumber (Js.get cfg "width") = false
  /\ snd (TaskManager.createTask cfg "id-1" 0 (TaskManager.new Sample.defaults))
     = Returned (Task.start 0 (Task.new "id-1" cfg 0)).
Proof. vm_compute. repeat split. Qed.

Lemma createTask_validates_config_witness :
  (let bad := Js.object [("type", Js.str "invalid");
                         ("width", Js.number (-1 # 1))] in
   TaskManager.createTask bad "id-1" 0 (TaskManager.new Sample.defaults)
   = (TaskManager.new Sample.defaults,
      Thrown "Invalid task config: Config.option is required and must be an object, Config.width must be a positive number, Config.type must be one of: png, jpeg, svg, pdf"))
  /\ (exists k,
        snd (TaskManager.createTask Sample.chart "id-1" 0
               (TaskManager.new Sample.defaults)) = Returned k
        /\ (k = Task.new "id-1" Sample.chart 0
            \/ k = Task.start 0 (Task.new "id-1" Sample.chart 0))).
Proof.
  split.
  - cbv zeta.
    destruct (createTask_validates_config
                (Js.object [("type", Js.str "invalid");
                            ("width", Js.number (-1 # 1))])
                "id-1" 0 (TaskManager.new Sample.defaults)) as [[_ Hthrows] _].
    exact (proj1 (Hthrows eq_refl)).
  - destruct (createTask_validates_config
                Sample.chart "id-1" 0 (TaskManager.new Sample.defaults))
      as [_ Hcreates].
    destruct (Hcreates eq_refl ltac:(discriminate) eq_refl)
      as (_ & _ & _ & _ & _ & k & Hk & _ & Hkind).
    exists k. split; [exact Hk|exact Hkind].
Defined.

(** C7, as stated, fails: with a heap of 600 MiB, over the threshold, and
    nothing pending the endpoint still answers 200. *)
Lemma health_ignores_memory :
  let m := TaskManager.new Sample.defaults in
  let heapUsed := 600 * 1024 * 1024 in
  ~ (App.statusCode (App.getSystemHealth m heapUsed App.NotConfigured) = 503
     <-> (TaskQueue.QueueStatus.pendingTasks (TaskManager.getStatistics m) > 1000
          \/ heapUsed >= 500 * 1024 * 1024)).
Proof.
  vm_compute. intros [_ H].
  assert (200 = 503) as Habs by (apply H; right; discriminate).
  discriminate Habs.
Qed.

(** C8, as stated, fails.  For the quantile 0 the index
    [ceil (n * q) - 1] is -1, where the list has no element, while the
    reported percentile is the first element.  And the product is rounded
    before the ceiling is taken: of the hundred samples 1 to 100 the
    quantile 0.07 reports 8, the element at index 7, where the nearest
    rank is index 6. *)
Lemma percentile_departs_from_nearest_rank :
  MetricsService.getPercentile [5] (Double.ofZ 0)
  <> MetricsService.at_ [5] (nearestRank (Z.of_nat (List.length [5])) 0)
  /\ (let samples := map Z.of_nat (seq 1 100) in
      MetricsService.getPercentile samples (Double.decimal 7 100) = Some 8
      /\ MetricsService.at_ samples
           (nearestRank (Z.of_nat (List.length samples)) (7 # 100))
         = Some 7).
Proof. vm_compute. split; [discriminate|split; reflexivity]. Qed.

Lemma percentile_is_nearest_rank_witness :
  MetricsService.getPercentile [10; 20; 30] (Double.decimal 5 10) = Some 20
  /\ MetricsService.getPercentile [10; 20; 30] (Double.ofZ 0) = Some 10
  /\ In 20 [10; 20; 30]
  /\ MetricsService.p99
       (MetricsService.processingTimes
          (addMany 3 42 MetricsService.new)) = Some 42.
Proof.
  pose proof (percentile_is_nearest_rank [10; 20; 30] (Double.decimal 5 10)
                3%nat 42) as [Hrank Hsame].
  destruct (Hrank ltac:(discriminate)) as [Hcap Hin].
  destruct (Hcap ltac:(simpl; lia)) as (H50 & _ & _ & _ & Hzero).
  split; [|split; [|split]].
  - rewrite H50. reflexivity.
  - rewrite Hzero. reflexivity.
  - apply Hin. rewrite H50. reflexivity.
  - destruct (Hsame ltac:(lia)) as (_ & _ & H99 & _). exact H99.
Defined.

(** C9, as stated, fails on [totalErrors]: a cycle whose three attempts
    all throw counts one error. *)
Lemma failed_cycle_counts_an_error :
  let s := CleanupService.new None true in
  let attempts := fun _ : Z =>
    CleanupService.Rejects (CleanupService.mkJsError "store unreachable") in
  CleanupService.totalErrors
    (CleanupService.cleanupStats
       (fst (CleanupService.runCleanupCycle attempts 0 30000 s)))
  <> CleanupService.totalErrors (CleanupService.cleanupStats s).
Proof. vm_compute. discriminate. Qed.

Lemma cleanup_cycle_statistics_witness :
  (let failing := fun _ : Z =>
     CleanupService.Rejects (CleanupService.mkJsError "store unreachable") in
   CleanupService.totalErrors
     (CleanupService.cleanupStats
        (fst (CleanupService.runCleanupCycle failing 0 30000
                (CleanupService.new None true)))) = 0 + 1)
  /\ (let flaky := fun n : Z =>
        if (n <? 3)%Z
        then CleanupService.Rejects (CleanupService.mkJsError "store unreachable")
        else CleanupService.Resolves
               (CleanupService.mkCleanupResult 2 1 ["b.png: denied"]) in
      CleanupService.totalRuns
        (CleanupService.cleanupStats
           (fst (CleanupService.runCleanupCycle flaky 0 30000
                   (CleanupService.new None true)))) = 0 + 1).
Proof.
  split.
  - cbv zeta.
    destruct (cleanup_cycle_statistics
                (fun _ : Z =>
                   CleanupService.Rejects
                     (CleanupService.mkJsError "store unreachable"))
                0 30000 (CleanupService.new None true)) as [Hfail _].
    destruct (Hfail ltac:(simpl; lia)
                    (fun n _ => ex_intro _ _ eq_refl)) as (_ & _ & _ & H & _).
    exact H.
  - cbv zeta.
    destruct (cleanup_cycle_statistics
                (fun n : Z =>
                   if (n <? 3)%Z
                   then CleanupService.Rejects
                          (CleanupService.mkJsError "store unreachable")
                   else CleanupService.Resolves
                          (CleanupService.mkCleanupResult 2 1 ["b.png: denied"]))
                0 30000 (CleanupService.new None true)) as [_ Hok].
    destruct (Hok 3 (CleanupService.mkCleanupResult 2 1 ["b.png: denied"])
                  ltac:(simpl; lia) eq_refl) as (H & _).
    + intros n Hn.
      exists (CleanupService.mkJsError "store unreachable").
      destruct (Z.ltb_spec n 3); [reflexivity|lia].
    + exact H.
Defined.

End ClosedInstancesManager.

(** * Further properties of the queue *)

(** ** The archive and the identity of records *)

Section QueueArchive.

Import TaskQueue.

Lemma JsMap_delete_app {V} (a b : JsMap.t V) k :
  JsMap.delete k (a ++ b) = JsMap.delete k a ++ JsMap.delete k b.
Proof.
  induction a as [|[k' v'] a IH]; simpl; [reflexivity|].
  destruct (k =? k')%string; simpl; now rewrite IH.
Qed.

Lemma JsMap_get_filter_None {V} (f : string * V -> bool) (m : JsMap.t V) k :
  JsMap.get k m = None -> JsMap.get k (filter f m) = None.
Proof.
  induction m as [|[k' v'] m IH]; simpl; [reflexivity|].
  destruct (String.eqb_spec k k'); [discriminate|]. intros H.
  destruct (f (k', v')); simpl; [|now apply IH].
  destruct (String.eqb_spec k k'); [contradiction|now apply IH].
Qed.

Lemma JsMap_keys_filter_NoDup {V} (f : string * V -> bool) (m : JsMap.t V) :
  NoDup (JsMap.keys m) -> NoDup (JsMap.keys (filter f m)).
Proof.
  unfold JsMap.keys. induction m as [|[id k] m IH]; simpl; [constructor|].
  intros Hnd. inversion Hnd as [|? ? Hnotin Hnd']; subst.
  destruct (f (id, k)); [|now apply IH].
  simpl. constructor; [|now apply IH].
  intros Hin. apply Hnotin. apply in_map_iff in Hin.
  destruct Hin as [e [He Hin]]. apply filter_In in Hin.
  apply in_map_iff. exists e. tauto.
Qed.

(** The loop deletes by key; with unique keys it removes exactly the
    expired entries and collects them in the order of the archive. *)
Lemma cleanupLoop_exact days now (entries kept : JsMap.t Task.t) expired :
  NoDup (JsMap.keys (kept ++ entries)) ->
  cleanupLoop days now entries (kept ++ entries, expired)
  = (kept ++ filter (fun e => negb (Task.isExpired days now (snd e))) entries,
     expired ++ map snd (filter (fun e => Task.isExpired days now (snd e)) entries)).
Proof.
  unfold cleanupLoop. revert kept expired.
  induction entries as [|[id task] entries IH]; intros kept expired Hnd; simpl.
  - now rewrite !app_nil_r.
  - destruct (Task.isExpired days now task) eqn:Hexp; simpl.
    + assert (JsMap.delete id (kept ++ (id, task) :: entries) = kept ++ entries)
        as ->.
      { unfold JsMap.keys in Hnd. rewrite map_app in Hnd. simpl in Hnd.
        pose proof (NoDup_remove_2 _ _ _ Hnd) as Hnotin.
        rewrite JsMap_delete_app. simpl. rewrite String.eqb_refl.
        rewrite !JsMap_delete_absent; [reflexivity| |];
          intros Hin; apply Hnotin, in_or_app; unfold JsMap.keys in Hin; tauto. }
      rewrite IH.
      * now rewrite <- app_assoc.
      * unfold JsMap.keys in *. rewrite map_app in *. simpl in Hnd.
        now apply NoDup_remove_1 in Hnd.
    + change (kept ++ (id, task) :: entries)
        with (kept ++ [(id, task)] ++ entries).
      rewrite app_assoc. rewrite IH.
      * now rewrite <- app_assoc.
      * now rewrite <- app_assoc.
Qed.

Lemma cleanupExpiredTasks_exact days now q :
  NoDup (JsMap.keys (completedTasks q)) ->
  let expired :=
    map snd (filter (fun e => Task.isExpired days now (snd e)) (completedTasks q)) in
  let kept :=
    filter (fun e => negb (Task.isExpired days now (snd e))) (completedTasks q) in
  cleanupExpiredTasks days now q
  = (match expired with
     | [] => set_completedTasks kept q
     | _ => emit (Event.tasksCleanedUp expired) (set_completedTasks kept q)
     end, expired).
Proof.
  intros Hnd expired kept. unfold cleanupExpiredTasks.
  pose proof (cleanupLoop_exact days now (completedTasks q) [] [] Hnd) as H.
  cbn [app] in H.
  destruct (cleanupLoop days now (completedTasks q) (completedTasks q, []))
    as [kept' expired'] eqn:E.
  assert ((kept', expired') = (kept, expired)) as Heq
      by (etransitivity; [symmetry; exact E|exact H]).
  injection Heq as -> ->. reflexivity.
Qed.

Lemma archiveFormed_processNext now q : sound q -> archiveFormed (processNext now q).
Proof.
  unfold processNext. intros [Hwf Ha].
  destruct (_ >=? _); [exact Ha|].
  destruct (pendingQueue q) as [|task rest] eqn:Hpending; [exact Ha|].
  destruct Ha as (Hnd & Hp & Hr & He). rewrite Hpending in Hp.
  unfold archiveFormed. simpl.
  split; [exact Hnd|]. split; [|split; [|exact He]].
  - intros k Hk. apply Hp. now right.
  - intros id k Hget.
    destruct (String.eqb_spec (Task.taskId task) id) as [<-|Hne].
    + apply Hp. now left.
    + rewrite JsMap_get_set_other in Hget by exact Hne. now apply (Hr id k).
Qed.

Lemma sound_processNext now q : sound q -> sound (processNext now q).
Proof.
  intros Hq. split; [apply wellFormed_processNext, Hq|].
  now apply archiveFormed_processNext.
Qed.

(** A record leaves the in-flight map for the archive. *)
Lemma archiveFormed_archive taskId task task' q :
  sound q ->
  JsMap.get taskId (processingTasks q) = Some task ->
  Task.taskId task' = Task.taskId task ->
  Task.startedAt task' = Task.startedAt task ->
  (exists c, Task.completedAt task' = Some c) ->
  ((Task.status task' = Task.completed /\ Task.error task' = None)
   \/ (Task.status task' = Task.failed /\ exists r, Task.error task' = Some r)) ->
  archiveFormed
    (set_completedTasks
       (JsMap.set taskId task' (completedTasks q))
       (set_processingTasks (JsMap.delete taskId (processingTasks q)) q)).
Proof.
  intros [(Hp & Hr & Hd & He) (Hnd & Hap & Har & Hae)] Hget Hid Hst Hdone Hstatus.
  destruct (He taskId task (JsMap_get_In _ _ _ Hget)) as (Hkey & _ & Hstarted).
  assert (JsMap.get taskId (completedTasks q) = None) as Hfresh
      by (now apply (Har taskId task)).
  unfold archiveFormed. simpl. split; [|split; [|split]].
  - rewrite JsMap_keys_set_fresh by exact Hfresh.
    apply NoDup_snoc; [exact Hnd|]. now apply JsMap_get_None_keys.
  - intros k Hk. rewrite JsMap_get_set_other; [now apply Hap|].
    intros Heq. specialize (Hd k Hk). rewrite <- Heq in Hd. congruence.
  - intros id k Hk.
    destruct (String.eqb_spec taskId id) as [<-|Hne].
    + rewrite JsMap_get_delete_same in Hk. discriminate.
    + rewrite JsMap_get_delete_other in Hk by exact Hne.
      rewrite JsMap_get_set_other by exact Hne. now apply (Har id k).
  - intros id k Hin. apply JsMap_In_set in Hin.
    destruct Hin as [[= -> ->]|Hin]; [|now apply Hae].
    split; [congruence|]. split; [rewrite Hst; exact Hstarted|].
    split; assumption.
Qed.

Lemma archiveFormed_emit e q : archiveFormed q -> archiveFormed (emit e q).
Proof. intros H. exact H. Qed.

Lemma sound_completeTask taskId url file now q :
  sound q -> sound (fst (completeTask taskId url file now q)).
Proof.
  intros Hq. split; [apply wellFormed_completeTask, Hq|].
  unfold completeTask.
  destruct (JsMap.get taskId (processingTasks q)) as [task|] eqn:Hget;
    [|apply Hq].
  cbn [fst]. apply archiveFormed_processNext.
  pose proof (archiveFormed_archive taskId task
                (Task.complete url file now task) q Hq Hget
                eq_refl eq_refl (ex_intro _ now eq_refl)
                (or_introl (conj eq_refl eq_refl))) as Ha.
  pose proof (wellFormed_delete taskId q (proj1 Hq)) as Hwf.
  unfold updateStats. destruct (Task.getProcessingTime _); split; assumption.
Qed.

Lemma sound_failTask taskId reason now q :
  sound q -> sound (fst (failTask taskId reason now q)).
Proof.
  intros Hq. split; [apply wellFormed_failTask, Hq|].
  unfold failTask.
  destruct (JsMap.get taskId (processingTasks q)) as [task|] eqn:Hget;
    [|apply Hq].
  destruct (_ <? _); cbn [fst]; apply archiveFormed_processNext.
  - split; [exact (wellFormed_requeue taskId task q (proj1 Hq) Hget)|].
    destruct Hq as [(Hp & Hr & Hd & He) (Hnd & Hap & Har & Hae)].
    destruct (He taskId task (JsMap_get_In _ _ _ Hget)) as (Hkey & _).
    unfold archiveFormed. simpl.
    split; [exact Hnd|]. split; [|split; [|exact Hae]].
    + intros k [<-|Hk]; [|now apply Hap].
      simpl. rewrite Hkey. now apply (Har taskId task).
    + intros id k Hk.
      destruct (String.eqb_spec taskId id) as [<-|Hne].
      * rewrite JsMap_get_delete_same in Hk. discriminate.
      * rewrite JsMap_get_delete_other in Hk by exact Hne. now apply (Har id k).
  - split; [exact (wellFormed_delete taskId q (proj1 Hq))|].
    exact (archiveFormed_archive taskId task (Task.fail reason now task) q
             Hq Hget eq_refl eq_refl (ex_intro _ now eq_refl)
             (or_intror (conj eq_refl (ex_intro _ reason eq_refl)))).
Qed.

Lemma sound_enqueue task now q :
  sound q -> sound (fst (enqueue task now q)).
Proof.
  intros Hq. split; [apply wellFormed_enqueue, Hq|].
  unfold enqueue. destruct task as [task|]; [|apply Hq].
  destruct (_ =? _)%string; [apply Hq|].
  destruct (hasTask _ _) eqn:Hhas; [apply Hq|].
  cbn [fst]. apply archiveFormed_processNext.
  split; [exact (wellFormed_push task q (proj1 Hq) Hhas)|].
  apply hasTask_false in Hhas. destruct Hhas as (_ & Hnc & _).
  destruct Hq as [_ (Hnd & Hap & Har & Hae)].
  unfold archiveFormed. simpl.
  split; [exact Hnd|]. split; [|split; [exact Har|exact Hae]].
  intros k Hk. apply in_app_iff in Hk.
  destruct Hk as [Hk|[<-|[]]]; [now apply Hap|exact Hnc].
Qed.

Lemma sound_cleanup days now q :
  sound q -> sound (fst (cleanupExpiredTasks days now q)).
Proof.
  intros Hq. split; [apply wellFormed_cleanup, Hq|].
  destruct Hq as [_ (Hnd & Hap & Har & Hae)].
  rewrite (cleanupExpiredTasks_exact days now q Hnd). cbn [fst].
  assert (archiveFormed
            (set_completedTasks
               (filter (fun e => negb (Task.isExpired days now (snd e)))
                       (completedTasks q)) q)) as H.
  { unfold archiveFormed. simpl. split; [|split; [|split]].
    - now apply JsMap_keys_filter_NoDup.
    - intros k Hk. apply JsMap_get_filter_None. now apply Hap.
    - intros id k Hk. apply JsMap_get_filter_None. now apply (Har id k).
    - intros id k Hin. apply filter_In in Hin. now apply Hae. }
  destruct (map snd _); exact H.
Qed.

Lemma sound_run calls o : sound (run calls (new o)).
Proof.
  apply (invariant_run sound (fun _ => True)).
  - intros. now apply sound_enqueue.
  - intros. now apply sound_processNext.
  - intros. now apply sound_completeTask.
  - intros. now apply sound_failTask.
  - intros. now apply sound_cleanup.
  - intros b q Hq. exact Hq.
  - intros id q Hq. exact Hq.
  - intros q Hq. exact Hq.
  - intros q Hq. exact Hq.
  - apply Forall_forall. trivial.
  - split; [apply wellFormed_new|].
    unfold archiveFormed. simpl.
    repeat split; try constructor; intros; try contradiction; discriminate.
Qed.

End QueueArchive.

Section QueueIdentity.

Import TaskQueue.

Lemma find_id_None (pending : list Task.t) id :
  find (fun task => (Task.taskId task =? id)%string) pending = None
  <-> ~ In id (map Task.taskId pending).
Proof.
  induction pending as [|k pending IH]; simpl; [tauto|].
  destruct (String.eqb_spec (Task.taskId k) id) as [Heq|Hne].
  - split; [discriminate|]. intros H. exfalso. apply H. now left.
  - rewrite IH. tauto.
Qed.

Lemma getTask_None id q : getTask id q = None <-> ~ In id (heldIds q).
Proof.
  unfold getTask, JsMap.has, heldIds. rewrite !in_app_iff.
  destruct (JsMap.get id (processingTasks q)) as [k|] eqn:Hr.
  - split; [discriminate|]. intros H. exfalso. apply H. right. left.
    destruct (in_dec string_dec id (JsMap.keys (processingTasks q)))
      as [Hin|Hout]; [exact Hin|].
    apply JsMap_get_None_keys in Hout. congruence.
  - apply JsMap_get_None_keys in Hr.
    destruct (JsMap.get id (completedTasks q)) as [k|] eqn:Hc.
    + split; [discriminate|]. intros H. exfalso. apply H. right. right.
      destruct (in_dec string_dec id (JsMap.keys (completedTasks q)))
        as [Hin|Hout]; [exact Hin|].
      apply JsMap_get_None_keys in Hout. congruence.
    + apply JsMap_get_None_keys in Hc. rewrite find_id_None. tauto.
Qed.

Lemma sound_heldIds q : sound q -> NoDup (heldIds q).
Proof.
  intros [(Hp & Hr & Hd & He) (Hnd & Hap & Har & Hae)].
  unfold heldIds. apply NoDup_app; [exact Hp| |].
  - apply NoDup_app; [exact Hr|exact Hnd|].
    intros id Hin Hin'.
    destruct (JsMap.get id (processingTasks q)) as [k|] eqn:Hk.
    + apply (Har id k) in Hk. apply JsMap_get_None_keys in Hk. contradiction.
    + apply JsMap_get_None_keys in Hk. contradiction.
  - intros id Hin Hin'. apply in_map_iff in Hin. destruct Hin as [k [<- Hk]].
    apply in_app_iff in Hin'. destruct Hin' as [Hin'|Hin'].
    + specialize (Hd k Hk). apply JsMap_get_None_keys in Hd. contradiction.
    + specialize (Hap k Hk). apply JsMap_get_None_keys in Hap. contradiction.
Qed.

(** X1.  After any sequence of calls on a fresh queue, no task id is held
    twice: the ids of the pending deque, the keys of the in-flight map and
    the keys of the archive are pairwise distinct. *)
Theorem held_ids_are_distinct :
  forall (o : UserOptions) (calls : list (Z * Call)),
    NoDup (heldIds (run calls (new o))).
Proof.
  intros o calls. apply sound_heldIds, sound_run.
Qed.

(** X2.  After any sequence of calls on a fresh queue, [getTask] answers
    with a record that carries the id asked for, and answers null exactly
    for the ids the queue does not hold. *)
Theorem getTask_finds_the_record :
  forall (o : UserOptions) (calls : list (Z * Call)) (id : string),
    let q := run calls (new o) in
    (forall k, getTask id q = Some k -> Task.taskId k = id)
    /\ (getTask id q = None <-> ~ In id (heldIds q))
    /\ (hasTask id q = true <-> In id (heldIds q)).
Proof.
  intros o calls id q.
  destruct (sound_run calls o) as [(_ & _ & _ & He) (_ & _ & _ & Hae)].
  fold q in He, Hae. split; [|split].
  - intros k. unfold getTask, JsMap.has.
    destruct (JsMap.get id (processingTasks q)) as [k'|] eqn:Hr.
    + intros [= <-]. now apply (He id k'), JsMap_get_In.
    + destruct (JsMap.get id (completedTasks q)) as [k'|] eqn:Hc.
      * intros [= <-]. now apply (Hae id k'), JsMap_get_In.
      * intros Hfind. apply find_some in Hfind.
        now apply String.eqb_eq.
  - apply getTask_None.
  - unfold hasTask. pose proof (getTask_None id q) as Hnone.
    destruct (getTask id q).
    + split; [intros _|reflexivity].
      destruct (in_dec string_dec id (heldIds q)) as [Hin|Hout]; [exact Hin|].
      apply Hnone in Hout. discriminate.
    + split; [discriminate|]. intros Hin. exfalso. now apply Hnone.
Qed.

Lemma processNext_pending_subset now q k :
  In k (pendingQueue (processNext now q)) -> In k (pendingQueue q).
Proof.
  unfold processNext. destruct (_ >=? _); [tauto|].
  destruct (pendingQueue q) as [|h rest] eqn:E; [now rewrite E|].
  simpl. intros H. now right.
Qed.

Lemma pendingArePending_run calls o :
  Forall (fun c => enqueuesPending (snd c)) calls ->
  pendingArePending (run calls (new o)).
Proof.
  intros Hcalls.
  apply (invariant_run pendingArePending enqueuesPending); try assumption.
  - intros task now q Hok Hq. unfold enqueue.
    destruct task as [task|]; [|exact Hq].
    destruct (_ =? _)%string; [exact Hq|].
    destruct (hasTask _ _); [exact Hq|].
    cbn [fst]. intros k Hk. apply processNext_pending_subset in Hk.
    simpl in Hk. apply in_app_iff in Hk.
    destruct Hk as [Hk|[<-|[]]]; [now apply Hq|exact Hok].
  - intros now q Hq k Hk. apply processNext_pending_subset in Hk. now apply Hq.
  - intros id url file now q Hq. unfold completeTask.
    destruct (JsMap.get id (processingTasks q)); [|exact Hq].
    cbn [fst]. intros k Hk. apply processNext_pending_subset in Hk.
    apply Hq. unfold updateStats in Hk.
    destruct (Task.getProcessingTime _); exact Hk.
  - intros id reason now q Hq. unfold failTask.
    destruct (JsMap.get id (processingTasks q)) as [task|]; [|exact Hq].
    destruct (_ <? _); cbn [fst]; intros k Hk;
      apply processNext_pending_subset in Hk; simpl in Hk.
    + destruct Hk as [<-|Hk]; [reflexivity|now apply Hq].
    + now apply Hq.
  - intros days now q Hq.
    destruct (cleanupExpiredTasks_frame days now q) as (_ & _ & Hp & _).
    unfold pendingArePending. rewrite Hp. exact Hq.
  - intros b q Hq. exact Hq.
  - intros id q Hq. exact Hq.
  - intros q Hq. exact Hq.
  - intros q Hq. exact Hq.
  - intros k [].
Qed.

(** X3.  After any sequence of calls on a fresh queue that was handed
    pending records, the state of a record tells its container: records in
    the pending deque are pending; records in flight are processing and
    have a start time; archived records are completed with no error or
    failed with an error, and have both a start and an end time. *)
Theorem status_matches_container :
  forall (o : UserOptions) (calls : list (Z * Call)),
    Forall (fun c => enqueuesPending (snd c)) calls ->
    let q := run calls (new o) in
    (forall k, In k (pendingQueue q) -> Task.status k = Task.pending)
    /\ (forall k, In k (JsMap.values (processingTasks q)) ->
          Task.status k = Task.processing
          /\ exists s, Task.startedAt k = Some s)
    /\ (forall k, In k (JsMap.values (completedTasks q)) ->
          (exists s, Task.startedAt k = Some s)
          /\ (exists c, Task.completedAt k = Some c)
          /\ ((Task.status k = Task.completed /\ Task.error k = None)
              \/ (Task.status k = Task.failed
                  /\ exists r, Task.error k = Some r))).
Proof.
  intros o calls Hcalls q.
  destruct (sound_run calls o) as [(_ & _ & _ & He) (_ & _ & _ & Hae)].
  fold q in He, Hae. split; [|split].
  - exact (pendingArePending_run calls o Hcalls).
  - intros k Hk. unfold JsMap.values in Hk. apply in_map_iff in Hk.
    destruct Hk as [[id k'] [<- Hin]]. now apply (He id k').
  - intros k Hk. unfold JsMap.values in Hk. apply in_map_iff in Hk.
    destruct Hk as [[id k'] [<- Hin]]. now apply (Hae id k').
Qed.

End QueueIdentity.

(** ** Counting the records the queue holds *)

Section QueueConservation.

Import TaskQueue.

Lemma submissions_cons e history :
  submissions (e :: history)
  = (match e with Event.taskEnqueued _ => 1 | _ => 0 end) + submissions history.
Proof.
  unfold submissions. simpl. destruct e; simpl List.length; lia.
Qed.

Lemma evictions_cons e history :
  evictions (e :: history)
  = (match e with
     | Event.tasksCleanedUp ks => Z.of_nat (List.length ks)
     | _ => 0
     end) + evictions history.
Proof. unfold evictions. simpl. destruct e; lia. Qed.

Lemma partition_length {A} (f : A -> bool) (l : list A) :
  (List.length (filter f l) + List.length (filter (fun x => negb (f x)) l)
   = List.length l)%nat.
Proof.
  induction l as [|x l IH]; simpl; [reflexivity|].
  destruct (f x); simpl; lia.
Qed.

Lemma conserved_held q : conserved q <-> held q = net q.
Proof. reflexivity. Qed.

Ltac conserved_as_held :=
  repeat match goal with
         | H : conserved ?x |- _ => change (held x = net x) in H
         | |- conserved ?x => change (held x = net x)
         end.

Lemma held_processNext now q :
  wellFormed q ->
  held (processNext now q) = held q /\ net (processNext now q) = net q.
Proof.
  unfold processNext, held, net. intros (_ & _ & Hd & _).
  destruct (_ >=? _); [split; reflexivity|].
  destruct (pendingQueue q) as [|task rest] eqn:Hpending; [now rewrite Hpending|].
  cbn -[Z.of_nat Z.add Z.sub submissions evictions].
  rewrite JsMap_size_set_fresh by (apply Hd; now left).
  rewrite submissions_cons, evictions_cons.
  simpl List.length. split; lia.
Qed.

Lemma conserved_step_processNext now q d :
  wellFormed q -> held q = net q + d ->
  held (processNext now q) = net (processNext now q) + d.
Proof.
  intros Hwf H. destruct (held_processNext now q Hwf) as [-> ->]. exact H.
Qed.

Lemma conserved_enqueue task now q :
  sound q /\ conserved q -> conserved (fst (enqueue task now q)).
Proof.
  intros [[Hwf _] Hc]. conserved_as_held.
  unfold enqueue. destruct task as [task|]; [|exact Hc].
  destruct (_ =? _)%string; [exact Hc|].
  destruct (hasTask _ _) eqn:Hhas; [exact Hc|].
  cbn [fst]. rewrite <- (Z.add_0_r (net _)).
  apply conserved_step_processNext.
  - exact (wellFormed_push task q Hwf Hhas).
  - unfold held, net in *.
    cbn -[Z.of_nat Z.add Z.sub submissions evictions].
    rewrite submissions_cons, evictions_cons, length_app. simpl List.length. lia.
Qed.

Lemma conserved_completeTask taskId url file now q :
  sound q /\ conserved q -> conserved (fst (completeTask taskId url file now q)).
Proof.
  intros [[Hwf Ha] Hc]. conserved_as_held.
  unfold completeTask.
  destruct (JsMap.get taskId (processingTasks q)) as [task|] eqn:Hget;
    [|exact Hc].
  cbn [fst]. rewrite <- (Z.add_0_r (net _)).
  pose proof (wellFormed_delete taskId q Hwf) as Hwf'.
  pose proof Hwf as (_ & Hkeys & _). pose proof Ha as (_ & _ & Har & _).
  pose proof (JsMap_size_delete_present _ _ _ Hkeys Hget) as Hdel.
  pose proof (JsMap_size_set_fresh (completedTasks q) taskId
                (Task.complete url file now task) (Har _ _ Hget)) as Hset.
  unfold updateStats.
  destruct (Task.getProcessingTime _);
    (apply conserved_step_processNext; [exact Hwf'|]);
    unfold held, net in *;
    cbn -[Z.of_nat Z.add Z.sub submissions evictions];
    rewrite submissions_cons, evictions_cons; lia.
Qed.

Lemma conserved_failTask taskId reason now q :
  sound q /\ conserved q -> conserved (fst (failTask taskId reason now q)).
Proof.
  intros [[Hwf Ha] Hc]. conserved_as_held.
  unfold failTask.
  destruct (JsMap.get taskId (processingTasks q)) as [task|] eqn:Hget;
    [|exact Hc].
  pose proof Hwf as (_ & Hkeys & _). pose proof Ha as (_ & _ & Har & _).
  pose proof (JsMap_size_delete_present _ _ _ Hkeys Hget) as Hdel.
  pose proof (JsMap_size_set_fresh (completedTasks q) taskId
                (Task.fail reason now task) (Har _ _ Hget)) as Hset.
  destruct (_ <? _); cbn [fst]; rewrite <- (Z.add_0_r (net _));
    apply conserved_step_processNext.
  - exact (wellFormed_requeue taskId task q Hwf Hget).
  - unfold held, net in *.
    cbn -[Z.of_nat Z.add Z.sub submissions evictions].
    rewrite submissions_cons, evictions_cons. simpl List.length. lia.
  - exact (wellFormed_delete taskId q Hwf).
  - unfold held, net in *.
    cbn -[Z.of_nat Z.add Z.sub submissions evictions].
    rewrite submissions_cons, evictions_cons. lia.
Qed.

Lemma conserved_cleanup days now q :
  sound q /\ conserved q -> conserved (fst (cleanupExpiredTasks days now q)).
Proof.
  intros [[_ (Hnd & _)] Hc]. conserved_as_held.
  rewrite (cleanupExpiredTasks_exact days now q Hnd). cbn [fst].
  pose proof (partition_length (fun e => Task.isExpired days now (snd e))
                (completedTasks q)) as Hlen.
  unfold held, net, JsMap.size in *.
  destruct (map snd (filter _ (completedTasks q))) as [|x expired] eqn:Hexp.
  - apply (f_equal (@List.length _)) in Hexp. rewrite length_map in Hexp.
    simpl in Hexp. cbn -[Z.of_nat Z.add Z.sub submissions evictions]. lia.
  - apply (f_equal (@List.length _)) in Hexp. rewrite length_map in Hexp.
    cbn -[Z.of_nat Z.add Z.sub submissions evictions].
    rewrite submissions_cons, evictions_cons. lia.
Qed.

Lemma conserved_run calls o : conserved (run calls (new o)).
Proof.
  assert (sound (run calls (new o)) /\ conserved (run calls (new o)))
    as [_ H]; [|exact H].
  apply (invariant_run (fun q => sound q /\ conserved q) (fun _ => True)).
  - intros task now q' _ Hq. split;
      [apply sound_enqueue, Hq|now apply conserved_enqueue].
  - intros now q' [Hs Hc]. split; [now apply sound_processNext|].
    conserved_as_held.
    rewrite <- (Z.add_0_r (net _)).
    apply conserved_step_processNext; [apply Hs|lia].
  - intros id url file now q' Hq. split;
      [apply sound_completeTask, Hq|now apply conserved_completeTask].
  - intros id reason now q' Hq. split;
      [apply sound_failTask, Hq|now apply conserved_failTask].
  - intros days now q' Hq. split;
      [apply sound_cleanup, Hq|now apply conserved_cleanup].
  - intros b q' Hq. exact Hq.
  - intros id q' [Hs Hc]. split; [exact Hs|].
    conserved_as_held.
    unfold held, net in *. cbn -[Z.of_nat Z.add Z.sub submissions evictions].
    rewrite submissions_cons, evictions_cons. lia.
  - intros q' [Hs Hc]. split; [exact Hs|].
    conserved_as_held.
    unfold held, net in *. cbn -[Z.of_nat Z.add Z.sub submissions evictions].
    rewrite submissions_cons, evictions_cons. lia.
  - intros q' [Hs Hc]. split; [exact Hs|].
    conserved_as_held.
    unfold held, net in *. cbn -[Z.of_nat Z.add Z.sub submissions evictions].
    rewrite submissions_cons, evictions_cons. lia.
  - apply Forall_forall. trivial.
  - split; [apply (sound_run [] o)|reflexivity].
Qed.

(** X4.  After any sequence of calls on a fresh queue, the pending,
    processing and completed counts of [getQueueStatus] add up to the
    number of records enqueued minus the number evicted by cleanup. *)
Theorem queue_status_counts_every_record :
  forall (o : UserOptions) (calls : list (Z * Call)),
    let q := run calls (new o) in
    let status := getQueueStatus q in
    QueueStatus.pendingTasks status + QueueStatus.processingTasks status
      + QueueStatus.completedTasks status
    = submissions (emitted q) - evictions (emitted q).
Proof.
  intros o calls. exact (conserved_run calls o).
Qed.

End QueueConservation.

(** ** Submitting, retiring and restarting records *)

Section QueueHandling.

Import TaskQueue.

(** X5.  Once a record has been offered to [enqueue], offering any record
    with the same id again returns false and changes nothing, whether the
    first offer was accepted or not. *)
Theorem enqueue_rejects_a_held_id :
  forall (q : TaskQueue.t) (task other : Task.t) (now now' : Z),
    Task.taskId task <> ""%string ->
    Task.taskId other = Task.taskId task ->
    let q1 := fst (enqueue (Some task) now q) in
    hasTask (Task.taskId task) q1 = true
    /\ enqueue (Some other) now' q1 = (q1, Returned false).
Proof.
  intros q task other now now' Hid Hsame q1.
  assert (hasTask (Task.taskId task) q1 = true) as Hheld.
  { subst q1. destruct (hasTask (Task.taskId task) q) eqn:Hhas.
    - unfold enqueue. destruct (String.eqb_spec (Task.taskId task) "");
        [contradiction|]. now rewrite Hhas.
    - destruct (enqueue_getTask task now q Hid Hhas) as (_ & _ & k & Hk & _).
      unfold hasTask. now rewrite Hk. }
  split; [exact Hheld|]. unfold enqueue at 1. rewrite Hsame.
  destruct (String.eqb_spec (Task.taskId task) ""); [contradiction|].
  now rewrite Hheld.
Qed.

Lemma JsMap_get_filter {V} (f : string * V -> bool) (m : JsMap.t V) k v :
  NoDup (JsMap.keys m) ->
  JsMap.get k (filter f m) = Some v
  <-> JsMap.get k m = Some v /\ f (k, v) = true.
Proof.
  intros Hnd. split.
  - intros H. apply JsMap_get_In in H. apply filter_In in H.
    destruct H as [Hin Hf]. split; [now apply JsMap_In_get|exact Hf].
  - intros [H Hf]. apply JsMap_In_get; [now apply JsMap_keys_filter_NoDup|].
    apply filter_In. split; [now apply JsMap_get_In|exact Hf].
Qed.

Lemma map_snd_filter {A B} (f : B -> bool) (m : list (A * B)) :
  map snd (filter (fun e => f (snd e)) m) = filter f (map snd m).
Proof.
  induction m as [|[a b] m IH]; simpl; [reflexivity|].
  destruct (f b); simpl; now rewrite IH.
Qed.

Lemma filter_all {A} (f : A -> bool) (l : list A) :
  filter (fun x => negb (f x)) l = [] -> filter f l = l.
Proof.
  induction l as [|x l IH]; simpl; [reflexivity|].
  destruct (f x); simpl; [intros H; now rewrite IH|discriminate].
Qed.

(** X6.  On a queue reached by any sequence of calls, retention cleanup
    evicts exactly the archived records created more than [days] days
    ago: it returns them in the order of the archive, keeps every other
    archived record under its id, leaves the pending deque, the in-flight
    map and the statistics alone, emits [tasksCleanedUp] with the evicted
    records when there are any and changes nothing at all when there are
    none; a second cleanup at the same time evicts nothing. *)
Theorem cleanup_evicts_exactly_the_expired :
  forall (o : UserOptions) (calls : list (Z * Call)) (days now : Z),
    let q := run calls (new o) in
    let q' := fst (cleanupExpiredTasks days now q) in
    let evicted := snd (cleanupExpiredTasks days now q) in
    evicted
    = filter (fun k => 86400000 * days <? now - Task.createdAt k)
             (JsMap.values (completedTasks q))
    /\ (forall id k,
          JsMap.get id (completedTasks q') = Some k
          <-> JsMap.get id (completedTasks q) = Some k
              /\ now - Task.createdAt k <= 86400000 * days)
    /\ pendingQueue q' = pendingQueue q
    /\ processingTasks q' = processingTasks q
    /\ stats q' = stats q
    /\ (evicted <> [] -> emitted q' = Event.tasksCleanedUp evicted :: emitted q)
    /\ (evicted = [] -> q' = q)
    /\ snd (cleanupExpiredTasks days now q') = [].
Proof.
  intros o calls days now q q' evicted.
  destruct (sound_run calls o) as [_ (Hnd & _)]. fold q in Hnd.
  assert (forall k, Task.isExpired days now k
                    = (86400000 * days <? now - Task.createdAt k)) as Hexp.
  { intros k. destruct (Z.ltb_spec (86400000 * days) (now - Task.createdAt k))
      as [H|H].
    - now apply isExpired_true.
    - apply not_true_is_false. intros Ht. apply isExpired_true in Ht. lia. }
  assert (map snd (filter (fun e => Task.isExpired days now (snd e))
                             (completedTasks q))
          = filter (fun k => 86400000 * days <? now - Task.createdAt k)
                   (JsMap.values (completedTasks q))) as Hev.
  { unfold JsMap.values. rewrite map_snd_filter. apply filter_ext. exact Hexp. }
  subst q' evicted. rewrite (cleanupExpiredTasks_exact days now q Hnd).
  cbn [fst snd]. rewrite Hev.
  set (evicted := filter _ (JsMap.values (completedTasks q))) in *.
  set (kept := filter _ (completedTasks q)).
  assert (completedTasks
            (match evicted with
             | [] => set_completedTasks kept q
             | _ => emit (Event.tasksCleanedUp evicted) (set_completedTasks kept q)
             end) = kept) as Hkept by (now destruct evicted).
  split; [reflexivity|]. split; [|split; [|split; [|split; [|split; [|split]]]]].
  - intros id k. rewrite Hkept. subst kept.
    rewrite JsMap_get_filter by exact Hnd. cbn [snd]. rewrite Hexp.
    destruct (Z.ltb_spec (86400000 * days) (now - Task.createdAt k));
      cbn [negb].
    + split; [intros [_ H2]; discriminate H2|intros [_ H2]; lia].
    + split; intros [H1 _]; (split; [exact H1|]); [lia|reflexivity].
  - now destruct evicted.
  - now destruct evicted.
  - now destruct evicted.
  - destruct evicted; [congruence|reflexivity].
  - intros Hnone. rewrite Hnone.
    assert (kept = completedTasks q) as ->.
    { subst kept. rewrite <- Hev in Hnone. apply map_eq_nil in Hnone.
      apply (filter_all (fun e => negb (Task.isExpired days now (snd e)))).
      rewrite <- Hnone. apply filter_ext. intros e. apply negb_involutive. }
    now destruct q.
  - match goal with |- snd (cleanupExpiredTasks days now ?x) = [] =>
      rewrite (cleanupExpiredTasks_exact days now x)
    end.
    + cbn [snd]. rewrite Hkept. subst kept.
      assert (forall (m : JsMap.t Task.t),
                filter (fun e => Task.isExpired days now (snd e))
                  (filter (fun e => negb (Task.isExpired days now (snd e))) m)
                = []) as Hnil.
      { induction m as [|e m IH]; simpl; [reflexivity|].
        destruct (Task.isExpired days now (snd e)) eqn:E; simpl; [exact IH|].
        now rewrite E. }
      now rewrite Hnil.
    + rewrite Hkept. subst kept. now apply JsMap_keys_filter_NoDup.
Qed.

(** X9.  On a queue reached by any sequence of calls (with
    [maxConcurrent] not negative), completing an in-flight task while
    records are pending hands its slot to the head of the pending deque in
    the same call: the completed record is archived, the head is started
    and stored in the in-flight map, and the in-flight count is unchanged. *)
Theorem completeTask_hands_the_slot_on :
  forall (o : UserOptions) (calls : list (Z * Call)) (taskId : string)
         (imageUrl fileName : option string) (now : Z)
         (task head : Task.t) (rest : list Task.t),
    let q := run calls (new o) in
    0 <= maxConcurrent (options (new o)) ->
    JsMap.get taskId (processingTasks q) = Some task ->
    pendingQueue q = head :: rest ->
    let q' := fst (completeTask taskId imageUrl fileName now q) in
    JsMap.get taskId (completedTasks q')
    = Some (Task.complete imageUrl fileName now task)
    /\ JsMap.get taskId (processingTasks q') = None
    /\ pendingQueue q' = rest
    /\ JsMap.get (Task.taskId head) (processingTasks q')
       = Some (Task.start now head)
    /\ JsMap.size (processingTasks q') = JsMap.size (processingTasks q).
Proof.
  intros o calls taskId imageUrl fileName now task head rest q Hmax Hget
    Hpending q'.
  destruct (sound_run calls o) as [Hwf _]. fold q in Hwf.
  pose proof Hwf as (_ & Hkeys & Hd & He).
  assert (bounded q) as Hb.
  { apply run_bounded. unfold bounded. simpl. unfold JsMap.size. simpl.
    exact Hmax. }
  unfold bounded in Hb.
  pose proof (JsMap_size_delete_present _ _ _ Hkeys Hget) as Hdel.
  assert (Task.taskId head <> taskId) as Hne.
  { intros Heq. rewrite <- Heq in Hget. rewrite Hd in Hget; [discriminate|].
    rewrite Hpending. now left. }
  assert (JsMap.get (Task.taskId head)
            (JsMap.delete taskId (processingTasks q)) = None) as Hfresh.
  { rewrite JsMap_get_delete_other by congruence. apply Hd.
    rewrite Hpending. now left. }
  subst q'. unfold completeTask. rewrite Hget. cbn [fst].
  unfold updateStats, processNext.
  destruct (Task.getProcessingTime _);
    cbn -[Z.of_nat Z.add Z.sub Z.geb JsMap.size];
    (destruct (Z.geb_spec (JsMap.size (JsMap.delete taskId (processingTasks q)))
                          (maxConcurrent (options q))); [lia|]);
    rewrite Hpending; cbn -[Z.of_nat Z.add Z.sub JsMap.size];
    (split; [apply JsMap_get_set_same|]);
    (split; [rewrite JsMap_get_set_other by exact Hne;
             apply JsMap_get_delete_same|]);
    (split; [reflexivity|]);
    (split; [apply JsMap_get_set_same|]);
    rewrite JsMap_size_set_fresh by exact Hfresh; lia.
Qed.

(** X10.  On a queue reached by any sequence of calls (with
    [maxConcurrent] not negative), a failure with retry budget left
    restarts the task within the same call: the pending deque is as
    before, and the record is in flight again with [retryCount] one
    higher, no error and the current time as its start; [taskRetry] and
    then [taskStarted] are emitted for it. *)
Theorem failTask_restarts_at_once :
  forall (o : UserOptions) (calls : list (Z * Call)) (taskId reason : string)
         (now : Z) (task : Task.t),
    let q := run calls (new o) in
    0 <= maxConcurrent (options (new o)) ->
    JsMap.get taskId (processingTasks q) = Some task ->
    Task.retryCount task < retryAttempts (options q) ->
    let q' := fst (failTask taskId reason now q) in
    let restarted := Task.start now (Task.retry task) in
    pendingQueue q' = pendingQueue q
    /\ JsMap.get taskId (processingTasks q') = Some restarted
    /\ Task.retryCount restarted = Task.retryCount task + 1
    /\ Task.startedAt restarted = Some now
    /\ Task.error restarted = None
    /\ JsMap.size (processingTasks q') = JsMap.size (processingTasks q)
    /\ completedTasks q' = completedTasks q
    /\ emitted q'
       = Event.taskStarted restarted :: Event.taskRetry (Task.retry task)
           :: emitted q.
Proof.
  intros o calls taskId reason now task q Hmax Hget Hlt q' restarted.
  destruct (sound_run calls o) as [Hwf _]. fold q in Hwf.
  pose proof Hwf as (_ & Hkeys & _ & He).
  destruct (He taskId task (JsMap_get_In _ _ _ Hget)) as (Hid & _).
  assert (bounded q) as Hb.
  { apply run_bounded. unfold bounded. simpl. unfold JsMap.size. simpl.
    exact Hmax. }
  unfold bounded in Hb.
  pose proof (JsMap_size_delete_present _ _ _ Hkeys Hget) as Hdel.
  subst q' restarted. unfold failTask. rewrite Hget.
  destruct (Z.ltb_spec (Task.retryCount task) (retryAttempts (options q)));
    [|lia].
  cbn [fst]. unfold processNext.
  cbn -[Z.of_nat Z.add Z.sub Z.geb JsMap.size].
  destruct (Z.geb_spec (JsMap.size (JsMap.delete taskId (processingTasks q)))
                       (maxConcurrent (options q))); [lia|].
  cbn -[Z.of_nat Z.add Z.sub JsMap.size]. rewrite Hid.
  split; [reflexivity|]. split; [apply JsMap_get_set_same|].
  repeat (split; [reflexivity|]).
  split; [|split; reflexivity].
  rewrite JsMap_size_set_fresh by apply JsMap_get_delete_same. lia.
Qed.

End QueueHandling.

(** ** The queue: where the sweep leaves an overdue record *)

Section SweepPlacement.

Import TaskQueue.

Lemma processNext_idle now q :
  maxConcurrent (options q) < 0 -> processingTasks q = [] ->
  processNext now q = q.
Proof.
  intros Hm Hp. unfold processNext.
  destruct (Z.geb_spec (JsMap.size (processingTasks q))
                       (maxConcurrent (options q))) as [_|Hlt]; [reflexivity|].
  rewrite Hp in Hlt. unfold JsMap.size in Hlt. simpl in Hlt. lia.
Qed.

(** With [maxConcurrent] negative nothing is ever admitted. *)
Lemma run_never_admits calls o :
  maxConcurrent (options (new o)) < 0 ->
  processingTasks (run calls (new o)) = [].
Proof.
  intros Hneg.
  assert (maxConcurrent (options (run calls (new o))) < 0
          /\ processingTasks (run calls (new o)) = []) as [_ H]; [|exact H].
  apply (invariant_run
           (fun q => maxConcurrent (options q) < 0 /\ processingTasks q = [])
           (fun _ => True)).
  - intros task now q _ [Hm Hp]. unfold enqueue.
    destruct task as [task|]; [|now split].
    destruct (_ =? _)%string; [now split|].
    destruct (hasTask _ _); [now split|].
    cbn [fst]. rewrite processNext_idle; [now split|exact Hm|exact Hp].
  - intros now q [Hm Hp]. rewrite processNext_idle; [now split|exact Hm|exact Hp].
  - intros taskId url file now q [Hm Hp]. unfold completeTask. rewrite Hp.
    simpl. now split.
  - intros taskId reason now q [Hm Hp]. unfold failTask. rewrite Hp.
    simpl. now split.
  - intros days now q [Hm Hp].
    destruct (cleanupExpiredTasks_frame days now q) as (Ho & Hq & _).
    now rewrite Ho, Hq.
  - intros b q H. exact H.
  - intros id q H. exact H.
  - intros q H. exact H.
  - intros q H. exact H.
  - apply Forall_forall. trivial.
  - split; [exact Hneg|reflexivity].
Qed.

(** A queue that holds a record in flight respects [maxConcurrent]. *)
Lemma in_flight_bounded calls o id task :
  JsMap.get id (processingTasks (run calls (new o))) = Some task ->
  bounded (run calls (new o)).
Proof.
  intros Hget.
  destruct (Z.lt_ge_cases (maxConcurrent (options (new o))) 0) as [Hneg|Hpos].
  - rewrite (run_never_admits calls o Hneg) in Hget. discriminate.
  - apply run_bounded. unfold bounded. simpl. unfold JsMap.size. simpl.
    exact Hpos.
Qed.

Lemma failTask_sweep_restart taskId task reason now q :
  wellFormed q -> bounded q ->
  JsMap.get taskId (processingTasks q) = Some task ->
  Task.retryCount task < retryAttempts (options q) ->
  let restarted := Task.start now (Task.retry task) in
  let q2 :=
    fst (failTask taskId reason now
           (emit (Event.taskTimeout (JsMap.get taskId (processingTasks q))) q)) in
  JsMap.get taskId (processingTasks q2) = Some restarted
  /\ emitted q2
     = Event.taskStarted restarted :: Event.taskRetry (Task.retry task)
         :: Event.taskTimeout (Some task) :: emitted q.
Proof.
  intros Hwf Hb Hget Hlt restarted q2.
  pose proof Hwf as (_ & Hkeys & _ & He).
  destruct (He taskId task (JsMap_get_In _ _ _ Hget)) as (Hid & _).
  unfold bounded in Hb.
  pose proof (JsMap_size_delete_present _ _ _ Hkeys Hget) as Hdel.
  subst q2 restarted. unfold failTask. cbn [processingTasks emit options].
  rewrite Hget.
  destruct (Z.ltb_spec (Task.retryCount task) (retryAttempts (options q)));
    [|lia].
  cbn [fst]. unfold processNext.
  cbn -[Z.of_nat Z.add Z.sub Z.geb JsMap.size].
  destruct (Z.geb_spec (JsMap.size (JsMap.delete taskId (processingTasks q)))
                       (maxConcurrent (options q))); [lia|].
  cbn -[Z.of_nat Z.add Z.sub JsMap.size]. rewrite Hid.
  split; [apply JsMap_get_set_same|reflexivity].
Qed.

(** The sweep is the failure path, taken for each overdue record in
    turn: no call of [failTask] throws. *)
Lemma failTimedOut_fold ids now q :
  wellFormed q -> NoDup ids ->
  (forall id, In id ids -> exists k, JsMap.get id (processingTasks q) = Some k) ->
  fst (failTimedOut ids now q)
  = fold_left
      (fun q id =>
         fst (failTask id timeoutReason now
                (emit (Event.taskTimeout (JsMap.get id (processingTasks q))) q)))
      ids q.
Proof.
  revert q. induction ids as [|id0 ids IH]; intros q Hq Hnd Hall;
    [reflexivity|].
  inversion Hnd as [|? ? Hnotin Hnd']; subst.
  destruct (Hall id0) as [task0 Hget0]; [now left|].
  destruct (failTask_sweep_step id0 task0 timeoutReason now q Hq Hget0)
    as (q2 & started & Hfail & Hwf2 & _ & _ & Hproc2 & _).
  cbn [failTimedOut fold_left]. rewrite Hfail. cbn [fst]. apply IH.
  - exact Hwf2.
  - exact Hnd'.
  - intros id Hin. destruct (Hall id) as [k Hk]; [now right|].
    exists k. apply Hproc2; [|exact Hk]. intros ->. contradiction.
Qed.

(** In the sweep, a record with retry budget left is in flight again when
    the sweep ends, retried and restarted at the time of the sweep. *)
Lemma failTimedOut_restarts ids now q :
  wellFormed q -> bounded q -> NoDup ids ->
  (forall id, In id ids -> exists k, JsMap.get id (processingTasks q) = Some k) ->
  forall id task,
    In id ids ->
    JsMap.get id (processingTasks q) = Some task ->
    Task.retryCount task < retryAttempts (options q) ->
    let restarted := Task.start now (Task.retry task) in
    let q' := fst (failTimedOut ids now q) in
    JsMap.get id (processingTasks q') = Some restarted
    /\ exists newer older,
         emitted q'
         = (newer ++ Event.taskStarted restarted
                  :: Event.taskRetry (Task.retry task)
                  :: Event.taskTimeout (Some task) :: older)%list.
Proof.
  revert q. induction ids as [|id0 ids IH]; intros q Hq Hb Hnd Hall id task Hin
    Hget Hlt; [destruct Hin|].
  inversion Hnd as [|? ? Hnotin Hnd']; subst.
  destruct (Hall id0) as [task0 Hget0]; [now left|].
  destruct (failTask_sweep_step id0 task0 timeoutReason now q Hq Hget0)
    as (q2 & started & Hfail & Hwf2 & Hopt2 & Hem2 & Hproc2 & _).
  pose proof (failTask_bounded id0 timeoutReason now
                (emit (Event.taskTimeout (JsMap.get id0 (processingTasks q))) q)
                Hb) as Hb2.
  assert (forall i, In i ids ->
            exists k, JsMap.get i (processingTasks q2) = Some k) as Hall2.
  { intros i Hi. destruct (Hall i) as [k Hk]; [now right|].
    exists k. apply Hproc2; [|exact Hk]. intros ->. contradiction. }
  cbn zeta. simpl failTimedOut. rewrite Hfail in *. cbn [fst] in Hb2.
  destruct Hin as [<-|Hin].
  - rewrite Hget0 in Hget. injection Hget as <-.
    destruct (failTask_sweep_restart id0 task0 timeoutReason now q Hq Hb Hget0 Hlt)
      as [Hre Hev].
    rewrite Hfail in Hre, Hev. cbn [fst] in Hre, Hev.
    destruct (failTimedOut_spec ids now q2 Hwf2 Hnd' Hall2)
      as (q' & Hrun & _ & _ & [newer Hnewer] & Hproc' & _).
    rewrite Hrun. cbn [fst]. split.
    + now apply Hproc'.
    + exists newer, (emitted q). now rewrite Hnewer, Hev.
  - assert (id <> id0) as Hne by (intros ->; contradiction).
    apply (IH q2 Hwf2 Hb2 Hnd' Hall2 id task Hin).
    + now apply Hproc2.
    + now rewrite Hopt2.
Qed.

End SweepPlacement.

Section Claim_C5.

Import TaskQueue.

Lemma held_once q id :
  sound q ->
  (forall k, JsMap.get id (processingTasks q) = Some k ->
     JsMap.get id (completedTasks q) = None
     /\ ~ In id (map Task.taskId (pendingQueue q)))
  /\ (forall k, JsMap.get id (completedTasks q) = Some k ->
        JsMap.get id (processingTasks q) = None
        /\ ~ In id (map Task.taskId (pendingQueue q))).
Proof.
  intros [(_ & _ & Hd & _) (_ & Hap & Har & _)]. split.
  - intros k Hk. split; [exact (Har id k Hk)|].
    intros Hin. apply in_map_iff in Hin. destruct Hin as [p [<- Hp]].
    rewrite (Hd p Hp) in Hk. discriminate.
  - intros k Hk. split.
    + destruct (JsMap.get id (processingTasks q)) as [r|] eqn:Hr; [|reflexivity].
      rewrite (Har id r Hr) in Hk. discriminate.
    + intros Hin. apply in_map_iff in Hin. destruct Hin as [p [<- Hp]].
      rewrite (Hap p Hp) in Hk. discriminate.
Qed.

(** C5, as amended.  On a queue reached by any sequence of calls, the
    sweep returns normally and, for every record in the in-flight map that
    started more than [taskTimeout] seconds ago, emits [taskTimeout] with
    that record and then takes the failure path of [failTask] with the
    reason "Task timeout".  With [retryCount] below [retryAttempts] the
    record is retried: [taskRetry] and then [taskStarted] are emitted for
    it, and when the sweep ends it is in flight again with [retryCount]
    one higher and the time of the sweep as its start, neither pending nor
    archived.  Otherwise [taskFailed] is emitted and the record is
    archived as failed with error "Task timeout" and its [retryCount]
    unchanged, no longer in flight.  The timer, while armed, runs exactly
    this sweep, and records that are not overdue stay in flight as they
    were.  As a whole the sweep is [failTask], preceded by the event
    [taskTimeout], for each overdue record in the order of the in-flight
    map, and none of these calls throws. *)
Theorem timeout_sweep_fails_overdue_records :
  forall (o : UserOptions) (calls : list (Z * Call)) (now : Z),
    let q := run calls (new o) in
    exists q',
      checkTimeouts now q = (q', Returned tt)
      /\ (timeoutCheckInterval q = true -> step q (now, TimerFires) = q')
      /\ (forall id task s,
            JsMap.get id (processingTasks q) = Some task ->
            Task.startedAt task = Some s ->
            1000 * taskTimeout (options q) < now - s ->
            (Task.retryCount task < retryAttempts (options q) ->
               let restarted := Task.start now (Task.retry task) in
               Task.retryCount restarted = Task.retryCount task + 1
               /\ Task.startedAt restarted = Some now
               /\ JsMap.get id (processingTasks q') = Some restarted
               /\ JsMap.get id (completedTasks q') = None
               /\ ~ In id (map Task.taskId (pendingQueue q'))
               /\ exists newer older,
                    emitted q'
                    = (newer ++ Event.taskStarted restarted
                             :: Event.taskRetry (Task.retry task)
                             :: Event.taskTimeout (Some task) :: older)%list)
            /\ (retryAttempts (options q) <= Task.retryCount task ->
                let failed := Task.fail "Task timeout" now task in
                Task.status failed = Task.failed
                /\ Task.error failed = Some "Task timeout"%string
                /\ Task.retryCount failed = Task.retryCount task
                /\ JsMap.get id (completedTasks q') = Some failed
                /\ JsMap.get id (processingTasks q') = None
                /\ ~ In id (map Task.taskId (pendingQueue q'))
                /\ exists newer older,
                     emitted q'
                     = (newer ++ Event.taskFailed failed
                              :: Event.taskTimeout (Some task) :: older)%list))
      /\ (forall id task s,
            JsMap.get id (processingTasks q) = Some task ->
            Task.startedAt task = Some s ->
            now - s <= 1000 * taskTimeout (options q) ->
            JsMap.get id (processingTasks q') = Some task)
      /\ q'
         = fold_left
             (fun q id =>
                fst (failTask id "Task timeout" now
                       (emit (Event.taskTimeout
                                (JsMap.get id (processingTasks q))) q)))
             (timedOutIds now q) q
      /\ (forall id,
            In id (timedOutIds now q)
            <-> exists task s,
                  JsMap.get id (processingTasks q) = Some task
                  /\ Task.startedAt task = Some s
                  /\ 1000 * taskTimeout (options q) < now - s).
Proof.
  intros o calls now q.
  assert (wellFormed q) as Hq by apply wellFormed_run, wellFormed_new.
  pose proof Hq as (_ & Hkeys & _ & Hentries).
  assert (forall id, In id (timedOutIds now q) ->
            exists k, JsMap.get id (processingTasks q) = Some k) as Hall.
  { intros id Hin. apply timedOutIds_In in Hin; [|exact Hkeys].
    destruct Hin as [k [Hk _]]. now exists k. }
  pose proof (timedOutIds_NoDup now q Hkeys) as Hnd.
  destruct (failTimedOut_spec (timedOutIds now q) now q Hq Hnd Hall)
    as (q' & Hrun & _ & _ & _ & Hproc & _ & Hev).
  assert (sound q') as Hsound.
  { replace q' with (run (calls ++ [(now, CheckTimeouts)]) (new o));
      [apply sound_run|].
    unfold run. rewrite fold_left_app. cbn [fold_left step fst snd].
    fold (run calls (new o)). fold q. unfold checkTimeouts. now rewrite Hrun. }
  exists q'. split; [exact Hrun|]. split; [|split; [|split; [|split]]].
  - intros Harmed. unfold step. cbn [fst snd]. rewrite Harmed.
    unfold checkTimeouts. now rewrite Hrun.
  - intros id task s Hget Hstart Hlate.
    destruct (Hentries id task (JsMap_get_In _ _ _ Hget)) as (_ & Hstatus & _).
    assert (In id (timedOutIds now q)) as Hin.
    { apply timedOutIds_In; [exact Hkeys|]. exists task. split; [exact Hget|].
      apply isTimeout_true. split; [exact Hstatus|]. now exists s. }
    destruct (Hev id task Hin Hget) as [[newer [older Hem]] Hdone].
    unfold failureEvent in Hem. split.
    + intros Hlt restarted.
      destruct (failTimedOut_restarts (timedOutIds now q) now q Hq
                  (in_flight_bounded calls o id task Hget) Hnd Hall id task
                  Hin Hget Hlt) as [Hre Hevents].
      rewrite Hrun in Hre, Hevents. cbn [fst] in Hre, Hevents.
      destruct (held_once q' id Hsound) as [Hflight _].
      destruct (Hflight _ Hre) as [Hnone Hnot].
      split; [reflexivity|]. split; [reflexivity|]. split; [exact Hre|].
      split; [exact Hnone|]. split; [exact Hnot|exact Hevents].
    + intros Hge failed.
      pose proof (Hdone Hge) as Harch.
      destruct (held_once q' id Hsound) as [_ Harchived].
      destruct (Harchived _ Harch) as [Hnone Hnot].
      split; [reflexivity|]. split; [reflexivity|]. split; [reflexivity|].
      split; [exact Harch|]. split; [exact Hnone|]. split; [exact Hnot|].
      exists newer, older.
      destruct (Z.ltb_spec (Task.retryCount task) (retryAttempts (options q)));
        [lia|exact Hem].
  - intros id task s Hget Hstart Hearly. apply Hproc; [|exact Hget].
    intros Hin. apply timedOutIds_In in Hin; [|exact Hkeys].
    destruct Hin as [k [Hk Ht]]. rewrite Hget in Hk. injection Hk as <-.
    apply isTimeout_true in Ht. destruct Ht as [_ [s' [Hs' Hlate]]].
    rewrite Hstart in Hs'. injection Hs' as <-. lia.
  - pose proof (failTimedOut_fold (timedOutIds now q) now q Hq Hnd Hall) as H.
    rewrite Hrun in H. exact H.
  - intros id. rewrite (timedOutIds_In now q id Hkeys). split.
    + intros (task & Hget & Ht). apply isTimeout_true in Ht.
      destruct Ht as (_ & s & Hs & Hlate). now exists task, s.
    + intros (task & s & Hget & Hs & Hlate). exists task. split; [exact Hget|].
      destruct (Hentries id task (JsMap_get_In _ _ _ Hget)) as (_ & Hstatus & _).
      apply isTimeout_true. split; [exact Hstatus|]. now exists s.
Qed.

Lemma timeout_sweep_fails_overdue_records_witness :
  (exists q',
     checkTimeouts 5000
       (run [(0, Enqueue (Some Sample.taskA))]
            (new (mkUserOptions None (Some 1) (Some 1))))
     = (q', Returned tt)
     /\ JsMap.get "a" (processingTasks q')
        = Some (Task.start 5000 (Task.retry (Task.start 0 Sample.taskA)))
     /\ JsMap.get "a" (completedTasks q') = None
     /\ exists newer older,
          emitted q'
          = (newer
             ++ Event.taskStarted
                  (Task.start 5000 (Task.retry (Task.start 0 Sample.taskA)))
             :: Event.taskRetry (Task.retry (Task.start 0 Sample.taskA))
             :: Event.taskTimeout (Some (Task.start 0 Sample.taskA))
             :: older)%list)
  /\ (exists q',
        checkTimeouts 5000
          (run [(0, Enqueue (Some Sample.taskA))]
               (new (mkUserOptions None (Some 1) (Some 0))))
        = (q', Returned tt)
        /\ JsMap.get "a" (completedTasks q')
           = Some (Task.fail "Task timeout" 5000 (Task.start 0 Sample.taskA))
        /\ JsMap.get "a" (processingTasks q') = None)
  /\ (exists q',
        checkTimeouts 5000
          (run [(0, Enqueue (Some Sample.taskA))] (new Sample.defaults))
        = (q', Returned tt)
        /\ JsMap.get "a" (processingTasks q')
           = Some (Task.start 0 Sample.taskA)).
Proof.
  split; [|split].
  - destruct (timeout_sweep_fails_overdue_records
                (mkUserOptions None (Some 1) (Some 1))
                [(0, Enqueue (Some Sample.taskA))] 5000)
      as (q' & Hrun & _ & Hlate & _).
    exists q'. split; [exact Hrun|].
    destruct (Hlate "a"%string (Task.start 0 Sample.taskA) 0 eq_refl eq_refl
                    ltac:(simpl; lia)) as [Hretry _].
    destruct (Hretry ltac:(simpl; lia))
      as (_ & _ & Hflight & Hnone & _ & Hevents).
    split; [exact Hflight|]. split; [exact Hnone|exact Hevents].
  - destruct (timeout_sweep_fails_overdue_records
                (mkUserOptions None (Some 1) (Some 0))
                [(0, Enqueue (Some Sample.taskA))] 5000)
      as (q' & Hrun & _ & Hlate & _).
    exists q'. split; [exact Hrun|].
    destruct (Hlate "a"%string (Task.start 0 Sample.taskA) 0 eq_refl eq_refl
                    ltac:(simpl; lia)) as [_ Hfail].
    destruct (Hfail ltac:(simpl; lia)) as (_ & _ & _ & Hget & Hnone & _).
    split; [exact Hget|exact Hnone].
  - destruct (timeout_sweep_fails_overdue_records
                Sample.defaults [(0, Enqueue (Some Sample.taskA))] 5000)
      as (q' & Hrun & _ & _ & Hearly & _).
    exists q'. split; [exact Hrun|].
    exact (Hearly "a"%string (Task.start 0 Sample.taskA) 0 eq_refl eq_refl
                  ltac:(simpl; lia)).
Defined.

End Claim_C5.

(** ** The statistics of the queue and the order of admission *)

Section QueueOrder.

Import TaskQueue.

Lemma processNext_stats now q : stats (processNext now q) = stats q.
Proof.
  unfold processNext. destruct (_ >=? _); [reflexivity|].
  destruct (pendingQueue q); reflexivity.
Qed.




Lemma startedIds_cons e history :
  startedIds (e :: history)
  = startedIds history
    ++ match e with Event.taskStarted k => [Task.taskId k] | _ => [] end.
Proof.
  unfold startedIds. simpl. rewrite rev_app_distr.
  destruct e; simpl; try reflexivity.
Qed.

Lemma enqueuedIds_cons e history :
  enqueuedIds (e :: history)
  = enqueuedIds history
    ++ match e with Event.taskEnqueued k => [Task.taskId k] | _ => [] end.
Proof.
  unfold enqueuedIds. simpl. rewrite rev_app_distr.
  destruct e; simpl; try reflexivity.
Qed.

Lemma processNext_keeps_history now q e :
  In e (emitted q) -> In e (emitted (processNext now q)).
Proof.
  intros H. destruct (processNext_emitted now q) as [started ->].
  apply in_or_app. now right.
Qed.

Lemma fifo_processNext now q : fifo q -> fifo (processNext now q).
Proof.
  unfold fifo, processNext. intros H.
  destruct (_ >=? _); [exact H|].
  destruct (pendingQueue q) as [|task rest] eqn:E; [now rewrite E|].
  cbn [emitted pendingQueue emit startProcessing set_pendingQueue
       set_processingTasks].
  rewrite startedIds_cons, enqueuedIds_cons, app_nil_r, <- H.
  simpl. now rewrite <- app_assoc.
Qed.

Lemma unretried_processNext now q :
  (~ retried (emitted q) -> fifo q) ->
  ~ retried (emitted (processNext now q)) -> fifo (processNext now q).
Proof.
  intros HI Hnr. apply fifo_processNext, HI. intros [k Hk]. apply Hnr.
  exists k. now apply processNext_keeps_history.
Qed.

(** X8.  After any sequence of calls on a fresh queue in which no task
    was retried, tasks were admitted in the order they were enqueued: the
    ids of the started records, oldest first, followed by the ids of the
    pending deque, are the ids of the enqueued records, oldest first. *)
Theorem admission_follows_submission :
  forall (o : UserOptions) (calls : list (Z * Call)),
    let q := run calls (new o) in
    ~ retried (emitted q) ->
    startedIds (emitted q) ++ map Task.taskId (pendingQueue q)
    = enqueuedIds (emitted q).
Proof.
  intros o calls q.
  apply (invariant_run (fun q => ~ retried (emitted q) -> fifo q)
                       (fun _ => True)).
  - intros task now q' _ HI. unfold enqueue.
    destruct task as [task|]; [|exact HI].
    destruct (_ =? _)%string; [exact HI|].
    destruct (hasTask _ _); [exact HI|].
    cbn [fst]. apply unretried_processNext. intros Hnr.
    unfold fifo. cbn [emitted pendingQueue emit set_pendingQueue].
    rewrite startedIds_cons, enqueuedIds_cons, app_nil_r, map_app, app_assoc.
    rewrite HI; [reflexivity|].
    intros [k Hk]. apply Hnr. exists k. now right.
  - intros now q' HI. now apply unretried_processNext.
  - intros id url file now q' HI. unfold completeTask.
    destruct (JsMap.get id (processingTasks q')); [|exact HI].
    cbn [fst]. apply unretried_processNext. intros Hnr.
    assert (fifo q') as H.
    { apply HI. intros [k Hk]. apply Hnr. exists k. unfold updateStats.
      destruct (Task.getProcessingTime _); now right. }
    unfold fifo, updateStats in *.
    destruct (Task.getProcessingTime _);
      cbn [emitted pendingQueue emit set_stats set_completedTasks
           set_processingTasks];
      now rewrite startedIds_cons, enqueuedIds_cons, !app_nil_r.
  - intros id reason now q' HI. unfold failTask.
    destruct (JsMap.get id (processingTasks q')) as [task|]; [|exact HI].
    destruct (_ <? _); cbn [fst]; apply unretried_processNext; intros Hnr.
    + exfalso. apply Hnr. exists (Task.retry task). now left.
    + assert (fifo q') as H.
      { apply HI. intros [k Hk]. apply Hnr. exists k. now right. }
      unfold fifo in *.
      cbn [emitted pendingQueue emit set_stats set_completedTasks
           set_processingTasks].
      now rewrite startedIds_cons, enqueuedIds_cons, !app_nil_r.
  - intros days now q' HI Hnr.
    destruct (cleanupExpiredTasks_frame days now q') as (_ & _ & Hp & _).
    unfold fifo. rewrite Hp. unfold cleanupExpiredTasks in *.
    destruct (cleanupLoop _ _ _ _) as [kept expired].
    destruct expired as [|x expired]; cbn [fst emitted emit set_completedTasks]
      in *; [now apply HI|].
    rewrite startedIds_cons, enqueuedIds_cons, !app_nil_r.
    apply HI. intros [k Hk]. apply Hnr. exists k. now right.
  - intros b q' HI. exact HI.
  - intros id q' HI Hnr. unfold fifo. cbn [emitted pendingQueue emit].
    rewrite startedIds_cons, enqueuedIds_cons, !app_nil_r.
    apply HI. intros [k Hk]. apply Hnr. exists k. now right.
  - intros q' HI Hnr. unfold fifo. cbn [emitted pendingQueue emit].
    rewrite startedIds_cons, enqueuedIds_cons, !app_nil_r.
    apply HI. intros [k Hk]. apply Hnr. exists k. now right.
  - intros q' HI Hnr. unfold fifo. cbn [emitted pendingQueue emit].
    rewrite startedIds_cons, enqueuedIds_cons, !app_nil_r.
    apply HI. intros [k Hk]. apply Hnr. exists k. now right.
  - apply Forall_forall. trivial.
  - intros _. reflexivity.
Qed.

End QueueOrder.

(** ** Closed instances of the further queue properties *)

Section QueueInstances.

Import TaskQueue.
Local Open Scope string_scope.

Lemma status_matches_container_witness :
  let q := run Sample.calls (new Sample.defaults) in
  Forall (fun k => (exists s, Task.startedAt k = Some s)
                   /\ (exists c, Task.completedAt k = Some c))
         (JsMap.values (completedTasks q)).
Proof.
  intros q. apply Forall_forall. intros k Hk.
  destruct (status_matches_container Sample.defaults Sample.calls
              ltac:(repeat constructor)) as (_ & _ & Harchive).
  destruct (Harchive k Hk) as (Hs & Hc & _). split; [exact Hs|exact Hc].
Defined.

Lemma enqueue_rejects_a_held_id_witness :
  let q1 := fst (enqueue (Some Sample.taskA) 0 (new Sample.defaults)) in
  enqueue (Some (Task.new "a" Js.null 3)) 3 q1 = (q1, Returned false).
Proof.
  intros q1.
  exact (proj2 (enqueue_rejects_a_held_id
                  (new Sample.defaults) Sample.taskA (Task.new "a" Js.null 3)
                  0 3 ltac:(discriminate) eq_refl)).
Defined.

Lemma admission_follows_submission_witness :
  let q := run [(0, Enqueue (Some Sample.taskA));
                (1, Enqueue (Some Sample.taskB));
                (9, CompleteTask "a" (Some "https://cdn/a.png") (Some "a.png"))]
               (new (mkUserOptions (Some 1) None None)) in
  enqueuedIds (emitted q) = ["a"; "b"]
  /\ (startedIds (emitted q) ++ map Task.taskId (pendingQueue q))%list
     = enqueuedIds (emitted q).
Proof.
  split; [vm_compute; reflexivity|].
  apply (admission_follows_submission
           (mkUserOptions (Some 1) None None)
           [(0, Enqueue (Some Sample.taskA));
            (1, Enqueue (Some Sample.taskB));
            (9, CompleteTask "a" (Some "https://cdn/a.png") (Some "a.png"))]).
  vm_compute. intros [k Hk].
  repeat (destruct Hk as [Hk|Hk]; [discriminate Hk|]). exact Hk.
Defined.

Lemma completeTask_hands_the_slot_on_witness :
  let q := run [(0, Enqueue (Some Sample.taskA));
                (1, Enqueue (Some Sample.taskB))]
               (new (mkUserOptions (Some 1) None None)) in
  let q' := fst (completeTask "a" (Some "https://cdn/a.png") (Some "a.png") 9 q) in
  pendingQueue q' = []
  /\ JsMap.get "b" (processingTasks q') = Some (Task.start 9 Sample.taskB)
  /\ JsMap.size (processingTasks q') = 1.
Proof.
  intros q q'.
  destruct (completeTask_hands_the_slot_on
              (mkUserOptions (Some 1) None None)
              [(0, Enqueue (Some Sample.taskA));
               (1, Enqueue (Some Sample.taskB))]
              "a" (Some "https://cdn/a.png") (Some "a.png") 9
              (Task.start 0 Sample.taskA) Sample.taskB []
              ltac:(simpl; lia) eq_refl eq_refl)
    as (_ & _ & Hpending & Hget & Hsize).
  split; [exact Hpending|]. split; [exact Hget|exact Hsize].
Defined.

Lemma failTask_restarts_at_once_witness :
  let q := run [(0, Enqueue (Some Sample.taskA))] (new Sample.defaults) in
  let q' := fst (failTask "a" "render failed" 5 q) in
  pendingQueue q' = []
  /\ JsMap.get "a" (processingTasks q')
     = Some (Task.start 5 (Task.retry (Task.start 0 Sample.taskA))).
Proof.
  intros q q'.
  destruct (failTask_restarts_at_once
              Sample.defaults [(0, Enqueue (Some Sample.taskA))]
              "a" "render failed" 5 (Task.start 0 Sample.taskA)
              ltac:(simpl; lia) eq_refl ltac:(simpl; lia))
    as (Hpending & Hget & _).
  split; [exact Hpending|exact Hget].
Defined.

End QueueInstances.

(** * Further properties of the metrics *)

Section Reservoirs.

Lemma lastN_all {A} n (l : list A) :
  (List.length l <= n)%nat -> lastN n l = l.
Proof.
  intros H. unfold lastN. replace (List.length l - n)%nat with 0%nat by lia.
  reflexivity.
Qed.

Lemma lastN_length {A} n (l : list A) :
  List.length (lastN n l) = Nat.min n (List.length l).
Proof. unfold lastN. rewrite length_skipn. lia. Qed.

Lemma lastN_app_lastN {A} n (a b : list A) :
  lastN n (lastN n a ++ b) = lastN n (a ++ b).
Proof.
  destruct (Nat.le_gt_cases (List.length a) n) as [H|H].
  - now rewrite (lastN_all n a H).
  - unfold lastN at 1 3. rewrite !length_app, lastN_length.
    replace (Nat.min n (List.length a)) with n by lia.
    replace (n + List.length b - n)%nat with (List.length b) by lia.
    replace (List.length a + List.length b - n)%nat
      with (List.length b + (List.length a - n))%nat by lia.
    rewrite <- skipn_skipn. f_equal. unfold lastN.
    rewrite skipn_app.
    replace (List.length a - n - List.length a)%nat with 0%nat by lia.
    reflexivity.
Qed.

Lemma pushCapped_lastN (cap : nat) (l : list Z) (x : Z) :
  (1 <= cap)%nat -> (List.length l <= cap)%nat ->
  pushCapped (Z.of_nat cap) l x = lastN cap (l ++ [x]).
Proof.
  intros Hcap Hl. unfold pushCapped, lastN. rewrite length_app. simpl List.length.
  destruct (Z.gtb_spec (Z.of_nat (List.length l + 1)) (Z.of_nat cap)).
  - replace (List.length l + 1 - cap)%nat with 1%nat by lia.
    destruct (l ++ [x]); reflexivity.
  - replace (List.length l + 1 - cap)%nat with 0%nat by lia. reflexivity.
Qed.

Lemma pushCapped_fold (cap : nat) (xs l : list Z) :
  (1 <= cap)%nat -> (List.length l <= cap)%nat ->
  fold_left (pushCapped (Z.of_nat cap)) xs l = lastN cap (l ++ xs).
Proof.
  intros Hcap. revert l. induction xs as [|x xs IH]; intros l Hl.
  - simpl. rewrite app_nil_r. symmetry. now apply lastN_all.
  - simpl fold_left. rewrite pushCapped_lastN by assumption.
    rewrite IH by (rewrite lastN_length; lia).
    rewrite lastN_app_lastN, <- app_assoc. reflexivity.
Qed.

Lemma pushCapped_bound (cap : Z) (l : list Z) (x : Z) :
  0 <= cap -> Z.of_nat (List.length l) <= cap ->
  Z.of_nat (List.length (pushCapped cap l x)) <= cap.
Proof.
  intros Hcap Hl. unfold pushCapped.
  assert (List.length (l ++ [x]) = S (List.length l)) as E
      by (rewrite length_app; simpl; lia).
  destruct (Z.gtb_spec (Z.of_nat (List.length (l ++ [x]))) cap) as [H|H];
    [|exact H].
  destruct (l ++ [x]); cbn [tl List.length] in *; lia.
Qed.

Lemma pushCapped_nonempty (cap : Z) (l : list Z) (x : Z) :
  1 <= cap -> pushCapped cap l x <> [].
Proof.
  intros Hcap. unfold pushCapped.
  destruct (Z.gtb_spec (Z.of_nat (List.length (l ++ [x]))) cap) as [H|H].
  - destruct (l ++ [x]) as [|y [|z rest]]; simpl in *; [lia|lia|discriminate].
  - destruct l; discriminate.
Qed.

End Reservoirs.

Section MetricsOrder.

Import MetricsService.

Lemma nth_error_sorted (l : list Z) :
  StronglySorted Z.le l ->
  forall (i j : nat) a b,
    (i <= j)%nat -> nth_error l i = Some a -> nth_error l j = Some b -> a <= b.
Proof.
  induction 1 as [|x l Hs IH Hall]; intros i j a b Hij Ha Hb.
  - destruct i; discriminate.
  - destruct i as [|i], j as [|j]; simpl in *.
    + injection Ha as <-. injection Hb as <-. lia.
    + injection Ha as <-. apply nth_error_In in Hb.
      rewrite Forall_forall in Hall. now apply Hall.
    + lia.
    + apply (IH i j); [lia|assumption..].
Qed.

Lemma at_sorted (l : list Z) (i j : Z) a b :
  LocallySorted Z.le l -> 0 <= i <= j ->
  at_ l i = Some a -> at_ l j = Some b -> a <= b.
Proof.
  intros Hs Hij Ha Hb. unfold at_ in *.
  destruct (Z.ltb_spec i 0); [lia|]. destruct (Z.ltb_spec j 0); [lia|].
  apply (nth_error_sorted l) with (i := Z.to_nat i) (j := Z.to_nat j);
    [|lia|assumption..].
  apply Sorted_StronglySorted; [intros x y z; apply Z.le_trans|].
  now apply Sorted_LocallySorted_iff.
Qed.

Lemma In_at (l : list Z) x :
  In x l -> exists i, 0 <= i < Z.of_nat (List.length l) /\ at_ l i = Some x.
Proof.
  intros Hin. apply In_nth_error in Hin. destruct Hin as [n Hn].
  exists (Z.of_nat n). split.
  - assert (n < List.length l)%nat
      by (apply nth_error_Some; congruence). lia.
  - unfold at_. destruct (Z.ltb_spec (Z.of_nat n) 0); [lia|].
    now rewrite Nat2Z.id.
Qed.

Lemma percentile_index_mono (n : Z) (p q : Q) :
  0 <= n -> (p <= q)%Q ->
  Qceiling (inject_Z n * p) - 1 <= Qceiling (inject_Z n * q) - 1.
Proof.
  intros Hn Hpq.
  assert (inject_Z n * p <= inject_Z n * q)%Q as H.
  { rewrite !(Qmult_comm (inject_Z n)). apply Qmult_le_compat_r; [exact Hpq|].
    change 0%Q with (inject_Z 0). rewrite <- Zle_Qle. exact Hn. }
  apply Qceiling_resp_le in H. lia.
Qed.

Lemma samples_updateProcessingTimeStats m :
  samples (processingTimes (updateProcessingTimeStats m))
  = samples (processingTimes m).
Proof.
  unfold updateProcessingTimeStats. destruct (_ =? 0); reflexivity.
Qed.

Lemma samples_addProcessingTime time m :
  samples (processingTimes (addProcessingTime time m))
  = pushCapped 1000 (samples (processingTimes m)) time.
Proof.
  unfold addProcessingTime. now rewrite samples_updateProcessingTimeStats.
Qed.

Lemma samples_addAll times m :
  (List.length (samples (processingTimes m)) <= 1000)%nat ->
  samples (processingTimes (addAll times m))
  = lastN 1000 (samples (processingTimes m) ++ times).
Proof.
  intros Hm. rewrite <- (pushCapped_fold 1000) by (lia || exact Hm).
  change (Z.of_nat 1000) with 1000. unfold addAll.
  revert m Hm. induction times as [|time times IH]; intros m Hm;
    [reflexivity|].
  simpl fold_left. rewrite IH.
  - now rewrite samples_addProcessingTime.
  - rewrite samples_addProcessingTime.
    rewrite (pushCapped_lastN 1000) by (lia || exact Hm).
    rewrite lastN_length. lia.
Qed.

(** What [updateProcessingTimeStats] leaves behind for a non-empty sample
    array. *)
Lemma updateProcessingTimeStats_ordered m :
  samples (processingTimes m) <> [] ->
  Z.of_nat (List.length (samples (processingTimes m))) <= 1000 ->
  let pt := processingTimes (updateProcessingTimeStats m) in
  exists a b c d e,
    min pt = Some a /\ p50 pt = Some b /\ p95 pt = Some c
    /\ p99 pt = Some d /\ max pt = Some e
    /\ a <= b /\ b <= c /\ c <= d /\ d <= e
    /\ Forall (fun x => a <= x <= e) (samples pt)
    /\ In a (samples pt) /\ In e (samples pt)
    /\ avg pt
       = (inject_Z (fold_left Z.add (samples pt) 0%Z)
          / inject_Z (Z.of_nat (List.length (samples pt))))%Q.
Proof.
  intros Hne Hcap pt. subst pt. unfold updateProcessingTimeStats.
  set (kept := samples (processingTimes m)) in *.
  assert (1 <= Z.of_nat (List.length kept)) as Hn
      by (destruct kept; [congruence|simpl List.length; lia]).
  destruct (Z.eqb_spec (Z.of_nat (List.length kept)) 0) as [Hz|_]; [lia|].
  cbn [processingTimes samples min max avg p50 p95 p99].
  pose proof (sort_sorted kept) as Hsorted.
  pose proof (sort_perm kept) as Hperm.
  assert (List.length (sort kept) = List.length kept) as Hlen
      by (symmetry; now apply Permutation_length).
  set (sorted := sort kept) in *.
  set (n := Z.of_nat (List.length kept)) in *.
  destruct (reservoir_ranks n) as (E50 & E95 & E99 & _); [lia|].
  assert (forall digits scale,
            (0 < digits # Z.to_pos scale)%Q ->
            (digits # Z.to_pos scale <= 1)%Q ->
            ceilingIsExact digits scale n = true ->
            getPercentile sorted (Double.decimal digits scale)
            = at_ sorted (Qceiling (inject_Z n * (digits # Z.to_pos scale)) - 1)
            /\ 0 <= Qceiling (inject_Z n * (digits # Z.to_pos scale)) - 1
                 <= n - 1) as Hidx.
  { intros digits scale Hpos Hle Hexact.
    pose proof (getPercentile_exact sorted digits scale) as H.
    cbv zeta in H. rewrite Hlen in H. fold n in H.
    exact (H Hn Hpos Hle Hexact). }
  destruct (Hidx 5 10) as [-> H50]; [reflexivity|discriminate|exact E50|].
  destruct (Hidx 95 100) as [-> H95]; [reflexivity|discriminate|exact E95|].
  destruct (Hidx 99 100) as [-> H99]; [reflexivity|discriminate|exact E99|].
  change (5 # Z.to_pos 10) with (5 # 10) in *.
  change (95 # Z.to_pos 100) with (95 # 100) in *.
  change (99 # Z.to_pos 100) with (99 # 100) in *.
  pose proof (percentile_index_mono n (5 # 10) (95 # 100) ltac:(lia)
                ltac:(discriminate)) as Hm1.
  pose proof (percentile_index_mono n (95 # 100) (99 # 100) ltac:(lia)
                ltac:(discriminate)) as Hm2.
  rewrite Hlen. fold n.
  destruct (at_in_range sorted 0) as [a Ha]; [rewrite Hlen; fold n; lia|].
  destruct (at_in_range sorted (Qceiling (inject_Z n * (5 # 10)) - 1))
    as [b Hb]; [rewrite Hlen; fold n; lia|].
  destruct (at_in_range sorted (Qceiling (inject_Z n * (95 # 100)) - 1))
    as [c Hc]; [rewrite Hlen; fold n; lia|].
  destruct (at_in_range sorted (Qceiling (inject_Z n * (99 # 100)) - 1))
    as [d Hd]; [rewrite Hlen; fold n; lia|].
  destruct (at_in_range sorted (n - 1)) as [e He]; [rewrite Hlen; fold n; lia|].
  exists a, b, c, d, e. rewrite Ha, Hb, Hc, Hd, He.
  do 5 (split; [reflexivity|]).
  split; [apply (at_sorted sorted 0 (Qceiling (inject_Z n * (5 # 10)) - 1)
                   a b Hsorted); [lia|assumption..]|].
  split; [apply (at_sorted sorted (Qceiling (inject_Z n * (5 # 10)) - 1)
                   (Qceiling (inject_Z n * (95 # 100)) - 1) b c Hsorted);
          [lia|assumption..]|].
  split; [apply (at_sorted sorted (Qceiling (inject_Z n * (95 # 100)) - 1)
                   (Qceiling (inject_Z n * (99 # 100)) - 1) c d Hsorted);
          [lia|assumption..]|].
  split; [apply (at_sorted sorted (Qceiling (inject_Z n * (99 # 100)) - 1)
                   (n - 1) d e Hsorted); [lia|assumption..]|].
  split; [|split; [|split; [|reflexivity]]].
  - apply Forall_forall. intros x Hx.
    assert (In x sorted) as Hxs by (eapply Permutation_in; eassumption).
    destruct (In_at sorted x Hxs) as (i & Hi & Hat). rewrite Hlen in Hi.
    fold n in Hi. split.
    + apply (at_sorted sorted 0 i a x Hsorted); [lia|assumption..].
    + apply (at_sorted sorted i (n - 1) x e Hsorted); [lia|assumption..].
  - apply Permutation_in with (l := sorted); [now symmetry|].
    eapply at_In; eassumption.
  - apply Permutation_in with (l := sorted); [now symmetry|].
    eapply at_In; eassumption.
Qed.

(** X11.  After any non-empty sequence of [addProcessingTime] calls on a
    fresh metrics service, the sample array holds the last 1000 samples in
    the order given, and the statistics are those of that array:
    min <= p50 <= p95 <= p99 <= max, min and max are samples that bound
    every sample, and avg is the mean. *)
Theorem processing_time_statistics_are_ordered :
  forall (times : list Z),
    times <> [] ->
    let pt := processingTimes (addAll times MetricsService.new) in
    samples pt = lastN 1000 times
    /\ exists a b c d e,
         min pt = Some a /\ p50 pt = Some b /\ p95 pt = Some c
         /\ p99 pt = Some d /\ max pt = Some e
         /\ a <= b /\ b <= c /\ c <= d /\ d <= e
         /\ Forall (fun x => a <= x <= e) (samples pt)
         /\ In a (samples pt) /\ In e (samples pt)
         /\ avg pt
            = (inject_Z (fold_left Z.add (samples pt) 0%Z)
               / inject_Z (Z.of_nat (List.length (samples pt))))%Q.
Proof.
  intros times Hne pt. split.
  - subst pt. rewrite samples_addAll by (simpl; lia). reflexivity.
  - destruct (exists_last Hne) as (times' & time & ->). subst pt.
    unfold addAll. rewrite fold_left_app. simpl fold_left.
    fold (addAll times' MetricsService.new).
    unfold addProcessingTime.
    match goal with |- context [updateProcessingTimeStats ?m] =>
      apply (updateProcessingTimeStats_ordered m)
    end; cbn [processingTimes samples].
    + apply (pushCapped_nonempty 1000). lia.
    + apply (pushCapped_bound 1000); [lia|].
      rewrite samples_addAll by (simpl; lia).
      rewrite lastN_length. lia.
Qed.

End MetricsOrder.

Section MetricsCounters.

Lemma fold_max_le (l : list Z) (a bound : Z) :
  a <= bound -> Forall (fun x => x <= bound) l ->
  fold_left Z.max l a <= bound.
Proof.
  revert a. induction l as [|x l IH]; intros a Ha Hl; [exact Ha|].
  inversion Hl; subst. simpl. apply IH; [lia|assumption].
Qed.

Lemma fold_max_ge (l : list Z) (a : Z) : a <= fold_left Z.max l a.
Proof.
  revert a. induction l as [|x l IH]; intros a; simpl; [lia|].
  specialize (IH (Z.max a x)). lia.
Qed.

Lemma monitor_spec (states : list TaskQueue.t) (g : MetricsQueue.t) :
  let pending q := Z.of_nat (List.length (TaskQueue.pendingQueue q)) in
  let processing q := JsMap.size (TaskQueue.processingTasks q) in
  MetricsQueue.currentPending g <= MetricsQueue.maxPending g ->
  MetricsQueue.currentProcessing g <= MetricsQueue.maxProcessing g ->
  let g' := monitor states g in
  MetricsQueue.maxPending g'
  = fold_left Z.max (map pending states) (MetricsQueue.maxPending g)
  /\ MetricsQueue.maxProcessing g'
     = fold_left Z.max (map processing states) (MetricsQueue.maxProcessing g)
  /\ MetricsQueue.currentPending g' <= MetricsQueue.maxPending g'
  /\ MetricsQueue.currentProcessing g' <= MetricsQueue.maxProcessing g'.
Proof.
  intros pending processing. revert g.
  induction states as [|q states IH]; intros g Hp Hq; [now repeat split|].
  simpl monitor. simpl map. simpl fold_left.
  match goal with |- context [monitor states ?g1] =>
    specialize (IH g1); fold (monitor states g1) in IH
  end.
  unfold MetricsQueue.updateQueueStatus, TaskQueue.getQueueStatus in *.
  cbn [TaskQueue.QueueStatus.pendingTasks TaskQueue.QueueStatus.processingTasks
       MetricsQueue.maxPending MetricsQueue.maxProcessing
       MetricsQueue.currentPending MetricsQueue.currentProcessing] in *.
  fold (pending q) in *. fold (processing q) in *.
  assert ((if pending q >? MetricsQueue.maxPending g then pending q
           else MetricsQueue.maxPending g)
          = Z.max (MetricsQueue.maxPending g) (pending q)) as E1
      by (destruct (Z.gtb_spec (pending q) (MetricsQueue.maxPending g)); lia).
  assert ((if processing q >? MetricsQueue.maxProcessing g then processing q
           else MetricsQueue.maxProcessing g)
          = Z.max (MetricsQueue.maxProcessing g) (processing q)) as E2
      by (destruct (Z.gtb_spec (processing q) (MetricsQueue.maxProcessing g));
          lia).
  rewrite E1, E2 in *. apply IH; lia.
Qed.

(** X12.  When the queue monitor samples the queue at any moments of any
    runs, the peak gauges are the running maxima of the sampled lengths
    (starting from 0), they dominate the current gauges, and the peak of
    the in-flight gauge never exceeds [maxConcurrent]. *)
Theorem peak_gauges_are_running_maxima :
  forall (o : TaskQueue.UserOptions) (runs : list (list (Z * TaskQueue.Call))),
    0 <= TaskQueue.maxConcurrent (TaskQueue.options (TaskQueue.new o)) ->
    let states := map (fun calls => TaskQueue.run calls (TaskQueue.new o)) runs in
    let g := monitor states MetricsQueue.new in
    MetricsQueue.maxPending g
    = fold_left Z.max
        (map (fun q => Z.of_nat (List.length (TaskQueue.pendingQueue q))) states) 0
    /\ MetricsQueue.maxProcessing g
       = fold_left Z.max
           (map (fun q => JsMap.size (TaskQueue.processingTasks q)) states) 0
    /\ MetricsQueue.currentPending g <= MetricsQueue.maxPending g
    /\ MetricsQueue.currentProcessing g <= MetricsQueue.maxProcessing g
    /\ MetricsQueue.maxProcessing g
       <= TaskQueue.maxConcurrent (TaskQueue.options (TaskQueue.new o)).
Proof.
  intros o runs Hmax states g.
  destruct (monitor_spec states MetricsQueue.new) as (Hp & Hq & Hcp & Hcq);
    [simpl; lia..|].
  fold g in Hp, Hq, Hcp, Hcq.
  split; [exact Hp|]. split; [exact Hq|]. split; [exact Hcp|].
  split; [exact Hcq|]. rewrite Hq.
  apply fold_max_le; [exact Hmax|].
  apply Forall_forall. intros x Hx. apply in_map_iff in Hx.
  destruct Hx as (q & <- & Hin). subst states. apply in_map_iff in Hin.
  destruct Hin as (calls & <- & _).
  assert (bounded (TaskQueue.run calls (TaskQueue.new o))) as Hb.
  { apply run_bounded. unfold bounded. simpl. unfold JsMap.size. simpl.
    exact Hmax. }
  unfold bounded in Hb. now rewrite run_options in Hb.
Qed.

Lemma recordAll_spec (responses : list (Z * Z)) (h : MetricsHTTP.t) :
  let codes := map fst responses in
  let count f := Z.of_nat (List.length (filter f codes)) in
  let h' := recordAll responses h in
  MetricsHTTP.requests h'
  = MetricsHTTP.requests h + Z.of_nat (List.length responses)
  /\ MetricsHTTP.responses2xx h'
     = MetricsHTTP.responses2xx h
       + count (fun c => (c >=? 200) && (c <? 300))
  /\ MetricsHTTP.responses4xx h'
     = MetricsHTTP.responses4xx h
       + count (fun c => (c >=? 400) && (c <? 500))
  /\ MetricsHTTP.responses5xx h'
     = MetricsHTTP.responses5xx h + count (fun c => c >=? 500)
  /\ MetricsHTTP.responseTimes h'
     = fold_left (pushCapped 1000) (map snd responses)
                 (MetricsHTTP.responseTimes h).
Proof.
  revert h. induction responses as [|[code time] responses IH]; intros h.
  - simpl. repeat split; lia.
  - cbn zeta in *. unfold recordAll in *. simpl fold_left. simpl map.
    match goal with |- context [fold_left _ responses ?h1] =>
      destruct (IH h1) as (H1 & H2 & H3 & H4 & H5)
    end.
    rewrite H1, H2, H3, H4, H5. clear IH H1 H2 H3 H4 H5.
    unfold MetricsHTTP.recordHTTPRequest, MetricsHTTP.addResponseTime.
    cbn [fst snd filter].
    destruct (Z.geb_spec code 200), (Z.ltb_spec code 300),
      (Z.geb_spec code 400), (Z.ltb_spec code 500), (Z.geb_spec code 500);
      try lia;
      cbn [andb MetricsHTTP.requests MetricsHTTP.responses2xx
           MetricsHTTP.responses4xx MetricsHTTP.responses5xx
           MetricsHTTP.responseTimes];
      simpl List.length; (repeat split; try lia; reflexivity).
Qed.

(** X13.  After any sequence of [recordHTTPRequest] calls on fresh
    metrics, [requests] is the number of calls, the 2xx, 4xx and 5xx
    counters count the status codes in 200-299, 400-499 and from 500 on,
    and the requests in no class are exactly those with a status code
    below 200 or in 300-399; [responseTimes] holds the last 1000 response
    times in order. *)
Theorem http_responses_are_classified :
  forall (responses : list (Z * Z)),
    let codes := map fst responses in
    let count f := Z.of_nat (List.length (filter f codes)) in
    let h := recordAll responses MetricsHTTP.new in
    MetricsHTTP.requests h = Z.of_nat (List.length responses)
    /\ MetricsHTTP.responses2xx h = count (fun c => (c >=? 200) && (c <? 300))
    /\ MetricsHTTP.responses4xx h = count (fun c => (c >=? 400) && (c <? 500))
    /\ MetricsHTTP.responses5xx h = count (fun c => c >=? 500)
    /\ MetricsHTTP.requests h
       - (MetricsHTTP.responses2xx h + MetricsHTTP.responses4xx h
          + MetricsHTTP.responses5xx h)
       = count unclassified
    /\ MetricsHTTP.responseTimes h = lastN 1000 (map snd responses).
Proof.
  intros responses codes count h.
  destruct (recordAll_spec responses MetricsHTTP.new)
    as (H1 & H2 & H3 & H4 & H5).
  fold codes in H2, H3, H4. fold h in H1, H2, H3, H4, H5.
  cbn [MetricsHTTP.new MetricsHTTP.requests MetricsHTTP.responses2xx
       MetricsHTTP.responses4xx MetricsHTTP.responses5xx
       MetricsHTTP.responseTimes] in H1, H2, H3, H4, H5.
  split; [lia|]. split; [exact H2|]. split; [exact H3|]. split; [exact H4|].
  split.
  - rewrite H1, H2, H3, H4. subst count codes. clear.
    induction responses as [|[code time] responses IH]; [reflexivity|].
    simpl map. cbn [filter fst]. unfold unclassified at 1.
    simpl List.length at 1.
    destruct (Z.geb_spec code 200), (Z.ltb_spec code 300),
      (Z.geb_spec code 400), (Z.ltb_spec code 500), (Z.geb_spec code 500),
      (Z.ltb_spec code 200), (Z.leb_spec 300 code), (Z.ltb_spec code 400);
      try lia; cbn [andb orb]; simpl List.length; lia.
  - rewrite H5. apply (pushCapped_fold 1000 (map snd responses) []);
      simpl; lia.
Qed.

End MetricsCounters.

(** * Further properties of the retry loops *)

Section CleanupRetries.

Import CleanupService.

Lemma waited_nil s : waited [] s = s.
Proof. destruct s; reflexivity. Qed.

Lemma waited_waited d d' s : waited d (waited d' s) = waited (d ++ d') s.
Proof. unfold waited; simpl. now rewrite app_assoc. Qed.

Lemma waits_total (unit first : Z) (count : nat) :
  2 * fold_left Z.add (waits unit first count) 0
  = unit * Z.of_nat count * (2 * first + Z.of_nat count - 1).
Proof.
  revert first. induction count as [|count IH]; intros first; [simpl; lia|].
  cbn [waits]. rewrite fold_left_app. cbn [fold_left].
  rewrite Z.mul_add_distr_l, IH. lia.
Qed.

(** [m] rejections in a row, each before the last attempt, use up [m]
    iterations and leave [m] waits behind. *)
Lemma retryLoop_rejections (attempts : Z -> Attempt) (err : Z -> JsError)
    (m : nat) :
  forall (remaining : nat) (attempt : Z) (lastError : option JsError) (s : t),
    (forall i, (i < m)%nat ->
       attempts (attempt + Z.of_nat i) = Rejects (err (attempt + Z.of_nat i))) ->
    attempt + Z.of_nat m <= maxRetries s ->
    retryLoop attempts (m + remaining) attempt lastError s
    = retryLoop attempts remaining (attempt + Z.of_nat m)
        (match m with
         | O => lastError
         | S m' => Some (err (attempt + Z.of_nat m'))
         end)
        (waited (waits 5000 attempt m) s).
Proof.
  induction m as [|m IH]; intros remaining attempt lastError s Hrej Hle.
  - simpl. now rewrite Z.add_0_r, waited_nil.
  - cbn [Nat.add retryLoop].
    pose proof (Hrej 0%nat ltac:(lia)) as H0.
    change (Z.of_nat 0) with 0 in H0. rewrite Z.add_0_r in H0. rewrite H0.
    destruct (Z.ltb_spec attempt (maxRetries s)); [|lia].
    rewrite IH.
    + cbn [maxRetries]. f_equal.
      * lia.
      * destruct m as [|m']; [now rewrite Z.add_0_r|]. f_equal. f_equal. lia.
      * unfold waited. cbn [maxRetries cleanupStats lastCleanupTime isRunning
                            timerArmed delays waits].
        now rewrite <- app_assoc.
    + intros i Hi. replace (attempt + 1 + Z.of_nat i)
        with (attempt + Z.of_nat (S i)) by lia. apply Hrej. lia.
    + cbn [maxRetries]. lia.
Qed.

(** X14.  [executeCleanupWithRetry] calls the manager's cleanup until it
    resolves, at most [maxRetries] times.  When the first [k] calls reject
    and call [k + 1] resolves, its result is returned after the waits
    5000, 10000, ..., 5000 k, which add up to 2500 k (k + 1) ms; when all
    [maxRetries] calls reject, the last error is thrown after
    [maxRetries - 1] waits, none following the last call; with
    [maxRetries] below 1 no call is made and [undefined] is thrown. *)
Theorem cleanup_retries_with_growing_waits :
  forall (attempts : Z -> Attempt) (err : Z -> JsError) (s : t) (k : nat),
    (forall i, (i < k)%nat ->
       attempts (1 + Z.of_nat i) = Rejects (err (1 + Z.of_nat i))) ->
    (forall result,
       1 + Z.of_nat k <= maxRetries s ->
       attempts (1 + Z.of_nat k) = Resolves result ->
       executeCleanupWithRetry attempts s
       = (waited (waits 5000 1 k) s, Fulfilled result)
       /\ fold_left Z.add (waits 5000 1 k) 0
          = 2500 * (Z.of_nat k + 1) * Z.of_nat k)
    /\ (Z.of_nat k = maxRetries s -> (1 <= k)%nat ->
        executeCleanupWithRetry attempts s
        = (waited (waits 5000 1 (k - 1)) s, Rejected (Some (err (Z.of_nat k)))))
    /\ (maxRetries s <= 0 ->
        executeCleanupWithRetry attempts s = (s, Rejected None)).
Proof.
  intros attempts err s k Hrej. split; [|split].
  - intros result Hk Hres. split.
    + unfold executeCleanupWithRetry.
      replace (Z.to_nat (maxRetries s))
        with (k + S (Z.to_nat (maxRetries s) - k - 1))%nat by lia.
      rewrite (retryLoop_rejections attempts err k) by (assumption || lia).
      cbn [retryLoop]. now rewrite Hres.
    + pose proof (waits_total 5000 1 k). lia.
  - intros Hk Hpos. unfold executeCleanupWithRetry.
    destruct k as [|k]; [lia|]. rewrite <- Hk, Nat2Z.id.
    replace (S k) with (k + 1)%nat at 1 by lia.
    rewrite (retryLoop_rejections attempts err k)
      by ((intros i Hi; apply Hrej; lia) || lia).
    cbn [retryLoop]. rewrite (Hrej k) by lia.
    cbn [maxRetries waited]. rewrite <- Hk.
    destruct (Z.ltb_spec (1 + Z.of_nat k) (Z.of_nat (S k))); [lia|].
    replace (S k - 1)%nat with k by lia.
    replace (1 + Z.of_nat k) with (Z.of_nat (S k)) by lia. reflexivity.
  - intros Hle. unfold executeCleanupWithRetry.
    replace (Z.to_nat (maxRetries s)) with 0%nat by lia. reflexivity.
Qed.

(** X15.  [manualCleanup] adds the tasks, files and errors of a resolved
    cleanup to the totals and returns the result, leaving [totalRuns],
    [lastRunDuration], [lastCleanupTime] and the timer as they were; when
    the cleanup rejects, [manualCleanup] rejects with the same value and
    changes no statistic: no error is counted. *)
Theorem manualCleanup_counts_no_run :
  forall (attempts : Z -> Attempt) (s : t),
    let s' := fst (manualCleanup attempts s) in
    totalRuns (cleanupStats s') = totalRuns (cleanupStats s)
    /\ lastRunDuration (cleanupStats s') = lastRunDuration (cleanupStats s)
    /\ lastCleanupTime s' = lastCleanupTime s
    /\ isRunning s' = isRunning s /\ timerArmed s' = timerArmed s
    /\ match executeCleanupWithRetry attempts s with
       | (_, Fulfilled result) =>
           snd (manualCleanup attempts s) = Fulfilled result
           /\ totalTasksCleaned (cleanupStats s')
              = totalTasksCleaned (cleanupStats s) + cleanedTasks result
           /\ totalFilesCleaned (cleanupStats s')
              = totalFilesCleaned (cleanupStats s) + deletedFiles result
           /\ totalErrors (cleanupStats s')
              = totalErrors (cleanupStats s)
                + Z.of_nat (List.length (errors result))
       | (_, Rejected reason) =>
           snd (manualCleanup attempts s) = Rejected reason
           /\ cleanupStats s' = cleanupStats s
       end.
Proof.
  intros attempts s s'. subst s'. unfold manualCleanup.
  destruct (retryLoop_frame attempts (Z.to_nat (maxRetries s)) 1 None s)
    as (Hc & Hm & Hl & Hr & Ht).
  fold (executeCleanupWithRetry attempts s) in Hm, Hc, Hl, Hr, Ht.
  destruct (executeCleanupWithRetry attempts s) as [s1 [result|reason]];
    cbn [fst snd] in *; cbn [cleanupStats totalRuns lastRunDuration
      lastCleanupTime isRunning timerArmed totalTasksCleaned totalFilesCleaned
      totalErrors]; rewrite ?Hc, ?Hl, ?Hr, ?Ht; repeat split; reflexivity.
Qed.

End CleanupRetries.

Section StorageRetries.

Import OSSClient.
Local Open Scope string_scope.

Lemma ossWaited_nil c : ossWaited [] c = c.
Proof. destruct c; reflexivity. Qed.

Lemma oss_retryLoop_rejections {A} (operation : Z -> Attempt A)
    (operationType : string) (shouldSkipRetry : option (OssError -> bool))
    (err : Z -> OssError) (m : nat) :
  forall (remaining : nat) (attempt : Z) (lastError : option OssError) (c : t),
    (forall i, (i < m)%nat ->
       operation (attempt + Z.of_nat i) = Rejects (err (attempt + Z.of_nat i))
       /\ skips shouldSkipRetry (err (attempt + Z.of_nat i)) = false) ->
    attempt + Z.of_nat m <= maxRetries c ->
    retryLoop operation operationType shouldSkipRetry (m + remaining) attempt
              lastError c
    = retryLoop operation operationType shouldSkipRetry remaining
        (attempt + Z.of_nat m)
        (match m with
         | O => lastError
         | S m' => Some (err (attempt + Z.of_nat m'))
         end)
        (ossWaited (waits (retryDelay c) attempt m) c).
Proof.
  induction m as [|m IH]; intros remaining attempt lastError c Hrej Hle.
  - simpl. now rewrite Z.add_0_r, ossWaited_nil.
  - cbn [Nat.add retryLoop].
    destruct (Hrej 0%nat ltac:(lia)) as [H0 Hskip].
    change (Z.of_nat 0) with 0 in H0, Hskip. rewrite Z.add_0_r in H0, Hskip.
    rewrite H0. unfold skips in Hskip. rewrite Hskip.
    destruct (Z.eqb_spec attempt (maxRetries c)); [lia|].
    rewrite IH.
    + cbn [maxRetries retryDelay]. f_equal.
      * lia.
      * destruct m as [|m']; [now rewrite Z.add_0_r|]. f_equal. f_equal. lia.
      * unfold ossWaited. cbn [maxRetries retryDelay metricsService delays waits].
        now rewrite <- app_assoc.
    + intros i Hi. replace (attempt + 1 + Z.of_nat i)
        with (attempt + Z.of_nat (S i)) by lia. apply Hrej. lia.
    + cbn [maxRetries]. lia.
Qed.

Lemma retryOperation_cases :
  forall (A : Type) (operation : Z -> Attempt A) (operationType : string)
         (shouldSkipRetry : option (OssError -> bool)) (err : Z -> OssError)
         (c : t) (k : nat),
    (forall i, (i < k)%nat ->
       operation (1 + Z.of_nat i) = Rejects (err (1 + Z.of_nat i))
       /\ skips shouldSkipRetry (err (1 + Z.of_nat i)) = false) ->
    (forall a,
       1 + Z.of_nat k <= maxRetries c ->
       operation (1 + Z.of_nat k) = Resolves a ->
       retryOperation operation operationType shouldSkipRetry c
       = (ossWaited (waits (retryDelay c) 1 k) c, Fulfilled (Some a)))
    /\ (forall error,
          1 + Z.of_nat k <= maxRetries c ->
          operation (1 + Z.of_nat k) = Rejects error ->
          skips shouldSkipRetry error = true ->
          retryOperation operation operationType shouldSkipRetry c
          = (ossWaited (waits (retryDelay c) 1 k) c, Fulfilled None))
    /\ (Z.of_nat k = maxRetries c -> (1 <= k)%nat ->
        retryOperation operation operationType shouldSkipRetry c
        = (ossWaited (waits (retryDelay c) 1 (k - 1)) c,
           Rejected
             (mkOssError None
                ("OSS " ++ operationType ++ " failed after "
                 ++ numberToString (maxRetries c) ++ " attempts: "
                 ++ message (err (Z.of_nat k))))))
    /\ (maxRetries c <= 0 ->
        retryOperation operation operationType shouldSkipRetry c
        = (c, Rejected
                (mkOssError None
                   "Cannot read properties of undefined (reading 'message')"))).
Proof.
  intros A operation operationType shouldSkipRetry err c k Hrej.
  split; [|split; [|split]].
  - intros a Hk Hres. unfold retryOperation.
    replace (Z.to_nat (maxRetries c))
      with (k + S (Z.to_nat (maxRetries c) - k - 1))%nat by lia.
    rewrite (oss_retryLoop_rejections operation operationType shouldSkipRetry
               err k) by (assumption || lia).
    cbn [retryLoop]. now rewrite Hres.
  - intros error Hk Hres Hskip. unfold retryOperation.
    replace (Z.to_nat (maxRetries c))
      with (k + S (Z.to_nat (maxRetries c) - k - 1))%nat by lia.
    rewrite (oss_retryLoop_rejections operation operationType shouldSkipRetry
               err k) by (assumption || lia).
    cbn [retryLoop]. rewrite Hres. unfold skips in Hskip. now rewrite Hskip.
  - intros Hk Hpos. unfold retryOperation.
    destruct k as [|k]; [lia|]. rewrite <- Hk, Nat2Z.id.
    replace (S k) with (k + 1)%nat at 1 by lia.
    rewrite (oss_retryLoop_rejections operation operationType shouldSkipRetry
               err k)
      by ((intros i Hi; apply Hrej; lia) || lia).
    cbn [retryLoop]. destruct (Hrej k ltac:(lia)) as [Hop Hskip].
    rewrite Hop. unfold skips in Hskip. rewrite Hskip.
    cbn [maxRetries ossWaited]. rewrite <- Hk.
    destruct (Z.eqb_spec (1 + Z.of_nat k) (Z.of_nat (S k))); [|lia].
    replace (S k - 1)%nat with k by lia.
    replace (1 + Z.of_nat k) with (Z.of_nat (S k)) by lia.
    unfold failedAfter.
    change (maxRetries (ossWaited (waits (retryDelay c) 1 k) c))
      with (maxRetries c).
    now rewrite <- Hk.
  - intros Hle. unfold retryOperation.
    replace (Z.to_nat (maxRetries c)) with 0%nat by lia. reflexivity.
Qed.

(** X16.  [retryOperation] calls the operation until it resolves, at most
    [maxRetries] times.  After [k] rejections that the skip predicate does
    not accept, with waits [retryDelay], 2 [retryDelay], ..., k
    [retryDelay]: a call that resolves gives its value; a rejection that
    the skip predicate accepts ends the loop with [undefined] and no
    error; and when all [maxRetries] calls were rejected, the error
    [OSS <type> failed after <maxRetries> attempts: <last message>] is
    thrown with no wait after the last call.  With [maxRetries] below 1
    the operation is never called and reading the message of the missing
    last error throws. *)
Theorem retryOperation_attempts :
  forall (A : Type) (operation : Z -> Attempt A) (operationType : string)
         (shouldSkipRetry : option (OssError -> bool)) (err : Z -> OssError)
         (c : t) (k : nat),
    (forall i, (i < k)%nat ->
       operation (1 + Z.of_nat i) = Rejects (err (1 + Z.of_nat i))
       /\ skips shouldSkipRetry (err (1 + Z.of_nat i)) = false) ->
    (forall a,
       1 + Z.of_nat k <= maxRetries c ->
       operation (1 + Z.of_nat k) = Resolves a ->
       retryOperation operation operationType shouldSkipRetry c
       = (ossWaited (waits (retryDelay c) 1 k) c, Fulfilled (Some a)))
    /\ (forall error,
          1 + Z.of_nat k <= maxRetries c ->
          operation (1 + Z.of_nat k) = Rejects error ->
          skips shouldSkipRetry error = true ->
          retryOperation operation operationType shouldSkipRetry c
          = (ossWaited (waits (retryDelay c) 1 k) c, Fulfilled None))
    /\ (Z.of_nat k = maxRetries c -> (1 <= k)%nat ->
        retryOperation operation operationType shouldSkipRetry c
        = (ossWaited (waits (retryDelay c) 1 (k - 1)) c,
           Rejected
             (mkOssError None
                ("OSS " ++ operationType ++ " failed after "
                 ++ numberToString (maxRetries c) ++ " attempts: "
                 ++ message (err (Z.of_nat k))))))
    /\ (maxRetries c <= 0 ->
        retryOperation operation operationType shouldSkipRetry c
        = (c, Rejected
                (mkOssError None
                   "Cannot read properties of undefined (reading 'message')"))).
Proof.
  intros A operation operationType shouldSkipRetry err c k.
  apply retryOperation_cases.
Qed.

Lemma retryOperation_frame {A} (operation : Z -> Attempt A) operationType
    shouldSkipRetry c :
  let c' := fst (retryOperation operation operationType shouldSkipRetry c) in
  metricsService c' = metricsService c /\ maxRetries c' = maxRetries c
  /\ retryDelay c' = retryDelay c.
Proof.
  unfold retryOperation. generalize (Z.to_nat (maxRetries c)) 1 (@None OssError).
  intros remaining. revert c.
  induction remaining as [|remaining IH]; intros c attempt lastError;
    cbn [retryLoop].
  - now repeat split.
  - destruct (operation attempt) as [a|error]; [now repeat split|].
    destruct (match shouldSkipRetry with Some skip => skip error | None => false end);
      [now repeat split|].
    destruct (attempt =? maxRetries c)%Z; [now repeat split|].
    apply (IH (mk (maxRetries c) (retryDelay c) (metricsService c)
                  (retryDelay c * attempt :: delays c))).
Qed.

(** X17.  [deleteFile] counts every call it settles in exactly one of
    [deletes] and [deleteFailures].  A rejection with code [NoSuchKey] is
    not retried and counts as a delete: the call resolves.  When every
    one of the [maxRetries] calls is rejected with another error, the
    call is counted as a delete failure and rejects with
    [OSS delete failed after <maxRetries> attempts: <last message>]. *)
Theorem deleteFile_counts_a_missing_file_as_deleted :
  forall (operation : Z -> Attempt unit) (err : Z -> OssError) (c : t)
         (metrics : MetricsOSS.t) (k : nat),
    metricsService c = Some metrics ->
    (forall i, (i < k)%nat ->
       operation (1 + Z.of_nat i) = Rejects (err (1 + Z.of_nat i))
       /\ noSuchKey (err (1 + Z.of_nat i)) = false) ->
    (forall error,
       1 + Z.of_nat k <= maxRetries c ->
       operation (1 + Z.of_nat k) = Rejects error ->
       noSuchKey error = true ->
       deleteFile operation c
       = (record (MetricsOSS.recordOSSDelete true)
            (ossWaited (waits (retryDelay c) 1 k) c),
          Fulfilled tt))
    /\ (Z.of_nat k = maxRetries c -> (1 <= k)%nat ->
        deleteFile operation c
        = (record (MetricsOSS.recordOSSDelete false)
             (ossWaited (waits (retryDelay c) 1 (k - 1)) c),
           Rejected
             (mkOssError None
                ("OSS delete failed after " ++ numberToString (maxRetries c)
                 ++ " attempts: " ++ message (err (Z.of_nat k))))))
    /\ (let c' := fst (deleteFile operation c) in
        exists metrics',
          metricsService c' = Some metrics'
          /\ MetricsOSS.deletes metrics' + MetricsOSS.deleteFailures metrics'
             = MetricsOSS.deletes metrics + MetricsOSS.deleteFailures metrics + 1
          /\ MetricsOSS.uploads metrics' = MetricsOSS.uploads metrics
          /\ MetricsOSS.uploadFailures metrics'
             = MetricsOSS.uploadFailures metrics).
Proof.
  intros operation err c metrics k Hmetrics Hrej.
  destruct (retryOperation_cases unit operation "delete" (Some noSuchKey)
              err c k Hrej) as (_ & Hskip & Hall & _).
  split; [|split].
  - intros error Hk Hop Hno. unfold deleteFile.
    now rewrite (Hskip error Hk Hop Hno).
  - intros Hk Hpos. unfold deleteFile. now rewrite (Hall Hk Hpos).
  - unfold deleteFile.
    destruct (retryOperation_frame operation "delete" (Some noSuchKey) c)
      as (Hm & _).
    destruct (retryOperation operation "delete" (Some noSuchKey) c)
      as [c1 [result|error]]; cbn [fst] in *; unfold record;
      rewrite Hm, Hmetrics; cbn [metricsService];
      eexists; (split; [reflexivity|]); simpl; repeat split; lia.
Qed.

End StorageRetries.

(** * Further properties of the task manager *)

Section ManagerAccounts.

Import TaskQueue.

Lemma submissions_app new old :
  submissions (new ++ old) = submissions new + submissions old.
Proof. unfold submissions. rewrite filter_app, length_app. lia. Qed.

Lemma retries_app new old : retries (new ++ old) = retries new + retries old.
Proof. unfold retries. rewrite filter_app, length_app. lia. Qed.

Lemma timeouts_app new old :
  timeouts (new ++ old) = timeouts new + timeouts old.
Proof. unfold timeouts. rewrite filter_app, length_app. lia. Qed.

Lemma retries_cons e history :
  retries (e :: history)
  = (match e with Event.taskRetry _ => 1 | _ => 0 end) + retries history.
Proof.
  unfold retries. cbn [filter]. destruct e; simpl List.length; lia.
Qed.

Lemma timeouts_cons e history :
  timeouts (e :: history)
  = (match e with Event.taskTimeout (Some _) => 1 | _ => 0 end)
    + timeouts history.
Proof.
  unfold timeouts. cbn [filter].
  destruct e as [k|k|k|k|k|[k|]|ks| | |]; simpl List.length; lia.
Qed.

Lemma silent_app new more : silent new -> silent more -> silent (new ++ more).
Proof.
  intros (H1 & H2 & H3) (K1 & K2 & K3). unfold silent.
  rewrite submissions_app, retries_app, timeouts_app. lia.
Qed.

Lemma processNext_silent now q :
  exists started,
    emitted (processNext now q) = started ++ emitted q /\ silent started.
Proof.
  unfold processNext. destruct (_ >=? _); [now exists []|].
  destruct (pendingQueue q) as [|task rest]; [now exists []|].
  now exists [Event.taskStarted (Task.start now task)].
Qed.

Lemma deliver_new before after new metrics :
  emitted after = new ++ emitted before ->
  TaskManager.deliver before after metrics
  = fold_right TaskManager.onEvent metrics new.
Proof.
  intros H. unfold TaskManager.deliver. rewrite H, length_app.
  replace (List.length new + List.length (emitted before)
           - List.length (emitted before))%nat
    with (List.length new + 0)%nat by lia.
  rewrite firstn_app_2. simpl. now rewrite app_nil_r.
Qed.

Lemma onEvent_counts new metrics :
  let counters := MetricsService.tasks metrics in
  let counters' :=
    MetricsService.tasks (fold_right TaskManager.onEvent metrics new) in
  MetricsService.created counters' = MetricsService.created counters
  /\ MetricsService.completed counters' = MetricsService.completed counters
  /\ MetricsService.retried counters'
     = MetricsService.retried counters + retries new
  /\ MetricsService.timeout counters'
     = MetricsService.timeout counters + timeouts new
  /\ MetricsService.failed counters'
     = MetricsService.failed counters + timeouts new.
Proof.
  induction new as [|e new IH];
    [unfold retries, timeouts; simpl; repeat split; lia|].
  cbn zeta in *. simpl fold_right.
  destruct IH as (I1 & I2 & I3 & I4 & I5).
  rewrite retries_cons, timeouts_cons.
  destruct e as [k|k|k|k|k|[k|]|ks| | |];
    cbn [TaskManager.onEvent MetricsService.recordTaskRetry
         MetricsService.recordTaskFailed MetricsService.tasks
         MetricsService.created MetricsService.completed
         MetricsService.retried MetricsService.timeout MetricsService.failed];
    rewrite ?I1, ?I2, ?I3, ?I4, ?I5; repeat split; lia.
Qed.

(** What a call of the queue's [failTask] adds to the history and to the
    statistics. *)
Lemma failTask_accounts taskId reason now q :
  let q' := fst (failTask taskId reason now q) in
  exists new,
    emitted q' = new ++ emitted q
    /\ submissions new = 0 /\ timeouts new = 0
    /\ totalProcessed (stats q') = totalProcessed (stats q)
    /\ match snd (failTask taskId reason now q) with
       | Thrown _ =>
           JsMap.get taskId (processingTasks q) = None /\ q' = q /\ new = []
       | Returned _ =>
           JsMap.get taskId (processingTasks q) <> None
           /\ retries new + totalFailed (stats q')
              = totalFailed (stats q) + 1
       end.
Proof.
  unfold failTask.
  destruct (JsMap.get taskId (processingTasks q)) as [task|] eqn:Hget.
  - destruct (_ <? _); cbn [fst snd];
      match goal with |- context [processNext now ?q0] =>
        destruct (processNext_silent now q0) as (started & -> & Hs1 & Hs2 & Hs3);
        rewrite (processNext_stats now q0)
      end;
      cbn [emitted emit stats set_stats set_pendingQueue set_processingTasks
           set_completedTasks totalProcessed totalFailed].
    + exists (started ++ [Event.taskRetry (Task.retry task)]).
      rewrite <- app_assoc. split; [reflexivity|].
      rewrite submissions_app, timeouts_app, retries_app, Hs1, Hs2, Hs3.
      repeat split; try reflexivity; try discriminate.
      all: rewrite retries_cons; change (retries []) with 0; lia.
    + exists (started ++ [Event.taskFailed (Task.fail reason now task)]).
      rewrite <- app_assoc. split; [reflexivity|].
      rewrite submissions_app, timeouts_app, retries_app, Hs1, Hs2, Hs3.
      repeat split; try reflexivity; try discriminate.
      all: rewrite retries_cons; change (retries []) with 0; lia.
  - exists []. cbn [fst snd]. repeat split.
Qed.

Lemma completeTask_accounts taskId url file now q :
  let q' := fst (completeTask taskId url file now q) in
  match snd (completeTask taskId url file now q) with
  | Thrown _ => JsMap.get taskId (processingTasks q) = None /\ q' = q
  | Returned _ =>
      exists new,
        emitted q' = new ++ emitted q /\ silent new
        /\ totalProcessed (stats q') = totalProcessed (stats q) + 1
        /\ totalFailed (stats q') = totalFailed (stats q)
  end.
Proof.
  unfold completeTask.
  destruct (JsMap.get taskId (processingTasks q)) as [task|] eqn:Hget;
    cbn [fst snd]; [|now split].
  match goal with |- context [processNext now ?q0] =>
    destruct (processNext_silent now q0) as (started & -> & Hs);
    rewrite (processNext_stats now q0)
  end.
  exists (started ++ [Event.taskCompleted (Task.complete url file now task)]).
  unfold updateStats.
  destruct (Task.getProcessingTime _);
    cbn [emitted emit stats set_stats set_processingTasks set_completedTasks
         totalProcessed totalFailed];
    (split; [now rewrite <- app_assoc|]);
    (split; [apply silent_app; [exact Hs|now repeat split]|]);
    split; reflexivity.
Qed.

Lemma enqueue_accounts task now q :
  let q' := fst (enqueue (Some task) now q) in
  stats q' = stats q
  /\ match snd (enqueue (Some task) now q) with
     | Returned true =>
         exists new,
           emitted q' = new ++ emitted q /\ submissions new = 1
           /\ retries new = 0 /\ timeouts new = 0
     | _ => q' = q
     end.
Proof.
  unfold enqueue. destruct (_ =? _)%string; [now split|].
  destruct (hasTask _ _); [now split|]. cbn [fst snd].
  match goal with |- context [processNext now ?q0] =>
    destruct (processNext_silent now q0) as (started & -> & Hs1 & Hs2 & Hs3);
    rewrite (processNext_stats now q0)
  end.
  split; [reflexivity|].
  exists (started ++ [Event.taskEnqueued task]).
  cbn [emitted emit set_pendingQueue]. rewrite <- app_assoc.
  split; [reflexivity|].
  rewrite submissions_app, timeouts_app, retries_app, Hs1, Hs2, Hs3.
  now repeat split.
Qed.

Lemma cleanupExpiredTasks_silent days now q :
  exists new,
    emitted (fst (cleanupExpiredTasks days now q)) = new ++ emitted q
    /\ silent new.
Proof.
  unfold cleanupExpiredTasks.
  destruct (cleanupLoop _ _ _ _) as [kept expired].
  destruct expired as [|k expired]; cbn [fst emitted emit set_completedTasks].
  - now exists [].
  - now exists [Event.tasksCleanedUp (k :: expired)].
Qed.

Ltac counters :=
  cbn [TaskManager.taskQueue TaskManager.metricsService MetricsService.tasks
       MetricsService.created MetricsService.completed MetricsService.retried
       MetricsService.timeout MetricsService.failed
       MetricsService.recordTaskFailed MetricsService.recordTaskRetry
       MetricsService.recordTaskCreated] in *.

(** The manager's [failTask] settles one failure already counted. *)
Lemma manager_failTask_accounted taskId reason now m late :
  accounted (late + 1) m ->
  accounted
    (late + match snd (TaskManager.failTask taskId reason now m) with
            | Thrown _ => 1
            | Returned _ => 0
            end)
    (fst (TaskManager.failTask taskId reason now m)).
Proof.
  intros (A1 & A2 & A3 & A4 & A5). unfold TaskManager.failTask.
  destruct (failTask_accounts taskId reason now (TaskManager.taskQueue m))
    as (new & Hnew & Hsub & Htime & Hproc & Hcase).
  destruct (failTask taskId reason now (TaskManager.taskQueue m))
    as [q' result] eqn:E. cbn [fst snd] in *.
  rewrite (deliver_new _ _ new _ Hnew).
  destruct (onEvent_counts new (TaskManager.metricsService m))
    as (C1 & C2 & C3 & C4 & C5).
  unfold accounted. counters.
  rewrite C1, C2, C3, C4, C5, Hnew, submissions_app, retries_app,
    timeouts_app, Hsub, Htime, Hproc.
  destruct result as [u|message].
  - destruct Hcase as [_ Hcase]. repeat split; lia.
  - destruct Hcase as (_ & -> & ->). change (retries []) with 0.
    repeat split; lia.
Qed.

Lemma recorded_failure late m q :
  accounted late (TaskManager.mk q (TaskManager.metricsService m)) ->
  accounted (late + 1)
    (TaskManager.mk q
       (MetricsService.recordTaskFailed false (TaskManager.metricsService m))).
Proof.
  intros (A1 & A2 & A3 & A4 & A5). unfold accounted in *. counters.
  repeat split; lia.
Qed.

Lemma processTask_accounted taskId render now m late :
  accounted late m ->
  accounted
    (late + match snd (TaskManager.processTask taskId render now m) with
            | Thrown _ => 1
            | Returned _ => 0
            end)
    (fst (TaskManager.processTask taskId render now m)).
Proof.
  intros Hm. unfold TaskManager.processTask.
  destruct render as [imageUrl fileName|message].
  - pose proof (completeTask_accounts taskId (Some imageUrl) fileName now
                  (TaskManager.taskQueue m)) as Hc.
    destruct (completeTask taskId (Some imageUrl) fileName now
                (TaskManager.taskQueue m)) as [q' [u|message]];
      cbn [fst snd] in *.
    + destruct Hc as (new & Hnew & (Hs1 & Hs2 & Hs3) & Hproc & Hfail).
      destruct Hm as (A1 & A2 & A3 & A4 & A5). unfold accounted.
      assert (forall time,
                MetricsService.tasks
                  (MetricsService.recordTaskCompleted time
                     (TaskManager.metricsService m))
                = MetricsService.mkTaskCounters
                    (MetricsService.created
                       (MetricsService.tasks (TaskManager.metricsService m)))
                    (MetricsService.completed
                       (MetricsService.tasks (TaskManager.metricsService m)) + 1)
                    (MetricsService.failed
                       (MetricsService.tasks (TaskManager.metricsService m)))
                    (MetricsService.retried
                       (MetricsService.tasks (TaskManager.metricsService m)))
                    (MetricsService.timeout
                       (MetricsService.tasks (TaskManager.metricsService m))))
        as Hrec.
      { intros [time|]; unfold MetricsService.recordTaskCompleted;
          [|reflexivity].
        destruct (_ && _); [|reflexivity].
        unfold MetricsService.addProcessingTime,
          MetricsService.updateProcessingTimeStats.
        destruct (_ =? 0); reflexivity. }
      cbn [TaskManager.taskQueue TaskManager.metricsService]. rewrite Hrec.
      counters. rewrite Hnew, submissions_app, retries_app, timeouts_app,
        Hs1, Hs2, Hs3, Hproc, Hfail.
      repeat split; lia.
    + destruct Hc as [_ ->].
      apply manager_failTask_accounted, recorded_failure.
      now destruct m.
  - apply manager_failTask_accounted, recorded_failure. now destruct m.
Qed.

Lemma failTimedOut_accounted ids now :
  forall m late,
    accounted late m ->
    accounted late (fst (TaskManager.failTimedOut ids now m)).
Proof.
  induction ids as [|taskId ids IH]; intros m late Hm; [exact Hm|].
  cbn [TaskManager.failTimedOut].
  destruct (JsMap.get taskId (processingTasks (TaskManager.taskQueue m)))
    as [task|] eqn:Hget.
  - set (m1 := TaskManager.mk _ _).
    assert (accounted (late + 1) m1) as H1.
    { destruct Hm as (A1 & A2 & A3 & A4 & A5). subst m1. unfold accounted.
      counters. cbn [emitted emit stats].
      rewrite submissions_cons, retries_cons, timeouts_cons.
      repeat split; lia. }
    pose proof (manager_failTask_accounted taskId timeoutReason now m1 late H1)
      as H2.
    destruct (failTask_accounts taskId timeoutReason now
                (TaskManager.taskQueue m1)) as (new & _ & _ & _ & _ & Hcase).
    unfold TaskManager.failTask in *.
    destruct (failTask taskId timeoutReason now (TaskManager.taskQueue m1))
      as [q2 [u|message]]; cbn [fst snd] in *.
    + apply IH. now rewrite Z.add_0_r in H2.
    + destruct Hcase as (Hnone & _). subst m1.
      cbn [TaskManager.taskQueue processingTasks emit] in Hnone. congruence.
  - cbn [fst]. destruct Hm as (A1 & A2 & A3 & A4 & A5). unfold accounted.
    counters. cbn [emitted emit stats].
    rewrite submissions_cons, retries_cons, timeouts_cons.
    repeat split; lia.
Qed.

Lemma createTask_accounted cfg uuid now m late :
  accounted late m ->
  accounted late (fst (TaskManager.createTask cfg uuid now m)).
Proof.
  intros Hm. unfold TaskManager.createTask.
  destruct (negb _); [exact Hm|].
  destruct (enqueue_accounts (Task.new uuid cfg now) now
              (TaskManager.taskQueue m)) as (Hstats & Hcase).
  destruct (enqueue (Some (Task.new uuid cfg now)) now (TaskManager.taskQueue m))
    as [q' [[|]|message]]; cbn [fst snd] in *.
  - destruct Hcase as (new & Hnew & Hs1 & Hs2 & Hs3).
    destruct Hm as (A1 & A2 & A3 & A4 & A5). unfold accounted. counters.
    rewrite Hnew, Hstats, submissions_app, retries_app, timeouts_app,
      Hs1, Hs2, Hs3.
    repeat split; lia.
  - subst q'. now destruct m.
  - subst q'. now destruct m.
Qed.

Lemma cleanupExpiredTasks_accounted ossClient days now m late :
  accounted late m ->
  accounted late (fst (TaskManager.cleanupExpiredTasks ossClient days now m)).
Proof.
  intros (A1 & A2 & A3 & A4 & A5). unfold TaskManager.cleanupExpiredTasks.
  destruct (cleanupExpiredTasks_silent days now (TaskManager.taskQueue m))
    as (new & Hnew & Hs1 & Hs2 & Hs3).
  destruct (cleanupExpiredTasks_frame days now (TaskManager.taskQueue m))
    as (_ & _ & _ & Hstats & _).
  destruct (cleanupExpiredTasks days now (TaskManager.taskQueue m))
    as [q' expired]. cbn [fst] in *.
  unfold accounted. counters.
  rewrite Hnew, Hstats, submissions_app, retries_app, timeouts_app,
    Hs1, Hs2, Hs3.
  repeat split; lia.
Qed.

Lemma run_accounted calls :
  forall m late,
    accounted late m ->
    accounted (late + rejections calls m) (TaskManager.run calls m).
Proof.
  induction calls as [|[now c] calls IH]; intros m late Hm.
  - simpl. now rewrite Z.add_0_r.
  - unfold TaskManager.run in *. cbn [fold_left rejections fst snd].
    rewrite Z.add_assoc. apply IH.
    destruct c as [cfg uuid|taskId render| |ossClient days];
      unfold TaskManager.step; cbn [fst snd].
    + rewrite Z.add_0_r. now apply createTask_accounted.
    + now apply processTask_accounted.
    + rewrite Z.add_0_r.
      destruct (timeoutCheckInterval _); [|exact Hm].
      now apply failTimedOut_accounted.
    + rewrite Z.add_0_r. now apply cleanupExpiredTasks_accounted.
Qed.

(** X18.  After any sequence of task creations, settled renderings, timer
    sweeps and cleanups on a fresh manager, the task counters of the
    metrics agree with the queue: [created] is the number of accepted
    enqueues, [completed] is the queue's [totalProcessed], [retried] and
    [timeout] are the numbers of retry and timeout events, and every
    failure counted is a retry, a task the queue failed for good, or a
    [processTask] call that rejected because its task was no longer in
    flight: failed = retried + totalFailed + rejections. *)
Theorem metrics_account_for_every_failure :
  forall (o : UserOptions) (calls : list (Z * TaskManager.Call)),
    let m := TaskManager.run calls (TaskManager.new o) in
    let counters := MetricsService.tasks (TaskManager.metricsService m) in
    let q := TaskManager.taskQueue m in
    MetricsService.created counters = submissions (emitted q)
    /\ MetricsService.completed counters = totalProcessed (stats q)
    /\ MetricsService.retried counters = retries (emitted q)
    /\ MetricsService.timeout counters = timeouts (emitted q)
    /\ MetricsService.failed counters
       = MetricsService.retried counters + totalFailed (stats q)
         + rejections calls (TaskManager.new o).
Proof.
  intros o calls.
  apply (run_accounted calls (TaskManager.new o) 0).
  unfold accounted. simpl. repeat split.
Qed.

End ManagerAccounts.

Section ManagerProcessing.

Import TaskQueue.

Lemma processNext_unheard now q :
  exists started,
    emitted (processNext now q) = started ++ emitted q
    /\ forall metrics, fold_right TaskManager.onEvent metrics started = metrics.
Proof.
  unfold processNext. destruct (_ >=? _); [now exists []|].
  destruct (pendingQueue q) as [|task rest]; [now exists []|].
  now exists [Event.taskStarted (Task.start now task)].
Qed.

(** X19.  When the rendering of a task settles, [processTask] does one of
    three things.  If the task is no longer in flight, it counts a failed
    task in the metrics, leaves the queue as it is and rejects with the
    queue's not-found error, whatever the rendering gave.  If the task is
    in flight and the rendering succeeded, the queue completes the task
    and the metrics count a completion with the duration since the start;
    a duration that is not positive is not sampled by the metrics.  If the
    task is in flight and the rendering failed, the queue's [failTask]
    runs and the metrics count a failure, and a retry when the task has
    retry budget left. *)
Theorem processTask_settles :
  forall (m : TaskManager.t) (taskId : string) (now : Z),
    let q := TaskManager.taskQueue m in
    let metrics := TaskManager.metricsService m in
    (forall render,
       JsMap.get taskId (processingTasks q) = None ->
       TaskManager.processTask taskId render now m
       = (TaskManager.mk q (MetricsService.recordTaskFailed false metrics),
          Thrown (notFound taskId)))
    /\ (forall task started imageUrl fileName,
          JsMap.get taskId (processingTasks q) = Some task ->
          Task.startedAt task = Some started ->
          TaskManager.processTask taskId
            (TaskManager.Rendered imageUrl fileName) now m
          = (TaskManager.mk
               (fst (completeTask taskId (Some imageUrl) fileName now q))
               (MetricsService.recordTaskCompleted (Some (now - started))
                  metrics),
             Returned tt)
          /\ (now - started <= 0 ->
              MetricsService.processingTimes
                (MetricsService.recordTaskCompleted (Some (now - started))
                   metrics)
              = MetricsService.processingTimes metrics))
    /\ (forall task message,
          JsMap.get taskId (processingTasks q) = Some task ->
          TaskManager.processTask taskId (TaskManager.RenderFails message) now m
          = (TaskManager.mk
               (fst (failTask taskId message now q))
               (let failed := MetricsService.recordTaskFailed false metrics in
                if Task.retryCount task <? retryAttempts (options q)
                then MetricsService.recordTaskRetry failed else failed),
             Returned tt)).
Proof.
  intros m taskId now q metrics. split; [|split].
  - intros render Hget. unfold TaskManager.processTask.
    assert (TaskManager.failTask taskId (notFound taskId) now
              (TaskManager.mk q (MetricsService.recordTaskFailed false metrics))
            = (TaskManager.mk q (MetricsService.recordTaskFailed false metrics),
               Thrown (notFound taskId))) as Hfail.
    { unfold TaskManager.failTask, failTask.
      cbn [TaskManager.taskQueue TaskManager.metricsService].
      rewrite Hget. unfold TaskManager.deliver.
      now rewrite Nat.sub_diag. }
    destruct render as [imageUrl fileName|message].
    + unfold completeTask. fold q. rewrite Hget. exact Hfail.
    + fold q metrics. unfold TaskManager.failTask, failTask.
      cbn [TaskManager.taskQueue TaskManager.metricsService].
      rewrite Hget. unfold TaskManager.deliver.
      now rewrite Nat.sub_diag.
  - intros task started imageUrl fileName Hget Hstart. split.
    + unfold TaskManager.processTask, completeTask. fold q metrics.
      rewrite Hget. cbn [fst]. rewrite processNext_completedTasks.
      unfold updateStats. 
      destruct (Task.getProcessingTime _);
        cbn [completedTasks emit set_stats set_completedTasks
             set_processingTasks];
        rewrite JsMap_get_set_same; unfold Task.getProcessingTime;
        cbn [Task.complete Task.startedAt Task.completedAt];
        rewrite Hstart; reflexivity.
    + intros Hle. unfold MetricsService.recordTaskCompleted.
      destruct (Z.gtb_spec (now - started) 0); [lia|].
      now rewrite andb_false_r.
  - intros task message Hget. unfold TaskManager.processTask.
    fold q metrics. unfold TaskManager.failTask.
    cbn [TaskManager.taskQueue TaskManager.metricsService].
    destruct (failTask taskId message now q) as [q' result] eqn:E.
    unfold failTask in E. rewrite Hget in E. cbn [fst].
    destruct (Task.retryCount task <? retryAttempts (options q));
      injection E as <- <-;
      match goal with |- context [processNext now ?q0] =>
        destruct (processNext_unheard now q0) as (started & Hs & Hquiet)
      end;
      cbn [emitted emit set_stats set_pendingQueue set_processingTasks
           set_completedTasks] in Hs.
    + rewrite (deliver_new q _
                 (started ++ [Event.taskRetry (Task.retry task)]))
        by (now rewrite <- app_assoc).
      now rewrite fold_right_app, Hquiet.
    + rewrite (deliver_new q _
                 (started ++ [Event.taskFailed (Task.fail message now task)]))
        by (now rewrite <- app_assoc).
      now rewrite fold_right_app, Hquiet.
Qed.

End ManagerProcessing.

Section ManagerCleanup.

Import TaskQueue.

Lemma resolved_app d a b : resolved d (a ++ b) = resolved d a + resolved d b.
Proof. unfold resolved. rewrite filter_app, length_app. lia. Qed.

Lemma rejected_app d a b : rejected d (a ++ b) = rejected d a ++ rejected d b.
Proof. unfold rejected. apply flat_map_app. Qed.

Lemma resolved_rejected d names :
  resolved d names + Z.of_nat (List.length (rejected d names))
  = Z.of_nat (List.length names).
Proof.
  induction names as [|name names IH]; [reflexivity|].
  change (name :: names) with ([name] ++ names).
  rewrite resolved_app, rejected_app, !length_app.
  unfold resolved at 1, rejected at 1. cbn [filter flat_map].
  destruct (d name); simpl List.length; lia.
Qed.

Lemma deleteBatch_spec d batch result :
  TaskManager.deleteBatch d batch result
  = TaskManager.mkDeletions
      (TaskManager.successful result + resolved d batch)
      (TaskManager.errors result ++ rejected d batch)
      (TaskManager.pauses result).
Proof.
  revert result. induction batch as [|name batch IH]; intros result.
  - destruct result. unfold resolved. simpl.
    now rewrite Z.add_0_r, app_nil_r.
  - unfold TaskManager.deleteBatch in *. cbn [fold_left]. rewrite IH.
    change (name :: batch) with ([name] ++ batch).
    rewrite resolved_app, rejected_app.
    unfold resolved at 2, rejected at 2. cbn [filter flat_map].
    destruct (d name);
      cbn [TaskManager.successful TaskManager.errors TaskManager.pauses];
      simpl List.length; rewrite ?app_nil_r, <- ?app_assoc; f_equal; lia.
Qed.

Lemma deleteBatches_spec d fuel :
  forall names result,
    (List.length names <= fuel)%nat ->
    TaskManager.deleteBatches d fuel names result
    = TaskManager.mkDeletions
        (TaskManager.successful result + resolved d names)
        (TaskManager.errors result ++ rejected d names)
        (repeat 100 ((List.length names - 1) / 10)
         ++ TaskManager.pauses result).
Proof.
  induction fuel as [|fuel IH]; intros names result Hfuel.
  - destruct names; [|simpl in Hfuel; lia]. destruct result.
    unfold resolved. simpl. now rewrite Z.add_0_r, app_nil_r.
  - destruct names as [|name names].
    + destruct result. unfold resolved. simpl.
      now rewrite Z.add_0_r, app_nil_r.
    + cbn [TaskManager.deleteBatches].
      set (all := name :: names) in *.
      assert (1 <= List.length all)%nat as Hpos by (subst all; simpl; lia).
      pose proof (firstn_skipn 10 all) as Hsplit.
      pose proof (length_skipn 10 all) as Hrest.
      rewrite IH by (cbn [TaskManager.pauses]; lia).
      rewrite deleteBatch_spec.
      assert (resolved d all
              = resolved d (firstn 10 all) + resolved d (skipn 10 all)) as Hr
          by (now rewrite <- resolved_app, Hsplit).
      assert (rejected d all
              = (rejected d (firstn 10 all) ++ rejected d (skipn 10 all))%list)
        as Hj by (now rewrite <- rejected_app, Hsplit).
      rewrite Hr, Hj. clear Hr Hj Hsplit.
      destruct (skipn 10 all) as [|r rest] eqn:Erest;
        cbn [TaskManager.successful TaskManager.errors TaskManager.pauses].
      * change (List.length (@nil string)) with 0%nat in Hrest.
        replace ((List.length all - 1) / 10)%nat with 0%nat
          by (symmetry; apply Nat.div_small; lia).
        change (resolved d []) with 0.
        change (rejected d []) with (@nil (string * string)).
        rewrite ?app_nil_r, ?Z.add_0_r, <- ?app_assoc, ?app_nil_r.
        f_equal; lia.
      * replace ((List.length all - 1) / 10)%nat
          with (S ((List.length (r :: rest) - 1) / 10)).
        { rewrite <- app_assoc, Z.add_assoc. f_equal.
          change (100 :: TaskManager.pauses result)
            with ([100] ++ TaskManager.pauses result).
          rewrite app_assoc, <- repeat_cons. reflexivity. }
        assert (1 <= List.length (r :: rest))%nat as Hr1
            by (cbn [List.length]; lia).
        rewrite Hrest in *.
        replace (List.length all - 1)%nat
          with (List.length all - 10 - 1 + 1 * 10)%nat by lia.
        rewrite Nat.div_add by lia. lia.
Qed.

(** X20.  [deleteOSSFilesWithErrorHandling] tries every file once, in
    batches of 10: it never rejects, the files counted as deleted and the
    errors collected add up to the number of files, and it pauses 100 ms
    between batches, [(n - 1) / 10] times for [n] files.  The manager's
    [cleanupExpiredTasks] reports the number of records the queue evicted,
    deletes the files of the evicted records that completed with a file
    name, and deletes nothing when no storage client is configured. *)
Theorem cleanup_deletes_each_stored_file_once :
  forall (deleteFile : string -> option string) (fileNames : list string)
         (ossClient : option (string -> option string))
         (retentionDays now : Z) (m : TaskManager.t),
    (let deletions :=
       TaskManager.deleteOSSFilesWithErrorHandling deleteFile fileNames in
     TaskManager.successful deletions = resolved deleteFile fileNames
     /\ TaskManager.errors deletions = rejected deleteFile fileNames
     /\ TaskManager.successful deletions
        + Z.of_nat (List.length (TaskManager.errors deletions))
        = Z.of_nat (List.length fileNames)
     /\ TaskManager.pauses deletions
        = repeat 100 ((List.length fileNames - 1) / 10))
    /\ (let expired :=
          snd (cleanupExpiredTasks retentionDays now (TaskManager.taskQueue m)) in
        let m' :=
          fst (TaskManager.cleanupExpiredTasks ossClient retentionDays now m) in
        let result :=
          snd (TaskManager.cleanupExpiredTasks ossClient retentionDays now m) in
        TaskManager.taskQueue m'
        = fst (cleanupExpiredTasks retentionDays now (TaskManager.taskQueue m))
        /\ TaskManager.metricsService m' = TaskManager.metricsService m
        /\ TaskManager.cleanedTasks result = Z.of_nat (List.length expired)
        /\ match ossClient with
           | None =>
               TaskManager.deletedFiles result = 0
               /\ TaskManager.cleanupErrors result = []
           | Some delete =>
               TaskManager.deletedFiles result = resolved delete (filesOf expired)
               /\ TaskManager.cleanupErrors result
                  = rejected delete (filesOf expired)
               /\ TaskManager.deletedFiles result
                  + Z.of_nat (List.length (TaskManager.cleanupErrors result))
                  = Z.of_nat (List.length (filter TaskManager.hasStoredFile expired))
           end).
Proof.
  intros deleteFile fileNames ossClient retentionDays now m. split.
  - cbn zeta. unfold TaskManager.deleteOSSFilesWithErrorHandling.
    rewrite deleteBatches_spec by lia.
    cbn [TaskManager.successful TaskManager.errors TaskManager.pauses].
    rewrite app_nil_r, Z.add_0_l. cbn [app].
    repeat split. apply resolved_rejected.
  - cbn zeta. unfold TaskManager.cleanupExpiredTasks.
    destruct (cleanupExpiredTasks retentionDays now (TaskManager.taskQueue m))
      as [q' expired]. cbn [fst snd].
    fold (filesOf expired).
    split; [reflexivity|]. split; [reflexivity|].
    destruct ossClient as [delete|].
    + destruct (filesOf expired) as [|name names] eqn:Efiles.
      * cbn [TaskManager.cleanedTasks TaskManager.deletedFiles
             TaskManager.cleanupErrors].
        split; [reflexivity|]. split; [reflexivity|]. split; [reflexivity|].
        unfold filesOf in Efiles. apply map_eq_nil in Efiles.
        now rewrite Efiles.
      * unfold TaskManager.deleteOSSFilesWithErrorHandling.
        rewrite deleteBatches_spec by lia.
        cbn [TaskManager.cleanedTasks TaskManager.deletedFiles
             TaskManager.cleanupErrors TaskManager.successful
             TaskManager.errors].
        rewrite Z.add_0_l. cbn [app].
        split; [reflexivity|]. split; [reflexivity|]. split; [reflexivity|].
        rewrite resolved_rejected, <- Efiles. unfold filesOf.
        now rewrite length_map.
    + destruct (filesOf expired); now repeat split.
Qed.

End ManagerCleanup.

Section ManagerSimulation.

Import TaskQueue.

Lemma manager_failTask_queue taskId reason now m :
  TaskManager.taskQueue (fst (TaskManager.failTask taskId reason now m))
  = fst (failTask taskId reason now (TaskManager.taskQueue m)).
Proof.
  unfold TaskManager.failTask.
  now destruct (failTask taskId reason now (TaskManager.taskQueue m)).
Qed.

Lemma manager_failTask_outcome taskId reason now m :
  snd (TaskManager.failTask taskId reason now m)
  = snd (failTask taskId reason now (TaskManager.taskQueue m)).
Proof.
  unfold TaskManager.failTask.
  now destruct (failTask taskId reason now (TaskManager.taskQueue m)).
Qed.

Lemma manager_failTimedOut_queue ids now :
  forall m,
    TaskManager.taskQueue (fst (TaskManager.failTimedOut ids now m))
    = fst (failTimedOut ids now (TaskManager.taskQueue m)).
Proof.
  induction ids as [|taskId ids IH]; intros m; [reflexivity|].
  cbn [TaskManager.failTimedOut failTimedOut].
  destruct (JsMap.get taskId (processingTasks (TaskManager.taskQueue m)))
    as [task|] eqn:Hget.
  - set (m1 := TaskManager.mk _ _).
    pose proof (manager_failTask_queue taskId timeoutReason now m1) as Hq.
    pose proof (manager_failTask_outcome taskId timeoutReason now m1) as Ho.
    change (TaskManager.taskQueue m1)
      with (emit (Event.taskTimeout (Some task)) (TaskManager.taskQueue m))
      in Hq, Ho.
    destruct (TaskManager.failTask taskId timeoutReason now m1) as [m2 r2].
    destruct (failTask taskId timeoutReason now
                (emit (Event.taskTimeout (Some task)) (TaskManager.taskQueue m)))
      as [q2 r]. cbn [fst snd] in *. subst r2 q2.
    destruct r as [u|message]; [apply IH|reflexivity].
  - unfold failTask. cbn [processingTasks emit]. now rewrite Hget.
Qed.

Lemma step_simulated m c :
  exists queueCalls,
    TaskManager.taskQueue (TaskManager.step m c)
    = run queueCalls (TaskManager.taskQueue m)
    /\ Forall (fun qc => enqueuesFresh (snd qc)) queueCalls.
Proof.
  destruct c as [now [cfg uuid|taskId [imageUrl fileName|message]|
                      |ossClient days]];
    unfold TaskManager.step; cbn [fst snd].
  - unfold TaskManager.createTask. destruct (negb _).
    + exists []. split; [reflexivity|constructor].
    + exists [(now, Enqueue (Some (Task.new uuid cfg now)))]. split.
      * unfold run. cbn [fold_left step fst snd].
        now destruct (enqueue _ _ _) as [q' [[|]|message]].
      * repeat constructor.
  - unfold TaskManager.processTask.
    destruct (completeTask taskId (Some imageUrl) fileName now
                (TaskManager.taskQueue m)) as [q' [u|message]] eqn:E.
    + exists [(now, CompleteTask taskId (Some imageUrl) fileName)].
      split; [|repeat constructor].
      unfold run. cbn [fold_left step fst snd]. now rewrite E.
    + exists [(now, CompleteTask taskId (Some imageUrl) fileName);
              (now, FailTask taskId message)].
      split; [|repeat constructor].
      unfold run. cbn [fold_left step fst snd].
      rewrite manager_failTask_queue, E. reflexivity.
  - exists [(now, FailTask taskId message)]. split; [|repeat constructor].
    unfold TaskManager.processTask. rewrite manager_failTask_queue.
    reflexivity.
  - exists [(now, TimerFires)]. split; [|repeat constructor].
    unfold run. cbn [fold_left step fst snd].
    destruct (timeoutCheckInterval _); [|reflexivity].
    apply manager_failTimedOut_queue.
  - exists [(now, CleanupExpiredTasks days)]. split; [|repeat constructor].
    unfold run. cbn [fold_left step fst snd].
    unfold TaskManager.cleanupExpiredTasks.
    now destruct (cleanupExpiredTasks days now (TaskManager.taskQueue m)).
Qed.

Lemma run_simulated calls :
  forall m,
    exists queueCalls,
      TaskManager.taskQueue (TaskManager.run calls m)
      = run queueCalls (TaskManager.taskQueue m)
      /\ Forall (fun qc => enqueuesFresh (snd qc)) queueCalls.
Proof.
  induction calls as [|c calls IH]; intros m.
  - exists []. split; [reflexivity|constructor].
  - unfold TaskManager.run in *. cbn [fold_left].
    destruct (step_simulated m c) as (first & Hfirst & Ffirst).
    destruct (IH (TaskManager.step m c)) as (rest & Hrest & Frest).
    exists (first ++ rest). split.
    + now rewrite Hrest, Hfirst, run_app.
    + apply Forall_app. now split.
Qed.

(** X21.  The manager drives its queue only through the queue's own
    methods: after any sequence of task creations, settled renderings,
    timer sweeps and cleanups on a fresh manager, the manager's queue is
    in a state that a fresh queue reaches by a sequence of [enqueue],
    [completeTask], [failTask], timer and cleanup calls in which every
    enqueued record is a new one (pending, never retried).  With the
    manager's listeners bound, the timer sweep leaves the queue as the
    queue's own sweep does. *)
Theorem manager_queue_is_a_reachable_queue :
  forall (o : UserOptions) (calls : list (Z * TaskManager.Call)),
    (exists queueCalls,
       TaskManager.taskQueue (TaskManager.run calls (TaskManager.new o))
       = run queueCalls (new o)
       /\ Forall (fun qc => enqueuesFresh (snd qc)) queueCalls)
    /\ (forall now m,
          TaskManager.taskQueue (fst (TaskManager.checkTimeouts now m))
          = fst (checkTimeouts now (TaskManager.taskQueue m))).
Proof.
  intros o calls. split.
  - apply (run_simulated calls (TaskManager.new o)).
  - intros now m. apply manager_failTimedOut_queue.
Qed.

End ManagerSimulation.

(** * Further properties of the routes and of the image formats *)

(** ** Records stay where they can be found *)

Section QueueKeeps.

Import TaskQueue.

Lemma JsMap_In_set_other {V} (m : JsMap.t V) k v k0 v0 :
  In (k, v) m -> k <> k0 -> In (k, v) (JsMap.set k0 v0 m).
Proof.
  intros Hin Hne. induction m as [|[k' v'] m IH]; simpl; [destruct Hin|].
  destruct (String.eqb_spec k0 k') as [->|Hne'].
  - destruct Hin as [[= <- <-]|Hin]; [congruence|now right].
  - destruct Hin as [Heq|Hin]; [now left|right; now apply IH].
Qed.

Lemma JsMap_In_delete_other {V} (m : JsMap.t V) k v k0 :
  In (k, v) m -> k <> k0 -> In (k, v) (JsMap.delete k0 m).
Proof.
  intros Hin Hne. induction m as [|[k' v'] m IH]; simpl; [destruct Hin|].
  destruct (String.eqb_spec k0 k') as [->|Hne'].
  - destruct Hin as [[= <- <-]|Hin]; [congruence|now apply IH].
  - destruct Hin as [Heq|Hin]; [now left|right; now apply IH].
Qed.

Lemma JsMap_values_In {V} (m : JsMap.t V) v :
  In v (JsMap.values m) <-> exists k, In (k, v) m.
Proof.
  unfold JsMap.values. rewrite in_map_iff. split.
  - intros [[k v'] [<- Hin]]. now exists k.
  - intros [k Hin]. now exists (k, v).
Qed.

(** A record the queue holds is still held, under the same id and with
    the same creation time, after admission. *)
Lemma keeps_processNext id created now q :
  wellFormed q -> keeps id created q -> keeps id created (processNext now q).
Proof.
  intros (_ & _ & Hd & He) (k & Hk & Hid & Hcreated). unfold processNext.
  destruct (_ >=? _); [now exists k|].
  destruct (pendingQueue q) as [|h rest] eqn:Hpending; [now exists k|].
  assert (JsMap.get (Task.taskId h) (processingTasks q) = None) as Hfresh
      by (apply Hd; rewrite ?Hpending; now left).
  unfold holds in Hk. rewrite ?Hpending in Hk.
  destruct Hk as [[<-|Hk]|[Hk|Hk]].
  - exists (Task.start now h). split; [|now split].
    right. left. cbn. apply (JsMap_get_In_values _ (Task.taskId h)).
    apply JsMap_get_set_same.
  - exists k. split; [now left|now split].
  - exists k. split; [|now split]. right. left. cbn.
    apply JsMap_values_In in Hk. destruct Hk as [key Hin].
    apply JsMap_values_In. exists key. apply JsMap_In_set_other; [exact Hin|].
    intros ->. apply JsMap_get_None_keys in Hfresh. apply Hfresh.
    unfold JsMap.keys. change (Task.taskId h) with (fst (Task.taskId h, k)).
    now apply in_map.
  - exists k. split; [now right; right|now split].
Qed.

Lemma keeps_frame id created q q' :
  pendingQueue q' = pendingQueue q ->
  processingTasks q' = processingTasks q ->
  completedTasks q' = completedTasks q ->
  keeps id created q -> keeps id created q'.
Proof.
  intros Hp Hr Hc (k & Hk & H). exists k. split; [|exact H].
  unfold holds. now rewrite Hp, Hr, Hc.
Qed.

Lemma keeps_enqueue id created task now q :
  sound q -> keeps id created q -> keeps id created (fst (enqueue task now q)).
Proof.
  intros Hq Hkeeps. unfold enqueue. destruct task as [task|]; [|exact Hkeeps].
  destruct (_ =? _)%string; [exact Hkeeps|].
  destruct (hasTask _ _) eqn:Hhas; [exact Hkeeps|].
  cbn [fst]. apply keeps_processNext.
  - exact (wellFormed_push task q (proj1 Hq) Hhas).
  - destruct Hkeeps as (k & Hk & H). exists k. split; [|exact H].
    unfold holds in *. cbn. rewrite in_app_iff. tauto.
Qed.

(** Moving the record in flight under [taskId] to the archive, changed by
    [f], or back to the head of the pending deque. *)
Lemma keeps_archive id created taskId task task' q q' :
  sound q ->
  JsMap.get taskId (processingTasks q) = Some task ->
  Task.taskId task' = Task.taskId task ->
  Task.createdAt task' = Task.createdAt task ->
  pendingQueue q' = pendingQueue q ->
  processingTasks q' = JsMap.delete taskId (processingTasks q) ->
  completedTasks q' = JsMap.set taskId task' (completedTasks q) ->
  keeps id created q -> keeps id created q'.
Proof.
  intros [(_ & Hkeys & _ & He) (_ & _ & Har & _)] Hget Hid' Hcreated'
    Hp Hr Hc (k & Hk & Hid & Hcreated).
  unfold keeps, holds. rewrite Hp, Hr, Hc.
  destruct Hk as [Hk|[Hk|Hk]].
  - exists k. split; [now left|now split].
  - apply JsMap_values_In in Hk. destruct Hk as [key Hin].
    destruct (String.eqb_spec key taskId) as [->|Hne].
    + assert (k = task) as ->.
      { apply (JsMap_In_get _ _ _ Hkeys) in Hin. congruence. }
      exists task'. split; [|split; congruence].
      right. right. cbn. apply (JsMap_get_In_values _ taskId).
      apply JsMap_get_set_same.
    + exists k. split; [|now split]. right. left. cbn.
      apply JsMap_values_In. exists key. now apply JsMap_In_delete_other.
  - apply JsMap_values_In in Hk. destruct Hk as [key Hin].
    exists k. split; [|now split]. right. right. cbn.
    apply JsMap_values_In. exists key. apply JsMap_In_set_other; [exact Hin|].
    intros ->. pose proof (Har taskId task Hget) as Hnone.
    apply JsMap_get_None_keys in Hnone. apply Hnone.
    unfold JsMap.keys. change taskId with (fst (taskId, k)). now apply in_map.
Qed.

Lemma keeps_completeTask id created taskId url file now q :
  sound q -> keeps id created q ->
  keeps id created (fst (completeTask taskId url file now q)).
Proof.
  intros Hq Hkeeps. unfold completeTask.
  destruct (JsMap.get taskId (processingTasks q)) as [task|] eqn:Hget;
    [|exact Hkeeps].
  cbn [fst]. apply keeps_processNext.
  - pose proof (wellFormed_delete taskId q (proj1 Hq)) as Hwf.
    unfold updateStats. destruct (Task.getProcessingTime _); exact Hwf.
  - unfold updateStats. destruct (Task.getProcessingTime _);
      now apply (keeps_archive id created taskId task
                   (Task.complete url file now task) q).
Qed.

Lemma keeps_failTask id created taskId reason now q :
  sound q -> keeps id created q ->
  keeps id created (fst (failTask taskId reason now q)).
Proof.
  intros Hq Hkeeps. unfold failTask.
  destruct (JsMap.get taskId (processingTasks q)) as [task|] eqn:Hget;
    [|exact Hkeeps].
  destruct (_ <? _); cbn [fst]; apply keeps_processNext.
  - exact (wellFormed_requeue taskId task q (proj1 Hq) Hget).
  - destruct Hq as [(_ & Hkeys & _ & He) _].
    destruct Hkeeps as (k & Hk & Hid & Hcreated).
    destruct Hk as [Hk|[Hk|Hk]].
    + exists k. split; [left; now right|now split].
    + apply JsMap_values_In in Hk. destruct Hk as [key Hin].
      destruct (String.eqb_spec key taskId) as [->|Hne].
      * assert (k = task) as ->.
        { apply (JsMap_In_get _ _ _ Hkeys) in Hin. congruence. }
        exists (Task.retry task). split; [left; now left|now split].
      * exists k. split; [|now split]. right. left. cbn.
        apply JsMap_values_In. exists key. now apply JsMap_In_delete_other.
    + exists k. split; [now right; right|now split].
  - exact (wellFormed_delete taskId q (proj1 Hq)).
  - now apply (keeps_archive id created taskId task
                 (Task.fail reason now task) q).
Qed.

Lemma sound_emit e q : sound q -> sound (emit e q).
Proof. intros H. exact H. Qed.

Lemma keeps_failTimedOut id created ids now q :
  sound q -> keeps id created q ->
  keeps id created (fst (failTimedOut ids now q)).
Proof.
  revert q. induction ids as [|id0 ids IH]; intros q Hq Hkeeps; [exact Hkeeps|].
  cbn [failTimedOut].
  set (q1 := emit (Event.taskTimeout (JsMap.get id0 (processingTasks q))) q).
  pose proof (sound_failTask id0 timeoutReason now q1 (sound_emit _ q Hq))
    as Hsound.
  pose proof (keeps_failTask id created id0 timeoutReason now q1
                (sound_emit _ q Hq) Hkeeps) as Hk.
  destruct (failTask id0 timeoutReason now q1) as [q2 [u|message]];
    cbn [fst] in *; [now apply IH|exact Hk].
Qed.


Lemma sound_run_from calls q : sound q -> sound (run calls q).
Proof.
  intros Hq. apply (invariant_run sound (fun _ => True)); try assumption.
  - intros. now apply sound_enqueue.
  - intros. now apply sound_processNext.
  - intros. now apply sound_completeTask.
  - intros. now apply sound_failTask.
  - intros. now apply sound_cleanup.
  - intros b q0 H. exact H.
  - intros id q0 H. exact H.
  - intros q0 H. exact H.
  - intros q0 H. exact H.
  - apply Forall_forall. trivial.
Qed.

Lemma getTask_holds id q k : getTask id q = Some k -> holds q k.
Proof.
  unfold getTask, JsMap.has, holds.
  destruct (JsMap.get id (processingTasks q)) as [r|] eqn:Hr.
  - intros [= <-]. right. left. eapply JsMap_get_In_values; eassumption.
  - destruct (JsMap.get id (completedTasks q)) as [c|] eqn:Hc.
    + intros [= <-]. right. right. eapply JsMap_get_In_values; eassumption.
    + intros Hfind. left. now apply find_some in Hfind.
Qed.

Lemma NoDup_map_inj {A B} (f : A -> B) (l : list A) a b :
  NoDup (map f l) -> In a l -> In b l -> f a = f b -> a = b.
Proof.
  induction l as [|x l IH]; simpl; [intros _ []|].
  intros Hnd Ha Hb Heq. inversion Hnd as [|? ? Hnotin Hnd']; subst.
  destruct Ha as [<-|Ha], Hb as [<-|Hb]; try reflexivity.
  - exfalso. apply Hnotin. rewrite Heq. now apply in_map.
  - exfalso. apply Hnotin. rewrite <- Heq. now apply in_map.
  - now apply IH.
Qed.

(** In a sound queue, [getTask] finds the record that is held. *)
Lemma keeps_getTask id created q :
  sound q -> keeps id created q ->
  exists k, getTask id q = Some k /\ Task.taskId k = id
            /\ Task.createdAt k = created.
Proof.
  intros [(Hp & Hkeys & Hd & He) (Hnd & Hap & Har & Hae)]
    (k & Hk & Hid & Hcreated).
  exists k. split; [|now split].
  unfold getTask, JsMap.has. destruct Hk as [Hk|[Hk|Hk]].
  - rewrite <- Hid. rewrite (Hd k Hk), (Hap k Hk).
    destruct (find _ (pendingQueue q)) as [k'|] eqn:Hfind.
    + apply find_some in Hfind. destruct Hfind as [Hin Heq].
      apply String.eqb_eq in Heq. f_equal.
      now apply (NoDup_map_inj Task.taskId (pendingQueue q)).
    + exfalso. apply (find_none _ _ Hfind k) in Hk.
      now rewrite String.eqb_refl in Hk.
  - apply JsMap_values_In in Hk. destruct Hk as [key Hin].
    destruct (He key k Hin) as (Hkey & _).
    assert (key = id) as -> by congruence.
    now rewrite (JsMap_In_get _ _ _ Hkeys Hin).
  - apply JsMap_values_In in Hk. destruct Hk as [key Hin].
    destruct (Hae key k Hin) as (Hkey & _).
    assert (key = id) as -> by congruence.
    pose proof (JsMap_In_get _ _ _ Hnd Hin) as Hget.
    destruct (JsMap.get id (processingTasks q)) as [r|] eqn:Hr.
    + rewrite (Har id r Hr) in Hget. discriminate.
    + now rewrite Hget.
Qed.

End QueueKeeps.

Section ManagerKeeps.

Import TaskQueue.

Lemma manager_sound o calls :
  sound (TaskManager.taskQueue (TaskManager.run calls (TaskManager.new o))).
Proof.
  destruct (run_simulated calls (TaskManager.new o)) as (queueCalls & -> & _).
  apply sound_run.
Qed.

Lemma manager_step_sound m c :
  sound (TaskManager.taskQueue m) ->
  sound (TaskManager.taskQueue (TaskManager.step m c)).
Proof.
  intros Hq. destruct (step_simulated m c) as (queueCalls & -> & _).
  now apply sound_run_from.
Qed.

(** A step of the manager other than the cleanup keeps every record. *)
Lemma manager_step_keeps id created m c :
  sound (TaskManager.taskQueue m) -> noCleanup (snd c) ->
  keeps id created (TaskManager.taskQueue m) ->
  keeps id created (TaskManager.taskQueue (TaskManager.step m c)).
Proof.
  intros Hq Hc Hkeeps.
  destruct c as [now [cfg uuid|taskId [imageUrl fileName|message]|
                      |ossClient days]];
    unfold TaskManager.step; cbn [fst snd] in *.
  - unfold TaskManager.createTask. destruct (negb _); [exact Hkeeps|].
    pose proof (keeps_enqueue id created (Some (Task.new uuid cfg now)) now
                  _ Hq Hkeeps) as H.
    now destruct (enqueue _ _ _) as [q' [[|]|message]].
  - unfold TaskManager.processTask.
    pose proof (keeps_completeTask id created taskId (Some imageUrl) fileName
                  now _ Hq Hkeeps) as H.
    pose proof (sound_completeTask taskId (Some imageUrl) fileName now _ Hq)
      as Hsound.
    destruct (completeTask taskId (Some imageUrl) fileName now
                (TaskManager.taskQueue m)) as [q' [u|message]];
      cbn [fst] in *; [exact H|].
    rewrite manager_failTask_queue. now apply keeps_failTask.
  - unfold TaskManager.processTask. rewrite manager_failTask_queue.
    now apply keeps_failTask.
  - destruct (timeoutCheckInterval _); [|exact Hkeeps].
    unfold TaskManager.checkTimeouts. rewrite manager_failTimedOut_queue.
    now apply keeps_failTimedOut.
  - contradiction.
Qed.

Lemma manager_run_keeps id created calls :
  forall m,
    sound (TaskManager.taskQueue m) ->
    Forall (fun c => noCleanup (snd c)) calls ->
    keeps id created (TaskManager.taskQueue m) ->
    keeps id created (TaskManager.taskQueue (TaskManager.run calls m))
    /\ sound (TaskManager.taskQueue (TaskManager.run calls m)).
Proof.
  induction calls as [|c calls IH]; intros m Hq Hcalls Hkeeps;
    [now split|].
  inversion Hcalls; subst. unfold TaskManager.run in *. cbn [fold_left].
  apply IH; [now apply manager_step_sound|assumption|].
  now apply manager_step_keeps.
Qed.

Lemma settle_noCleanup (between : list ChartRoutes.Settled) :
  Forall (fun c : Z * TaskManager.Call => noCleanup (snd c))
    (map (fun s => (fst s, TaskManager.ProcessTask (fst (snd s)) (snd (snd s))))
         between).
Proof. apply Forall_forall. intros c Hc. apply in_map_iff in Hc.
  destruct Hc as [s [<- _]]. exact Logic.I.
Qed.

End ManagerKeeps.


Section RequestValidation.

Import ChartRoutes.
Local Open Scope string_scope.

Lemma Qle_bool_one_pos q : Qle_bool 1 q = true -> Qle_bool q 0 = false.
Proof.
  intros H. apply Qle_bool_iff in H.
  destruct (Qle_bool q 0) eqn:E; [|reflexivity].
  apply Qle_bool_iff in E.
  assert (1 <= 0)%Q as Habs by (eapply Qle_trans; eassumption).
  unfold Qle in Habs. cbn in Habs. lia.
Qed.

(** A width or height that passed the middleware, with its default put
    in, passes the check of [Task.validateConfig]. *)
Lemma dimension_accepted (v : Js.value) (fallback : Q) :
  Qle_bool fallback 0 = false ->
  Js.truthy v
  && (negb (Js.typeof v =? "number") || lessThan v 1 || greaterThan v 4000)
  = false ->
  Js.truthy (orElse v (Js.number fallback))
  && (negb (Js.typeof (orElse v (Js.number fallback)) =? "number")
      || Js.le_zero (orElse v (Js.number fallback)))
  = false.
Proof.
  intros Hpos H. unfold orElse.
  destruct (Js.truthy v) eqn:Htruthy.
  - rewrite Htruthy. cbn [andb] in *.
    apply orb_false_iff in H. destruct H as [H _].
    apply orb_false_iff in H. destruct H as [Htype Hlt].
    rewrite Htype. cbn [orb].
    destruct v as [| |b|q| |s|props]; try discriminate Htype;
      [|discriminate Htruthy].
    cbn [lessThan Js.le_zero] in *. unfold Qlt_bool in Hlt.
    apply negb_false_iff in Hlt. now apply Qle_bool_one_pos.
  - cbn [Js.typeof Js.le_zero]. rewrite Hpos.
    change ("number" =? "number") with true. cbn [negb orb].
    apply andb_false_r.
Qed.

Lemma validateChartRequest_accepted body :
  validateChartRequest body = Returned [] ->
  let type := Js.get body "type" in
  let width := Js.get body "width" in
  let height := Js.get body "height" in
  let option_ := Js.get body "option" in
  Js.truthy option_ = true /\ (Js.typeof option_ =? "object") = true
  /\ (Js.truthy type = false
      \/ exists s, type = Js.str s /\ Js.truthy type = true)
  /\ Js.truthy width
     && (negb (Js.typeof width =? "number") || lessThan width 1
         || greaterThan width 4000) = false
  /\ Js.truthy height
     && (negb (Js.typeof height =? "number") || lessThan height 1
         || greaterThan height 4000) = false.
Proof.
  intros H type width height option_. unfold validateChartRequest in H.
  cbv zeta in H. fold type width height option_ in H.
  assert (forall e2 : list string,
            Returned
              ((if negb (Js.truthy option_) then ["option is required"]
                else if negb (Js.typeof option_ =? "object")
                then ["option must be an object"] else [])
               ++ e2
               ++ (if Js.truthy width
                      && (negb (Js.typeof width =? "number")
                          || lessThan width 1 || greaterThan width 4000)
                   then ["width must be a number between 1 and 4000"] else [])
               ++ (if Js.truthy height
                      && (negb (Js.typeof height =? "number")
                          || lessThan height 1 || greaterThan height 4000)
                   then ["height must be a number between 1 and 4000"] else []))%list
            = Returned (@nil string) ->
            Js.truthy option_ = true /\ (Js.typeof option_ =? "object") = true
            /\ e2 = []
            /\ Js.truthy width
               && (negb (Js.typeof width =? "number") || lessThan width 1
                   || greaterThan width 4000) = false
            /\ Js.truthy height
               && (negb (Js.typeof height =? "number") || lessThan height 1
                   || greaterThan height 4000) = false) as Hrest.
  { intros e2 [= Hnil].
    apply app_eq_nil in Hnil. destruct Hnil as [H1 Hnil].
    apply app_eq_nil in Hnil. destruct Hnil as [H2 Hnil].
    apply app_eq_nil in Hnil. destruct Hnil as [H3 H4].
    destruct (Js.truthy option_); [|discriminate H1].
    destruct (Js.typeof option_ =? "object"); [|discriminate H1].
    destruct (Js.truthy width && _); [discriminate H3|].
    destruct (Js.truthy height && _); [discriminate H4|].
    now repeat split. }
  destruct (Js.truthy type) eqn:Htruthy.
  - destruct type as [| |b|q| |s|props]; try discriminate H.
    destruct (negb _).
    + destruct (Hrest _ H) as (_ & _ & Habs & _). discriminate Habs.
    + destruct (Hrest _ H) as (H1 & H2 & _ & H3 & H4).
      repeat split; try assumption. right. now exists s.
  - destruct (Hrest _ H) as (H1 & H2 & _ & H3 & H4).
    repeat split; try assumption. now left.
Qed.

(** What [Task.validateConfig] makes of the configuration built from a
    body that passed the middleware: only the type can fail. *)
Lemma taskConfig_validation body :
  validateChartRequest body = Returned [] ->
  Task.validateConfig (taskConfig body)
  = if negb (Js.truthy (Js.get body "type"))
       || Js.includes ["png"; "jpeg"; "svg"; "pdf"] (Js.get body "type")
    then (true, [])
    else (false, ["Config.type must be one of: png, jpeg, svg, pdf"]).
Proof.
  intros H. destruct (validateChartRequest_accepted body H)
    as (Ho1 & Ho2 & Htype & Hw & Hh).
  apply (dimension_accepted _ 600) in Hw; [|reflexivity].
  apply (dimension_accepted _ 400) in Hh; [|reflexivity].
  unfold Task.validateConfig, taskConfig.
  cbn [Js.truthy Js.typeof Js.get Js.lookup String.eqb Ascii.eqb Bool.eqb
       negb orb andb].
  rewrite Ho1, Ho2, Hw, Hh. cbn [negb orb app].
  unfold orElse.
  destruct Htype as [Hfalsy|(s & Hs & Htruthy)].
  - rewrite Hfalsy. reflexivity.
  - rewrite Htruthy. cbn [negb orb andb]. rewrite ?Htruthy.
    destruct (Js.includes _ _); reflexivity.
Qed.

(** What [createTask] leaves behind when it accepts the configuration
    and the id is fresh. *)
Lemma createTask_accepted cfg uuid now m :
  fst (Task.validateConfig cfg) = true ->
  uuid <> "" ->
  TaskQueue.hasTask uuid (TaskManager.taskQueue m) = false ->
  exists m1 created,
    TaskManager.createTask cfg uuid now m = (m1, Returned created)
    /\ Task.taskId created = uuid
    /\ TaskManager.metricsService m1
       = MetricsService.recordTaskCreated (TaskManager.metricsService m)
    /\ TaskQueue.getTask uuid (TaskManager.taskQueue m1) = Some created
    /\ Task.createdAt created = now
    /\ (Task.status created = Task.pending
        \/ Task.status created = Task.processing).
Proof.
  intros Hvalid Hid Hfresh. unfold TaskManager.createTask. rewrite Hvalid.
  cbn [negb].
  destruct (enqueue_getTask (Task.new uuid cfg now) now
              (TaskManager.taskQueue m) Hid Hfresh)
    as (Hret & _ & k & Hk & Hform).
  destruct (TaskQueue.enqueue _ now (TaskManager.taskQueue m))
    as [q' outcome]. cbn [fst snd] in *. subst outcome.
  cbn [Task.new Task.taskId] in Hk. rewrite Hk.
  exists (TaskManager.mk q'
            (MetricsService.recordTaskCreated (TaskManager.metricsService m))), k.
  cbn [TaskManager.taskQueue TaskManager.metricsService].
  split; [reflexivity|].
  destruct Hform as [-> | ->]; cbn; repeat split; auto.
Qed.

(** What the handler answers once [createTask] has accepted: the record
    it reads is the one the queue holds when the handler goes on. *)
Lemma createChartTask_accepted o calls body uuid now between :
  let m := TaskManager.run calls (TaskManager.new o) in
  fst (Task.validateConfig (taskConfig body)) = true ->
  uuid <> "" ->
  TaskQueue.hasTask uuid (TaskManager.taskQueue m) = false ->
  let result := createChartTask body uuid now between m in
  exists record,
    TaskQueue.getTask uuid (TaskManager.taskQueue (fst result)) = Some record
    /\ Task.taskId record = uuid /\ Task.createdAt record = now
    /\ snd result
       = mkReply 200 200 "Task created successfully"
           (Some (mkCreated uuid (Task.status record)
                    ("/api/charts/status/" ++ uuid) now))
           None
    /\ fst result
       = settle between
           (fst (TaskManager.createTask (taskConfig body) uuid now m))
    /\ TaskManager.metricsService
         (fst (TaskManager.createTask (taskConfig body) uuid now m))
       = MetricsService.recordTaskCreated (TaskManager.metricsService m)
    /\ (between = [] ->
        Task.status record = Task.pending
        \/ Task.status record = Task.processing)
    /\ sound (TaskManager.taskQueue (fst result))
    /\ keeps uuid now (TaskManager.taskQueue (fst result)).
Proof.
  intros m Hvalid Hid Hfresh result.
  destruct (createTask_accepted (taskConfig body) uuid now m Hvalid Hid Hfresh)
    as (m1 & created & Hcreate & Hcid & Hmetrics & Hget & Hat & Hstatus).
  assert (sound (TaskManager.taskQueue m1)) as Hsound1.
  { replace m1 with (TaskManager.step m
                       (now, TaskManager.CreateTask (taskConfig body) uuid))
      by (unfold TaskManager.step; cbn [fst snd]; now rewrite Hcreate).
    apply manager_step_sound, manager_sound. }
  assert (keeps uuid now (TaskManager.taskQueue m1)) as Hkeeps1.
  { exists created. split; [|now split]. eapply getTask_holds; eassumption. }
  destruct (manager_run_keeps uuid now _ m1 Hsound1 (settle_noCleanup between)
              Hkeeps1) as [Hkeeps2 Hsound2].
  fold (settle between m1) in Hkeeps2, Hsound2.
  destruct (keeps_getTask uuid now _ Hsound2 Hkeeps2)
    as (record & Hrecord & Hrid & Hrat).
  subst result. unfold createChartTask. rewrite Hcreate. cbn [fst snd].
  rewrite Hcid, Hrecord. exists record.
  split; [reflexivity|]. split; [exact Hrid|]. split; [exact Hrat|].
  split; [now rewrite Hrid, Hrat|]. split; [reflexivity|].
  split; [exact Hmetrics|]. split; [|now split].
  intros ->. unfold settle, TaskManager.run in Hrecord. cbn in Hrecord.
  rewrite Hget in Hrecord. injection Hrecord as <-. exact Hstatus.
Qed.

(** X22.  The two validations of a chart request disagree on the image
    type.  For a body that the request middleware accepts, on a manager
    reached by any sequence of calls, the handler creates a task and
    answers 200 when the type is absent (or falsy) or is exactly one of
    png, jpeg, svg, pdf: the answer carries the id, the creation time and
    the status the record has when the handler goes on after the
    renderings that settled in between (pending or processing if none
    did), and the creation is counted once.  Any other type the
    middleware lets through (jpg, or a format name with capital letters)
    is refused by [Task.validateConfig]: the handler answers 500 with the
    details
    [Invalid task config: Config.type must be one of: png, jpeg, svg, pdf]
    and creates nothing.  Width, height and option never fail the second
    validation once they passed the first. *)
Theorem accepted_request_can_fail_task_validation :
  forall (o : TaskQueue.UserOptions) (calls : list (Z * TaskManager.Call))
         (development : bool) (body : Js.value) (uuid : string) (now : Z)
         (between : list Settled),
    let m := TaskManager.run calls (TaskManager.new o) in
    validateChartRequest body = Returned [] ->
    uuid <> "" ->
    TaskQueue.hasTask uuid (TaskManager.taskQueue m) = false ->
    let type := Js.get body "type" in
    let result := postGenerate development body uuid now between m in
    (Js.truthy type = false
     \/ Js.includes ["png"; "jpeg"; "svg"; "pdf"] type = true ->
     exists record,
       TaskQueue.getTask uuid (TaskManager.taskQueue (fst result)) = Some record
       /\ snd result
          = mkReply 200 200 "Task created successfully"
              (Some (mkCreated uuid (Task.status record)
                       ("/api/charts/status/" ++ uuid) now))
              None
       /\ fst result
          = settle between
              (fst (TaskManager.createTask (taskConfig body) uuid now m))
       /\ TaskManager.metricsService
            (fst (TaskManager.createTask (taskConfig body) uuid now m))
          = MetricsService.recordTaskCreated (TaskManager.metricsService m)
       /\ (between = [] ->
           Task.status record = Task.pending
           \/ Task.status record = Task.processing))
    /\ (Js.truthy type = true ->
        Js.includes ["png"; "jpeg"; "svg"; "pdf"] type = false ->
        result
        = (m,
           mkReply 500 500 "Failed to create task" None
             (Some ("PROCESSING_ERROR",
                    "Invalid task config: Config.type must be one of: png, jpeg, svg, pdf")))).
Proof.
  intros o calls development body uuid now between m Hvalid Hid Hfresh type
    result.
  subst result. unfold postGenerate. rewrite Hvalid. split.
  - intros Hok.
    assert (fst (Task.validateConfig (taskConfig body)) = true) as Haccepted.
    { rewrite (taskConfig_validation body Hvalid). fold type.
      destruct Hok as [-> | ->]; [reflexivity|].
      now rewrite orb_true_r. }
    destruct (createChartTask_accepted o calls body uuid now between
                Haccepted Hid Hfresh)
      as (record & Hget & _ & _ & Hreply & Hstate & Hmetrics & Hnone & _).
    exists record. now repeat split.
  - intros Htruthy Hbad. unfold createChartTask, TaskManager.createTask.
    rewrite (taskConfig_validation body Hvalid). fold type.
    rewrite Htruthy, Hbad. reflexivity.
Qed.


End RequestValidation.

Section ImageFormats.

Import ImageGenerator.
Local Open Scope string_scope.

(** X24.  [generateImage] renders exactly the formats that
    [getSupportedFormats] lists, whatever the case of their letters: png
    and pdf give a PNG image (a PDF is never produced), jpeg and jpg a
    JPEG image with extension jpeg, svg an SVG image; any other type
    fails with [Unsupported image type], and a missing type means png.
    A configuration that [Task.validateConfig] accepts but whose option
    has neither series nor dataset is rejected by [validateChartOption]
    at every rendering, before the canvas is touched. *)
Theorem supported_formats_are_rendered :
  forall (config : Js.value) (setup encode : option string)
         (uuid : string) (now : Z) (m : TaskManager.t),
    (validateChartOption (Js.get config "option") = true ->
     (forall s,
        Js.get config "type" = Js.str s -> s <> "" ->
        let t := toLowerCase s in
        (existsb (String.eqb t) getSupportedFormats = true ->
         generateImage config None None
         = Returned
             (if t =? "svg" then mkImage "image/svg+xml" "svg"
              else if (t =? "jpeg") || (t =? "jpg")
              then mkImage "image/jpeg" "jpeg"
              else mkImage "image/png" "png"))
        /\ (existsb (String.eqb t) getSupportedFormats = false ->
            generateImage config None None
            = Thrown ("Image generation failed: Unsupported image type: " ++ s)))
     /\ (Js.truthy (Js.get config "type") = false ->
         generateImage config None None
         = Returned (mkImage "image/png" "png")))
    /\ (fst (Task.validateConfig config) = true ->
        Js.truthy (Js.get (Js.get config "option") "series") = false ->
        Js.truthy (Js.get (Js.get config "option") "dataset") = false ->
        uuid <> "" ->
        TaskQueue.hasTask uuid (TaskManager.taskQueue m) = false ->
        (exists task,
           snd (TaskManager.createTask config uuid now m) = Returned task
           /\ Task.taskId task = uuid /\ Task.config task = config)
        /\ generateImage config setup encode
           = Thrown "Image generation failed: Invalid chart option provided").
Proof.
  intros config setup encode uuid now m. split.
  - intros Hoption. split.
    + intros s Htype Hne t. unfold generateImage. rewrite Hoption, Htype.
      cbn [negb Js.truthy].
      destruct (String.eqb_spec s ""); [contradiction|]. cbn [negb].
      fold t. unfold getSupportedFormats. cbn [existsb].
      destruct (String.eqb_spec t "png") as [->|Hpng]; [now split|].
      destruct (String.eqb_spec t "jpeg") as [->|Hjpeg]; [now split|].
      destruct (String.eqb_spec t "jpg") as [->|Hjpg]; [now split|].
      destruct (String.eqb_spec t "svg") as [->|Hsvg]; [now split|].
      destruct (String.eqb_spec t "pdf") as [->|Hpdf]; [now split|].
      cbn [orb]. split; [discriminate|reflexivity].
    + intros Hfalsy. unfold generateImage. now rewrite Hoption, Hfalsy.
  - intros Hvalid Hseries Hdataset Hid Hfresh. split.
    + unfold TaskManager.createTask. rewrite Hvalid. cbn [negb].
      destruct (enqueue_getTask (Task.new uuid config now) now
                  (TaskManager.taskQueue m) Hid Hfresh)
        as (Hret & _ & k & Hk & Hform).
      destruct (TaskQueue.enqueue _ now (TaskManager.taskQueue m))
        as [q' outcome]. cbn [fst snd] in *. subst outcome.
      cbn [Task.new Task.taskId] in Hk. rewrite Hk. cbn [snd].
      exists k. split; [reflexivity|]. now destruct Hform as [-> | ->].
    + unfold generateImage, validateChartOption.
      rewrite Hseries, Hdataset. cbn [negb andb].
      now destruct (negb _ || negb _).
Qed.

End ImageFormats.

Section StorageUploads.

Import OSSClient.





End StorageUploads.

Section ManagerInvariants.

Import TaskQueue.

Lemma enqueuesFresh_pending c : enqueuesFresh c -> enqueuesPending c.
Proof. destruct c as [[task|]| | | | | | | |]; simpl; tauto. Qed.

Lemma enqueuesFresh_within retries c :
  0 <= retries -> enqueuesFresh c -> enqueuesWithin retries c.
Proof.
  intros Hr. destruct c as [[task|]| | | | | | | |]; simpl; try tauto.
  intros [_ ->]. exact Hr.
Qed.

(** X26.  The queue's invariants hold for the queue inside the manager.
    After any sequence of task creations, settled renderings, timer
    sweeps and cleanups on a fresh manager (with [maxConcurrent] and
    [retryAttempts] not negative): at most [maxConcurrent] tasks are in
    flight; no slot is idle while a task is pending; no id is held twice;
    pending records are in state pending; no held record has been retried
    more than [retryAttempts] times; and the pending, in-flight and
    archived counts add up to the [created] counter of the metrics minus
    the evicted records. *)
Theorem manager_queue_keeps_the_queue_invariants :
  forall (o : UserOptions) (calls : list (Z * TaskManager.Call)),
    0 <= maxConcurrent (options (new o)) ->
    0 <= retryAttempts (options (new o)) ->
    let m := TaskManager.run calls (TaskManager.new o) in
    let q := TaskManager.taskQueue m in
    JsMap.size (processingTasks q) <= maxConcurrent (options q)
    /\ (JsMap.size (processingTasks q) >= maxConcurrent (options q)
        \/ pendingQueue q = [])
    /\ NoDup (heldIds q)
    /\ (forall k, In k (pendingQueue q) -> Task.status k = Task.pending)
    /\ (forall k,
          In k (pendingQueue q ++ JsMap.values (processingTasks q)
                ++ JsMap.values (completedTasks q)) ->
          Task.retryCount k <= retryAttempts (options q))
    /\ QueueStatus.pendingTasks (getQueueStatus q)
       + QueueStatus.processingTasks (getQueueStatus q)
       + QueueStatus.completedTasks (getQueueStatus q)
       = MetricsService.created
           (MetricsService.tasks (TaskManager.metricsService m))
         - evictions (emitted q).
Proof.
  intros o calls Hmax Hretry m q.
  destruct (run_accounted calls (TaskManager.new o) 0) as (Hcreated & _);
    [unfold accounted; simpl; repeat split|].
  fold m in Hcreated. cbn zeta in Hcreated. fold q in Hcreated.
  rewrite Hcreated. clear Hcreated.
  destruct (run_simulated calls (TaskManager.new o))
    as (queueCalls & Hq & Hfresh).
  fold m in Hq. fold q in Hq.
  change (TaskManager.taskQueue (TaskManager.new o)) with (new o) in Hq.
  rewrite Hq. clear Hq. split; [|split; [|split; [|split; [|split]]]].
  - apply run_bounded. unfold bounded. simpl. unfold JsMap.size. simpl.
    exact Hmax.
  - apply (filled_run queueCalls o).
  - apply sound_heldIds, sound_run.
  - apply pendingArePending_run.
    eapply Forall_impl; [|exact Hfresh].
    intros c. apply enqueuesFresh_pending.
  - intros k Hk.
    assert (withinBudget (run queueCalls (new o))) as Hb.
    { apply budget_run.
      - eapply Forall_impl; [|exact Hfresh].
        intros c. now apply enqueuesFresh_within.
      - intros x []. }
    apply Hb. unfold observable. rewrite !app_assoc. apply in_or_app. left.
    now rewrite <- app_assoc.
  - apply (conserved_run queueCalls o).
Qed.

End ManagerInvariants.

(** * Closed instances of the further properties *)

Section FurtherInstances.

Local Open Scope string_scope.

Lemma processing_time_statistics_are_ordered_witness :
  MetricsService.samples
    (MetricsService.processingTimes (addAll [30; 10; 20] MetricsService.new))
  = lastN 1000 [30; 10; 20].
Proof.
  exact (proj1 (processing_time_statistics_are_ordered [30; 10; 20]
                  ltac:(discriminate))).
Defined.

Lemma peak_gauges_are_running_maxima_witness :
  MetricsQueue.maxProcessing
    (monitor
       (map (fun calls => TaskQueue.run calls (TaskQueue.new Sample.defaults))
            [[]; Sample.calls])
       MetricsQueue.new)
  <= 10.
Proof.
  destruct (peak_gauges_are_running_maxima Sample.defaults [[]; Sample.calls]
              ltac:(simpl; lia)) as (_ & _ & _ & _ & Hpeak).
  exact Hpeak.
Defined.

Lemma cleanup_retries_with_growing_waits_witness :
  CleanupService.executeCleanupWithRetry ManagerSample.thirdTime
    (CleanupService.new None false)
  = (waited [10000; 5000] (CleanupService.new None false),
     CleanupService.Fulfilled (CleanupService.mkCleanupResult 2 1 [])).
Proof.
  destruct (cleanup_retries_with_growing_waits
              ManagerSample.thirdTime (fun _ => ManagerSample.busy)
              (CleanupService.new None false) 2) as (Hresolved & _).
  - intros i Hi. destruct i as [|[|i]]; [reflexivity|reflexivity|lia].
  - exact (proj1 (Hresolved (CleanupService.mkCleanupResult 2 1 [])
                    ltac:(simpl; lia) eq_refl)).
Defined.

Lemma retryOperation_attempts_witness :
  OSSClient.retryOperation ManagerSample.secondTime "connection test" None
    (OSSClient.new None None None)
  = (ossWaited [1000] (OSSClient.new None None None),
     OSSClient.Fulfilled (Some tt)).
Proof.
  destruct (retryOperation_attempts unit ManagerSample.secondTime
              "connection test" None (fun _ => ManagerSample.timedOut)
              (OSSClient.new None None None) 1) as (Hresolved & _).
  - intros i Hi. destruct i as [|i]; [now split|lia].
  - exact (Hresolved tt ltac:(simpl; lia) eq_refl).
Defined.

Lemma deleteFile_counts_a_missing_file_as_deleted_witness :
  OSSClient.deleteFile (fun _ => OSSClient.Rejects ManagerSample.missing)
    (OSSClient.new None None (Some MetricsOSS.new))
  = (OSSClient.mk 3 1000 (Some (MetricsOSS.mk 0 0 1 0 [] [])) [],
     OSSClient.Fulfilled tt).
Proof.
  destruct (deleteFile_counts_a_missing_file_as_deleted
              (fun _ => OSSClient.Rejects ManagerSample.missing)
              (fun _ => ManagerSample.missing)
              (OSSClient.new None None (Some MetricsOSS.new))
              MetricsOSS.new 0 eq_refl) as (Hmissing & _).
  - intros i Hi. lia.
  - exact (Hmissing ManagerSample.missing ltac:(simpl; lia) eq_refl eq_refl).
Defined.

Lemma processTask_settles_witness :
  (let m := TaskManager.new Sample.defaults in
   TaskManager.processTask "zz" (TaskManager.RenderFails "late") 7 m
   = (TaskManager.mk (TaskManager.taskQueue m)
        (MetricsService.recordTaskFailed false (TaskManager.metricsService m)),
      Thrown "Task zz not found in processing queue"))
  /\ (let m := fst (TaskManager.createTask Sample.chart "a" 0
                      (TaskManager.new Sample.defaults)) in
      snd (TaskManager.processTask "a"
             (TaskManager.Rendered "https://cdn/a.png" (Some "a.png")) 9 m)
      = Returned tt).
Proof.
  split.
  - intros m.
    destruct (processTask_settles m "zz" 7) as (Hlate & _).
    exact (Hlate (TaskManager.RenderFails "late") eq_refl).
  - intros m.
    destruct (processTask_settles m "a" 9) as (_ & Hdone & _).
    destruct (Hdone (Task.start 0 Sample.taskA) 0 "https://cdn/a.png"
                    (Some "a.png") eq_refl eq_refl) as [Heq _].
    now rewrite Heq.
Defined.

Lemma accepted_request_can_fail_task_validation_witness :
  ChartRoutes.validateChartRequest ManagerSample.jpgBody = Returned []
  /\ ChartRoutes.postGenerate false ManagerSample.jpgBody "a" 0 []
       (TaskManager.new Sample.defaults)
     = (TaskManager.new Sample.defaults,
        ChartRoutes.mkReply 500 500 "Failed to create task" None
          (Some ("PROCESSING_ERROR",
                 "Invalid task config: Config.type must be one of: png, jpeg, svg, pdf")))
  /\ snd (ChartRoutes.postGenerate false ManagerSample.pieBody "a" 0
            ManagerSample.atOnce (TaskManager.new Sample.defaults))
     = ChartRoutes.mkReply 200 200 "Task created successfully"
         (Some (ChartRoutes.mkCreated "a" Task.completed
                  "/api/charts/status/a" 0))
         None.
Proof.
  split; [reflexivity|]. split.
  - destruct (accepted_request_can_fail_task_validation
                Sample.defaults [] false ManagerSample.jpgBody "a" 0 []
                eq_refl ltac:(discriminate) eq_refl) as (_ & Hrefused).
    exact (Hrefused eq_refl eq_refl).
  - destruct (accepted_request_can_fail_task_validation
                Sample.defaults [] false ManagerSample.pieBody "a" 0
                ManagerSample.atOnce
                eq_refl ltac:(discriminate) eq_refl) as (Hcreated & _).
    destruct (Hcreated ltac:(left; reflexivity))
      as (record & Hget & Hreply & _).
    change (TaskManager.run [] (TaskManager.new Sample.defaults))
      with (TaskManager.new Sample.defaults) in Hget, Hreply.
    rewrite Hreply. vm_compute in Hget. injection Hget as <-. reflexivity.
Defined.


Lemma supported_formats_are_rendered_witness :
  ImageGenerator.generateImage
    (Js.object
       [("type", Js.str "JPG");
        ("option", Js.object [("series", Js.object [("type", Js.str "bar")])])])
    None None
  = Returned (ImageGenerator.mkImage "image/jpeg" "jpeg").
Proof.
  destruct (supported_formats_are_rendered
              (Js.object
                 [("type", Js.str "JPG");
                  ("option",
                   Js.object [("series", Js.object [("type", Js.str "bar")])])])
              None None "a" 0 (TaskManager.new Sample.defaults))
    as (Hformats & _).
  destruct (Hformats eq_refl) as (Htable & _).
  destruct (Htable "JPG" eq_refl ltac:(discriminate)) as (Hrendered & _).
  exact (Hrendered eq_refl).
Defined.

Lemma manager_queue_keeps_the_queue_invariants_witness :
  NoDup
    (heldIds
       (TaskManager.taskQueue
          (TaskManager.run ManagerSample.calls
             (TaskManager.new Sample.defaults)))).
Proof.
  destruct (manager_queue_keeps_the_queue_invariants
              Sample.defaults ManagerSample.calls
              ltac:(simpl; lia) ltac:(simpl; lia)) as (_ & _ & Hids & _).
  exact Hids.
Defined.

End FurtherInstances.

(** * Further properties of the legacy route and of the configuration *)

Section LegacyRoute.

Import SyncHandler.
Local Open Scope string_scope.

Lemma typeOf_cases config :
  typeOf config = Js.str "png" \/ typeOf config = Js.str "jpeg"
  \/ typeOf config = Js.str "svg" \/ typeOf config = Js.str "pdf".
Proof.
  unfold typeOf.
  destruct (Js.truthy (Js.get config "type")); [|now left].
  destruct (Js.get config "type") as [| |b|q| |s|props];
    cbn [Js.includes]; try (now left).
  cbn [existsb].
  destruct (String.eqb_spec s "png") as [->|_]; [now left|].
  destruct (String.eqb_spec s "jpeg") as [->|_]; [now right; left|].
  destruct (String.eqb_spec s "svg") as [->|_]; [now right; right; left|].
  destruct (String.eqb_spec s "pdf") as [->|_]; [now right; right; right|].
  now left.
Qed.

Lemma truthy_get_object config key :
  Js.truthy (Js.get config key) = true ->
  exists props, config = Js.object props.
Proof.
  destruct config as [| |b|q| |s|props]; try discriminate. now exists props.
Qed.

(** The four ways [processConfig] can end. *)
Lemma processConfig_cases request :
  (exists config,
     request = Get config /\ Js.truthy config = false
     /\ exists answer,
          processConfig request = (Some answer, false)
          /\ statusCode answer = 400)
  \/ (exists chunks ended,
        request = Post chunks ended /\ tooLarge chunks = true
        /\ exists answer,
             processConfig request = (Some answer, ended)
             /\ statusCode answer = 400)
  \/ (processConfig request = (None, true)
      /\ (forall config, request = Get config -> Js.truthy config = true)
      /\ (forall chunks ended,
            request = Post chunks ended ->
            tooLarge chunks = false /\ ended = true))
  \/ (exists chunks,
        request = Post chunks false /\ tooLarge chunks = false
        /\ processConfig request = (None, false)).
Proof.
  destruct request as [query|chunks ended]; cbn [processConfig].
  - destruct (Js.truthy query) eqn:Hquery; cbn [negb].
    + right. right. left. split; [reflexivity|]. split.
      * intros config [= <-]. exact Hquery.
      * intros chunks ended Habs. discriminate Habs.
    + left. exists query. split; [reflexivity|]. split; [exact Hquery|].
      eexists. split; reflexivity.
  - destruct (tooLarge chunks) eqn:Hlarge.
    + right. left. exists chunks, ended. split; [reflexivity|].
      split; [exact Hlarge|]. eexists. split; reflexivity.
    + destruct ended.
      * right. right. left. split; [reflexivity|]. split.
        -- intros config Habs. discriminate Habs.
        -- intros chunks' ended' [= <- <-]. now split.
      * right. right. right. exists chunks. now repeat split.
Qed.

(** Once the configuration is handed over, the handler answers 400
    exactly when it is not JSON or has no option. *)
Lemma handed_over_refused request parsed setup encode :
  processConfig request = (None, true) ->
  (exists answer,
     syncHandler request parsed setup encode = Some answer
     /\ statusCode answer = 400)
  <-> parsed = None
      \/ exists config,
           parsed = Some config
           /\ (Js.truthy config = false
               \/ Js.truthy (Js.get config "option") = false).
Proof.
  intros Hhanded. unfold syncHandler. rewrite Hhanded. split.
  - intros (answer & Hanswer & Hstatus).
    injection Hanswer as Hanswer. rewrite <- Hanswer in Hstatus. clear Hanswer.
    destruct parsed as [config|]; [|now left].
    right. exists config. split; [reflexivity|].
    destruct (Js.truthy config); [|now left].
    destruct (Js.truthy (Js.get config "option")); [|now right].
    cbn [negb orb] in Hstatus.
    repeat match type of Hstatus with
           | statusCode (if ?b then _ else _) = _ => destruct b
           | statusCode (match ?o with Returned _ => _ | Thrown _ => _ end) = _ =>
               destruct o
           end;
      discriminate Hstatus.
  - intros [->|(config & -> & [H|H])]; eexists;
      (split; [reflexivity|]); [reflexivity| |]; rewrite H; [reflexivity|].
    now rewrite orb_true_r.
Qed.

(** X27.  The synchronous route answers 400 exactly when a GET has no
    configuration, when the body of a POST grows beyond 1000000
    characters, or when the configuration it was handed is not JSON or
    has no option; it gives no answer exactly when the end of a body that
    stayed within the bound never reaches it.  Once it has the
    configuration it never refuses an image type: a type that is not
    exactly png, jpeg, svg or pdf (jpg, say, or a name in capitals) is
    replaced by png.  When the option has a series or a dataset, base64
    is not asked for and the canvas does not throw, the answer is 200 with
    the image: JPEG for jpeg, SVG for svg and PNG for png and pdf; a
    download is named [chart.] followed by the type, so that a pdf
    download is a PNG image named chart.pdf. *)
Theorem legacy_route_falls_back_to_png :
  forall (request : Request) (parsed : option Js.value)
         (setup encode : option string),
    ((exists answer,
        syncHandler request parsed setup encode = Some answer
        /\ statusCode answer = 400)
     <-> (exists config, request = Get config /\ Js.truthy config = false)
         \/ (exists chunks ended,
               request = Post chunks ended /\ tooLarge chunks = true)
         \/ (processConfig request = (None, true)
             /\ (parsed = None
                 \/ exists config,
                      parsed = Some config
                      /\ (Js.truthy config = false
                          \/ Js.truthy (Js.get config "option") = false))))
    /\ (syncHandler request parsed setup encode = None
        <-> exists chunks,
              request = Post chunks false /\ tooLarge chunks = false)
    /\ (forall config,
          processConfig request = (None, true) ->
          parsed = Some config ->
          ImageGenerator.validateChartOption (Js.get config "option") = true ->
          Js.get config "base64" <> Js.boolean true ->
          In (typeName config) ["png"; "jpeg"; "svg"; "pdf"]
          /\ syncHandler request parsed None None
             = Some
                 (mkResponse 200
                    (Some (if typeName config =? "jpeg" then "image/jpeg"
                           else if typeName config =? "svg" then "image/svg+xml"
                           else "image/png"))
                    (match Js.get config "download" with
                     | Js.boolean true =>
                         Some ("attachment; filename="
                               ++ quoted ("chart." ++ typeName config))
                     | _ => None
                     end)
                    Buffer)).
Proof.
  intros request parsed setup encode.
  destruct (processConfig_cases request)
    as [(query & -> & Hquery & answer & Hanswer & Hstatus)
       |[(chunks & ended & -> & Hlarge & answer & Hanswer & Hstatus)
        |[(Hhanded & Hget & Hpost)
         |(chunks & -> & Hlarge & Hsilent)]]];
    (split; [|split]).
  - unfold syncHandler. rewrite Hanswer. split.
    + intros _. left. now exists query.
    + intros _. now exists answer.
  - unfold syncHandler. rewrite Hanswer. split; [discriminate|].
    intros (chunks & Habs & _). discriminate Habs.
  - intros config Habs. rewrite Hanswer in Habs. discriminate Habs.
  - unfold syncHandler. rewrite Hanswer. split.
    + intros _. right. left. now exists chunks, ended.
    + intros _. now exists answer.
  - unfold syncHandler. rewrite Hanswer. split; [discriminate|].
    intros (chunks' & Heq & Habs). injection Heq as Heq _. congruence.
  - intros config Habs. rewrite Hanswer in Habs. discriminate Habs.
  - rewrite (handed_over_refused request parsed setup encode Hhanded). split.
    + intros H. right. right. now split.
    + intros [(query & -> & Hquery)|[(chunks & ended & -> & Hlarge)|[_ H]]];
        [|exfalso|exact H].
      * specialize (Hget query eq_refl). congruence.
      * destruct (Hpost chunks ended eq_refl) as [Hsmall _]. congruence.
  - unfold syncHandler. rewrite Hhanded. split; [discriminate|].
    intros (chunks & -> & Hlarge).
    destruct (Hpost chunks false eq_refl) as [_ Habs]. discriminate Habs.
  - intros config _ -> Hoption Hbase64.
    assert (Js.truthy (Js.get config "option") = true) as Htruthy.
    { unfold ImageGenerator.validateChartOption in Hoption.
      destruct (Js.truthy (Js.get config "option")); [reflexivity|].
      discriminate Hoption. }
    destruct (truthy_get_object config "option" Htruthy) as (props & ->).
    unfold syncHandler. rewrite Hhanded.
    cbn [Js.truthy negb orb]. rewrite Htruthy.
    cbn [negb].
    assert (Js.get (withDefaults (Js.object props)) "base64" = Js.boolean false)
      as ->.
    { unfold withDefaults.
      cbn [Js.get Js.lookup String.eqb Ascii.eqb Bool.eqb] in *.
      destruct (Js.lookup "base64" props) as [| |[|]|q| |s|ps];
        try reflexivity. now contradiction Hbase64. }
    assert (Js.get (withDefaults (Js.object props)) "download"
            = Js.boolean (match Js.get (Js.object props) "download" with
                          | Js.boolean true => true
                          | _ => false
                          end)) as Hdownload by reflexivity.
    assert (Js.get (withDefaults (Js.object props)) "option"
            = Js.get (Js.object props) "option") as Hopt by reflexivity.
    assert (Js.get (withDefaults (Js.object props)) "type"
            = typeOf (Js.object props)) as Htype by reflexivity.
    unfold ImageGenerator.generateImage.
    rewrite Hopt, Hoption, Htype, Hdownload. unfold typeName.
    destruct (typeOf_cases (Js.object props)) as [-> | [-> | [-> | ->]]];
      cbn; (split; [tauto|]);
      destruct (Js.lookup "download" props) as [| |[|]|q| |s|ps];
      reflexivity.
  - unfold syncHandler. rewrite Hsilent. split.
    + intros (answer & Habs & _). discriminate Habs.
    + intros [(query & Habs & _)|[(chunks' & ended & Heq & Habs)|[Habs _]]];
        [discriminate Habs|injection Heq as Heq _; congruence|].
      congruence.
  - unfold syncHandler. rewrite Hsilent. split; [|reflexivity].
    intros _. now exists chunks.
  - intros config Habs. rewrite Hsilent in Habs. discriminate Habs.
Qed.

End LegacyRoute.

Section Configuration.

Import ConfigManager.
Local Open Scope string_scope.

Lemma numberOr_nonzero v fallback : fallback <> 0%Z -> numberOr v fallback <> 0%Z.
Proof.
  intros Hf. unfold numberOr. destruct v as [n|]; [|exact Hf].
  destruct (Z.eqb_spec n 0); assumption.
Qed.

Lemma endsWith_app s c : endsWith c (s ++ String c EmptyString) = true.
Proof.
  induction s as [|a s IH]; cbn [append endsWith].
  - apply Ascii.eqb_refl.
  - destruct (s ++ String c EmptyString) eqn:E; [|exact IH].
    destruct s; discriminate E.
Qed.

Lemma validateConfig_fields c :
  let c' := fst (validateConfig c) in
  port c' = port c /\ maxConcurrent c' = maxConcurrent c
  /\ taskTimeout c' = taskTimeout c /\ retryAttempts c' = retryAttempts c
  /\ taskRetentionDays c' = taskRetentionDays c /\ region c' = region c
  /\ accessKeyId c' = accessKeyId c /\ accessKeySecret c' = accessKeySecret c
  /\ bucket c' = bucket c
  /\ pathPrefix c'
     = if negb (pathPrefix c =? "") && negb (endsWith "/" (pathPrefix c))
       then pathPrefix c ++ "/" else pathPrefix c.
Proof.
  unfold validateConfig. cbn [fst].
  destruct (negb (pathPrefix c =? "") && negb (endsWith "/" (pathPrefix c)));
    repeat split; reflexivity.
Qed.

Lemma new_accepted env config :
  ConfigManager.new env = Returned config ->
  config = fst (validateConfig (loadConfig env))
  /\ errors (loadConfig env) = [].
Proof.
  unfold ConfigManager.new.
  destruct (validateConfig (loadConfig env)) as [c outcome] eqn:E.
  destruct outcome as [u|message]; intros [= <-].
  split; [reflexivity|].
  unfold validateConfig in E. injection E as _ E.
  destruct (errors (loadConfig env)); [reflexivity|discriminate E].
Qed.

(** X28.  A configuration that the [ConfigManager] constructor accepts
    is in range: the port is a number in 1-65535, [maxConcurrent] in
    1-100, [taskTimeout] in 30-3600, the retention in 1-365, the region
    begins with [oss-], the path prefix ends with a slash (one is
    appended when it is missing), and the three storage credentials are
    all set or all unset.  [retryAttempts] is in 1-10: the validation
    admits 0, but [parseInt(...) || 3] turns a configured 0 into 3.  The
    queue built from these options therefore has a positive
    [maxConcurrent] and a positive [retryAttempts]. *)
Theorem accepted_configuration_is_in_range :
  forall (env : Env) (config : Config),
    ConfigManager.new env = Returned config ->
    (exists p, port config = Some p /\ (1 <= p)%Q /\ (p <= 65535)%Q)
    /\ (1 <= maxConcurrent config <= 100)%Z
    /\ (30 <= taskTimeout config <= 3600)%Z
    /\ (1 <= retryAttempts config <= 10)%Z
    /\ (1 <= taskRetentionDays config <= 365)%Z
    /\ String.prefix "oss-" (region config) = true
    /\ endsWith "/" (pathPrefix config) = true
    /\ (isOSSConfigured config = true
        \/ (set (accessKeyId config) = false
            /\ set (accessKeySecret config) = false
            /\ set (bucket config) = false))
    /\ (QUEUE_RETRY_ATTEMPTS env = Some 0%Z -> retryAttempts config = 3%Z)
    /\ TaskQueue.options (TaskQueue.new (queueOptions config))
       = TaskQueue.mkOptions (maxConcurrent config) (taskTimeout config)
                             (retryAttempts config).
Proof.
  intros env config Hnew.
  destruct (new_accepted env config Hnew) as [Hconfig Herrors].
  set (loaded := loadConfig env) in *.
  destruct (validateConfig_fields loaded)
    as (Hport & Hmax & Htime & Hretries & Hdays & Hregion & Hid & Hsecret
        & Hbucket & Hpath).
  cbn zeta in *. rewrite <- Hconfig in *. clear Hconfig.
  rewrite Hport, Hmax, Htime, Hretries, Hdays, Hregion, Hpath.
  unfold errors in Herrors.
  repeat match type of Herrors with
         | (_ ++ _)%list = [] =>
             apply app_eq_nil in Herrors;
             let H := fresh "E" in destruct Herrors as [H Herrors]
         end.
  unfold isOSSConfigured. rewrite Hid, Hsecret, Hbucket.
  assert (pathPrefix loaded <> "") as Hprefix.
  { subst loaded. unfold loadConfig, stringOr. cbn [pathPrefix].
    destruct (OSS_PATH_PREFIX env) as [s|]; [|discriminate].
    destruct (String.eqb_spec s ""); [discriminate|assumption]. }
  split.
  { destruct (port loaded) as [p|]; [|discriminate E].
    exists p. split; [reflexivity|].
    destruct (Qlt_bool p 1) eqn:Hlow; [discriminate E|].
    destruct (Qlt_bool 65535 p) eqn:Hhigh; [discriminate E|].
    unfold Qlt_bool in Hlow, Hhigh.
    apply negb_false_iff in Hlow, Hhigh.
    split; now apply Qle_bool_iff. }
  assert (forall low high n message,
            (if outside low high n then [message] else []) = @nil string ->
            (low <= n <= high)%Z) as Hrange.
  { intros low high n message H. unfold outside in H.
    destruct (Z.ltb_spec n low); [discriminate H|].
    destruct (Z.gtb_spec n high); [discriminate H|]. lia. }
  apply Hrange in E0, E1, E2, E3.
  assert (retryAttempts loaded <> 0%Z) as Hretry
      by (subst loaded; apply numberOr_nonzero; discriminate).
  split; [exact E0|]. split; [exact E1|]. split; [lia|]. split; [exact E3|].
  split.
  { assert (region loaded <> "") as Hregion'.
    { subst loaded. unfold loadConfig, stringOr. cbn [region].
      destruct (OSS_REGION env) as [s|]; [|discriminate].
      destruct (String.eqb_spec s ""); [discriminate|assumption]. }
    destruct (String.eqb_spec (region loaded) ""); [contradiction|].
    cbn [negb andb] in Herrors.
    destruct (String.prefix "oss-" (region loaded));
      [reflexivity|discriminate Herrors]. }
  split.
  { destruct (String.eqb_spec (pathPrefix loaded) ""); [contradiction|].
    cbn [negb andb].
    destruct (endsWith "/" (pathPrefix loaded)) eqn:Hends; cbn [negb].
    - exact Hends.
    - apply endsWith_app. }
  split.
  { destruct (set (accessKeyId loaded)), (set (accessKeySecret loaded)),
      (set (bucket loaded)); cbn in E4; try discriminate E4;
      [now left|now right]. }
  split.
  { intros H0. subst loaded. unfold loadConfig. cbn [retryAttempts].
    now rewrite H0. }
  unfold queueOptions. cbn. now rewrite Hmax, Htime, Hretries.
Qed.

End Configuration.

Section ConfigurationInstances.

Local Open Scope string_scope.

Lemma legacy_route_falls_back_to_png_witness :
  SyncHandler.syncHandler (SyncHandler.Get (Js.str ManagerSample.pdfQuery))
    (Some ManagerSample.pdfDownload) None None
  = Some (SyncHandler.mkResponse 200 (Some "image/png")
            (Some ("attachment; filename=" ++ SyncHandler.quoted "chart.pdf"))
            SyncHandler.Buffer)
  /\ exists answer,
       SyncHandler.syncHandler (SyncHandler.Post [600000; 600000] true)
         (Some ManagerSample.pdfDownload) None None
       = Some answer
       /\ SyncHandler.statusCode answer = 400.
Proof.
  split.
  - destruct (legacy_route_falls_back_to_png
                (SyncHandler.Get (Js.str ManagerSample.pdfQuery))
                (Some ManagerSample.pdfDownload) None None) as (_ & _ & Hserved).
    exact (proj2 (Hserved ManagerSample.pdfDownload eq_refl eq_refl eq_refl
                    ltac:(discriminate))).
  - destruct (legacy_route_falls_back_to_png
                (SyncHandler.Post [600000; 600000] true)
                (Some ManagerSample.pdfDownload) None None) as (Hrefused & _).
    apply Hrefused. right. left. now exists [600000; 600000], true.
Defined.

Lemma accepted_configuration_is_in_range_witness :
  ConfigManager.new ManagerSample.noRetries
  = Returned (ConfigManager.loadConfig ManagerSample.noRetries)
  /\ ConfigManager.retryAttempts
       (ConfigManager.loadConfig ManagerSample.noRetries) = 3.
Proof.
  split; [reflexivity|].
  destruct (accepted_configuration_is_in_range ManagerSample.noRetries
              (ConfigManager.loadConfig ManagerSample.noRetries) eq_refl)
    as (_ & _ & _ & _ & _ & _ & _ & _ & Hzero & _).
  exact (Hzero eq_refl).
Defined.

End ConfigurationInstances.
